(* ===== verification/_CoqProject ===== *)
-Q . S2P
Prelude.v
GoStrings.v
GoFlag.v
NetAddr.v
NetParse.v
NetIPUtil.v
Sha1.v
Netlink.v
SimKernel.v
Routing.v
Tunnel.v
FouTunnel.v
NatClient.v
NatGateway.v
Mocks.v
PodWatcher.v
WatcherLive.v
WatcherServe.v
CniPlugin.v
EgressAPI.v
GoHeap.v
DeepCopy.v
Ponad.v
CniChain.v
ClientPath.v
EgressController.v
EgressCluster.v
EgressFaults.v
EgressQueue.v
Installer.v
System.v
Restart.v
ReturnPath.v
Mains.v
TwoEnds.v
