(* ===== verification/Prelude.v ===== *)
(** * Pona: a verification of its egress NAT

    Pona gives selected pods of a Kubernetes cluster a way out through NAT
    gateways.  An [Egress] resource describes a gateway; the egress controller
    turns it into a deployment of egress pods and a service.  A client pod
    names the egresses it uses in annotations.  When the pod is created, the
    CNI plugin calls the node daemon ponad, which builds a Foo-over-UDP tunnel
    from the pod to the egress's service address and routes the egress's
    destinations into it.  In the egress pod, a pod watcher builds the other
    end of the tunnel for every client, and the NAT gateway routes replies
    back into it.

    This development translates that program, function by function, and
    proves what makes its parts correct, alone and together.

    ** Files, in dependency order

    - [Prelude]: Go's errors and fallible calls ([result] and the
      state-and-error monad [M]), loops with early return, Hoare triples, the
      hint database [go], and generic lemmas.
    - [GoStrings], [GoFlag], [NetAddr], [NetParse], [Sha1]: the parts of Go's
      standard library the sources call ([strings], [path/filepath], [fmt],
      [flag] with [strconv], [net/netip], [net], [crypto/sha1]), executable.
    - [NetIPUtil]: pkg/util/netiputil/netiputil.go, all functions.
    - [Netlink]: the calls the program makes on a network namespace, as a type
      class over an abstract state [K], and their documented behaviour as the
      class [NetlinkLaws].  [SimKernel]: a concrete namespace with those laws.
    - [Routing]: what Linux does with rules and routes, as a specification:
      which route a packet takes.  Two files state with it where packets go:
      [ClientPath] for a client pod, [ReturnPath] for an egress pod.
    - [Tunnel]: the Go interfaces tunnel.Controller and nat.Gateway as type
      classes [Tunnel] and [Gateway], with the laws their client relies on,
      and [ServingLaws] for the two in one namespace.
    - [FouTunnel]: pkg/tunnel/fou/fou.go, all functions; an instance of
      [Tunnel] with its laws.
    - [NatClient]: pkg/nat/client.go, all functions.
    - [NatGateway]: pkg/nat/gateway.go, all functions; an instance of
      [Gateway] with its laws.
    - [Mocks]: pkg/tunnel/mock/mock.go and pkg/nat/mock/mock.go, the in-memory
      instances of both interfaces (modules [MockTunnel] and [MockNat]).
    - [PodWatcher]: internal/controller/pod_watcher.go.  [WatcherState] is the
      two maps of the Go struct and the world behind the interfaces.
      [WatcherLive]: what the watcher recovers from, and what it does not.
      [WatcherServe]: its tracked addresses stay clients of the gateway.
    - [CniPlugin]: cmd/pona/main.go and rpc.go, pkg/cni/cni.go, and the error
      constructors of internal/ponad/server.go.
    - [EgressAPI]: api/v1beta1/egress_types.go.
    - [GoHeap]: Go's memory of typed cells, and the contract of a deep copy.
      [DeepCopy]: api/v1beta1/zz_generated.deepcopy.go, all functions.
    - [Ponad]: internal/ponad/server.go, the handlers [Add], [Del] and
      [Check_] with all they call.
    - [CniChain]: the stubs of pkg/cnirpc/cni_grpc.pb.go, and plugin, RPC and
      ponad put together.  [ClientPath]: where the packets of the pod go then.
    - [EgressController]: internal/controller/egress_controller.go,
      [EgressReconcile] with all it calls.  [EgressCluster]: the API server as
      a store of objects, with laws, defaulting, validation ([Admission]) and
      a concrete instance, and the contract [realised] between an egress and
      the objects of the store.
      [EgressFaults]: a server that may lose, refuse or fail to answer any
      call, and how far a reconciliation gets against it.
      [EgressQueue]: the work queue that calls [EgressReconcile], as a relation
      on the keys it holds and the store, and why it runs empty.
    - [Installer]: cmd/pona-installer, installPona and main.
    - [System]: the set-up part of cmd/nat-gateway/main.go, the environment the
      controller gives to an egress pod, and the running egress pod.
      [Restart]: what a container finds that is started again in its pod.
      [ReturnPath]: the invariant of its routing, and the way back to clients.
    - [Mains]: the main functions of cmd/egress-controller, cmd/nat-gateway and
      cmd/ponad from the command line to the start of the manager, and the
      SetupWithManager methods.
    - [TwoEnds]: the store, a client pod and an egress pod together.

    ** How the code is read

    A function that may fail returns [result A]; one that also changes a state
    takes it and returns it beside the result, changed as far as the code got
    before it failed.  Integers have the width of the code where it matters:
    ports are cut to 16 bits in [FouTunnel.uint16], flags to 32 bits in
    [System.int32], addresses are 32- or 128-bit numbers, SHA-1 works on 32-bit
    words.  Loops are over lists and end; there is no fuel in pona's own code.
    Go's maps are [gmap]s, and where the code ranges over one the order of the
    visit is a parameter of which the theorems assume only that it is a
    permutation.  The handlers of the pod watcher hold its mutex from beginning
    to end, so runs of the controller are sequences of [Reconcile] calls.

    The API server refuses what it does not accept: objects whose name is
    taken, and those [EgressCluster.Admission] does not admit.  That a pass of
    the controller succeeds is proved for egresses whose objects are accepted
    ([EgressCluster.acceptable]).  Reads are of the store as it is; the program
    reads through the cache of controller-runtime's manager, which lags behind,
    so what is proved holds of passes that find it up to date.

    Code that is not in the repository is a parameter: the netlink, iptables
    and sysctl libraries ([Netlink]), the Kubernetes API server
    ([EgressController.API] with [EgressCluster.APILaws]; arguments of [Ponad]
    and [PodWatcher.Reconcile]) and controller-runtime ([Mains.Runtime]), the
    CNI library and JSON ([CniPlugin.CniLib]), gRPC ([CniChain.Grpc]), the deep
    copies of Kubernetes' types ([DeepCopy.K8sCopies]).  Hypotheses about them
    are named, and each theorem that has one comes with an instance at which
    it holds.

    ** What the theorems show

    - From end to end (C1, C3, C7): for an egress the controller has realised,
      a client pod that ponad has set up and an egress pod started from the
      deployment, all over IPv4, the tunnel's two ends have each other's
      addresses, and one port if the three programs' ports are one, and the
      routes of both pods lead into it; the egress pod from its
      command line to its tunnel devices, which are exactly those of the client
      pods the watcher tracks; an ADD of the container runtime through plugin,
      RPC and ponad to the client pod's namespace and back.
    - The data plane (C4, C5): after that ADD, exactly the packets the egress
      asks for enter the tunnel to it, and other packets take the route they
      took before; in the egress pod, packets for a client enter that client's
      tunnel exactly while the watcher tracks it, and other packets take the
      route they took before the start (as far as the tables that are not
      pona's give for them what they gave).
    - The controller (C2, C6, C8, C9): its work queue runs empty after finitely
      many reconciliations, whatever their order, and then every egress is
      realised; a successful reconciliation realises the egress in the store
      and touches nothing else; against a server that answers and accepts, one
      pass succeeds and the next changes nothing; after any number of passes that failed
      anywhere, the first that succeeds does as much as if it were the only one.
    - The watcher (C10 to C12, C16): its two maps stay inverse to each other also
      through failed calls, failed deletions apart; tunnels are exactly those
      of the tracked pods in states reached without errors; once tunnel and
      gateway work, one more round of calls catches up with the cluster.  This
      is proved against the interfaces; the real tunnels and gateway satisfy
      their laws, which are proved from those of netlink.
    - The client pod (C13, C14, C22): what ponad and the NAT client leave
      behind in the pod's namespace, rule by rule and route by route, and
      which egresses are set up.
    - Tunnels and gateway (C17 to C21): each operation changes exactly what it
      should, initialisation is idempotent, and devices of different peers do
      not collide.
    - Configuration (C23, C24): ports from the command lines to the devices
      with their widths, and the options of the metrics and webhook servers.
    - Memory, files, addresses (C15, C26, C27): copies of objects share nothing
      with the original; the installer is atomic; conversions round-trip.
    - Both ends of an annotation (C25), and limits of the code (C28 to C40):
      where the parts disagree or an error cannot be recovered from,
      stated as precisely as the rest: an annotation with several names is
      read differently by ponad and the watcher; a restarted gateway forgets
      its clients, whose tunnels then outlive them; destinations that have the
      gateway's own address send the tunnel into itself; a pod with two
      egresses cannot be created; a gateway whose set-up failed half-way cannot
      be set up again; a deletion that fails half-way, an address shared
      with a pod that loses it, a tunnel whose NAT failed, a flow-based device
      whose set-up failed, a disruption budget that is changed from a minimum
      to a maximum, a port that is not passed on, and the like.

    ** What is not modelled

    Logging and the values of metrics; what controller-runtime, gRPC and the
    CNI library do with what they are given (workers, back-off and retries,
    serving on sockets, graceful stop, signals); the descriptors and
    reflection of the protocol buffers (generated, and read only by the
    protocol buffer library); the registration of types with the scheme;
    manifests, tests and end-to-end tests.  Of the Kubernetes types the fields
    pona does not touch are kept as one opaque value, copied where the code
    copies.

    The forwarding of encapsulated packets between nodes: [Routing] says which
    device a packet leaves by, and C1, C4 and C5 which addresses and ports that
    device uses; what the network between them does is not pona's code.

    Every loop of the program is over a finite list, so its functions are total
    here, without fuel.  What need not end by itself is the controller, which
    is called again for every change it makes: that is C2.

    The timing of calls: reconciliations of one controller follow one another,
    as controller-runtime makes them do by default; the two controllers and
    ponad meet in the store and in disjoint namespaces only.  A second ADD for
    a pod whose namespace ponad has set up already is not stated by itself: it
    is a second [UpdateRoutes], which [NatClient.nat_client_UpdateRoutes_only_once] shows to fail.

    What is left of the sources are declarations without behaviour (interface
    and variable declarations, the version), the registration of types with
    the scheme in the init functions, serving and stopping in [Start] of
    internal/ponad/server.go, and the adapter for log messages beside it: calls
    of libraries with nothing of pona's own to state. *)
From stdpp Require Export base tactics option numbers sets fin_maps strings list gmap.

Create HintDb go discriminated.

Declare Scope go_scope.
Delimit Scope go_scope with go.

(** ** Errors

    A Go [error] is an interface value.  The code under verification inspects
    errors only through [errors.Is], [errors.As], a type assertion, or
    [apierrors.IsNotFound]; everything else is text.  The constructors keep
    exactly what those inspections can see. *)

(** A detail message attached to a gRPC status. *)
Inductive StatusDetail :=
| DetailCNIError (code : Z) (msg details : string)
| DetailOther (typeURL : string).

Inductive goerror :=
| ErrVar (var msg : string)                     (* a package variable made by errors.New *)
| ErrText (msg : string)                        (* errors.New, or fmt.Errorf without a wrapped error *)
| ErrWrap (pre : string) (inner : goerror) (post : string) (* fmt.Errorf with one wrapped error *)
| ErrLinkNotFound (msg : string)                (* netlink.LinkNotFoundError *)
| ErrAPINotFound (msg : string)                 (* a Kubernetes NotFound status error *)
| ErrLib (lib msg : string)                     (* any other error value of a library *)
| ErrStatus (code : Z) (msg : string) (details : list StatusDetail) (* a gRPC status error *)
| ErrCNI (code : Z) (msg details : string).     (* a CNI types.Error *)

#[export] Instance StatusDetail_eq_dec : EqDecision StatusDetail.
Proof. solve_decision. Defined.

#[export] Instance goerror_eq_dec : EqDecision goerror.
Proof.
  intros x y. unfold Decision. revert y.
  induction x; intros []; try (right; discriminate); try solve_decision.
Defined.

(** [fmt.Errorf] with the verb for a wrapped error at the end of the format. *)
Definition Errorf (pre : string) (e : goerror) : goerror := ErrWrap pre e "".

(** [errors.Is]: the chain of wrapped errors is walked until the target. *)
Fixpoint errors_Is (e target : goerror) : bool :=
  if decide (e = target) then true
  else match e with ErrWrap _ e' _ => errors_Is e' target | _ => false end.

(** [errors.As] at type [netlink.LinkNotFoundError]. *)
Fixpoint errors_As_LinkNotFound (e : goerror) : bool :=
  match e with
  | ErrLinkNotFound _ => true
  | ErrWrap _ e' _ => errors_As_LinkNotFound e'
  | _ => false
  end.

(** The type assertion [err.(netlink.LinkNotFoundError)]: no unwrapping. *)
Definition is_LinkNotFound (e : goerror) : bool :=
  match e with ErrLinkNotFound _ => true | _ => false end.

(** [apierrors.IsNotFound]: the reason is looked up through the chain. *)
Fixpoint IsNotFound (e : goerror) : bool :=
  match e with
  | ErrAPINotFound _ => true
  | ErrWrap _ e' _ => IsNotFound e'
  | _ => false
  end.

(** ** Results and the state-and-error monad *)

Inductive result (A : Type) :=
| Ok (a : A)
| Err (e : goerror).
Arguments Ok {A} a.
Arguments Err {A} e.

#[export] Instance result_eq_dec `{EqDecision A} : EqDecision (result A).
Proof. solve_decision. Defined.

#[export] Instance result_ret : MRet result := @Ok.
#[export] Instance result_bind : MBind result := λ A B f m,
  match m with Ok a => f a | Err e => Err e end.

Definition is_ok {A} (r : result A) : bool :=
  match r with Ok _ => true | Err _ => false end.

(** A Go function with effects on a state [S] that returns [(A, error)]: the
    state it leaves is visible on the error path too. *)
Definition M (S A : Type) : Type := S → result A * S.

#[export] Instance M_ret {S} : MRet (M S) := λ A a s, (Ok a, s).
#[export] Instance M_bind {S} : MBind (M S) := λ A B f m s,
  match m s with
  | (Ok a, s') => f a s'
  | (Err e, s') => (Err e, s')
  end.

Definition throw {S A} (e : goerror) : M S A := λ s, (Err e, s).
Definition ask {S A} (f : S → result A) : M S A := λ s, (f s, s).
Definition lift {S A} (r : result A) : M S A := λ s, (r, s).

(** [if err := m; err != nil { return f(err) }]. *)
Definition wrap {S A} (f : goerror → goerror) (m : M S A) : M S A := λ s,
  match m s with
  | (Err e, s') => (Err (f e), s')
  | r => r
  end.

(** [x, err := m] with both results inspected by the code that follows. *)
Definition try {S A} (m : M S A) : M S (result A) := λ s,
  let '(r, s') := m s in (Ok r, s').

(** [for _, x := range l { if err := f(x); err != nil { return err } }]. *)
Fixpoint forM_ {S A} (l : list A) (f : A → M S unit) : M S unit :=
  match l with
  | [] => mret tt
  | x :: l' => f x;; forM_ l' f
  end.

(** The pure counterpart, for loops that collect values. *)
Fixpoint mapR {A B} (f : A → result B) (l : list A) : result (list B) :=
  match l with
  | [] => Ok []
  | x :: l' => y ← f x; ys ← mapR f l'; Ok (y :: ys)
  end.

(** ** Hoare triples over the monad

    [triple P m Q E]: from a state satisfying [P], [m] returns a value and a
    state related by [Q], or an error and a state related by [E]. *)
Definition triple {S A} (P : S → Prop) (m : M S A)
    (Q : A → S → Prop) (E : goerror → S → Prop) : Prop :=
  ∀ s, P s → match m s with (Ok a, s') => Q a s' | (Err e, s') => E e s' end.

Section triples.
Context {S : Type}.
Implicit Types P : S → Prop.
Implicit Types E : goerror → S → Prop.

Lemma triple_ret {A} P (a : A) E : triple P (mret a) (λ x s, x = a ∧ P s) E.
Proof. intros s Hs. by split. Qed.

Lemma triple_bind {A B} P (m : M S A) (f : A → M S B) R Q E :
  triple P m R E → (∀ a, triple (R a) (f a) Q E) → triple P (m ≫= f) Q E.
Proof.
  intros Hm Hf s Hs. specialize (Hm s Hs). unfold mbind, M_bind.
  destruct (m s) as [[a|e] s']; [exact (Hf a s' Hm) | exact Hm].
Qed.

Lemma triple_conseq {A} P P' (m : M S A) Q Q' E E' :
  triple P' m Q' E' → (∀ s, P s → P' s) →
  (∀ a s, Q' a s → Q a s) → (∀ e s, E' e s → E e s) → triple P m Q E.
Proof.
  intros Hm HP HQ HE s Hs. specialize (Hm s (HP s Hs)).
  destruct (m s) as [[a|e] s']; auto.
Qed.

Lemma triple_forM {A} (l : list A) (f : A → M S unit) (I : list A → S → Prop) E :
  (∀ x l', triple (I (x :: l')) (f x) (λ _, I l') E) →
  triple (I l) (forM_ l f) (λ _, I []) E.
Proof.
  intros Hf. induction l as [|x l IH]; simpl.
  - intros s Hs. exact Hs.
  - eapply triple_bind; [apply Hf|]. intros []. exact IH.
Qed.
End triples.

(** ** Frame conditions

    [preserves R m]: whatever [m] returns, an error included, the state before
    and after are related by [R]. *)
Definition preserves {S A} (R : relation S) (m : M S A) : Prop := ∀ s, R s (m s).2.

Section preserves.
Context {S : Type} (R : relation S) `{!PreOrder R}.

Lemma preserves_ret {A} (a : A) : preserves R (mret a).
Proof. intros s. simpl. reflexivity. Qed.
Lemma preserves_throw {A} e : preserves R (throw (A:=A) e).
Proof. intros s. simpl. reflexivity. Qed.
Lemma preserves_ask {A} (f : S → result A) : preserves R (ask f).
Proof. intros s. simpl. reflexivity. Qed.
Lemma preserves_lift {A} (r : result A) : preserves R (lift r).
Proof. intros s. simpl. reflexivity. Qed.
Lemma preserves_wrap {A} f (m : M S A) : preserves R m → preserves R (wrap f m).
Proof. intros Hm s. specialize (Hm s). unfold wrap. by destruct (m s) as [[?|?] ?]. Qed.
Lemma preserves_try {A} (m : M S A) : preserves R m → preserves R (try m).
Proof. intros Hm s. specialize (Hm s). unfold try. by destruct (m s). Qed.
Lemma preserves_bind {A B} (m : M S A) (f : A → M S B) :
  preserves R m → (∀ a, preserves R (f a)) → preserves R (m ≫= f).
Proof.
  intros Hm Hf s. specialize (Hm s). unfold mbind, M_bind.
  destruct (m s) as [[a|e] s']; simpl in *; [|done]. etrans; [exact Hm|apply Hf].
Qed.
Lemma preserves_forM {A} (l : list A) (f : A → M S unit) :
  (∀ a, a ∈ l → preserves R (f a)) → preserves R (forM_ l f).
Proof.
  induction l as [|x l IH]; intros Hf; simpl; [apply preserves_ret|].
  apply preserves_bind; [apply Hf; set_solver|]. intros _. apply IH. set_solver.
Qed.
End preserves.

#[export] Hint Resolve preserves_ret preserves_throw preserves_ask preserves_lift
  preserves_wrap preserves_try preserves_bind : go.

(** ** One entry more

    [l'] is [l] with [x] put in somewhere: the others keep their order. *)
Definition plus_one {A} (x : A) (l l' : list A) : Prop := ∃ l1 l2, l = l1 ++ l2 ∧ l' = l1 ++ x :: l2.

Lemma plus_one_perm {A} (x : A) l l' : plus_one x l l' → l' ≡ₚ x :: l.
Proof. intros (l1 & l2 & -> & ->). symmetry. apply Permutation_middle. Qed.

Lemma plus_one_filter {A} (P : A → Prop) `{∀ x, Decision (P x)} x l l' :
  plus_one x l l' →
  (P x → plus_one x (filter P l) (filter P l')) ∧ (¬ P x → filter P l' = filter P l).
Proof.
  intros (l1 & l2 & -> & ->). rewrite !filter_app. split; intros Hx.
  - rewrite filter_cons_True by done. by exists (filter P l1), (filter P l2).
  - by rewrite filter_cons_False.
Qed.

Lemma plus_one_mid {A} (x : A) l1 l2 : plus_one x (l1 ++ l2) (l1 ++ x :: l2).
Proof. by exists l1, l2. Qed.

Lemma plus_one_snoc {A} (x : A) l : plus_one x l (l ++ [x]).
Proof. exists l, []. by rewrite app_nil_r. Qed.

(** ** Inversion of successful runs *)

Section inversion.
Context {S : Type}.

Lemma bind_ok {A B} (m : M S A) (f : A → M S B) s b s' :
  (m ≫= f) s = (Ok b, s') ↔ ∃ a s1, m s = (Ok a, s1) ∧ f a s1 = (Ok b, s').
Proof.
  unfold mbind, M_bind. destruct (m s) as [[a|e] s1]; split.
  - eauto.
  - by intros (? & ? & [= -> ->] & ?).
  - done.
  - by intros (? & ? & ? & ?).
Qed.

Lemma bind_err {A B} (m : M S A) (f : A → M S B) s e s' :
  (m ≫= f) s = (Err e, s') ↔
  m s = (Err e, s') ∨ ∃ a s1, m s = (Ok a, s1) ∧ f a s1 = (Err e, s').
Proof.
  unfold mbind, M_bind. destruct (m s) as [[a|e'] s1]; split.
  - eauto.
  - by intros [?|(? & ? & [= -> ->] & ?)].
  - intros [= -> ->]. by left.
  - by intros [[= -> ->]|(? & ? & ? & ?)].
Qed.

Lemma wrap_ok {A} f (m : M S A) s a s' :
  wrap f m s = (Ok a, s') ↔ m s = (Ok a, s').
Proof. unfold wrap. destruct (m s) as [[?|?] ?]; split; congruence. Qed.

Lemma wrap_err {A} f (m : M S A) s e s' :
  wrap f m s = (Err e, s') ↔ ∃ e0, m s = (Err e0, s') ∧ e = f e0.
Proof.
  unfold wrap. destruct (m s) as [[?|e0] ?]; split.
  - done.
  - by intros (? & ? & ?).
  - intros [= <- <-]. by exists e0.
  - by intros (? & [= -> ->] & ->).
Qed.

Lemma ask_ok {A} (f : S → result A) s a s' :
  ask f s = (Ok a, s') ↔ f s = Ok a ∧ s' = s.
Proof. unfold ask. split; [by intros [= -> ->] | by intros [-> ->]]. Qed.

Lemma try_ok {A} (m : M S A) s r s' :
  try m s = (Ok r, s') ↔ m s = (r, s').
Proof. unfold try. destruct (m s); split; congruence. Qed.
End inversion.

(** Running one step at a time. *)
Section running.
Context {S : Type}.

Lemma run_bind_ok {A B} (m : M S A) (f : A → M S B) s a s1 :
  m s = (Ok a, s1) → (m ≫= f) s = f a s1.
Proof. intros H. unfold mbind, M_bind. by rewrite H. Qed.

Lemma run_bind_err {A B} (m : M S A) (f : A → M S B) s e s1 :
  m s = (Err e, s1) → (m ≫= f) s = (Err e, s1).
Proof. intros H. unfold mbind, M_bind. by rewrite H. Qed.

Lemma run_wrap_ok {A} f (m : M S A) s a s1 :
  m s = (Ok a, s1) → wrap f m s = (Ok a, s1).
Proof. intros H. unfold wrap. by rewrite H. Qed.

Lemma run_wrap_err {A} f (m : M S A) s e s1 :
  m s = (Err e, s1) → wrap f m s = (Err (f e), s1).
Proof. intros H. unfold wrap. by rewrite H. Qed.

Lemma forM_cons_ok {A} (x : A) l (f : A → M S unit) s s1 :
  f x s = (Ok tt, s1) → forM_ (x :: l) f s = forM_ l f s1.
Proof. intros H. simpl. unfold mbind, M_bind. by rewrite H. Qed.

Lemma forM_app {A} (l1 l2 : list A) (f : A → M S unit) s s1 :
  forM_ l1 f s = (Ok tt, s1) → forM_ (l1 ++ l2) f s = forM_ l2 f s1.
Proof.
  revert s. induction l1 as [|x l1 IH]; simpl; intros s H.
  - by injection H as ->.
  - apply bind_ok in H as ([] & s2 & Hx & H).
    rewrite (run_bind_ok _ _ _ _ _ Hx). by apply IH.
Qed.
End running.

(** Decompose a hypothesis that says a monadic program returned a value. *)
Ltac ok_inv H :=
  repeat match type of H with
  | (_ ≫= _) _ = (Ok _, _) =>
      let a := fresh "a" in let s1 := fresh "s1" in let H1 := fresh "Hr" in
      apply bind_ok in H as (a & s1 & H1 & H); ok_inv H1
  | wrap _ _ _ = (Ok _, _) => apply wrap_ok in H
  | ask _ _ = (Ok _, _) => apply ask_ok in H as [H ?]; subst
  | try _ _ = (Ok _, _) => apply (proj1 (try_ok _ _ _ _)) in H
  | throw _ _ = (Ok _, _) => by inversion H
  | mret _ _ = (Ok _, _) => unfold mret, M_ret in H; simplify_eq
  end.

(** ** Lists and maps *)

Lemma mapR_ok {A B} (f : A → result B) l ys :
  mapR f l = Ok ys ↔ Forall2 (λ x y, f x = Ok y) l ys.
Proof.
  revert ys. induction l as [|x l IH]; intros ys; simpl.
  - split; [intros [= <-]; constructor | inversion 1; done].
  - unfold mbind, result_bind. split.
    + destruct (f x) as [y|] eqn:Hx; [|done].
      destruct (mapR f l) as [ys'|]; [|done]. intros [= <-].
      constructor; [done|]. by apply IH.
    + inversion 1 as [|? y ? ys' Hx Hl]; simplify_eq. rewrite Hx.
      by apply IH in Hl as ->.
Qed.

(** A filter that keeps everything. *)
Lemma list_filter_all {A} (P : A → Prop) `{∀ x, Decision (P x)} (l : list A) :
  Forall P l → filter P l = l.
Proof. induction 1 as [|x l Hx _ IH]; [done|]. by rewrite filter_cons_True, IH. Qed.

Lemma Forall2_elem_of_l {A B} (P : A → B → Prop) l k x :
  Forall2 P l k → x ∈ l → ∃ y, y ∈ k ∧ P x y.
Proof.
  intros HF [i Hi]%list_elem_of_lookup. destruct (Forall2_lookup_l P l k i x HF Hi) as (y & Hy & HP).
  exists y. split; [|done]. by eapply list_elem_of_lookup_2.
Qed.

Lemma Forall2_elem_of_r {A B} (P : A → B → Prop) l k y :
  Forall2 P l k → y ∈ k → ∃ x, x ∈ l ∧ P x y.
Proof.
  intros HF [i Hi]%list_elem_of_lookup. destruct (Forall2_lookup_r P l k i y HF Hi) as (x & Hx & HP).
  exists x. split; [|done]. by eapply list_elem_of_lookup_2.
Qed.
