(* ===== verification/GoStrings.v ===== *)
(** * The parts of Go's [strings], [strconv] and [fmt] that the program uses

    Strings are byte strings, as in Go.  Nothing here is pona's own code: these
    are the standard-library functions its sources call. *)
From Stdlib Require Import Ascii String.
From stdpp Require Export pretty.
From S2P Require Import Prelude.

(** [strings.HasPrefix(s, p)]. *)
Definition HasPrefix (s p : string) : bool := String.prefix p s.

(** [s[n:]]; the callers only slice inside the string. *)
Fixpoint slice_from (n : nat) (s : string) : string :=
  match n, s with
  | O, _ => s
  | S n', EmptyString => EmptyString
  | S n', String _ s' => slice_from n' s'
  end.

Lemma HasPrefix_split k p : HasPrefix k p = true → k = p +:+ slice_from (String.length p) k.
Proof.
  unfold HasPrefix. revert k. induction p as [|c p IH]; intros k; [done|].
  destruct k as [|d k]; simpl; [done|]. destruct (ascii_dec c d) as [->|]; [|done].
  intros Hp. change (String d k = String d (p +:+ slice_from (String.length p) k)). by rewrite <- IH.
Qed.

Lemma HasPrefix_app p s : HasPrefix (p +:+ s) p = true ∧ slice_from (String.length p) (p +:+ s) = s.
Proof.
  unfold HasPrefix. induction p as [|c p IH]; [by destruct s|].
  change (String c p +:+ s) with (String c (p +:+ s)). simpl. by destruct (ascii_dec c c).
Qed.

(** [strings.Split(s, sep)] for a separator of one byte: never empty. *)
Fixpoint Split (s : string) (sep : ascii) : list string :=
  match s with
  | EmptyString => [EmptyString]
  | String c s' =>
      if decide (c = sep) then EmptyString :: Split s' sep
      else match Split s' sep with
           | h :: t => String c h :: t
           | [] => [String c EmptyString]
           end
  end.

(** [strings.Join], the left inverse of [Split]. *)
Fixpoint Join (l : list string) (sep : ascii) : string :=
  match l with
  | [] => EmptyString
  | [s] => s
  | s :: l' => s +:+ String sep (Join l' sep)
  end.

Definition comma : ascii := ","%char.

(** [path/filepath] on Unix: [Clean] drops empty elements and dots, and lets
    each double dot take the element before it along; [Join] cleans what it
    puts together, without the empty elements in front. *)
Definition slash : ascii := "/"%char.

Definition clean_step (rooted : bool) (out : list string) (e : string) : list string :=
  if decide (e = "" ∨ e = ".") then out
  else if decide (e = "..") then
    match out with
    | x :: out' => if decide (x = "..") then e :: out else out'
    | [] => if rooted then [] else [e]
    end
  else e :: out.

Definition filepath_Clean (path : string) : string :=
  let rooted := HasPrefix path "/" in
  let body := Join (rev (foldl (clean_step rooted) [] (Split path slash))) slash in
  if rooted then "/" +:+ body else if decide (body = "") then "." else body.

Fixpoint filepath_Join (elem : list string) : string :=
  match elem with
  | [] => ""
  | e :: rest => if decide (e = "") then filepath_Join rest else filepath_Clean (Join elem slash)
  end.

Example clean_examples :
  filepath_Clean <$> ["/opt//cni/./bin/"; "/../a"; "a/../../b"; ""; "/"; "a/.."] = ["/opt/cni/bin"; "/a"; "../b"; "."; "/"; "."] ∧
  filepath_Join <$> [["/opt/cni/bin/"; "pona"]; [""; "pona"]; ["/"; "pona"]; [""; ""]] =
    ["/opt/cni/bin/pona"; "pona"; "/pona"; ""].
Proof. split; vm_compute; reflexivity. Qed.

Lemma Split_nonempty s sep : Split s sep ≠ [].
Proof. destruct s as [|c s]; simpl; [done|]. case_decide; [done|]. by destruct (Split s sep). Qed.

Lemma Split_length s sep : 1 ≤ List.length (Split s sep).
Proof. pose proof (Split_nonempty s sep). destruct (Split s sep); simpl; [done|lia]. Qed.

Lemma Join_Split s sep : Join (Split s sep) sep = s.
Proof.
  induction s as [|c s IH]; [done|]. simpl.
  pose proof (Split_nonempty s sep) as Hne. case_decide as Hc.
  - subst c. destruct (Split s sep) as [|h t]; [done|]. simpl in *. by rewrite IH.
  - destruct (Split s sep) as [|h t]; [done|]. rewrite <- IH. by destruct t.
Qed.

Fixpoint contains_byte (c : ascii) (s : string) : bool :=
  match s with
  | EmptyString => false
  | String c' s' => bool_decide (c' = c) || contains_byte c s'
  end.

(** A string without the separator is its own only field. *)
Lemma Split_no_sep s sep : contains_byte sep s = false → Split s sep = [s].
Proof.
  induction s as [|c s IH]; simpl; [done|]. intros [Hc Hs]%orb_false_iff.
  apply bool_decide_eq_false in Hc. rewrite decide_False by done. by rewrite (IH Hs).
Qed.

Lemma Split_Forall_no_sep s sep :
  Forall (λ x, contains_byte sep x = false) (Split s sep).
Proof.
  induction s as [|c s IH]; simpl; [by repeat constructor|].
  case_decide; [by constructor|].
  destruct IH as [|h t Hh Ht]; constructor; try done; simpl;
    by rewrite bool_decide_eq_false_2.
Qed.

(** [fmt.Sprintf] with the verb [%x] on a byte slice: two lower-case digits
    per byte. *)
Definition hexdigit (d : Z) : ascii :=
  match d with
  | 0 => "0" | 1 => "1" | 2 => "2" | 3 => "3" | 4 => "4" | 5 => "5" | 6 => "6" | 7 => "7"
  | 8 => "8" | 9 => "9" | 10 => "a" | 11 => "b" | 12 => "c" | 13 => "d" | 14 => "e" | _ => "f"
  end%Z%char.

Fixpoint hex_bytes (l : list Z) : string :=
  match l with
  | [] => EmptyString
  | b :: l' => String (hexdigit (b / 16)) (String (hexdigit (b mod 16)) (hex_bytes l'))
  end.

Lemma hexdigit_inj a b : (0 ≤ a < 16)%Z → (0 ≤ b < 16)%Z → hexdigit a = hexdigit b → a = b.
Proof.
  intros Ha Hb.
  assert (a ∈ seqZ 0 16) as Ha' by (apply elem_of_seqZ; lia).
  assert (b ∈ seqZ 0 16) as Hb' by (apply elem_of_seqZ; lia).
  revert a b Ha' Hb' Ha Hb.
  assert (∀ l, Forall (λ a, Forall (λ b, hexdigit a = hexdigit b → a = b) l) l →
    ∀ a b, a ∈ l → b ∈ l → hexdigit a = hexdigit b → a = b) as Hall.
  { intros l H a b Ha Hb. rewrite Forall_forall in H. specialize (H a Ha).
    rewrite Forall_forall in H. by apply H. }
  intros a b Ha' Hb' _ _. apply (Hall (seqZ 0 16)); [|done..].
  vm_compute. repeat constructor; try done.
Qed.

Definition is_byte (b : Z) : Prop := (0 ≤ b < 256)%Z.

Lemma hex_bytes_inj l1 l2 :
  Forall is_byte l1 → Forall is_byte l2 → hex_bytes l1 = hex_bytes l2 → l1 = l2.
Proof.
  intros H1. revert l2. induction H1 as [|a l1 Ha H1 IH]; intros l2 H2 Heq.
  - by destruct l2.
  - destruct H2 as [|b l2 Hb H2]; [done|]. unfold is_byte in Ha, Hb.
    simpl in Heq. injection Heq as Hhi Hlo Heq. f_equal; [|by apply IH].
    apply hexdigit_inj in Hhi; [|split; [apply Z.div_pos; lia|apply Z.div_lt_upper_bound; lia]..].
    apply hexdigit_inj in Hlo; [|apply Z.mod_pos_bound; lia..].
    rewrite (Z.div_mod a 16), (Z.div_mod b 16) by lia. congruence.
Qed.

Lemma length_hex_bytes l : String.length (hex_bytes l) = 2 * List.length l.
Proof. induction l as [|b l IH]; simpl; [done|]. rewrite IH. lia. Qed.

(** [strconv.Itoa]. *)
Definition Itoa (n : Z) : string := pretty n.

Lemma length_append s1 s2 :
  String.length (s1 +:+ s2) = String.length s1 + String.length s2.
Proof. induction s1 as [|c s1 IH]; [done|]. unfold String.app in *. simpl. by rewrite IH. Qed.
