(* ===== verification/GoFlag.v ===== *)
(** * Go's [flag] package, and the number parsing of [strconv] behind it

    The three daemons read their configuration with [flag.Parse].  The parser
    is modelled as Go 1.23 has it, for flags of type string, bool and int; the
    texts of its error messages are not kept, since a bad command line ends
    the process with status 2 whatever the text. *)
From Stdlib Require Import Ascii String.
From S2P Require Import Prelude GoStrings.

Local Open Scope Z_scope.

(** ** strconv.ParseInt(s, 0, 64) *)

Definition byte_of (c : ascii) : Z := Z.of_N (N_of_ascii c).

(** [lower] of strconv: the bit of lower-case letters set. *)
Definition lower (c : ascii) : Z := Z.lor (byte_of c) 32.

Definition is_digit (c : ascii) : bool := (48 <=? byte_of c) && (byte_of c <=? 57).

Definition digit_val (c : ascii) : option Z :=
  if is_digit c then Some (byte_of c - 48)
  else if (97 <=? lower c) && (lower c <=? 122) then Some (lower c - 97 + 10)
  else None.

(** The loop of [ParseUint]; the flag says whether it met an underscore. *)
Fixpoint uint_loop (base maxVal : Z) (s : string) (n : Z) (underscores : bool) : option (Z * bool) :=
  match s with
  | EmptyString => Some (n, underscores)
  | String c s' =>
      if decide (c = "_"%char) then uint_loop base maxVal s' n true
      else match digit_val c with
           | None => None
           | Some d =>
               if base <=? d then None
               else let n1 := n * base + d in
                    if maxVal <? n1 then None else uint_loop base maxVal s' n1 underscores
           end
  end.

(** [underscoreOK]: [last] is what came before, a digit (or base prefix), an
    underscore, the beginning or something else. *)
Inductive lexed := LStart | LDigit | LUnder | LOther.

Fixpoint underscore_loop (hex : bool) (s : string) (last : lexed) : bool :=
  match s with
  | EmptyString => match last with LUnder => false | _ => true end
  | String c s' =>
      if is_digit c || (hex && (97 <=? lower c) && (lower c <=? 102)) then underscore_loop hex s' LDigit
      else if decide (c = "_"%char) then
        match last with LDigit => underscore_loop hex s' LUnder | _ => false end
      else match last with LUnder => false | _ => underscore_loop hex s' LOther end
  end.

Definition is_sign (c : ascii) : bool := bool_decide (c = "-"%char) || bool_decide (c = "+"%char).

Definition underscoreOK (s : string) : bool :=
  let s := match s with String c s' => if is_sign c then s' else s | _ => s end in
  match s with
  | String "0"%char (String b s') =>
      if bool_decide (lower b = 98) || bool_decide (lower b = 111) || bool_decide (lower b = 120)
      then underscore_loop (bool_decide (lower b = 120)) s' LDigit
      else underscore_loop false s LStart
  | _ => underscore_loop false s LStart
  end.

(** The base, and what is left of the text. *)
Definition base_prefix (s : string) : Z * string :=
  match s with
  | String "0"%char s1 =>
      match s1 with
      | String b (String c s') =>
          if decide (lower b = 98) then (2, String c s')
          else if decide (lower b = 111) then (8, String c s')
          else if decide (lower b = 120) then (16, String c s')
          else (8, s1)
      | _ => (8, s1)
      end
  | _ => (10, s)
  end.

Definition ParseUint (s : string) : option Z :=
  if decide (s = "") then None
  else
    let '(base, digits) := base_prefix s in
    match uint_loop base (2 ^ 64 - 1) digits 0 false with
    | Some (n, underscores) => if underscores && negb (underscoreOK s) then None else Some n
    | None => None
    end.

Definition ParseInt (s : string) : option Z :=
  let '(neg, s') := match s with
                    | String c s' => if is_sign c then (bool_decide (c = "-"%char), s') else (false, s)
                    | _ => (false, s)
                    end in
  match ParseUint s' with
  | None => None
  | Some un =>
      if negb neg && (2 ^ 63 <=? un) then None
      else if neg && (2 ^ 63 <? un) then None
      else Some (if neg then - un else un)
  end.

Example parse_int_examples :
  ParseInt "5555" = Some 5555 ∧ ParseInt "0x15B3" = Some 5555 ∧ ParseInt "5_555" = Some 5555 ∧
  ParseInt "010" = Some 8 ∧ ParseInt "-1" = Some (-1) ∧ ParseInt "0" = Some 0 ∧ ParseInt "" = None ∧
  ParseInt "55__55" = None ∧ ParseInt "_1" = None ∧ ParseInt "5 " = None ∧ ParseInt "08" = None ∧
  ParseInt "9223372036854775808" = None ∧ ParseInt "-9223372036854775808" = Some (- 2 ^ 63).
Proof. vm_compute. split_and!; reflexivity. Qed.

(** [strconv.ParseBool]. *)
Definition ParseBool (s : string) : option bool :=
  if decide (s ∈ ["1"; "t"; "T"; "true"; "TRUE"; "True"]) then Some true
  else if decide (s ∈ ["0"; "f"; "F"; "false"; "FALSE"; "False"]) then Some false
  else None.

(** ** Flags *)

(** A flag's value, of the type it was declared with. *)
Inductive FlagValue := FString (s : string) | FBool (b : bool) | FInt (n : Z).

#[export] Instance FlagValue_eq_dec : EqDecision FlagValue.
Proof. solve_decision. Defined.

Abbreviation FlagSet := (gmap string FlagValue).

Definition flag_Set (v : FlagValue) (s : string) : option FlagValue :=
  match v with
  | FString _ => Some (FString s)
  | FBool _ => FBool <$> ParseBool s
  | FInt _ => FInt <$> ParseInt s
  end.

Inductive flag_outcome := Parsed (fs : FlagSet) | ErrHelp | BadFlag.

(** The name of a flag up to the equals sign, and the value after it. *)
Fixpoint cut_equals (s : string) : string * option string :=
  match s with
  | EmptyString => (EmptyString, None)
  | String c s' =>
      if decide (c = "="%char) then (EmptyString, Some s')
      else let '(n, v) := cut_equals s' in (String c n, v)
  end.

(** The name and value of an argument that is a flag: [None] when it is not
    one and parsing stops, [Some None] when it is malformed. *)
Definition flag_arg (s : string) : option (option (string * option string)) :=
  let named (name : string) :=
    match name with
    | EmptyString => Some None
    | String c name' =>
        if decide (c = "-"%char ∨ c = "="%char) then Some None
        else let '(n, v) := cut_equals name' in Some (Some (String c n, v))
    end in
  match s with
  | String "-"%char (String "-"%char EmptyString) => None
  | String "-"%char (String "-"%char name) => named name
  | String "-"%char (String c name) => named (String c name)
  | _ => None
  end.

(** [FlagSet.Parse]: one argument, or two for a flag whose value is the next. *)
Fixpoint parse_flags (fs : FlagSet) (args : list string) : flag_outcome :=
  match args with
  | [] => Parsed fs
  | s :: rest =>
      match flag_arg s with
      | None => Parsed fs
      | Some None => BadFlag
      | Some (Some (name, value)) =>
          match fs !! name with
          | None => if decide (name = "help" ∨ name = "h") then ErrHelp else BadFlag
          | Some v =>
              let set (x : string) (k : FlagSet → flag_outcome) :=
                match flag_Set v x with Some v' => k (<[name := v']> fs) | None => BadFlag end in
              match v, value with
              | FBool _, None => set "true" (λ fs, parse_flags fs rest)
              | _, Some x => set x (λ fs, parse_flags fs rest)
              | _, None =>
                  match rest with
                  | [] => BadFlag
                  | x :: rest' => set x (λ fs, parse_flags fs rest')
                  end
              end
          end
      end
  end.

(** [flag.Parse] with [ExitOnError]: the flags, or the status of the exit. *)
Definition flag_Parse (fs : FlagSet) (args : list string) : FlagSet + Z :=
  match parse_flags fs args with
  | Parsed fs' => inl fs'
  | ErrHelp => inr 0
  | BadFlag => inr 2
  end.

(** The variables the flags are bound to. *)
Definition string_var (fs : FlagSet) (name : string) : string :=
  match fs !! name with Some (FString s) => s | _ => "" end.
Definition bool_var (fs : FlagSet) (name : string) : bool :=
  match fs !! name with Some (FBool b) => b | _ => false end.
Definition int_var (fs : FlagSet) (name : string) : Z :=
  match fs !! name with Some (FInt n) => n | _ => 0 end.

(** ** Facts about numbers *)

Lemma uint_loop_bounds base maxVal s n us m us' :
  0 ≤ base → 0 ≤ n ≤ maxVal → uint_loop base maxVal s n us = Some (m, us') → 0 ≤ m ≤ maxVal.
Proof.
  intros Hb. revert n us. induction s as [|c s IH]; intros n us Hn Hr; simpl in Hr; [by simplify_eq|].
  case_decide; [by eapply IH|]. destruct (digit_val c) as [d|] eqn:Hd; [|done].
  destruct (base <=? d); [done|]. destruct (maxVal <? n * base + d) eqn:Hm; [done|].
  eapply IH; [|exact Hr]. apply Z.ltb_ge in Hm. split; [|done].
  assert (0 ≤ d); [|nia]. unfold digit_val, is_digit in Hd.
  repeat case_match; simplify_eq; rewrite ?andb_true_iff, ?Z.leb_le in *; lia.
Qed.

Lemma ParseUint_bounds s n : ParseUint s = Some n → 0 ≤ n ≤ 2 ^ 64 - 1.
Proof.
  unfold ParseUint. case_decide; [done|]. destruct (base_prefix s) as [base digits] eqn:Hb.
  destruct (uint_loop base (2 ^ 64 - 1) digits 0 false) as [[m us]|] eqn:Hl; [|done].
  assert (0 ≤ base) as Hbase by (unfold base_prefix in Hb; repeat case_match; simplify_eq; lia).
  apply uint_loop_bounds in Hl; [|lia..]. case_match; [done|]. by intros [= <-].
Qed.

Definition int64_range (n : Z) : Prop := - 2 ^ 63 ≤ n < 2 ^ 63.

Lemma ParseInt_bounds s n : ParseInt s = Some n → int64_range n.
Proof.
  unfold ParseInt, int64_range. destruct (match s with String _ _ => _ | _ => _ end) as [neg s'].
  destruct (ParseUint s') as [un|] eqn:Hu; [|done]. apply ParseUint_bounds in Hu.
  destruct neg; cbn [negb andb].
  - destruct (2 ^ 63 <? un) eqn:Hlt; [done|]. apply Z.ltb_ge in Hlt. intros [= <-]. lia.
  - destruct (2 ^ 63 <=? un) eqn:Hle; [done|]. apply Z.leb_gt in Hle. intros [= <-]. lia.
Qed.

(** ** Printed numbers parse *)

Lemma digit_char (d : N) : (d < 10)%N →
  ∃ c, pretty_N_char d = c ∧ digit_val c = Some (Z.of_N d) ∧ c ≠ "_"%char ∧ is_sign c = false ∧ (c = "0"%char ↔ d = 0%N).
Proof.
  intros Hd. assert (d ∈ (N.of_nat <$> seq 0 10)) as Hin.
  { apply list_elem_of_fmap. exists (N.to_nat d). rewrite N2Nat.id, elem_of_seq. split; [done|lia]. }
  revert d Hd Hin. assert (Forall (λ d, ∃ c, pretty_N_char d = c ∧ digit_val c = Some (Z.of_N d) ∧ c ≠ "_"%char ∧
    is_sign c = false ∧ (c = "0"%char ↔ d = 0%N)) (N.of_nat <$> seq 0 10)) as Hall.
  { cbn. repeat constructor; eexists; (split; [reflexivity|]); vm_compute; done. }
  intros d _ Hin. rewrite Forall_forall in Hall. by apply Hall.
Qed.

Lemma pretty_go_parse x s us :
  Z.of_N x ≤ 2 ^ 64 - 1 → uint_loop 10 (2 ^ 64 - 1) (pretty_N_go x s) 0 us = uint_loop 10 (2 ^ 64 - 1) s (Z.of_N x) us.
Proof.
  revert s. induction (N.lt_wf_0 x) as [x _ IH]; intros s Hx.
  destruct (decide (0 < x)%N) as [Hp|Hz]; [|by assert (x = 0%N) as -> by lia; rewrite pretty_N_go_0].
  rewrite pretty_N_go_step by done. assert (x = 10 * (x `div` 10) + x `mod` 10)%N as Hdm by (apply N.div_mod; lia).
  assert (x `mod` 10 < 10)%N as Hm by (apply N.mod_lt; lia).
  assert (x `div` 10 < x)%N as Hlt by (apply N.div_lt; lia).
  rewrite IH; [|done|lia]. destruct (digit_char _ Hm) as (c & -> & Hc & Hu & _). cbn [uint_loop].
  rewrite decide_False by done. rewrite Hc.
  assert (Z.of_N (x `div` 10) * 10 + Z.of_N (x `mod` 10) = Z.of_N x) as -> by lia.
  destruct (10 <=? Z.of_N (x `mod` 10)) eqn:H1; [apply Z.leb_le in H1; lia|].
  destruct (2 ^ 64 - 1 <? Z.of_N x) eqn:H2; [apply Z.ltb_lt in H2; lia|done].
Qed.

(** The first character of a positive number is a digit other than zero. *)
Lemma pretty_go_first x s : (0 < x)%N → ∃ c s', pretty_N_go x s = String c s' ∧ c ≠ "0"%char ∧ is_sign c = false.
Proof.
  revert s. induction (N.lt_wf_0 x) as [x _ IH]; intros s Hp. rewrite pretty_N_go_step by done.
  assert (x `mod` 10 < 10)%N as Hm by (apply N.mod_lt; lia).
  destruct (digit_char _ Hm) as (c & -> & _ & _ & Hs & H0).
  destruct (decide (0 < x `div` 10)%N) as [Hd|Hd]; [apply IH; [apply N.div_lt; lia|done]|].
  assert (x `div` 10 = 0)%N as E by (by apply N.le_0_r, N.nlt_ge). rewrite E, pretty_N_go_0. exists c, s. split_and!; [done| |done].
  intros Hc%H0. assert (x = 10 * (x `div` 10) + x `mod` 10)%N as Hdm by (apply N.div_mod; lia). lia.
Qed.

Lemma base_prefix_ten c s : c ≠ "0"%char → base_prefix (String c s) = (10, String c s).
Proof.
  intros Hc. unfold base_prefix. destruct c as [[] [] [] [] [] [] [] []]; done.
Qed.

Lemma ParseUint_pretty x : (0 < x)%N → Z.of_N x ≤ 2 ^ 64 - 1 → ParseUint (pretty_N_go x "") = Some (Z.of_N x).
Proof.
  intros Hp Hx. destruct (pretty_go_first x "" Hp) as (c & s & Hs & Hc & _). unfold ParseUint.
  rewrite decide_False by (by rewrite Hs). rewrite Hs at 1. rewrite (base_prefix_ten c s Hc), <- Hs.
  by rewrite pretty_go_parse.
Qed.

Lemma ParseInt_Itoa n : int64_range n → ParseInt (Itoa n) = Some n.
Proof.
  unfold int64_range, Itoa. intros Hn. destruct n as [|p|p]; [done|..].
  - change (pretty (Z.pos p)) with (pretty_N (N.pos p)). unfold pretty_N. rewrite decide_False by done.
    destruct (pretty_go_first (N.pos p) "") as (c & s & Hs & Hc & Hsign); [lia|]. unfold ParseInt.
    rewrite Hs. cbn iota beta. rewrite Hsign, <- Hs, ParseUint_pretty by lia. cbn [negb andb].
    destruct (2 ^ 63 <=? Z.of_N (N.pos p)) eqn:H1; [apply Z.leb_le in H1; lia|done].
  - change (pretty (Z.neg p)) with (String "-" (pretty_N (N.pos p))). unfold pretty_N. rewrite decide_False by done.
    unfold ParseInt. cbn [is_sign]. change (is_sign "-") with true. cbn iota beta.
    rewrite ParseUint_pretty by lia. change (bool_decide ("-"%char = "-"%char)) with true. cbn [negb andb].
    destruct (2 ^ 63 <? Z.of_N (N.pos p)) eqn:H1; [apply Z.ltb_lt in H1; lia|done].
Qed.

(** ** Facts about flags *)

Definition same_type (v w : FlagValue) : Prop :=
  match v, w with FString _, FString _ | FBool _, FBool _ | FInt _, FInt _ => True | _, _ => False end.

(** Setting a flag keeps its type; integers that do not fit are refused. *)
Lemma flag_Set_typed v s v' : flag_Set v s = Some v' → same_type v v' ∧ ∀ n, v' = FInt n → int64_range n.
Proof.
  destruct v as [x|b|n]; simpl.
  - by intros [= <-].
  - destruct (ParseBool s); simpl; [|done]. by intros [= <-].
  - destruct (ParseInt s) as [m|] eqn:Hm; simpl; [|done]. intros [= <-]. split; [done|]. intros k [= <-].
    by eapply ParseInt_bounds.
Qed.

(** What every setting of a flag keeps, parsing keeps. *)
Lemma parse_flags_ind (I : FlagSet → Prop) (named : string → Prop) fs args fs' :
  (∀ fs name x v v', named name → fs !! name = Some v → flag_Set v x = Some v' → I fs → I (<[name := v']> fs)) →
  (∀ s name value, s ∈ args → flag_arg s = Some (Some (name, value)) → named name) →
  I fs → parse_flags fs args = Parsed fs' → I fs'.
Proof.
  intros Hset. remember (List.length args) as k eqn:Hk. revert fs args Hk.
  induction (Nat.lt_wf_0 k) as [k _ IH]; intros fs args -> Hnm HI.
  destruct args as [|s rest]; cbn [parse_flags]; [by intros [= <-]|].
  destruct (flag_arg s) as [[[name value]|]|] eqn:Hs; [|done|by intros [= <-]].
  destruct (fs !! name) as [v|] eqn:Hn; [|by case_decide].
  assert (∀ x rest', (List.length rest' < S (List.length rest))%nat → (∀ y, y ∈ rest' → y ∈ s :: rest) →
    match flag_Set v x with Some v' => parse_flags (<[name := v']> fs) rest' | None => BadFlag end = Parsed fs' →
    I fs') as Hgo.
  { intros x rest' Hlen Hin. destruct (flag_Set v x) as [v'|] eqn:Hv; [|done].
    apply (IH (List.length rest')); [simpl; lia|done| |].
    - intros y m w Hy. by apply Hnm, Hin.
    - eapply Hset; [|done..]. by apply (Hnm s name value (list_elem_of_here _ _)). }
  destruct v, value; try (apply (Hgo _ rest); [lia|by right]);
    (destruct rest as [|x rest']; [done|]; apply (Hgo _ rest'); [simpl; lia|by do 2 right]).
Qed.

Lemma flag_Parse_int name fs args fs' n :
  fs !! name = Some (FInt n) → int64_range n → flag_Parse fs args = inl fs' →
  fs' !! name = Some (FInt (int_var fs' name)) ∧ int64_range (int_var fs' name).
Proof.
  intros Hn Hr. unfold flag_Parse. destruct (parse_flags fs args) as [fs1| |] eqn:Hp; [|done..]. intros [= <-].
  assert (∃ m, fs1 !! name = Some (FInt m) ∧ int64_range m) as (m & Hm & Hmr).
  { apply (parse_flags_ind (λ fs, ∃ m, fs !! name = Some (FInt m) ∧ int64_range m) (λ _, True)) in Hp;
      [done| |done|by exists n].
    intros fs0 x s v v' _ Hx [Ht Hi]%flag_Set_typed (m & Hm & Hmr). destruct (decide (x = name)) as [->|Hne].
    - rewrite lookup_insert_eq. assert (v = FInt m) as -> by congruence. destruct v' as [| |m']; [done..|].
      exists m'. split; [done|]. by apply Hi.
    - rewrite lookup_insert_ne by done. by exists m. }
  unfold int_var. by rewrite Hm.
Qed.

(** A string given as the next argument, an integer read back as it was printed. *)
Lemma parse_string_next fs name d s x rest :
  fs !! name = Some (FString d) → flag_arg s = Some (Some (name, None)) →
  parse_flags fs (s :: x :: rest) = parse_flags (<[name := FString x]> fs) rest.
Proof. intros Hn Hs. cbn [parse_flags]. by rewrite Hs, Hn. Qed.

Lemma parse_int_flag fs name m n s rest :
  fs !! name = Some (FInt m) → flag_arg s = Some (Some (name, Some (Itoa n))) → int64_range n →
  parse_flags fs (s :: rest) = parse_flags (<[name := FInt n]> fs) rest.
Proof. intros Hn Hs Hi. cbn [parse_flags]. rewrite Hs, Hn. cbn [flag_Set]. by rewrite ParseInt_Itoa. Qed.

(** A flag no argument names keeps its value. *)
Definition not_named (name : string) (args : list string) : Prop :=
  ∀ s v, s ∈ args → flag_arg s ≠ Some (Some (name, v)).

Lemma parse_flags_unnamed name fs args fs' :
  not_named name args → parse_flags fs args = Parsed fs' → fs' !! name = fs !! name.
Proof.
  intros Hun. apply (parse_flags_ind (λ fs', fs' !! name = fs !! name) (λ m, m ≠ name)); [| |done].
  - intros fs0 m x v v' Hm _ _ <-. by rewrite lookup_insert_ne.
  - intros s m v Hs Ha ->. by eapply Hun.
Qed.

Lemma flag_Parse_unnamed name fs args fs' :
  not_named name args → flag_Parse fs args = inl fs' → fs' !! name = fs !! name.
Proof.
  unfold flag_Parse. destruct (parse_flags fs args) eqn:Hp; [|done..]. intros Hn [= <-].
  by eapply parse_flags_unnamed.
Qed.

(** Deciding [not_named]. *)
Definition names_flag (name s : string) : bool :=
  match flag_arg s with Some (Some (n, _)) => bool_decide (n = name) | _ => false end.

Lemma not_named_dec name args : forallb (λ s, negb (names_flag name s)) args = true → not_named name args.
Proof.
  rewrite forallb_forall. intros Hf s v Hs%list_elem_of_In Ha. specialize (Hf s Hs). unfold names_flag in Hf.
  rewrite Ha, bool_decide_true in Hf by done. done.
Qed.
