(* ===== verification/NetAddr.v ===== *)
(** * Go's [net/netip] and [net] addresses

    The standard-library data the program computes with: [netip.Addr],
    [netip.Prefix], [net.IP], [net.IPMask] and [net.IPNet], with the functions
    the sources call on them, parsing and printing included.  An address is a
    32- or 128-bit number; byte slices are lists of bytes in network order. *)
From Stdlib Require Import Ascii String.
From S2P Require Import Prelude GoStrings.

Local Open Scope Z_scope.

(** ** Big-endian bytes *)

Fixpoint be_bytes (n : nat) (v : Z) : list Z :=
  match n with
  | O => []
  | S n' => be_bytes n' (v / 256) ++ [v mod 256]
  end.

Definition be_val (l : list Z) : Z := foldl (λ acc b, acc * 256 + b) 0 l.

Lemma length_be_bytes n v : List.length (be_bytes n v) = n.
Proof. revert v. induction n as [|n IH]; intros v; simpl; [done|]. rewrite length_app, IH. simpl. lia. Qed.

Lemma be_bytes_Forall n v : Forall is_byte (be_bytes n v).
Proof.
  revert v. induction n as [|n IH]; intros v; simpl; [done|].
  apply Forall_app. split; [apply IH|]. constructor; [|done].
  unfold is_byte. apply Z.mod_pos_bound. lia.
Qed.

Lemma be_val_app l b : be_val (l ++ [b]) = be_val l * 256 + b.
Proof. unfold be_val. by rewrite foldl_app. Qed.

Lemma be_val_bytes n v : 0 ≤ v < 256 ^ Z.of_nat n → be_val (be_bytes n v) = v.
Proof.
  revert v. induction n as [|n IH]; intros v Hv.
  - change (0 ≤ v < 1) in Hv. simpl. unfold be_val. simpl. lia.
  - simpl be_bytes. rewrite be_val_app, IH.
    + pose proof (Z.div_mod v 256). lia.
    + split; [apply Z.div_pos; lia|]. apply Z.div_lt_upper_bound; [lia|].
      replace (256 * 256 ^ Z.of_nat n) with (256 ^ Z.of_nat (S n)); [lia|].
      rewrite Nat2Z.inj_succ, Z.pow_succ_r by lia. done.
Qed.

Lemma be_val_bound l : Forall is_byte l → 0 ≤ be_val l < 256 ^ Z.of_nat (List.length l).
Proof.
  induction l as [|b l IH] using rev_ind; intros H.
  - unfold be_val. simpl. lia.
  - apply Forall_app in H as [Hl Hb]. inversion Hb as [|? ? Hb' _]; subst. unfold is_byte in Hb'.
    rewrite be_val_app, length_app. simpl. specialize (IH Hl).
    rewrite Nat2Z.inj_add, Z.pow_add_r by lia. change (256 ^ Z.of_nat 1) with 256. nia.
Qed.

Lemma be_bytes_val l : Forall is_byte l → be_bytes (List.length l) (be_val l) = l.
Proof.
  induction l as [|b l IH] using rev_ind; intros H; [done|].
  apply Forall_app in H as [Hl Hb]. inversion Hb as [|? ? Hb' _]; subst. unfold is_byte in Hb'.
  rewrite be_val_app, length_app, Nat.add_comm. simpl. f_equal.
  - rewrite Z.div_add_l, Z.div_small, Z.add_0_r by lia. by apply IH.
  - f_equal. rewrite Z.add_comm, Z.mod_add, Z.mod_small by lia. done.
Qed.

Lemma be_bytes_S n v : be_bytes (S n) v = be_bytes n (v / 256) ++ [v mod 256].
Proof. reflexivity. Qed.

#[global] Arguments be_bytes : simpl never.

(** ** [netip.Addr] *)

(** The zero [Addr], an IPv4 address, or an IPv6 address with its zone; [==]
    on [netip.Addr] compares all of it. *)
Inductive Addr :=
| AddrInvalid
| AddrV4 (v : Z)
| AddrV6 (v : Z) (zone : string).

#[export] Instance Addr_eq_dec : EqDecision Addr.
Proof. solve_decision. Defined.

#[export] Instance Addr_countable : Countable Addr.
Proof.
  refine (inj_countable'
    (λ a, match a with AddrInvalid => None | AddrV4 v => Some (inl v)
          | AddrV6 v z => Some (inr (v, z)) end)
    (λ x, match x with None => AddrInvalid | Some (inl v) => AddrV4 v
          | Some (inr (v, z)) => AddrV6 v z end) _).
  by intros [].
Defined.

Definition wf_addr (a : Addr) : Prop :=
  match a with
  | AddrInvalid => True
  | AddrV4 v => 0 ≤ v < 2 ^ 32
  | AddrV6 v _ => 0 ≤ v < 2 ^ 128
  end.

Definition Is4 (a : Addr) : bool := match a with AddrV4 _ => true | _ => false end.
Definition Is6 (a : Addr) : bool := match a with AddrV6 _ _ => true | _ => false end.
Definition BitLen (a : Addr) : Z := match a with AddrInvalid => 0 | AddrV4 _ => 32 | AddrV6 _ _ => 128 end.
Definition withoutZone (a : Addr) : Addr := match a with AddrV6 v _ => AddrV6 v "" | _ => a end.

(** [0xffff] in bits 32 to 47 and zeros above. *)
Definition Is4In6 (a : Addr) : bool :=
  match a with AddrV6 v _ => bool_decide (v / 2 ^ 32 = 65535) | _ => false end.

Definition Unmap (a : Addr) : Addr :=
  match a with
  | AddrV6 v _ => if Is4In6 a then AddrV4 (v mod 2 ^ 32) else a
  | _ => a
  end.

Definition AsSlice (a : Addr) : list Z :=
  match a with
  | AddrInvalid => []
  | AddrV4 v => be_bytes 4 v
  | AddrV6 v _ => be_bytes 16 v
  end.

Definition AddrFromSlice (s : list Z) : Addr * bool :=
  match List.length s with
  | 4%nat => (AddrV4 (be_val s), true)
  | 16%nat => (AddrV6 (be_val s) "", true)
  | _ => (AddrInvalid, false)
  end.

(** ** [net.IP], [net.IPMask], [net.IPNet] *)

Abbreviation IP := (list Z).
Abbreviation IPMask := (list Z).

Record IPNet := mkIPNet { ipn_IP : IP; ipn_Mask : IPMask }.

#[export] Instance IPNet_eq_dec : EqDecision IPNet.
Proof. solve_decision. Defined.

Definition v4InV6Prefix : list Z := [0;0;0;0;0;0;0;0;0;0;255;255].

(** [nil] is [None]. *)
Definition To4 (ip : IP) : option IP :=
  if decide (List.length ip = 4%nat) then Some ip
  else if decide (List.length ip = 16%nat ∧ take 12 ip = v4InV6Prefix) then Some (drop 12 ip)
  else None.

Definition To16 (ip : IP) : option IP :=
  if decide (List.length ip = 4%nat) then Some (v4InV6Prefix ++ ip)
  else if decide (List.length ip = 16%nat) then Some ip
  else None.

Definition IP_Equal (ip x : IP) : bool :=
  if decide (List.length ip = List.length x) then bool_decide (ip = x)
  else if decide (List.length ip = 4%nat ∧ List.length x = 16%nat) then
    bool_decide (take 12 x = v4InV6Prefix) && bool_decide (ip = drop 12 x)
  else if decide (List.length ip = 16%nat ∧ List.length x = 4%nat) then
    bool_decide (take 12 ip = v4InV6Prefix) && bool_decide (drop 12 ip = x)
  else false.

(** [net.CIDRMask]: [n] is the number of ones still to place. *)
Fixpoint CIDRMask_bytes (l : nat) (n : Z) : IPMask :=
  match l with
  | O => []
  | S l' =>
      if decide (8 ≤ n) then 255 :: CIDRMask_bytes l' (n - 8)
      else (255 - 255 / 2 ^ n) :: CIDRMask_bytes l' 0
  end.

Definition CIDRMask (ones bits : Z) : IPMask :=
  if decide (bits = 32 ∨ bits = 128) then
    if decide (0 ≤ ones ≤ bits) then CIDRMask_bytes (Z.to_nat (bits / 8)) ones else []
  else [].

(** The leading ones of a byte, and what is left of it shifted out. *)
Fixpoint byte_ones (fuel : nat) (v n : Z) : Z * Z :=
  match fuel with
  | O => (n, v)
  | S f => if Z.testbit v 7 then byte_ones f ((v * 2) mod 256) (n + 1) else (n, v)
  end.

(** [simpleMaskLength]: [-1] when the mask is not contiguous. *)
Fixpoint simpleMaskLength (mask : IPMask) (n : Z) : Z :=
  match mask with
  | [] => n
  | v :: mask' =>
      if decide (v = 255) then simpleMaskLength mask' (n + 8)
      else let '(n', v') := byte_ones 8 v n in
           if decide (v' ≠ 0) then -1
           else if forallb (λ b, bool_decide (b = 0)) mask' then n' else -1
  end.

Definition Mask_Size (m : IPMask) : Z * Z :=
  let ones := simpleMaskLength m 0 in
  if decide (ones = -1) then (0, 0) else (ones, Z.of_nat (List.length m) * 8).

(** ** [netip.Prefix] *)

Record Prefix := mkPrefix { p_ip : Addr; p_bitsPlusOne : Z }.

#[export] Instance Prefix_eq_dec : EqDecision Prefix.
Proof. solve_decision. Defined.

#[export] Instance Prefix_countable : Countable Prefix.
Proof.
  refine (inj_countable' (λ p, (p_ip p, p_bitsPlusOne p)) (λ x, mkPrefix x.1 x.2) _).
  by intros [].
Defined.

Definition PrefixZero : Prefix := mkPrefix AddrInvalid 0.
Definition Prefix_Bits (p : Prefix) : Z := p_bitsPlusOne p - 1.

Definition PrefixFrom (ip : Addr) (bits : Z) : Prefix :=
  mkPrefix (withoutZone ip)
    (if decide (ip ≠ AddrInvalid ∧ 0 ≤ bits ≤ BitLen ip) then bits + 1 else 0).

(** A prefix as [netip.ParsePrefix] returns it. *)
Definition wf_prefix (p : Prefix) : Prop :=
  wf_addr (p_ip p) ∧ p_ip p ≠ AddrInvalid ∧ withoutZone (p_ip p) = p_ip p ∧
  1 ≤ p_bitsPlusOne p ≤ BitLen (p_ip p) + 1.
