(* ===== verification/NetParse.v ===== *)
(** * Parsing and printing of [net/netip] and [net] values

    [netip.ParseAddr], [netip.ParsePrefix], the [String] methods and
    [net.IPNet.String] as Go 1.23 defines them.  The text of a parse error is
    not modelled: it is an opaque library error that carries the input. *)
From Stdlib Require Import Ascii String.
From S2P Require Import Prelude GoStrings NetAddr.

Local Open Scope Z_scope.

Definition code (c : ascii) : Z := Z.of_N (N_of_ascii c).

Definition digit (c : ascii) : option Z :=
  if decide (48 ≤ code c ≤ 57) then Some (code c - 48) else None.

Definition hexval (c : ascii) : option Z :=
  if decide (48 ≤ code c ≤ 57) then Some (code c - 48)
  else if decide (97 ≤ code c ≤ 102) then Some (code c - 87)
  else if decide (65 ≤ code c ≤ 70) then Some (code c - 55)
  else None.

(** [parseIPv4Fields]: [prev] is the byte before the current one. *)
Fixpoint parseIPv4Fields (s : list ascii) (prev : option ascii)
    (val digLen : Z) (fields : list Z) : option (list Z) :=
  match s with
  | [] => if decide (List.length fields < 3)%nat then None else Some (fields ++ [val])
  | c :: s' =>
      match digit c with
      | Some d =>
          if decide (digLen = 1 ∧ val = 0) then None
          else if decide (255 < val * 10 + d) then None
          else parseIPv4Fields s' (Some c) (val * 10 + d) (digLen + 1) fields
      | None =>
          if decide (c = "."%char) then
            if decide (prev = None ∨ s' = [] ∨ prev = Some "."%char) then None
            else if decide (List.length fields = 3%nat) then None
            else parseIPv4Fields s' (Some c) 0 0 (fields ++ [val])
          else None
      end
  end.

Fixpoint span_hex (s : list ascii) : list Z * list ascii :=
  match s with
  | [] => ([], [])
  | c :: s' =>
      match hexval c with
      | Some d => let '(ds, r) := span_hex s' in (d :: ds, r)
      | None => ([], s)
      end
  end.

(** The loop of [parseIPv6].  [groups] counts the 16-bit groups still free, so
    the loop index of the source is [16 - 2 * groups], and [ip] holds the bytes
    written so far.  The result is the rest of the input, the bytes and the
    position of the ellipsis. *)
Fixpoint parseIPv6_loop (groups : nat) (s : list ascii) (ip : list Z) (ellipsis : option nat)
    : option (list ascii * list Z * option nat) :=
  match groups with
  | O => Some (s, ip, ellipsis)
  | S g =>
      let '(ds, rest) := span_hex s in
      if decide (4 < List.length ds)%nat then None
      else if decide (ds = []) then None
      else if decide (head rest = Some "."%char) then
        if decide (ellipsis = None ∧ List.length ip ≠ 12%nat) then None
        else if decide (16 < List.length ip + 4)%nat then None
        else match parseIPv4Fields s None 0 0 [] with
             | None => None
             | Some f => Some ([], ip ++ f, ellipsis)
             end
      else
        let acc := foldl (λ a d, a * 16 + d) 0 ds in
        let ip' := ip ++ [acc / 256; acc mod 256] in
        match rest with
        | [] => Some ([], ip', ellipsis)
        | c :: rest' =>
            if decide (c ≠ ":"%char) then None
            else match rest' with
                 | [] => None
                 | c2 :: rest'' =>
                     if decide (c2 = ":"%char) then
                       match ellipsis with
                       | Some _ => None
                       | None =>
                           match rest'' with
                           | [] => Some ([], ip', Some (List.length ip'))
                           | _ => parseIPv6_loop g rest'' ip' (Some (List.length ip'))
                           end
                       end
                     else parseIPv6_loop g rest' ip' ellipsis
                 end
        end
  end.

Fixpoint split_zone (s : list ascii) : list ascii * option (list ascii) :=
  match s with
  | [] => ([], None)
  | c :: s' =>
      if decide (c = "%"%char) then ([], Some s')
      else let '(a, z) := split_zone s' in (c :: a, z)
  end.

(** What follows the loop: the whole input must be used, and the ellipsis
    expands to at least one group of zeros. *)
Definition parseIPv6_finish (r : list ascii * list Z * option nat) : option (list Z) :=
  let '(s, ip, ellipsis) := r in
  if decide (s ≠ []) then None
  else if decide (List.length ip < 16)%nat then
    match ellipsis with
    | None => None
    | Some e => Some (take e ip ++ replicate (16 - List.length ip) 0 ++ drop e ip)
    end
  else match ellipsis with None => Some ip | Some _ => None end.

Definition parseIPv6 (input : list ascii) : option Addr :=
  let '(s, zone) := split_zone input in
  if decide (zone = Some []) then None
  else
    let z := string_of_list_ascii (from_option id [] zone) in
    let lead := bool_decide (take 2 s = [":"%char; ":"%char]) in
    let s' := if lead then drop 2 s else s in
    if lead && bool_decide (s' = []) then Some (AddrV6 0 z)
    else r ← parseIPv6_loop 8 s' [] (if lead then Some 0%nat else None);
         ip ← parseIPv6_finish r;
         Some (AddrV6 (be_val ip) z).

(** The first of ['.'], [':'] and ['%'] decides the syntax. *)
Fixpoint addr_syntax (s : list ascii) : option ascii :=
  match s with
  | [] => None
  | c :: s' => if decide (c = "."%char ∨ c = ":"%char ∨ c = "%"%char) then Some c else addr_syntax s'
  end.

Definition parse_addr (s : list ascii) : option Addr :=
  match addr_syntax s with
  | Some "."%char => (λ f, AddrV4 (be_val f)) <$> parseIPv4Fields s None 0 0 []
  | Some ":"%char => parseIPv6 s
  | _ => None
  end.

Definition ParseAddr (s : string) : result Addr :=
  match parse_addr (list_ascii_of_string s) with
  | Some a => Ok a
  | None => Err (ErrLib "net/netip.ParseAddr" s)
  end.

(** [bytealg.LastIndexByteString(s, '/')], as the text before and after. *)
Fixpoint split_last_slash (s : list ascii) : option (list ascii * list ascii) :=
  match s with
  | [] => None
  | c :: s' =>
      match split_last_slash s' with
      | Some (a, b) => Some (c :: a, b)
      | None => if decide (c = "/"%char) then Some ([], s') else None
      end
  end.

Fixpoint parse_digits (s : list ascii) (acc : Z) : option Z :=
  match s with
  | [] => Some acc
  | c :: s' => match digit c with Some d => parse_digits s' (acc * 10 + d) | None => None end
  end.

(** The guard on the first byte and [strconv.Atoi]. *)
Definition parse_bits (s : list ascii) : option Z :=
  match s with
  | [] => None
  | c :: s' =>
      if decide (s' ≠ [] ∧ ¬ (49 ≤ code c ≤ 57)) then None else parse_digits s 0
  end.

Definition parse_prefix (s : list ascii) : option Prefix :=
  '(a, b) ← split_last_slash s;
  ip ← parse_addr a;
  if decide (withoutZone ip ≠ ip) then None
  else bits ← parse_bits b;
       let maxBits := if Is6 ip then 128 else 32 in
       if decide (maxBits < bits) then None else Some (PrefixFrom ip bits).

Definition ParsePrefix (s : string) : result Prefix :=
  match parse_prefix (list_ascii_of_string s) with
  | Some p => Ok p
  | None => Err (ErrLib "net/netip.ParsePrefix" s)
  end.

(** ** Printing *)

Fixpoint join_with (sep : string) (l : list string) : string :=
  match l with
  | [] => ""
  | [x] => x
  | x :: l' => x +:+ sep +:+ join_with sep l'
  end.

Definition string4 (v : Z) : string := join_with "." (pretty <$> be_bytes 4 v).

(** [appendHex]: no leading zeros. *)
Definition appendHex (x : Z) : string :=
  String.app (if decide (4096 ≤ x) then String (hexdigit (x / 4096)) "" else "")
  (String.app (if decide (256 ≤ x) then String (hexdigit (x / 256 mod 16)) "" else "")
  (String.app (if decide (16 ≤ x) then String (hexdigit (x / 16 mod 16)) "" else "")
  (String (hexdigit (x mod 16)) ""))).

Definition v6u16 (v : Z) (i : nat) : Z := v / 2 ^ (16 * (7 - Z.of_nat i)) mod 65536.

Fixpoint zero_run (fuel : nat) (v : Z) (j : nat) : nat :=
  match fuel with
  | O => j
  | S f => if decide (j < 8)%nat then if decide (v6u16 v j = 0) then zero_run f v (S j) else j else j
  end.

(** The longest run of at least two zero groups, the first one on ties. *)
Definition best_zeros (v : Z) : nat * nat :=
  foldl (λ '(zs, ze) i,
    let j := zero_run 8 v i in
    if decide (2 ≤ j - i ∧ ze - zs < j - i)%nat then (i, j) else (zs, ze))
    (255%nat, 255%nat) (seq 0 8).

Fixpoint print_groups (fuel : nat) (v : Z) (zs ze i : nat) : string :=
  match fuel with
  | O => ""
  | S f =>
      if decide (8 ≤ i)%nat then ""
      else if decide (i = zs) then
        if decide (8 ≤ ze)%nat then "::"
        else "::" +:+ appendHex (v6u16 v ze) +:+ print_groups f v zs ze (S ze)
      else (if decide (0 < i)%nat then ":" else "") +:+ appendHex (v6u16 v i)
           +:+ print_groups f v zs ze (S i)
  end.

Definition zone_suffix (z : string) : string := if decide (z = "") then "" else "%" +:+ z.

Definition string6 (v : Z) (z : string) : string :=
  let '(zs, ze) := best_zeros v in print_groups 8 v zs ze 0 +:+ zone_suffix z.

Definition Addr_String (a : Addr) : string :=
  match a with
  | AddrInvalid => "invalid IP"
  | AddrV4 v => string4 v
  | AddrV6 v z =>
      if Is4In6 a then "::ffff:" +:+ string4 (v mod 2 ^ 32) +:+ zone_suffix z
      else string6 v z
  end.

Definition Prefix_String (p : Prefix) : string :=
  if decide (p_bitsPlusOne p = 0) then "invalid Prefix"
  else Addr_String (p_ip p) +:+ "/" +:+ pretty (Prefix_Bits p).

(** [net.IP.String] *)
Definition IP_String (ip : IP) : string :=
  match ip with
  | [] => "<nil>"
  | _ =>
      match To4 ip with
      | Some p4 => string4 (be_val p4)
      | None => if decide (List.length ip = 16%nat) then Addr_String (AddrV6 (be_val ip) "")
                else "?" +:+ hex_bytes ip
      end
  end.

(** [net.IPNet.String] for a network whose mask has the length of its address
    and is contiguous, the only ones the program prints. *)
Definition IPNet_String (n : IPNet) : string :=
  IP_String (ipn_IP n) +:+ "/" +:+ pretty (simpleMaskLength (ipn_Mask n) 0).

Example parse_v4 : ParseAddr "10.244.0.1" = Ok (AddrV4 (be_val [10; 244; 0; 1])).
Proof. vm_compute. reflexivity. Qed.

Example parse_v6 : ParseAddr "fe80::1:2%eth0" = Ok (AddrV6 (2 ^ 128 - 2 ^ 120 * 2 + 2 ^ 119 + 65538) "eth0").
Proof. vm_compute. reflexivity. Qed.

Example parse_4in6 : Unmap <$> parse_addr (list_ascii_of_string "::ffff:1.2.3.4") = Some (AddrV4 16909060).
Proof. vm_compute. reflexivity. Qed.

Example parse_bad : forallb (λ s, negb (is_ok (ParseAddr s)))
  [""; "1.2.3"; "1.2.3.04"; "1.2.3.256"; "1..2.3"; ".1.2.3"; "1.2.3.4.5"; ":::"; "1::2::3"; "12345::";
   "1:2:3:4:5:6:7"; "1:2:3:4:5:6:7::8"; "::%"; "%eth0"; "1:2:3:4:5:6:7:8:9"; "::1.2.3"] = true.
Proof. vm_compute. reflexivity. Qed.

Example prefix_ok : ParsePrefix "172.16.0.0/12" = Ok (mkPrefix (AddrV4 2886729728) 13).
Proof. vm_compute. reflexivity. Qed.

Example prefix_bad : forallb (λ s, negb (is_ok (ParsePrefix s)))
  ["10.0.0.0"; "10.0.0.0/"; "10.0.0.0/33"; "10.0.0.0/08"; "10.0.0.0/+8"; "fe80::1%a/64"; "::/129"] = true.
Proof. vm_compute. reflexivity. Qed.

Example print_v6 : Addr_String <$> parse_addr (list_ascii_of_string "2001:db8:0:0:1:0:0:1") =
  Some "2001:db8::1:0:0:1".
Proof. vm_compute. reflexivity. Qed.

Example print_v6_zero : Addr_String (AddrV6 0 "") = "::".
Proof. vm_compute. reflexivity. Qed.

(** ** What the parsers return is well formed *)

Lemma digit_bound c d : digit c = Some d → 0 ≤ d ≤ 9.
Proof. unfold digit. case_decide; intros [= <-]; lia. Qed.

Lemma hexval_bound c d : hexval c = Some d → 0 ≤ d < 16.
Proof. unfold hexval. repeat case_decide; intros [= <-]; lia. Qed.

Lemma parseIPv4Fields_wf s prev val digLen fields f :
  parseIPv4Fields s prev val digLen fields = Some f →
  Forall is_byte fields → (List.length fields ≤ 3)%nat → is_byte val →
  Forall is_byte f ∧ List.length f = 4%nat.
Proof.
  revert prev val digLen fields. induction s as [|c s IH]; intros prev val digLen fields; simpl.
  - case_decide; [done|]. intros [= <-] Hf Hl Hv. rewrite length_app. simpl.
    split; [|lia]. apply Forall_app. split; [done|]. by apply Forall_singleton.
  - destruct (digit c) as [d|] eqn:Hd.
    + apply digit_bound in Hd. repeat case_decide; try done. intros Hrec Hf Hl Hv.
      eapply IH; try done. unfold is_byte in *. lia.
    + repeat case_decide; try done. intros Hrec Hf Hl Hv. eapply IH; try done.
      * apply Forall_app. split; [done|]. by apply Forall_singleton.
      * rewrite length_app. simpl. lia.
Qed.

Lemma span_hex_bound s ds r : span_hex s = (ds, r) → Forall (λ d, 0 ≤ d < 16) ds.
Proof.
  revert ds r. induction s as [|c s IH]; intros ds r; simpl.
  - by intros [= <- <-].
  - destruct (hexval c) eqn:Hc; [|by intros [= <- <-]].
    destruct (span_hex s) as [ds' r'] eqn:Hs. intros [= <- <-].
    constructor; [by eapply hexval_bound | by eapply IH].
Qed.

Lemma hex_acc_bound ds a k :
  Forall (λ d, 0 ≤ d < 16) ds → 0 ≤ a < k →
  0 ≤ foldl (λ a d, a * 16 + d) a ds < k * 16 ^ Z.of_nat (List.length ds).
Proof.
  revert a k. induction ds as [|d ds IH]; intros a k Hds Ha.
  - simpl. lia.
  - inversion Hds as [|? ? Hd Hds']; subst. cbn [foldl List.length].
    assert (0 ≤ a * 16 + d < k * 16) as Ha' by lia.
    specialize (IH (a * 16 + d) (k * 16) Hds' Ha').
    rewrite Nat2Z.inj_succ, Z.pow_succ_r by lia. lia.
Qed.

Lemma hex_group_bytes ds :
  Forall (λ d, 0 ≤ d < 16) ds → ¬ (4 < List.length ds)%nat →
  let acc := foldl (λ a d, a * 16 + d) 0 ds in Forall is_byte [acc / 256; acc mod 256].
Proof.
  intros Hds Hl acc. destruct (hex_acc_bound ds 0 1 Hds) as [Hlo Hhi]; [lia|].
  fold acc in Hlo, Hhi.
  assert (16 ^ Z.of_nat (List.length ds) ≤ 16 ^ 4) by (apply Z.pow_le_mono_r; lia).
  change (16 ^ 4) with 65536 in *.
  repeat constructor; try apply Z.mod_pos_bound; try lia.
  - apply Z.div_pos; lia.
  - apply Z.div_lt_upper_bound; lia.
Qed.

Lemma parseIPv6_loop_wf g s ip e s' ip' e' :
  parseIPv6_loop g s ip e = Some (s', ip', e') →
  Forall is_byte ip → (List.length ip + 2 * g = 16)%nat →
  (∀ n, e = Some n → (n ≤ List.length ip)%nat) →
  Forall is_byte ip' ∧ (List.length ip' ≤ 16)%nat ∧
  (∀ n, e' = Some n → (n ≤ List.length ip')%nat).
Proof.
  revert s ip e. induction g as [|g IH]; intros s ip e; simpl.
  - intros [= <- <- <-] ? ? ?. split_and!; [done|lia|done].
  - destruct (span_hex s) as [ds rest] eqn:Hspan. apply span_hex_bound in Hspan.
    case_decide as Hl; [done|]. case_decide; [done|].
    pose proof (hex_group_bytes ds Hspan Hl) as Hg. cbn zeta in Hg.
    set (acc := foldl _ _ _) in *. intros Hloop Hip Hlen He.
    assert (Forall is_byte (ip ++ [acc / 256; acc mod 256])) as Hip' by (by apply Forall_app).
    assert (List.length (ip ++ [acc / 256; acc mod 256]) = (List.length ip + 2)%nat) as Hlen'
      by (by rewrite length_app).
    revert Hloop. case_decide.
    { repeat case_decide; try done.
      destruct (parseIPv4Fields s None 0 0 []) as [f|] eqn:H4; [|done]. intros [= <- <- <-].
      apply parseIPv4Fields_wf in H4 as [Hf Hfl]; [|done|simpl; lia|done].
      rewrite length_app. split_and!; [by apply Forall_app|lia|].
      intros n Hn. specialize (He n Hn). lia. }
    destruct rest as [|c rest].
    { intros [= <- <- <-]. rewrite Hlen'. split_and!; [done|lia|].
      intros n Hn. specialize (He n Hn). lia. }
    case_decide; [done|]. destruct rest as [|c2 rest]; [done|]. case_decide.
    + destruct e; [done|]. destruct rest.
      * intros [= <- <- <-]. split_and!; [done|lia|]. by intros n [= <-].
      * intros Hrec. eapply IH; [exact Hrec|done|lia|]. by intros n [= <-].
    + intros H'. eapply IH; [exact H'|done|lia|]. intros n Hn. specialize (He n Hn). lia.
Qed.

Lemma parseIPv6_finish_wf s ip e f :
  parseIPv6_finish (s, ip, e) = Some f →
  Forall is_byte ip → (List.length ip ≤ 16)%nat → (∀ n, e = Some n → (n ≤ List.length ip)%nat) →
  Forall is_byte f ∧ List.length f = 16%nat.
Proof.
  simpl. case_decide; [done|]. case_decide; destruct e as [n|]; try done; intros [= <-] Hip Hl He.
  - specialize (He n eq_refl). rewrite !length_app, length_take, length_replicate, length_drop.
    split; [|lia]. apply Forall_app. split; [by apply Forall_take|].
    apply Forall_app. split; [|by apply Forall_drop]. apply Forall_replicate. done.
  - split; [done|lia].
Qed.

Lemma ParseAddr_wf s a : ParseAddr s = Ok a → wf_addr a ∧ a ≠ AddrInvalid.
Proof.
  unfold ParseAddr. destruct (parse_addr _) as [a'|] eqn:Hp; [|done]. intros [= ->].
  unfold parse_addr in Hp. destruct (addr_syntax _) as [c|]; [|done].
  assert ((λ f, AddrV4 (be_val f)) <$> parseIPv4Fields (list_ascii_of_string s) None 0 0 [] = Some a →
    wf_addr a ∧ a ≠ AddrInvalid) as H4.
  { intros (f & Hf & ->)%fmap_Some.
    apply parseIPv4Fields_wf in Hf as [Hf Hl]; [|done|simpl; lia|done].
    split; [|done]. simpl. pose proof (be_val_bound f Hf) as Hb. by rewrite Hl in Hb. }
  assert (parseIPv6 (list_ascii_of_string s) = Some a → wf_addr a ∧ a ≠ AddrInvalid) as H6.
  { unfold parseIPv6. destruct (split_zone _) as [t z]. case_decide; [done|].
    set (lead := bool_decide (take 2 t = _)). destruct (lead && _).
    { intros Heq. by simplify_eq. }
    intros ([[s' ip] e] & Hloop & Hr)%bind_Some. apply bind_Some in Hr as (f & Hfin & [= <-]).
    apply parseIPv6_loop_wf in Hloop as (Hip & Hl & He); [|done|done|].
    - apply parseIPv6_finish_wf in Hfin as [Hf Hfl]; try done. split; [|done]. simpl.
      pose proof (be_val_bound f Hf) as Hb. by rewrite Hfl in Hb.
    - destruct lead; intros n [= <-]; done. }
  destruct c as [[] [] [] [] [] [] [] []]; try done; auto.
Qed.

Lemma parse_bits_pos s n : parse_bits s = Some n → 0 ≤ n.
Proof.
  assert (∀ l acc m, parse_digits l acc = Some m → 0 ≤ acc → 0 ≤ m) as Hd.
  { induction l as [|c l IH]; simpl; intros acc m.
    - by intros [= <-].
    - destruct (digit c) as [d|] eqn:Hc; [|done]. apply digit_bound in Hc.
      intros H Hacc. eapply IH; [done|lia]. }
  unfold parse_bits. destruct s; [done|]. case_decide; [done|]. intros Hp. by eapply Hd.
Qed.

Lemma parse_addr_ParseAddr l a : parse_addr l = Some a → ParseAddr (string_of_list_ascii l) = Ok a.
Proof. intros H. unfold ParseAddr. by rewrite list_ascii_of_string_of_list_ascii, H. Qed.

Lemma ParsePrefix_wf s p : ParsePrefix s = Ok p → wf_prefix p.
Proof.
  unfold ParsePrefix. destruct (parse_prefix _) as [p'|] eqn:Hp; [|done]. intros [= ->].
  unfold parse_prefix in Hp. apply bind_Some in Hp as ([a b] & _ & Hp).
  apply bind_Some in Hp as (ip & Ha%parse_addr_ParseAddr%ParseAddr_wf & Hp).
  destruct Ha as [Hwf Hne]. case_decide as Hz; [done|].
  apply bind_Some in Hp as (bits & Hb%parse_bits_pos & Hp). case_decide; [done|].
  injection Hp as <-. unfold wf_prefix, PrefixFrom. simpl. rewrite Hz.
  assert (0 ≤ bits ≤ BitLen ip) by (destruct ip; simpl in *; [done|lia|lia]).
  rewrite decide_True by done. rewrite Hz. split_and!; try done; lia.
Qed.
