(* ===== verification/NetIPUtil.v ===== *)
(** * pkg/util/netiputil

    Conversions between [net/netip] and [net] values.  They are the glue
    between pona's own data (addresses and prefixes) and the netlink library
    (byte slices), so every round trip the other components rely on is stated
    here. *)
From Stdlib Require Import Ascii String.
From S2P Require Import Prelude GoStrings NetAddr NetParse.

Local Open Scope Z_scope.

Definition FromAddr (addr : Addr) : IP := AsSlice addr.

Definition ToAddr (ip : IP) : Addr * bool :=
  match To4 ip with
  | Some f => AddrFromSlice f
  | None =>
      match To16 ip with
      | Some f => AddrFromSlice f
      | None => (AddrInvalid, false)
      end
  end.

Definition IsFamilyMatched (a b : Addr) : bool := (Is4 a && Is4 b) || (Is6 a && Is6 b).

Definition ToIPNet (prefix : Prefix) : IPNet :=
  let ip := FromAddr (p_ip prefix) in
  mkIPNet ip (CIDRMask (Prefix_Bits prefix) (BitLen (p_ip prefix))).

Definition FromIPNet (from : IPNet) : Prefix * bool :=
  let '(ip, ok) := ToAddr (ipn_IP from) in
  if negb ok then (PrefixZero, false)
  else let '(ones, _) := Mask_Size (ipn_Mask from) in (PrefixFrom ip ones, true).

(** ** Byte-level lemmas *)

Lemma be_bytes_app n m v :
  be_bytes (n + m) v = be_bytes n (v / 256 ^ Z.of_nat m) ++ be_bytes m v.
Proof.
  revert v. induction m as [|m IH]; intros v.
  - rewrite Nat.add_0_r. simpl. by rewrite Z.div_1_r, app_nil_r.
  - rewrite Nat.add_succ_r. rewrite ?be_bytes_S. rewrite IH, app_assoc. do 3 f_equal.
    rewrite Z.div_div by lia. f_equal. rewrite Nat2Z.inj_succ, Z.pow_succ_r; lia.
Qed.

Lemma be_val_bytes_mod n v : 0 ≤ v → be_val (be_bytes n v) = v mod 256 ^ Z.of_nat n.
Proof.
  revert v. induction n as [|n IH]; intros v Hv.
  - simpl. by rewrite Z.mod_1_r.
  - rewrite ?be_bytes_S. rewrite be_val_app, IH by (apply Z.div_pos; lia).
    rewrite Nat2Z.inj_succ, Z.pow_succ_r, Z.rem_mul_r by lia. lia.
Qed.

(** The sixteen bytes of an IPv6 address start with the IPv4-in-IPv6 prefix
    exactly when [Is4In6] holds. *)
Lemma take12_v4InV6 v zone :
  wf_addr (AddrV6 v zone) →
  take 12 (be_bytes 16 v) = v4InV6Prefix ↔ Is4In6 (AddrV6 v zone) = true.
Proof.
  intros Hv. simpl in Hv. change 16%nat with (12 + 4)%nat.
  rewrite be_bytes_app, take_app_length' by (by rewrite length_be_bytes).
  change (256 ^ Z.of_nat 4) with (2 ^ 32). cbn [Is4In6]. rewrite bool_decide_eq_true.
  assert (0 ≤ v / 2 ^ 32 < 256 ^ Z.of_nat 12) as Hb.
  { split; [apply Z.div_pos; lia|]. apply Z.div_lt_upper_bound; [lia|].
    change (2 ^ 32 * 256 ^ Z.of_nat 12) with (2 ^ 128). lia. }
  split.
  - intros Heq%(f_equal be_val). rewrite be_val_bytes in Heq by done. rewrite Heq. reflexivity.
  - intros ->. reflexivity.
Qed.

Lemma be_bytes4_low v : be_bytes 4 (v mod 2 ^ 32) = be_bytes 4 v.
Proof.
  assert (∀ n w, be_bytes n (w mod 256 ^ Z.of_nat n) = be_bytes n w) as H.
  { induction n as [|n IH]; intros w; [done|]. rewrite !be_bytes_S.
    rewrite Nat2Z.inj_succ, Z.pow_succ_r by lia.
    rewrite Z.rem_mul_r by lia. pose proof (Z.mod_pos_bound w 256).
    rewrite <- (Z.div_unique (w mod 256 + 256 * _) 256 ((w / 256) mod 256 ^ Z.of_nat n) (w mod 256)) by lia.
    rewrite <- (Z.mod_unique (w mod 256 + 256 * _) 256 ((w / 256) mod 256 ^ Z.of_nat n) (w mod 256)) by lia.
    by rewrite IH. }
  exact (H 4%nat v).
Qed.

Lemma To4_FromAddr a :
  wf_addr a →
  To4 (FromAddr a) =
    match Unmap a with AddrV4 v => Some (be_bytes 4 v) | _ => None end.
Proof.
  destruct a as [|v|v z]; intros Hwf; [done| |].
  - unfold To4. simpl FromAddr. rewrite decide_True by apply length_be_bytes. done.
  - unfold To4, FromAddr, AsSlice. pose proof (take12_v4InV6 v z Hwf) as H12.
    rewrite decide_False by (by rewrite length_be_bytes). rewrite length_be_bytes.
    unfold Unmap. destruct (Is4In6 (AddrV6 v z)).
    + rewrite decide_True by (split; [done|by apply H12]).
      change 16%nat with (12 + 4)%nat. rewrite be_bytes_app.
      rewrite drop_app_length' by (by rewrite length_be_bytes). by rewrite be_bytes4_low.
    + rewrite decide_False; [done|]. intros [_ ?%H12]. done.
Qed.

(** ** Masks *)

Lemma CIDRMask_bytes_zero l : CIDRMask_bytes l 0 = replicate l 0.
Proof. induction l as [|l IH]; simpl; [done|]. by rewrite IH. Qed.

Lemma byte_ones_mask n k :
  0 ≤ n < 8 → byte_ones 8 (255 - 255 / 2 ^ n) k = (k + n, 0) ∧ 255 - 255 / 2 ^ n ≠ 255.
Proof.
  intros Hn.
  assert (n = 0 ∨ n = 1 ∨ n = 2 ∨ n = 3 ∨ n = 4 ∨ n = 5 ∨ n = 6 ∨ n = 7) as H by lia.
  split; destruct_or! H; subst n; simpl; try done; f_equal; lia.
Qed.

Lemma simpleMaskLength_CIDR l n k :
  0 ≤ n ≤ 8 * Z.of_nat l → simpleMaskLength (CIDRMask_bytes l n) k = k + n.
Proof.
  revert n k. induction l as [|l IH]; intros n k Hn.
  - simpl. lia.
  - simpl. case_decide as H8.
    + cbn [simpleMaskLength]. rewrite decide_True by done. rewrite IH by lia. lia.
    + destruct (byte_ones_mask n k) as [Hones Hne]; [lia|].
      cbn [simpleMaskLength]. rewrite decide_False by done.
      rewrite Hones. simpl. rewrite CIDRMask_bytes_zero.
      assert (forallb (λ b, bool_decide (b = 0)) (replicate l 0) = true) as ->; [|done].
      clear. induction l as [|l IH]; [done|]. simpl. done.
Qed.

Lemma CIDRMask_eq ones bits :
  bits = 32 ∨ bits = 128 → 0 ≤ ones ≤ bits →
  CIDRMask ones bits = CIDRMask_bytes (Z.to_nat (bits / 8)) ones.
Proof. intros Hb Ho. unfold CIDRMask. rewrite decide_True by done. by rewrite decide_True. Qed.

Lemma Mask_Size_CIDRMask ones bits :
  bits = 32 ∨ bits = 128 → 0 ≤ ones ≤ bits → (Mask_Size (CIDRMask ones bits)).1 = ones.
Proof.
  intros Hb Ho. rewrite CIDRMask_eq by done. unfold Mask_Size. rewrite simpleMaskLength_CIDR.
  - rewrite decide_False by lia. simpl. lia.
  - destruct Hb as [-> | ->];
      [change (Z.to_nat (32 / 8)) with 4%nat | change (Z.to_nat (128 / 8)) with 16%nat]; lia.
Qed.

(** ** Round trips *)

(** Converting an address to bytes and back loses the zone and unmaps an
    IPv4-mapped IPv6 address; only the invalid address fails. *)
Lemma ToAddr_FromAddr a :
  wf_addr a →
  ToAddr (FromAddr a) =
    match a with AddrInvalid => (AddrInvalid, false) | _ => (Unmap (withoutZone a), true) end.
Proof.
  intros Hwf. unfold ToAddr. rewrite To4_FromAddr by done.
  destruct a as [|v|v z]; [done| |].
  - cbn [Unmap withoutZone]. unfold AddrFromSlice. rewrite length_be_bytes.
    by rewrite be_val_bytes.
  - unfold Unmap, withoutZone. change (Is4In6 (AddrV6 v "")) with (Is4In6 (AddrV6 v z)).
    destruct (Is4In6 (AddrV6 v z)).
    + unfold AddrFromSlice. rewrite length_be_bytes, be_val_bytes; [done|].
      apply Z.mod_pos_bound. done.
    + unfold To16, FromAddr, AsSlice. rewrite decide_False by (by rewrite length_be_bytes).
      rewrite decide_True by apply length_be_bytes.
      unfold AddrFromSlice. rewrite length_be_bytes. by rewrite be_val_bytes.
Qed.

(** The IP network of a prefix and back: the prefix itself, unless its address
    is IPv4-mapped.  Then the address comes back as IPv4 while the mask still
    counts bits of a 128-bit address, so the length survives only up to 32. *)
Lemma FromIPNet_ToIPNet p :
  wf_prefix p →
  FromIPNet (ToIPNet p) =
    (if Is4In6 (p_ip p) then PrefixFrom (Unmap (p_ip p)) (Prefix_Bits p) else p, true).
Proof.
  destruct p as [ip b]. intros (Hwf & Hne & Hz & Hb). simpl in *.
  unfold FromIPNet, ToIPNet, Prefix_Bits. cbn [p_ip p_bitsPlusOne ipn_IP ipn_Mask].
  rewrite ToAddr_FromAddr by done. rewrite Hz.
  pose proof (Mask_Size_CIDRMask (b - 1) (BitLen ip)) as Hm.
  destruct (Mask_Size _) as [ones bits]. simpl in Hm.
  destruct ip as [|v|v z]; [done| |].
  - simpl in *. rewrite Hm by lia. f_equal. unfold PrefixFrom. simpl.
    rewrite decide_True by (split; [done|lia]). f_equal. lia.
  - simpl in Hm, Hb. rewrite Hm by lia. cbn [negb]. f_equal. unfold Unmap.
    destruct (Is4In6 (AddrV6 v z)); [done|].
    unfold PrefixFrom. rewrite Hz. rewrite decide_True by (split; [done|simpl; lia]).
    f_equal. lia.
Qed.

(** On canonical addresses and prefixes the conversions are injective, which is
    what lets a map keyed by prefixes stand for a set of networks. *)
Lemma ToIPNet_inj p q :
  wf_prefix p → wf_prefix q → Is4In6 (p_ip p) = false → Is4In6 (p_ip q) = false →
  ToIPNet p = ToIPNet q → p = q.
Proof.
  intros Hp Hq Hp4 Hq4 Heq%(f_equal FromIPNet).
  rewrite !FromIPNet_ToIPNet, Hp4, Hq4 in Heq by done. by injection Heq.
Qed.

Lemma FromAddr_inj a b :
  wf_addr a → wf_addr b → withoutZone a = a → withoutZone b = b →
  FromAddr a = FromAddr b → a = b.
Proof.
  destruct a as [|v|v z], b as [|w|w y]; intros Ha Hb Hza Hzb Heq; try done;
    unfold FromAddr, AsSlice in Heq;
    try (apply (f_equal List.length) in Heq; rewrite !length_be_bytes in Heq; done);
    apply (f_equal be_val) in Heq; rewrite !be_val_bytes in Heq by done.
  - by subst.
  - simpl in Hza, Hzb. congruence.
Qed.

(** [net.IP.Equal] on converted addresses is equality up to the IPv4-mapped
    form and the zone. *)
Lemma IP_Equal_refl ip : IP_Equal ip ip = true.
Proof. unfold IP_Equal. rewrite decide_True by done. by apply bool_decide_eq_true. Qed.

#[export] Hint Resolve IP_Equal_refl : go.

(** Converting a parsed address to bytes and back gives the address
    without its zone, and the IPv4 address when it was an IPv4-mapped one; for
    every address other than those it is the identity. *)
Theorem netip_addr_roundtrip (s : string) (a : Addr) :
  ParseAddr s = Ok a →
  ToAddr (FromAddr a) = (Unmap (withoutZone a), true) ∧
  (withoutZone a = a → Is4In6 a = false → ToAddr (FromAddr a) = (a, true)).
Proof.
  intros [Hwf Hne]%ParseAddr_wf. rewrite ToAddr_FromAddr by done.
  destruct a as [|v|v z]; [done|done|]. split; [done|]. intros Hz H4. rewrite Hz. unfold Unmap. by rewrite H4.
Qed.

Lemma netip_addr_roundtrip_witness :
  ToAddr (FromAddr (AddrV6 1 "eth0")) = (AddrV6 1 "", true).
Proof. refine (proj1 (netip_addr_roundtrip "::1%eth0" (AddrV6 1 "eth0") _)). vm_compute. reflexivity. Defined.

(** C27: a prefix that was parsed survives the conversion to an IP network and
    back, address and length, unless its address is IPv4-mapped; two parsed
    prefixes with the same IP network are then the same. *)
Theorem netip_prefix_roundtrip (s t : string) (p q : Prefix) :
  ParsePrefix s = Ok p → ParsePrefix t = Ok q → Is4In6 (p_ip p) = false → Is4In6 (p_ip q) = false →
  FromIPNet (ToIPNet p) = (p, true) ∧ (ToIPNet p = ToIPNet q → p = q).
Proof.
  intros Hp%ParsePrefix_wf Hq%ParsePrefix_wf Hp4 Hq4. rewrite FromIPNet_ToIPNet, Hp4 by done.
  split; [done|]. by apply ToIPNet_inj.
Qed.

Lemma netip_prefix_roundtrip_witness :
  FromIPNet (ToIPNet (mkPrefix (AddrV4 134744064) 25)) = (mkPrefix (AddrV4 134744064) 25, true).
Proof.
  refine (proj1 (netip_prefix_roundtrip "8.8.8.0/24" "10.0.0.0/8" (mkPrefix (AddrV4 134744064) 25)
    (mkPrefix (AddrV4 167772160) 9) _ _ _ _)); vm_compute; reflexivity.
Defined.
