(* ===== verification/Sha1.v ===== *)
(** * Go's [crypto/sha1]

    [fou.fouName] hashes IPv6 addresses with SHA-1.  The function is executable
    and checked against the published test vectors; the development only needs
    the size of its result and that it is a function of the bytes. *)
From Stdlib Require Import Ascii String.
From S2P Require Import Prelude GoStrings NetAddr.

Local Open Scope Z_scope.

Definition w32 : Z := 2 ^ 32.
Definition add32 (x y : Z) : Z := (x + y) mod w32.
Definition rotl (n x : Z) : Z := Z.lor (Z.shiftl x n mod w32) (Z.shiftr x (32 - n)).
Definition not32 (x : Z) : Z := w32 - 1 - x.

(** [0x80], zeros up to 56 modulo 64, and the length in bits on 8 bytes. *)
Definition pad (msg : list Z) : list Z :=
  let n := Z.of_nat (List.length msg) in
  msg ++ [128] ++ replicate (Z.to_nat ((55 - n) mod 64)) 0 ++ be_bytes 8 (8 * n).

(** The words of the schedule, newest first. *)
Fixpoint expand (k : nat) (rw : list Z) : list Z :=
  match k with
  | O => rw
  | S k' =>
      let x := Z.lxor (Z.lxor (nth 2 rw 0) (nth 7 rw 0)) (Z.lxor (nth 13 rw 0) (nth 15 rw 0)) in
      expand k' (rotl 1 x :: rw)
  end.

Fixpoint words (n : nat) (l : list Z) : list Z :=
  match n with
  | O => []
  | S n' => be_val (take 4 l) :: words n' (drop 4 l)
  end.

Definition schedule (block : list Z) : list Z := reverse (expand 64 (reverse (words 16 block))).

Record state := mkState { h0 : Z; h1 : Z; h2 : Z; h3 : Z; h4 : Z }.

Definition init : state :=
  mkState 0x67452301 0xEFCDAB89 0x98BADCFE 0x10325476 0xC3D2E1F0.

Definition round (s : state) (f k w : Z) : state :=
  let t := add32 (add32 (add32 (rotl 5 (h0 s)) f) (add32 (h4 s) w)) k in
  mkState t (h0 s) (rotl 30 (h1 s)) (h2 s) (h3 s).

Definition round_at (s : state) (i : nat) (w : Z) : state :=
  let b := h1 s in let c := h2 s in let d := h3 s in
  if decide (i < 20)%nat then
    round s (Z.lor (Z.land b c) (Z.land (not32 b) d)) 0x5A827999 w
  else if decide (i < 40)%nat then
    round s (Z.lxor (Z.lxor b c) d) 0x6ED9EBA1 w
  else if decide (i < 60)%nat then
    round s (Z.lor (Z.land (Z.lor b c) d) (Z.land b c)) 0x8F1BBCDC w
  else round s (Z.lxor (Z.lxor b c) d) 0xCA62C1D6 w.

Fixpoint rounds (i : nat) (ws : list Z) (s : state) : state :=
  match ws with
  | [] => s
  | w :: ws' => rounds (S i) ws' (round_at s i w)
  end.

Definition block_step (s : state) (block : list Z) : state :=
  let r := rounds 0 (schedule block) s in
  mkState (add32 (h0 s) (h0 r)) (add32 (h1 s) (h1 r)) (add32 (h2 s) (h2 r))
          (add32 (h3 s) (h3 r)) (add32 (h4 s) (h4 r)).

(** [n] whole blocks of 64 bytes. *)
Fixpoint blocks (n : nat) (l : list Z) (s : state) : state :=
  match n with
  | O => s
  | S n' => blocks n' (drop 64 l) (block_step s (take 64 l))
  end.

(** [sha1.Sum] *)
Definition sha1_Sum (msg : list Z) : list Z :=
  let p := pad msg in
  let s := blocks (Nat.div (List.length p) 64) p init in
  be_bytes 4 (h0 s) ++ be_bytes 4 (h1 s) ++ be_bytes 4 (h2 s) ++ be_bytes 4 (h3 s) ++ be_bytes 4 (h4 s).

Lemma length_sha1_Sum msg : List.length (sha1_Sum msg) = 20%nat.
Proof. unfold sha1_Sum. by rewrite !length_app, !length_be_bytes. Qed.

Lemma sha1_Sum_bytes msg : Forall is_byte (sha1_Sum msg).
Proof. unfold sha1_Sum. rewrite !Forall_app. split_and!; apply be_bytes_Forall. Qed.

Definition bytes_of (s : string) : list Z := (λ c, Z.of_N (N_of_ascii c)) <$> list_ascii_of_string s.

Example sha1_abc : hex_bytes (sha1_Sum (bytes_of "abc")) = "a9993e364706816aba3e25717850c26c9cd0d89d".
Proof. vm_compute. reflexivity. Qed.

Example sha1_empty : hex_bytes (sha1_Sum []) = "da39a3ee5e6b4b0d3255bfef95601890afd80709".
Proof. vm_compute. reflexivity. Qed.

Example sha1_two_blocks :
  hex_bytes (sha1_Sum (bytes_of "abcdbcdecdefdefgefghfghighijhijkijkljklmklmnlmnomnopnopq")) =
  "84983e441c3bd26ebaae4aa1f95129e5e54670f1".
Proof. vm_compute. reflexivity. Qed.

#[global] Arguments sha1_Sum : simpl never.
#[global] Opaque sha1_Sum.
