(* ===== verification/Netlink.v ===== *)
(** * The network namespace behind pona: an interface

    pona changes a Linux network namespace through libraries that are not part
    of its sources: vishvananda/netlink, coreos/go-iptables, the CNI plugins'
    [ip] and [sysctl] packages, and the modprobe command.  They are parameters
    of the development: [Netlink K] is the set of calls the sources make on a
    namespace whose state has the abstract type [K], and [NetlinkLaws K] states
    the documented behaviour the theorems rely on.  [SimKernel] gives a concrete
    namespace that satisfies the laws. *)
From Stdlib Require Import Ascii String.
From S2P Require Import Prelude GoStrings NetAddr NetIPUtil.

Local Open Scope Z_scope.

(** ** Data of the netlink package, with the fields pona reads or writes *)

Inductive Family := FAMILY_V4 | FAMILY_V6.
Inductive EncapKind := FOU_ENCAP_UNSPEC | FOU_ENCAP_DIRECT | FOU_ENCAP_GUE.
Inductive FilterMask := RT_FILTER_TABLE.

Definition RTN_UNSPEC : Z := 0.
Definition RTN_THROW : Z := 9.

Record LinkAttrs := mkLinkAttrs { Name : string; Index : Z; TxQLen : Z }.

(** [netlink.LinkAttrs{Name: name}] *)
Definition attrs_named (name : string) : LinkAttrs := mkLinkAttrs name 0 0.

Record TunnelOpts := mkTunnelOpts {
  Ttl : Z; EncapType : EncapKind; EncapDport : Z; EncapSport : Z;
  Remote : IP; Local_ : IP; FlowBased : bool }.

(** A tunnel literal that sets only [FlowBased]. *)
Definition flow_based_opts : TunnelOpts := mkTunnelOpts 0 FOU_ENCAP_UNSPEC 0 0 [] [] true.

Inductive Link :=
| Dummy (attrs : LinkAttrs)
| Iptun (attrs : LinkAttrs) (o : TunnelOpts)
| Ip6tnl (attrs : LinkAttrs) (o : TunnelOpts)
| OtherLink (kind : string) (attrs : LinkAttrs).

Definition Attrs (l : Link) : LinkAttrs :=
  match l with Dummy a | Iptun a _ | Ip6tnl a _ | OtherLink _ a => a end.

Definition set_attrs (l : Link) (a : LinkAttrs) : Link :=
  match l with
  | Dummy _ => Dummy a
  | Iptun _ o => Iptun a o
  | Ip6tnl _ o => Ip6tnl a o
  | OtherLink k _ => OtherLink k a
  end.

(** The two ends of a Foo-over-UDP tunnel over IPv4: encapsulation, destination
    port, remote and local address. *)
Definition fou_ends (l : Link) : option (EncapKind * Z * IP * IP) :=
  match l with Iptun _ o => Some (EncapType o, EncapDport o, Remote o, Local_ o) | _ => None end.

Abbreviation lname l := (Name (Attrs l)).
Abbreviation lindex l := (Index (Attrs l)).

Record Fou := mkFou { Fou_Family : Family; Fou_Protocol : Z; Fou_Port : Z; Fou_EncapType : EncapKind }.

(** [ru_other] stands for the further selectors of a rule (source, mark, ...),
    which pona neither reads nor sets. *)
Record Rule := mkRule {
  ru_Family : option Family; ru_Table : Z; ru_Priority : Z; ru_IifName : string;
  ru_Dst : option IPNet; ru_other : list (string * Z) }.

(** [netlink.Rule{Table: t}] *)
Definition rule_in_table (t : Z) : Rule := mkRule None t 0 "" None [].

Record Route := mkRoute {
  rt_Table : Z; rt_Dst : option IPNet; rt_LinkIndex : Z; rt_Protocol : Z; rt_Priority : Z; rt_Type : Z }.

(** [netlink.Route{Table: t}] *)
Definition route_in_table (t : Z) : Route := mkRoute t None 0 0 0 RTN_UNSPEC.

Definition set_rule_dst (r : Rule) (d : option IPNet) : Rule :=
  mkRule (ru_Family r) (ru_Table r) (ru_Priority r) (ru_IifName r) d (ru_other r).
Definition set_route_dst (r : Route) (d : option IPNet) : Route :=
  mkRoute (rt_Table r) d (rt_LinkIndex r) (rt_Protocol r) (rt_Priority r) (rt_Type r).

#[export] Instance Family_eq_dec : EqDecision Family.
Proof. solve_decision. Defined.
#[export] Instance EncapKind_eq_dec : EqDecision EncapKind.
Proof. solve_decision. Defined.
#[export] Instance LinkAttrs_eq_dec : EqDecision LinkAttrs.
Proof. solve_decision. Defined.
#[export] Instance TunnelOpts_eq_dec : EqDecision TunnelOpts.
Proof. solve_decision. Defined.
#[export] Instance Link_eq_dec : EqDecision Link.
Proof. solve_decision. Defined.
#[export] Instance Rule_eq_dec : EqDecision Rule.
Proof. solve_decision. Defined.
#[export] Instance Route_eq_dec : EqDecision Route.
Proof. solve_decision. Defined.
#[export] Instance Fou_eq_dec : EqDecision Fou.
Proof. solve_decision. Defined.

Definition ipnet_family (n : IPNet) : Family :=
  match To4 (ipn_IP n) with Some _ => FAMILY_V4 | None => FAMILY_V6 end.

(** The family of an address, as [AddClient] and [UpdateRoutes] choose it. *)
Definition addr_family (a : Addr) : Family := if Is6 a then FAMILY_V6 else FAMILY_V4.

(** ** The calls *)

Class Netlink (K : Type) := {
  LinkByName : string → K → result Link;
  (** The library fills in the index of the link it is given; the value
      returned is the one the caller's pointer holds afterwards. *)
  LinkAdd : Link → M K Link;
  LinkDel : Link → M K unit;
  LinkSetUp : Link → M K unit;
  LinkSetName : Link → string → M K unit;
  RuleAdd : Rule → M K unit;
  RuleDel : Rule → M K unit;
  RuleList : Family → K → result (list Rule);
  RuleListFiltered : Family → Rule → FilterMask → K → result (list Rule);
  RouteAdd : Route → M K unit;
  RouteDel : Route → M K unit;
  RouteListFiltered : Family → Route → FilterMask → K → result (list Route);
  FouAdd : Fou → M K unit;
  NewLinkAttrs : LinkAttrs;
  NewRule : Rule;
  NewIPNet : IP → IPNet;
  (** [fmt]'s rendering of library structures in error messages. *)
  Rule_text : Rule → string;
  Route_text : Route → string;
  (** go-iptables; the handle of [NewWithProtocol] is its protocol. *)
  ipt_NewWithProtocol : Family → K → result unit;
  ipt_Append : Family → string → string → list string → M K unit;
  ipt_Insert : Family → string → string → Z → list string → M K unit;
  (** CNI plugins *)
  Sysctl : string → string → M K unit;
  EnableIP4Forward : M K unit;
  EnableIP6Forward : M K unit;
  (** [exec.Command(path, arg).CombinedOutput()]: output and error. *)
  CombinedOutput : string → string → K → (string * option goerror) * K;
}.

(** ** The laws *)

(** The tables the kernel itself writes when a link comes up. *)
Definition kernel_tables : list Z := [254; 255].

(** Fallback tunnel devices that loading ipip and ip6_tunnel may create. *)
Definition fallback_devices : list string := ["tunl0"; "ip6tnl0"].

(** The link index of a throw route: none, or the loopback device's. *)
Definition throw_indexes : list Z := [0; 1].

Definition rule_like (r r' : Rule) : Prop :=
  ru_Table r' = ru_Table r ∧ ru_Priority r' = ru_Priority r ∧ ru_IifName r' = ru_IifName r ∧
  ru_Dst r' = ru_Dst r ∧ ru_other r' = ru_other r.

(** A prefix the kernel stores as it is given: no host bits. *)
Definition masked (p : Prefix) : Prop :=
  be_val (AsSlice (p_ip p)) mod 2 ^ (BitLen (p_ip p) - Prefix_Bits p) = 0.

Definition kernel_prefix (p : Prefix) : Prop :=
  wf_prefix p ∧ masked p ∧ Is4In6 (p_ip p) = false.

(** The destination of a listed route as a prefix. *)
Definition dst_prefix (r : Route) : option Prefix :=
  match rt_Dst r with
  | Some d => let '(p, ok) := FromIPNet d in if ok then Some p else None
  | None => None
  end.

(** A route listed for the destination [p].  Depending on its version, the
    library lists a default route with no destination. *)
Definition lists_dst (r : Route) (p : Prefix) : Prop :=
  dst_prefix r = Some p ∨ (Prefix_Bits p = 0 ∧ rt_Dst r = None).

(** How a route that was added is listed.  The kernel chooses the metric of a
    route that names none, and the type of one that leaves it open. *)
Definition route_like (r r' : Route) : Prop :=
  rt_Table r' = rt_Table r ∧ (rt_Priority r ≠ 0 → rt_Priority r' = rt_Priority r) ∧
  (if decide (rt_Type r = RTN_THROW) then rt_LinkIndex r' ∈ throw_indexes
   else rt_LinkIndex r' = rt_LinkIndex r) ∧
  (rt_Type r' = RTN_THROW ↔ rt_Type r = RTN_THROW) ∧
  (∀ p, kernel_prefix p → rt_Dst r = Some (ToIPNet p) → lists_dst r' p).

(** No two links have the same index. *)
Definition index_unique {K} `{Netlink K} (k : K) : Prop :=
  ∀ n1 n2 l1 l2, LinkByName n1 k = Ok l1 → LinkByName n2 k = Ok l2 → lindex l1 = lindex l2 → n1 = n2.

Class NetlinkLaws (K : Type) {NL : Netlink K} := {
  rules : K → Family → list Rule;
  routes : K → Family → list Route;

  LinkByName_name n k l : LinkByName n k = Ok l → lname l = n;
  LinkAdd_ok l k l' k' :
    LinkAdd l k = (Ok l', k') →
    (∃ l2, LinkByName (lname l) k' = Ok l2 ∧ lindex l2 = lindex l') ∧ lname l' = lname l ∧
    (∀ n x, n ≠ lname l → LinkByName n k = Ok x → LinkByName n k' = Ok x) ∧
    (∀ n, n ≠ lname l → n ∉ fallback_devices → LinkByName n k' = LinkByName n k) ∧
    rules k' = rules k ∧ routes k' = routes k;
  (** A new link has an index of its own; the loopback device's is 1. *)
  LinkAdd_index l k l' k' : LinkAdd l k = (Ok l', k') → lindex l' ∉ throw_indexes;
  LinkAdd_unique l k l' k' : LinkAdd l k = (Ok l', k') → index_unique k → index_unique k';
  (** The kernel keeps the ends of a tunnel between two IPv4 addresses. *)
  LinkAdd_ends a o k l' k' :
    List.length (Remote o) = 4%nat → List.length (Local_ o) = 4%nat → 0 ≤ EncapDport o < 65536 →
    LinkAdd (Iptun a o) k = (Ok l', k') →
    ∃ l2, LinkByName (Name a) k' = Ok l2 ∧ fou_ends l2 = fou_ends (Iptun a o);
  LinkAdd_exists l k x : LinkByName (lname l) k = Ok x → ∃ e, LinkAdd l k = (Err e, k);
  LinkAdd_err l k e k' : LinkAdd l k = (Err e, k') → k' = k;
  LinkDel_ok l k k' :
    LinkByName (lname l) k = Ok l → LinkDel l k = (Ok tt, k') →
    (∃ m, LinkByName (lname l) k' = Err (ErrLinkNotFound m)) ∧
    (∀ n, n ≠ lname l → LinkByName n k' = LinkByName n k) ∧ rules k' = rules k ∧
    (∀ f, routes k' f = filter (λ r, rt_LinkIndex r ≠ lindex l) (routes k f));
  LinkDel_err l k e k' : LinkDel l k = (Err e, k') → k' = k;
  LinkSetUp_ok l k k' :
    LinkSetUp l k = (Ok tt, k') →
    (∀ n, LinkByName n k' = LinkByName n k) ∧ rules k' = rules k ∧
    (∀ f t, t ∉ kernel_tables →
      filter (λ r, rt_Table r = t) (routes k' f) = filter (λ r, rt_Table r = t) (routes k f));
  LinkSetUp_err l k e k' : LinkSetUp l k = (Err e, k') → k' = k;
  LinkSetName_ok l new k k' :
    LinkByName (lname l) k = Ok l → LinkSetName l new k = (Ok tt, k') →
    (∃ l2, LinkByName new k' = Ok l2 ∧ lindex l2 = lindex l) ∧
    (∀ n, n ≠ lname l → n ≠ new → LinkByName n k' = LinkByName n k) ∧
    rules k' = rules k ∧ routes k' = routes k;
  LinkSetName_unique l new k k' :
    LinkByName (lname l) k = Ok l → LinkSetName l new k = (Ok tt, k') → index_unique k → index_unique k';
  LinkSetName_err l new k e k' : LinkSetName l new k = (Err e, k') → k' = k;

  rules_family r k f : r ∈ rules k f → ru_Family r = Some f;
  RuleList_ok f k l : RuleList f k = Ok l → l = rules k f;
  RuleListFiltered_ok f t k l :
    RuleListFiltered f (rule_in_table t) RT_FILTER_TABLE k = Ok l →
    l = filter (λ r, ru_Table r = t) (rules k f);
  (** An entry that is added or removed leaves the others in their order. *)
  RuleAdd_place r f k k' :
    ru_Family r = Some f → RuleAdd r k = (Ok tt, k') →
    (∃ r', rule_like r r' ∧ plus_one r' (rules k f) (rules k' f)) ∧
    (∀ f', f' ≠ f → rules k' f' = rules k f') ∧
    (∀ n, LinkByName n k' = LinkByName n k) ∧ routes k' = routes k;
  RuleAdd_err r k e k' : RuleAdd r k = (Err e, k') → k' = k;
  (** [ip rule add]: a rule that is there already is refused. *)
  RuleAdd_exists r f k r0 :
    ru_Family r = Some f → 0 < ru_Priority r → r0 ∈ rules k f → rule_like r r0 →
    ∃ e, RuleAdd r k = (Err e, k);
  (** A new rule selects every packet. *)
  NewRule_plain : ru_IifName NewRule = "" ∧ ru_Dst NewRule = None ∧ ru_other NewRule = [];
  (** A deletion that names a priority removes one rule of that priority. *)
  RuleDel_place r f k k' :
    ru_Family r = Some f → 0 < ru_Priority r → RuleDel r k = (Ok tt, k') →
    (∃ r', ru_Priority r' = ru_Priority r ∧ plus_one r' (rules k' f) (rules k f)) ∧
    (∀ f', f' ≠ f → rules k' f' = rules k f') ∧
    (∀ n, LinkByName n k' = LinkByName n k) ∧ routes k' = routes k;
  RuleDel_err r k e k' : RuleDel r k = (Err e, k') → k' = k;

  RouteListFiltered_ok f t k l :
    RouteListFiltered f (route_in_table t) RT_FILTER_TABLE k = Ok l →
    l = filter (λ r, rt_Table r = t) (routes k f);
  RouteAdd_place r d k k' :
    rt_Dst r = Some d → RouteAdd r k = (Ok tt, k') →
    (∃ r', route_like r r' ∧ plus_one r' (routes k (ipnet_family d)) (routes k' (ipnet_family d))) ∧
    (∀ f', f' ≠ ipnet_family d → routes k' f' = routes k f') ∧
    (∀ n, LinkByName n k' = LinkByName n k) ∧ rules k' = rules k;
  (** [ip route add]: a route with the same destination, table and metric is
      refused, whatever its type and next hop. *)
  RouteAdd_exists r p k r0 :
    rt_Dst r = Some (ToIPNet p) → kernel_prefix p →
    r0 ∈ routes k (ipnet_family (ToIPNet p)) → lists_dst r0 p →
    rt_Table r0 = rt_Table r → rt_Priority r0 = rt_Priority r → ∃ e, RouteAdd r k = (Err e, k);
  RouteAdd_err r k e k' : RouteAdd r k = (Err e, k') → k' = k;
  (** A deletion removes one route of the table it names to the destination it
      names, through the link it names if it names one. *)
  RouteDel_place r d p k k' :
    rt_Dst r = Some d → FromIPNet d = (p, true) → RouteDel r k = (Ok tt, k') →
    (∃ r', rt_Table r' = rt_Table r ∧ (rt_LinkIndex r ≠ 0 → rt_LinkIndex r' = rt_LinkIndex r) ∧
       lists_dst r' p ∧ plus_one r' (routes k' (ipnet_family d)) (routes k (ipnet_family d))) ∧
    (∀ f', f' ≠ ipnet_family d → routes k' f' = routes k f') ∧
    (∀ n, LinkByName n k' = LinkByName n k) ∧ rules k' = rules k;
  RouteDel_err r k e k' : RouteDel r k = (Err e, k') → k' = k;
  routes_dst r d k f :
    r ∈ routes k f → rt_Dst r = Some d → ipnet_family d = f ∧ ∃ p, FromIPNet d = (p, true);
  routes_bytes r d k f : r ∈ routes k f → rt_Dst r = Some d → Forall is_byte (ipn_IP d);
  (** [NewIPNet] generates a network from an address with a mask of 32 or 128. *)
  NewIPNet_ok ip :
    NewIPNet ip = mkIPNet ip (match To4 ip with Some _ => CIDRMask 32 32 | None => CIDRMask 128 128 end);
}.

(** The laws on rules and routes where the order does not matter. *)
Section unordered.
Context {K : Type} {NL : Netlink K} {L : NetlinkLaws K}.

Lemma RuleAdd_ok r f k k' :
  ru_Family r = Some f → RuleAdd r k = (Ok tt, k') →
  (∃ r', rule_like r r' ∧ rules k' f ≡ₚ r' :: rules k f) ∧
  (∀ f', f' ≠ f → rules k' f' = rules k f') ∧
  (∀ n, LinkByName n k' = LinkByName n k) ∧ routes k' = routes k.
Proof.
  intros Hf ((r' & Hl & Hp%plus_one_perm) & H)%(RuleAdd_place _ f); [|done]. split; [by exists r'|done].
Qed.

Lemma RuleDel_ok r f k k' :
  ru_Family r = Some f → 0 < ru_Priority r → RuleDel r k = (Ok tt, k') →
  (∃ r', ru_Priority r' = ru_Priority r ∧ rules k f ≡ₚ r' :: rules k' f) ∧
  (∀ f', f' ≠ f → rules k' f' = rules k f') ∧
  (∀ n, LinkByName n k' = LinkByName n k) ∧ routes k' = routes k.
Proof.
  intros Hf Hr ((r' & Hl & Hp%plus_one_perm) & H)%(RuleDel_place _ f); [|done..]. split; [by exists r'|done].
Qed.

Lemma RouteAdd_ok r d k k' :
  rt_Dst r = Some d → RouteAdd r k = (Ok tt, k') →
  (∃ r', route_like r r' ∧ routes k' (ipnet_family d) ≡ₚ r' :: routes k (ipnet_family d)) ∧
  (∀ f', f' ≠ ipnet_family d → routes k' f' = routes k f') ∧
  (∀ n, LinkByName n k' = LinkByName n k) ∧ rules k' = rules k.
Proof.
  intros Hd ((r' & Hl & Hp%plus_one_perm) & H)%(RouteAdd_place _ d); [|done]. split; [by exists r'|done].
Qed.

Lemma RouteDel_ok r d p k k' :
  rt_Dst r = Some d → FromIPNet d = (p, true) → RouteDel r k = (Ok tt, k') →
  (∃ r', rt_Table r' = rt_Table r ∧ (rt_LinkIndex r ≠ 0 → rt_LinkIndex r' = rt_LinkIndex r) ∧
     lists_dst r' p ∧ routes k (ipnet_family d) ≡ₚ r' :: routes k' (ipnet_family d)) ∧
  (∀ f', f' ≠ ipnet_family d → routes k' f' = routes k f') ∧
  (∀ n, LinkByName n k' = LinkByName n k) ∧ rules k' = rules k.
Proof.
  intros Hd Hp ((r' & Ht & Hi & Hl & Hpl%plus_one_perm) & H)%(RouteDel_place _ d p); [|done..].
  split; [by exists r'|done].
Qed.
End unordered.

(** Two namespace states with the same links, rules and routes. *)
Definition same_net {K} `{L : NetlinkLaws K} (k k' : K) : Prop :=
  (∀ n, LinkByName n k' = LinkByName n k) ∧ rules k' = rules k ∧ routes k' = routes k.

#[export] Instance same_net_equiv {K} `{L : NetlinkLaws K} : Equivalence same_net.
Proof.
  split.
  - intros k. done.
  - intros k1 k2 (Hl & Hr & Ht). split_and!; congruence.
  - intros k1 k2 k3 (Hl & Hr & Ht) (Hl' & Hr' & Ht'). split_and!; congruence.
Qed.

(** Host settings touch neither links nor routing. *)
Class HostLaws (K : Type) {NL : Netlink K} {L : NetlinkLaws K} := {
  FouAdd_net f k : same_net k (FouAdd f k).2;
  ipt_Append_net f t c l k : same_net k (ipt_Append f t c l k).2;
  ipt_Insert_net f t c n l k : same_net k (ipt_Insert f t c n l k).2;
  Sysctl_net a b k : same_net k (Sysctl a b k).2;
  EnableIP4Forward_net k : same_net k (EnableIP4Forward k).2;
  EnableIP6Forward_net k : same_net k (EnableIP6Forward k).2;
  CombinedOutput_net a b k : same_net k (CombinedOutput a b k).2;
}.

#[export] Hint Resolve FouAdd_net ipt_Append_net ipt_Insert_net Sysctl_net
  EnableIP4Forward_net EnableIP6Forward_net CombinedOutput_net : go.
