(* ===== verification/SimKernel.v ===== *)
(** * A concrete network namespace

    An executable state that satisfies the laws of [Netlink]: the theorems of
    the other files are instantiated with it, so none of their hypotheses is
    vacuous, and witnesses can be computed. *)
From Stdlib Require Import Ascii String.
From S2P Require Import Prelude GoStrings NetAddr NetIPUtil Netlink.

Local Open Scope Z_scope.

Record Kern := mkKern {
  k_links : gmap string Link;
  k_next : Z;                          (* next free interface index *)
  k_rules : list Rule;
  k_routes : list Route;
  k_fou : list Fou;
  k_ipt : list (Family * list string);
  k_sysctl : gmap string string;
  k_modules : list string }.

Definition empty_kern : Kern :=
  mkKern {[ "lo" := OtherLink "device" (mkLinkAttrs "lo" 1 1000) ]} 2 [] [] [] [] ∅ [].

Definition set_links (k : Kern) (l : gmap string Link) (next : Z) : Kern :=
  mkKern l next (k_rules k) (k_routes k) (k_fou k) (k_ipt k) (k_sysctl k) (k_modules k).
Definition set_rules (k : Kern) (r : list Rule) : Kern :=
  mkKern (k_links k) (k_next k) r (k_routes k) (k_fou k) (k_ipt k) (k_sysctl k) (k_modules k).
Definition set_routes (k : Kern) (r : list Route) : Kern :=
  mkKern (k_links k) (k_next k) (k_rules k) r (k_fou k) (k_ipt k) (k_sysctl k) (k_modules k).

Definition eexist : goerror := ErrLib "unix" "file exists".
Definition enodev : goerror := ErrLib "unix" "no such device".
Definition esrch : goerror := ErrLib "unix" "no such process".

Definition sim_LinkByName (n : string) (k : Kern) : result Link :=
  match k_links k !! n with
  | Some l => if decide (lname l = n) then Ok l else Err (ErrLinkNotFound n)
  | None => Err (ErrLinkNotFound n)
  end.

(** Loading ipip brings its fallback device with it. *)
Definition load_fallback (l : Link) (m : gmap string Link) (next : Z) : gmap string Link :=
  match l with
  | Iptun _ _ =>
      if decide (m !! "tunl0" = None ∧ m !! "pona_tunl" = None)
      then <["tunl0" := OtherLink "ipip" (mkLinkAttrs "tunl0" next 1000)]> m else m
  | _ => m
  end.

(** An index no link has. *)
Definition fresh_index (k : Kern) : Z :=
  foldr (λ x i, Z.max (lindex x.2 + 1) i) (Z.max 2 (k_next k)) (map_to_list (k_links k)).

Definition sim_LinkAdd (l : Link) : M Kern Link := λ k,
  if is_ok (sim_LinkByName (lname l) k) then (Err eexist, k)
  else
    let i := fresh_index k in
    let l' := set_attrs l (mkLinkAttrs (lname l) i (TxQLen (Attrs l))) in
    (Ok l', set_links k (<[lname l := l']> (load_fallback l (k_links k) (i + 1))) (i + 2)).

Definition sim_LinkDel (l : Link) : M Kern unit := λ k,
  if is_ok (sim_LinkByName (lname l) k) then
    (Ok tt, set_routes (set_links k (delete (lname l) (k_links k)) (k_next k))
              (filter (λ r, rt_LinkIndex r ≠ lindex l) (k_routes k)))
  else (Err enodev, k).

Definition sim_LinkSetUp (l : Link) : M Kern unit := λ k,
  if is_ok (sim_LinkByName (lname l) k) then (Ok tt, k) else (Err enodev, k).

Definition sim_LinkSetName (l : Link) (new : string) : M Kern unit := λ k,
  if decide (is_ok (sim_LinkByName (lname l) k) = true ∧ is_ok (sim_LinkByName new k) = false) then
    (Ok tt, set_links k
      (<[new := set_attrs l (mkLinkAttrs new (lindex l) (TxQLen (Attrs l)))]> (delete (lname l) (k_links k)))
      (k_next k))
  else (Err eexist, k).

Definition same_rule (r r' : Rule) : bool :=
  bool_decide (ru_Family r' = ru_Family r ∧ ru_Table r' = ru_Table r ∧
               ru_Priority r' = ru_Priority r ∧ ru_IifName r' = ru_IifName r).

(** Remove the first element that satisfies [f]. *)
Fixpoint remove_first {A} (f : A → bool) (l : list A) : option (A * list A) :=
  match l with
  | [] => None
  | x :: l' => if f x then Some (x, l') else
      match remove_first f l' with Some (y, r) => Some (y, x :: r) | None => None end
  end.

Definition sim_rules (k : Kern) (f : Family) : list Rule :=
  filter (λ r, ru_Family r = Some f) (k_rules k).

#[export] Instance rule_like_dec r r' : Decision (rule_like r r').
Proof. unfold rule_like. apply _. Defined.

(** IPv6 rules are refused on a host booted with IPv6 disabled, and a rule
    that is there already is refused. *)
Definition sim_RuleAdd (r : Rule) : M Kern unit := λ k,
  if decide (ru_Family r = Some FAMILY_V6 ∧ "ipv6.disable=1" ∈ k_modules k)
  then (Err (ErrLib "unix" "address family not supported by protocol"), k)
  else if decide (Exists (λ r', ru_Family r' = ru_Family r ∧ rule_like r r') (k_rules k)) then (Err eexist, k)
  else (Ok tt, set_rules k (k_rules k ++ [r])).
Definition sim_RuleDel (r : Rule) : M Kern unit := λ k,
  match remove_first (same_rule r) (k_rules k) with
  | Some (_, l) => (Ok tt, set_rules k l)
  | None => (Err esrch, k)
  end.

Definition valid_dst (r : Route) : Prop :=
  dst_prefix r ≠ None ∧ Forall (λ b, 0 ≤ b < 256) (from_option ipn_IP [] (rt_Dst r)).

#[export] Instance valid_dst_dec r : Decision (valid_dst r).
Proof. unfold valid_dst. apply _. Defined.

Definition in_family (f : Family) (r : Route) : Prop :=
  ipnet_family <$> rt_Dst r = Some f ∧ valid_dst r.

#[export] Instance in_family_dec f r : Decision (in_family f r).
Proof. unfold in_family. apply _. Defined.

Definition sim_routes (k : Kern) (f : Family) : list Route :=
  filter (in_family f) (k_routes k).

Definition same_key (r r' : Route) : bool :=
  bool_decide (dst_prefix r' = dst_prefix r ∧ rt_Table r' = rt_Table r ∧ rt_Priority r' = rt_Priority r).

(** Throw routes have no device, as in the IPv4 table. *)
Definition stored (r : Route) : Route :=
  if decide (rt_Type r = RTN_THROW)
  then mkRoute (rt_Table r) (rt_Dst r) 0 (rt_Protocol r) (rt_Priority r) (rt_Type r) else r.

Definition sim_RouteAdd (r : Route) : M Kern unit := λ k,
  if bool_decide (¬ valid_dst r) then (Err esrch, k)
  else if existsb (same_key r) (k_routes k) then (Err eexist, k)
  else (Ok tt, set_routes k (k_routes k ++ [stored r])).

Definition sim_RouteDel (r : Route) : M Kern unit := λ k,
  match remove_first (λ r', same_key r r' && bool_decide (rt_LinkIndex r' = rt_LinkIndex r)
      && bool_decide (ipnet_family <$> rt_Dst r' = ipnet_family <$> rt_Dst r ∧ valid_dst r')) (k_routes k) with
  | Some (_, l) => (Ok tt, set_routes k l)
  | None => (Err esrch, k)
  end.

Definition sim_note (f : Family) (l : list string) : M Kern unit := λ k,
  (Ok tt, mkKern (k_links k) (k_next k) (k_rules k) (k_routes k) (k_fou k)
            (k_ipt k ++ [(f, l)]) (k_sysctl k) (k_modules k)).
Definition sim_Sysctl (a b : string) : M Kern unit := λ k,
  (Ok tt, mkKern (k_links k) (k_next k) (k_rules k) (k_routes k) (k_fou k)
            (k_ipt k) (<[a := b]> (k_sysctl k)) (k_modules k)).

#[export] Instance Sim : Netlink Kern := {|
  LinkByName := sim_LinkByName;
  LinkAdd := sim_LinkAdd;
  LinkDel := sim_LinkDel;
  LinkSetUp := sim_LinkSetUp;
  LinkSetName := sim_LinkSetName;
  RuleAdd := sim_RuleAdd;
  RuleDel := sim_RuleDel;
  RuleList f k := Ok (sim_rules k f);
  RuleListFiltered f r _ k := Ok (filter (λ x, ru_Table x = ru_Table r) (sim_rules k f));
  RouteAdd := sim_RouteAdd;
  RouteDel := sim_RouteDel;
  RouteListFiltered f r _ k := Ok (filter (λ x, rt_Table x = rt_Table r) (sim_routes k f));
  FouAdd f := λ k, (Ok tt, mkKern (k_links k) (k_next k) (k_rules k) (k_routes k) (k_fou k ++ [f])
                           (k_ipt k) (k_sysctl k) (k_modules k));
  NewLinkAttrs := mkLinkAttrs "" 0 (-1);
  NewRule := mkRule None 0 (-1) "" None [];
  NewIPNet ip := mkIPNet ip (match To4 ip with Some _ => CIDRMask 32 32 | None => CIDRMask 128 128 end);
  Rule_text _ := "rule";
  Route_text _ := "route";
  ipt_NewWithProtocol _ _ := Ok tt;
  ipt_Append f t c l := sim_note f ("-A" :: t :: c :: l);
  ipt_Insert f t c n l := sim_note f ("-I" :: t :: c :: Itoa n :: l);
  Sysctl := sim_Sysctl;
  EnableIP4Forward := sim_Sysctl "net/ipv4/ip_forward" "1";
  EnableIP6Forward := sim_Sysctl "net/ipv6/conf/all/forwarding" "1";
  CombinedOutput _ m k := (("", None), mkKern (k_links k) (k_next k) (k_rules k) (k_routes k) (k_fou k)
                           (k_ipt k) (k_sysctl k) (k_modules k ++ [m]));
|}.

(** ** The laws hold *)

Lemma remove_first_spec {A} (f : A → bool) l y r :
  remove_first f l = Some (y, r) → f y = true ∧ ∃ l1 l2, l = l1 ++ y :: l2 ∧ r = l1 ++ l2.
Proof.
  revert r. induction l as [|x l IH]; simpl; intros r; [done|].
  destruct (f x) eqn:Hx.
  - intros [= <- <-]. split; [done|]. by exists [], l.
  - destruct (remove_first f l) as [[y' r']|]; [|done]. intros [= <- <-].
    destruct (IH r' eq_refl) as (Hy & l1 & l2 & -> & ->).
    split; [done|]. by exists (x :: l1), l2.
Qed.

Lemma sim_LinkByName_ok n k l :
  sim_LinkByName n k = Ok l ↔ k_links k !! n = Some l ∧ lname l = n.
Proof.
  unfold sim_LinkByName. destruct (k_links k !! n) as [l'|].
  - case_decide as Hn; split.
    + by intros [= <-].
    + by intros [[= ->] _].
    + done.
    + by intros [[= ->] ?].
  - split; [done|by intros [? _]].
Qed.

Lemma sim_LinkByName_ext n k k' :
  k_links k' !! n = k_links k !! n → sim_LinkByName n k' = sim_LinkByName n k.
Proof. unfold sim_LinkByName. by intros ->. Qed.

Lemma lname_set_attrs l a : Attrs (set_attrs l a) = a.
Proof. by destruct l. Qed.

Lemma load_fallback_lookup l m next n :
  n ∉ fallback_devices ∨ is_Some (m !! n) → load_fallback l m next !! n = m !! n.
Proof.
  intros Hn. unfold load_fallback. destruct l; try done. case_decide as Hd; [|done].
  rewrite lookup_insert_ne; [done|]. intros <-.
  destruct Hn as [Hn|[? Hn]]; [apply Hn; set_solver|]. destruct Hd. congruence.
Qed.

Lemma sim_LinkAdd_ok l k l' k' :
  sim_LinkAdd l k = (Ok l', k') →
  (∃ l2, sim_LinkByName (lname l) k' = Ok l2 ∧ lindex l2 = lindex l') ∧ lname l' = lname l ∧
  (∀ n x, n ≠ lname l → sim_LinkByName n k = Ok x → sim_LinkByName n k' = Ok x) ∧
  (∀ n, n ≠ lname l → n ∉ fallback_devices → sim_LinkByName n k' = sim_LinkByName n k) ∧
  sim_rules k' = sim_rules k ∧ sim_routes k' = sim_routes k.
Proof.
  unfold sim_LinkAdd. destruct (is_ok _); [done|]. intros [= <- <-].
  rewrite lname_set_attrs. simpl. split_and!; try done.
  - eexists. split; [apply sim_LinkByName_ok; simpl; by rewrite lookup_insert_eq, lname_set_attrs|].
    by rewrite lname_set_attrs.
  - intros n x Hn [Hx Hname]%sim_LinkByName_ok. apply sim_LinkByName_ok. split; [|done]. simpl.
    rewrite lookup_insert_ne by done. rewrite load_fallback_lookup; [done|]. right. by eexists.
  - intros n Hn Hf. apply sim_LinkByName_ext. simpl. rewrite lookup_insert_ne by done.
    apply load_fallback_lookup. by left.
Qed.

Lemma fresh_index_spec k :
  2 ≤ fresh_index k ∧ ∀ n l, k_links k !! n = Some l → lindex l < fresh_index k.
Proof.
  unfold fresh_index.
  assert (∀ L, 2 ≤ foldr (λ x i, Z.max (lindex (x : string * Link).2 + 1) i) (Z.max 2 (k_next k)) L ∧
    ∀ x, x ∈ L → lindex x.2 < foldr (λ x i, Z.max (lindex x.2 + 1) i) (Z.max 2 (k_next k)) L) as HL.
  { induction L as [|y L [IH1 IH2]]; simpl.
    - split; [lia|]. intros x Hx. by apply elem_of_nil in Hx.
    - split; [lia|]. intros x [->|Hx]%elem_of_cons; [lia|]. specialize (IH2 x Hx). lia. }
  destruct (HL (map_to_list (k_links k))) as [H1 H2]. split; [done|].
  intros n l Hl. by apply (H2 (n, l)), elem_of_map_to_list.
Qed.

Lemma load_fallback_cases l m i n x :
  load_fallback l m i !! n = Some x → m !! n = Some x ∨ n = "tunl0" ∧ lindex x = i.
Proof.
  unfold load_fallback. destruct l; auto. case_decide; auto.
  intros [[<- <-]|[_ ?]]%lookup_insert_Some; auto.
Qed.

(** A link after [sim_LinkAdd] is old, the new one, or the fallback device. *)
Lemma sim_LinkAdd_lookup l k l' k' n x :
  sim_LinkAdd l k = (Ok l', k') → sim_LinkByName n k' = Ok x →
  (sim_LinkByName n k = Ok x ∧ lindex x < fresh_index k) ∨
  (n = lname l ∧ lindex x = fresh_index k) ∨ (n = "tunl0" ∧ lindex x = fresh_index k + 1).
Proof.
  unfold sim_LinkAdd. destruct (is_ok _); [done|]. intros [= <- <-] [Hx Hn]%sim_LinkByName_ok.
  simpl in Hx. apply lookup_insert_Some in Hx as [[<- <-]|[Hne Hx]].
  - right; left. by rewrite lname_set_attrs.
  - apply load_fallback_cases in Hx as [Hx|[-> Hi]]; [left|by right; right].
    split; [by apply sim_LinkByName_ok|]. by eapply fresh_index_spec.
Qed.

Lemma sim_LinkAdd_unique l k l' k' :
  sim_LinkAdd l k = (Ok l', k') → index_unique (K:=Kern) k → index_unique k'.
Proof.
  intros HA Hu n1 n2 l1 l2 H1 H2 Hi.
  destruct (sim_LinkAdd_lookup _ _ _ _ _ _ HA H1) as [[? ?]|[[-> ?]|[-> ?]]],
    (sim_LinkAdd_lookup _ _ _ _ _ _ HA H2) as [[? ?]|[[-> ?]|[-> ?]]]; try done; try lia.
  by eapply Hu.
Qed.

Lemma sim_LinkSetName_unique l new k k' :
  sim_LinkByName (lname l) k = Ok l → sim_LinkSetName l new k = (Ok tt, k') →
  index_unique (K:=Kern) k → index_unique k'.
Proof.
  intros Hl. unfold sim_LinkSetName. case_decide; [|done]. intros [= <-] Hu.
  assert (∀ n x, sim_LinkByName n (set_links k
      (<[new := set_attrs l (mkLinkAttrs new (lindex l) (TxQLen (Attrs l)))]> (delete (lname l) (k_links k)))
      (k_next k)) = Ok x →
    (n = new ∧ lindex x = lindex l) ∨ (n ≠ lname l ∧ sim_LinkByName n k = Ok x)) as Hx.
  { intros n x [Hx Hn]%sim_LinkByName_ok. simpl in Hx.
    apply lookup_insert_Some in Hx as [[<- <-]|[_ [Hne Hx]%lookup_delete_Some]].
    - left. by rewrite lname_set_attrs.
    - right. split; [done|]. by apply sim_LinkByName_ok. }
  intros n1 n2 l1 l2 [[-> H1]|[Hn1 H1]]%Hx [[-> H2]|[Hn2 H2]]%Hx Hi; [done|..|by eapply Hu].
  - destruct Hn2. eapply (Hu n2 (lname l)); [done..|congruence].
  - destruct Hn1. eapply (Hu n1 (lname l)); [done..|congruence].
Qed.

Lemma sim_LinkDel_ok l k k' :
  sim_LinkDel l k = (Ok tt, k') →
  (∃ m, sim_LinkByName (lname l) k' = Err (ErrLinkNotFound m)) ∧
  (∀ n, n ≠ lname l → sim_LinkByName n k' = sim_LinkByName n k) ∧ sim_rules k' = sim_rules k ∧
  (∀ f, sim_routes k' f = filter (λ r, rt_LinkIndex r ≠ lindex l) (sim_routes k f)).
Proof.
  unfold sim_LinkDel. destruct (is_ok _); [|done]. intros [= <-]. split_and!; try done.
  - exists (lname l). unfold sim_LinkByName. simpl. by rewrite lookup_delete_eq.
  - intros n Hn. apply sim_LinkByName_ext. simpl. by rewrite lookup_delete_ne.
  - intros f. unfold sim_routes. simpl. rewrite !list_filter_filter.
    apply list_filter_iff. tauto.
Qed.

Lemma sim_LinkSetName_ok l new k k' :
  sim_LinkSetName l new k = (Ok tt, k') →
  (∃ l2, sim_LinkByName new k' = Ok l2 ∧ lindex l2 = lindex l) ∧
  (∀ n, n ≠ lname l → n ≠ new → sim_LinkByName n k' = sim_LinkByName n k) ∧
  sim_rules k' = sim_rules k ∧ sim_routes k' = sim_routes k.
Proof.
  unfold sim_LinkSetName. case_decide; [|done]. intros [= <-]. split_and!; try done.
  - eexists. split; [apply sim_LinkByName_ok; simpl; rewrite lookup_insert_eq, lname_set_attrs; done|].
    by rewrite lname_set_attrs.
  - intros n H1 H2. apply sim_LinkByName_ext. simpl.
    by rewrite lookup_insert_ne, lookup_delete_ne.
Qed.

Lemma sim_RuleDel_place r f k k' :
  ru_Family r = Some f → 0 < ru_Priority r → sim_RuleDel r k = (Ok tt, k') →
  (∃ r', ru_Priority r' = ru_Priority r ∧ plus_one r' (sim_rules k' f) (sim_rules k f)) ∧
  (∀ f', f' ≠ f → sim_rules k' f' = sim_rules k f') ∧
  (∀ n, sim_LinkByName n k' = sim_LinkByName n k) ∧ sim_routes k' = sim_routes k.
Proof.
  intros Hf _. unfold sim_RuleDel.
  destruct (remove_first _ _) as [[y rest]|] eqn:Hrm; [|done]. intros [= <-].
  apply remove_first_spec in Hrm as (Hy & l1 & l2 & Hl & ->).
  apply bool_decide_eq_true in Hy as (Hyf & _ & Hyp & _).
  unfold sim_rules. simpl. rewrite Hl.
  assert (ru_Family y = Some f) as Hyf' by congruence.
  split_and!; try done.
  - exists y. split; [done|]. by apply (plus_one_filter (λ r, ru_Family r = Some f) y _ _ (plus_one_mid _ _ _)).
  - intros f' Hne. symmetry. apply (plus_one_filter (λ r, ru_Family r = Some f') y _ _ (plus_one_mid _ _ _)). congruence.
Qed.

Lemma stored_dst r : rt_Dst (stored r) = rt_Dst r.
Proof. unfold stored. by case_decide. Qed.

Lemma stored_prefix r : dst_prefix (stored r) = dst_prefix r.
Proof. unfold dst_prefix. by rewrite stored_dst. Qed.

Lemma stored_valid r : valid_dst r → valid_dst (stored r).
Proof. unfold valid_dst. by rewrite stored_prefix, stored_dst. Qed.

Lemma dst_prefix_kernel r p :
  kernel_prefix p → rt_Dst r = Some (ToIPNet p) → dst_prefix r = Some p.
Proof. intros (Hwf & _ & H4) Hd. unfold dst_prefix. by rewrite Hd, FromIPNet_ToIPNet, H4. Qed.

Lemma stored_like r : route_like r (stored r).
Proof.
  split_and!.
  - unfold stored. by case_decide.
  - unfold stored. by case_decide.
  - unfold stored. case_decide; [|done]. unfold throw_indexes. set_solver.
  - unfold stored. by case_decide.
  - intros p Hp Hd. left. rewrite stored_prefix. by apply dst_prefix_kernel.
Qed.

Lemma sim_RouteAdd_place r d k k' :
  rt_Dst r = Some d → sim_RouteAdd r k = (Ok tt, k') →
  (∃ r', route_like r r' ∧ plus_one r' (sim_routes k (ipnet_family d)) (sim_routes k' (ipnet_family d))) ∧
  (∀ f', f' ≠ ipnet_family d → sim_routes k' f' = sim_routes k f') ∧
  (∀ n, sim_LinkByName n k' = sim_LinkByName n k) ∧ sim_rules k' = sim_rules k.
Proof.
  intros Hd. unfold sim_RouteAdd. case_bool_decide as Hp; [done|].
  destruct (existsb _ _); [done|]. intros [= <-].
  split_and!; try done; unfold sim_routes; simpl.
  - exists (stored r). split; [apply stored_like|]. rewrite filter_app.
    rewrite filter_cons_True by (split; [by rewrite stored_dst, Hd|by apply stored_valid]).
    rewrite filter_nil. apply plus_one_snoc.
  - intros f' Hf'. rewrite filter_app.
    rewrite filter_cons_False by (unfold in_family; rewrite stored_dst, Hd; simpl; intros [[=] _]; done).
    by rewrite filter_nil, app_nil_r.
Qed.

Lemma in_family_lists r p f :
  in_family f r → lists_dst r p → dst_prefix r = Some p.
Proof. intros [Hf Hd] [?|[_ Hn]]; [done|]. by rewrite Hn in Hf. Qed.

Lemma FromAddr_bytes a : Forall is_byte (FromAddr a).
Proof. destruct a; [constructor|apply be_bytes_Forall..]. Qed.

Lemma sim_RouteAdd_exists r p k r0 :
  rt_Dst r = Some (ToIPNet p) → kernel_prefix p →
  r0 ∈ sim_routes k (ipnet_family (ToIPNet p)) → lists_dst r0 p →
  rt_Table r0 = rt_Table r → rt_Priority r0 = rt_Priority r → ∃ e, sim_RouteAdd r k = (Err e, k).
Proof.
  intros Hd Hp [Hf Hin]%list_elem_of_filter Hl Ht Hpr. exists eexist. unfold sim_RouteAdd.
  pose proof (dst_prefix_kernel r p Hp Hd) as Hdr.
  rewrite bool_decide_eq_false_2.
  2:{ intros Hn. apply Hn. split; [congruence|]. rewrite Hd. simpl. apply FromAddr_bytes. }
  assert (existsb (same_key r) (k_routes k) = true) as ->; [|done].
  apply existsb_exists. exists r0. split; [by apply list_elem_of_In|].
  apply bool_decide_eq_true. pose proof (in_family_lists _ _ _ Hf Hl). split_and!; congruence.
Qed.

Lemma sim_RouteDel_place r d p k k' :
  rt_Dst r = Some d → FromIPNet d = (p, true) → sim_RouteDel r k = (Ok tt, k') →
  (∃ r', rt_Table r' = rt_Table r ∧ (rt_LinkIndex r ≠ 0 → rt_LinkIndex r' = rt_LinkIndex r) ∧
     lists_dst r' p ∧ plus_one r' (sim_routes k' (ipnet_family d)) (sim_routes k (ipnet_family d))) ∧
  (∀ f', f' ≠ ipnet_family d → sim_routes k' f' = sim_routes k f') ∧
  (∀ n, sim_LinkByName n k' = sim_LinkByName n k) ∧ sim_rules k' = sim_rules k.
Proof.
  intros Hd Hp. unfold sim_RouteDel.
  destruct (remove_first _ _) as [[y rest]|] eqn:Hrm; [|done]. intros [= <-].
  apply remove_first_spec in Hrm as (Hy & l1 & l2 & Hl & ->).
  apply andb_true_iff in Hy as [[(Hyd & Hyt & Hyp)%bool_decide_eq_true Hyi%bool_decide_eq_true]%andb_true_iff
    [Hyf Hyv]%bool_decide_eq_true].
  assert (dst_prefix r = Some p) as Hrp by (unfold dst_prefix; by rewrite Hd, Hp).
  rewrite Hd in Hyf. unfold sim_routes. simpl. rewrite Hl.
  assert (in_family (ipnet_family d) y) as Hin by (split; [exact Hyf|exact Hyv]).
  split_and!; try done.
  - exists y. split_and!; [done|done|left; congruence|].
    by apply (plus_one_filter (in_family (ipnet_family d)) y _ _ (plus_one_mid _ _ _)).
  - intros f' Hne. symmetry. apply (plus_one_filter (in_family f') y _ _ (plus_one_mid _ _ _)).
    intros [Hf' _]. rewrite Hyf in Hf'. simpl in Hf'. congruence.
Qed.

#[export] Program Instance SimLaws : NetlinkLaws Kern := {|
  rules := sim_rules;
  routes := sim_routes;
|}.
Next Obligation. by intros n k l [_ ?]%sim_LinkByName_ok. Qed.
Next Obligation. exact sim_LinkAdd_ok. Qed.
Next Obligation.
  intros l k l' k'. simpl. unfold sim_LinkAdd. destruct (is_ok _); [done|]. intros [= <- _].
  rewrite lname_set_attrs. unfold throw_indexes. cbn [Index]. rewrite !elem_of_cons, elem_of_nil.
  pose proof (fresh_index_spec k). lia.
Qed.
Next Obligation. exact sim_LinkAdd_unique. Qed.
Next Obligation.
  intros a o k l' k' _ _ _. simpl. unfold sim_LinkAdd. destruct (is_ok _); [done|]. intros [= _ <-].
  eexists. split; [apply sim_LinkByName_ok; simpl; by rewrite lookup_insert_eq|done].
Qed.
Next Obligation. intros l k x Hx. simpl in *. exists eexist. unfold sim_LinkAdd. by rewrite Hx. Qed.
Next Obligation. intros l k e k'. simpl. unfold sim_LinkAdd. case_match; congruence. Qed.
Next Obligation. intros l k k' _. apply sim_LinkDel_ok. Qed.
Next Obligation. intros l k e k'. simpl. unfold sim_LinkDel. case_match; congruence. Qed.
Next Obligation. intros l k k'. simpl. unfold sim_LinkSetUp. case_match; [|done]. by intros [= <-]. Qed.
Next Obligation. intros l k e k'. simpl. unfold sim_LinkSetUp. case_match; congruence. Qed.
Next Obligation. intros l new k k' _. apply sim_LinkSetName_ok. Qed.
Next Obligation. exact sim_LinkSetName_unique. Qed.
Next Obligation. intros l new k e k'. simpl. unfold sim_LinkSetName. case_decide; congruence. Qed.
Next Obligation. by intros r k f [? _]%list_elem_of_filter. Qed.
Next Obligation. by intros f k l [= <-]. Qed.
Next Obligation. by intros f t k l [= <-]. Qed.
Next Obligation.
  intros r f k k' Hf. simpl. unfold sim_RuleAdd. case_decide; [done|]. case_decide; [done|]. intros [= <-].
  unfold sim_rules. simpl. split_and!; try done.
  - exists r. split; [done|]. rewrite filter_app, filter_cons_True by done. rewrite filter_nil.
    apply plus_one_snoc.
  - intros f' Hne. rewrite filter_app, filter_cons_False by congruence.
    by rewrite filter_nil, app_nil_r.
Qed.
Next Obligation. intros r k e k'. simpl. unfold sim_RuleAdd. repeat case_decide; congruence. Qed.
Next Obligation.
  intros r f k r0 Hf _ [Hf0 Hin]%list_elem_of_filter Hl. simpl. unfold sim_RuleAdd. case_decide; [eauto|].
  rewrite decide_True; [eauto|]. apply Exists_exists. exists r0. split_and!; [done|congruence|done].
Qed.
Next Obligation. done. Qed.
Next Obligation. exact sim_RuleDel_place. Qed.
Next Obligation. intros r k e k'. simpl. unfold sim_RuleDel. repeat case_match; congruence. Qed.
Next Obligation. by intros f t k l [= <-]. Qed.
Next Obligation. exact sim_RouteAdd_place. Qed.
Next Obligation. exact sim_RouteAdd_exists. Qed.
Next Obligation. intros r k e k'. simpl. unfold sim_RouteAdd. repeat case_match; congruence. Qed.
Next Obligation. exact sim_RouteDel_place. Qed.
Next Obligation. intros r k e k'. simpl. unfold sim_RouteDel. repeat case_match; congruence. Qed.
Next Obligation.
  intros r d k f [[Hf [Hp _]] _]%list_elem_of_filter Hd. unfold dst_prefix in Hp. rewrite Hd in Hf, Hp.
  simpl in Hf. split; [congruence|]. destruct (FromIPNet d) as [p []]; [by exists p|done].
Qed.
Next Obligation. intros r d k f [[_ [_ Hb]] _]%list_elem_of_filter Hd. by rewrite Hd in Hb. Qed.
Next Obligation. done. Qed.

#[export] Instance SimHost : HostLaws Kern.
Proof. split; intros; done. Qed.
