(* ===== verification/Routing.v ===== *)
(** * Policy routing: which route a packet takes

    An executable specification of what Linux does with the rules and routes
    pona installs (ip-rule(8), ip-route(8)): rules are tried in the order of
    their priorities; a rule that selects the packet looks its table up by
    longest prefix, then lowest metric; a [throw] route, or no route, hands the
    packet to the next rule.  [ClientPath] and [ReturnPath] state with it where
    the packets of a client pod and of an egress pod go. *)
From Stdlib Require Import Ascii String.
From S2P Require Import Prelude GoStrings NetAddr NetIPUtil Netlink.

Local Open Scope Z_scope.

(** What the selectors of a rule see of a packet. *)
Record Packet := mkPacket { pkt_dst : Addr; pkt_iif : string }.

Definition addr_val (a : Addr) : Z :=
  match a with AddrInvalid => 0 | AddrV4 v => v | AddrV6 v _ => v end.

(** [netip.Prefix.Contains], for a prefix with a valid length. *)
Definition contains (p : Prefix) (a : Addr) : bool :=
  bool_decide (BitLen (p_ip p) = BitLen a) &&
  bool_decide (addr_val (p_ip p) / 2 ^ (BitLen a - Prefix_Bits p) = addr_val a / 2 ^ (BitLen a - Prefix_Bits p)).

(** ** One table *)

(** A route listed with no destination is a default route. *)
Definition route_covers (a : Addr) (r : Route) : bool :=
  match rt_Dst r with
  | None => true
  | Some _ => match dst_prefix r with Some p => contains p a | None => false end
  end.

Definition route_bits (r : Route) : Z :=
  match dst_prefix r with Some p => Prefix_Bits p | None => 0 end.

(** The longer prefix wins, then the lower metric. *)
Definition better (r1 r2 : Route) : bool :=
  (route_bits r2 <? route_bits r1) ||
  ((route_bits r1 =? route_bits r2) && (rt_Priority r1 <=? rt_Priority r2)).

Definition choose_better (r : Route) (o : option Route) : option Route :=
  match o with
  | Some b => if better r b then Some r else Some b
  | None => Some r
  end.

Definition fib_lookup (l : list Route) (a : Addr) : option Route :=
  foldr choose_better None (filter (λ r, route_covers a r = true) l).

Lemma better_refl r : better r r = true.
Proof. unfold better. apply orb_true_iff. right. rewrite Z.eqb_refl, Z.leb_refl. done. Qed.

Lemma better_total r1 r2 : better r1 r2 = false → better r2 r1 = true.
Proof. unfold better. intros H. apply orb_false_iff in H as [H1 H2]. lia. Qed.

Lemma better_trans r1 r2 r3 : better r1 r2 = true → better r2 r3 = true → better r1 r3 = true.
Proof. unfold better. lia. Qed.

Lemma choose_spec l :
  match foldr choose_better None l with
  | Some r => r ∈ l ∧ ∀ r', r' ∈ l → better r r' = true
  | None => l = []
  end.
Proof.
  induction l as [|x l IH]; simpl; [done|].
  destruct (foldr choose_better None l) as [b|]; simpl.
  - destruct IH as [Hin Hb]. destruct (better x b) eqn:Hx; (split; [set_solver|]).
    + intros r' [->|Hr']%elem_of_cons; [apply better_refl|]. eapply better_trans; [done|auto].
    + intros r' [->|Hr']%elem_of_cons; [by apply better_total|auto].
  - subst. split; [set_solver|]. intros r' [->|[]%elem_of_nil]%elem_of_cons. apply better_refl.
Qed.

Lemma fib_lookup_Some l a r :
  fib_lookup l a = Some r →
  r ∈ l ∧ route_covers a r = true ∧ ∀ r', r' ∈ l → route_covers a r' = true → better r r' = true.
Proof.
  unfold fib_lookup. intros H. pose proof (choose_spec (filter (λ r, route_covers a r = true) l)) as Hs.
  rewrite H in Hs. destruct Hs as [[Hc Hin]%list_elem_of_filter Hb]. split_and!; [done..|].
  intros r' Hr' Hc'. apply Hb. by apply list_elem_of_filter.
Qed.

Lemma fib_lookup_None l a : fib_lookup l a = None ↔ ∀ r, r ∈ l → route_covers a r = false.
Proof.
  unfold fib_lookup. pose proof (choose_spec (filter (λ r, route_covers a r = true) l)) as Hs.
  destruct (foldr _ _ _) as [r|].
  - destruct Hs as [[Hc Hin]%list_elem_of_filter _]. split; [done|]. intros Ha. specialize (Ha _ Hin). congruence.
  - split; [|done]. intros _ r Hr. destruct (route_covers a r) eqn:Hc; [|done].
    exfalso. eapply (not_elem_of_nil r). rewrite <- Hs. by apply list_elem_of_filter.
Qed.

(** ** The rules *)

Fixpoint insert_rule (r : Rule) (l : list Rule) : list Rule :=
  match l with
  | [] => [r]
  | x :: l' => if ru_Priority r <=? ru_Priority x then r :: l else x :: insert_rule r l'
  end.

Definition by_priority (l : list Rule) : list Rule := foldr insert_rule [] l.

Lemma insert_rule_below r l1 l2 :
  Forall (λ x, ru_Priority x < ru_Priority r) l1 → insert_rule r (l1 ++ l2) = l1 ++ insert_rule r l2.
Proof.
  induction 1 as [|x l1 Hx _ IH]; simpl; [done|].
  destruct (Z.leb_spec (ru_Priority r) (ru_Priority x)); [lia|]. by rewrite IH.
Qed.

Lemma insert_rule_above r l1 l2 :
  Forall (λ x, ru_Priority r ≤ ru_Priority x) l2 → insert_rule r (l1 ++ l2) = insert_rule r l1 ++ l2.
Proof.
  intros H2. induction l1 as [|x l1 IH]; simpl.
  - destruct H2 as [|x l2 Hx _]; simpl; [done|].
    destruct (Z.leb_spec (ru_Priority r) (ru_Priority x)); [done|lia].
  - destruct (ru_Priority r <=? ru_Priority x); [done|]. by rewrite IH.
Qed.

Lemma insert_rule_perm r l : insert_rule r l ≡ₚ r :: l.
Proof.
  induction l as [|x l IH]; simpl; [done|]. destruct (_ <=? _); [done|]. rewrite IH. constructor.
Qed.

Lemma by_priority_perm l : by_priority l ≡ₚ l.
Proof. induction l as [|r l IH]; simpl; [done|]. by rewrite insert_rule_perm, IH. Qed.

Lemma by_priority_Forall (P : Rule → Prop) l : Forall P l → Forall P (by_priority l).
Proof. by rewrite by_priority_perm. Qed.

(** The rules of one priority stay together and in order. *)
Lemma by_priority_split p l :
  by_priority l =
    by_priority (filter (λ r, ru_Priority r < p) l) ++ filter (λ r, ru_Priority r = p) l ++
    by_priority (filter (λ r, p < ru_Priority r) l).
Proof.
  induction l as [|r l IH]; [done|].
  assert (∀ l, Forall (λ x, ru_Priority x < p) (by_priority (filter (λ r, ru_Priority r < p) l))) as Hlt.
  { intros l'. apply by_priority_Forall, Forall_forall. by intros x [? _]%list_elem_of_filter. }
  assert (∀ l, Forall (λ x, p < ru_Priority x) (by_priority (filter (λ r, p < ru_Priority r) l))) as Hgt.
  { intros l'. apply by_priority_Forall, Forall_forall. by intros x [? _]%list_elem_of_filter. }
  assert (Forall (λ x, ru_Priority x = p) (filter (λ r, ru_Priority r = p) l)) as Heq.
  { apply Forall_forall. by intros x [? _]%list_elem_of_filter. }
  change (by_priority (r :: l)) with (insert_rule r (by_priority l)). rewrite IH.
  destruct (Z.lt_trichotomy (ru_Priority r) p) as [Hr|[Hr|Hr]].
  - rewrite filter_cons_True, !(filter_cons_False _ r) by lia. cbn [by_priority foldr].
    apply insert_rule_above. apply Forall_app. split.
    + eapply Forall_impl; [exact Heq|]. simpl. lia.
    + eapply Forall_impl; [apply Hgt|]. simpl. lia.
  - rewrite (filter_cons_True (λ r, ru_Priority r = p)), !(filter_cons_False _ r) by lia.
    rewrite insert_rule_below by (eapply Forall_impl; [apply Hlt|]; simpl; lia). f_equal.
    apply (insert_rule_above r []). apply Forall_app. split.
    + eapply Forall_impl; [exact Heq|]. simpl. lia.
    + eapply Forall_impl; [apply Hgt|]. simpl. lia.
  - rewrite (filter_cons_True (λ r, p < ru_Priority r)), !(filter_cons_False _ r) by lia.
    rewrite insert_rule_below by (eapply Forall_impl; [apply Hlt|]; simpl; lia). f_equal.
    apply insert_rule_below. eapply Forall_impl; [exact Heq|]. simpl. lia.
Qed.

Section routing.
Context {K : Type} {NL : Netlink K} {L : NetlinkLaws K}.

(** What the selectors pona does not set do. *)
Context (selector : string * Z → Packet → bool).

Definition rule_selects (r : Rule) (pkt : Packet) : bool :=
  bool_decide (ru_IifName r = "" ∨ ru_IifName r = pkt_iif pkt) &&
  match ru_Dst r with
  | None => true
  | Some d => let '(p, ok) := FromIPNet d in ok && contains p (pkt_dst pkt)
  end && forallb (λ s, selector s pkt) (ru_other r).

(** The routes of a table that a packet of its family sees. *)
Definition table (k : K) (f : Family) (t : Z) : list Route := filter (λ r, rt_Table r = t) (routes k f).

(** What one rule does with a packet: the route it takes, or nothing. *)
Definition rule_route (k : K) (pkt : Packet) (r : Rule) : option Route :=
  if rule_selects r pkt then
    match fib_lookup (table k (addr_family (pkt_dst pkt)) (ru_Table r)) (pkt_dst pkt) with
    | Some rt => if decide (rt_Type rt = RTN_THROW) then None else Some rt
    | None => None
    end
  else None.

Definition first_route (k : K) (pkt : Packet) (l : list Rule) : option Route :=
  head (omap (rule_route k pkt) l).

(** The route of a packet. *)
Definition route_of (k : K) (pkt : Packet) : option Route :=
  first_route k pkt (by_priority (rules k (addr_family (pkt_dst pkt)))).

(** The route by the rules of smaller, or of greater, priority number than
    [p]. *)
Definition route_before (p : Z) (k : K) (pkt : Packet) : option Route :=
  first_route k pkt (by_priority (filter (λ r, ru_Priority r < p) (rules k (addr_family (pkt_dst pkt))))).
Definition route_after (p : Z) (k : K) (pkt : Packet) : option Route :=
  first_route k pkt (by_priority (filter (λ r, p < ru_Priority r) (rules k (addr_family (pkt_dst pkt))))).

Definition or_else (a b : option Route) : option Route := match a with Some _ => a | None => b end.

Lemma first_route_app k pkt l1 l2 :
  first_route k pkt (l1 ++ l2) = or_else (first_route k pkt l1) (first_route k pkt l2).
Proof.
  unfold first_route. rewrite omap_app. by destruct (omap (rule_route k pkt) l1).
Qed.

(** A family with one rule of priority [p]. *)
Lemma route_of_one p r k pkt :
  filter (λ r, ru_Priority r = p) (rules k (addr_family (pkt_dst pkt))) = [r] →
  route_of k pkt = or_else (route_before p k pkt) (or_else (rule_route k pkt r) (route_after p k pkt)).
Proof.
  intros Hr. unfold route_of. rewrite (by_priority_split p), Hr, !first_route_app.
  f_equal. f_equal. unfold first_route. simpl. by destruct (rule_route k pkt r).
Qed.

(** A family with no rule of priority [p]. *)
Lemma route_of_none p k pkt :
  filter (λ r, ru_Priority r = p) (rules k (addr_family (pkt_dst pkt))) = [] →
  route_of k pkt = or_else (route_before p k pkt) (route_after p k pkt).
Proof. intros Hr. unfold route_of. by rewrite (by_priority_split p), Hr, !first_route_app. Qed.

(** Two states in which every rule of a list does the same with a packet. *)
Lemma first_route_ext k k' pkt l :
  (∀ r, r ∈ l → rule_route k' pkt r = rule_route k pkt r) → first_route k' pkt l = first_route k pkt l.
Proof.
  intros Hl. unfold first_route. f_equal. induction l as [|r l IH]; [done|].
  change (omap (rule_route k' pkt) (r :: l)) with
    (match rule_route k' pkt r with Some y => y :: omap (rule_route k' pkt) l | None => omap (rule_route k' pkt) l end).
  rewrite IH, Hl by set_solver. done.
Qed.

Lemma rule_route_lookup k k' pkt r :
  fib_lookup (table k' (addr_family (pkt_dst pkt)) (ru_Table r)) (pkt_dst pkt) =
    fib_lookup (table k (addr_family (pkt_dst pkt)) (ru_Table r)) (pkt_dst pkt) →
  rule_route k' pkt r = rule_route k pkt r.
Proof. intros Hl. unfold rule_route. by rewrite Hl. Qed.

(** The rules of other priorities than [p] are the same and do the same. *)
Definition others_agree (p : Z) (k k' : K) (pkt : Packet) : Prop :=
  let f := addr_family (pkt_dst pkt) in
  filter (λ r, ru_Priority r ≠ p) (rules k' f) = filter (λ r, ru_Priority r ≠ p) (rules k f) ∧
  ∀ r, r ∈ rules k f → ru_Priority r ≠ p → rule_route k' pkt r = rule_route k pkt r.

Lemma sides_agree p k k' pkt :
  others_agree p k k' pkt →
  route_before p k' pkt = route_before p k pkt ∧ route_after p k' pkt = route_after p k pkt.
Proof.
  intros [Hf Hr]. unfold route_before, route_after. set (f := addr_family (pkt_dst pkt)) in *.
  assert (∀ P : Rule → Prop, ∀ D : (∀ r, Decision (P r)), (∀ r, P r → ru_Priority r ≠ p) →
    first_route k' pkt (by_priority (filter P (rules k' f))) = first_route k pkt (by_priority (filter P (rules k f)))) as Hside.
  { intros P D HP.
    assert (∀ l : list Rule, filter P (filter (λ r, ru_Priority r ≠ p) l) = filter P l) as Hff.
    { intros l. rewrite list_filter_filter. apply list_filter_iff. intros r. split; [by intros []|eauto]. }
    rewrite <- (Hff (rules k' f)), Hf, Hff. apply first_route_ext. intros r.
    rewrite by_priority_perm. intros [HPr Hin]%list_elem_of_filter. auto. }
  split; apply Hside; intros r; lia.
Qed.

(** A rule without further selectors. *)
Lemma plain_rule_selects r pkt :
  ru_Dst r = None → ru_other r = [] →
  rule_selects r pkt = bool_decide (ru_IifName r = "" ∨ ru_IifName r = pkt_iif pkt).
Proof. intros Hd Ho. unfold rule_selects. rewrite Hd, Ho. simpl. by rewrite !andb_true_r. Qed.
End routing.

Arguments rule_selects selector !r pkt / : assert.
