(* ===== verification/Tunnel.v ===== *)
(** * pkg/tunnel and the gateway interface: what the pod watcher is given

    [Tunnel W] is Go's [tunnel.Controller] and [Gateway W] is [nat.Gateway],
    both acting on a world [W].  The [Laws] classes state what each promises
    to its client; [FouTunnel], [NatGateway] and [Mocks] discharge them. *)
From Stdlib Require Import Ascii String.
From S2P Require Import Prelude GoStrings NetAddr Netlink.

Definition ErrIPFamilyMismatch : goerror :=
  ErrVar "tunnel.ErrIPFamilyMismatch" "no matching IP family".
Definition ErrNoIPProvided : goerror :=
  ErrVar "tunnel.ErrNoIPProvided" "both of IPs are nil".

Class Tunnel (W : Type) := {
  tun_Init : M W unit;
  tun_IsInitialized : W → bool;
  tun_AddPeer : Addr → M W Link;
  tun_DelPeer : Addr → M W unit;
}.

Class Gateway (W : Type) := {
  nat_Init : M W unit;
  nat_AddClient : Addr → Link → M W unit;
}.

(** Which addresses have a tunnel.  Two addresses may name one device, which
    [same_peer] says; deleting one deletes the other. *)
Class TunnelLaws (W : Type) {T : Tunnel W} := {
  same_peer : Addr → Addr → Prop;
  has_peer : W → Addr → Prop;
  same_peer_equiv :: Equivalence same_peer;
  has_peer_same w a b : same_peer a b → has_peer w a → has_peer w b;
  AddPeer_peer a w l w' : tun_AddPeer a w = (Ok l, w') → has_peer w' a;
  AddPeer_mono a w b : has_peer w b → has_peer (tun_AddPeer a w).2 b;
  AddPeer_frame a w b : ¬ same_peer a b → has_peer (tun_AddPeer a w).2 b → has_peer w b;
  DelPeer_gone a w w' : tun_DelPeer a w = (Ok tt, w') → ¬ has_peer w' a;
  DelPeer_frame a w b : ¬ same_peer a b → has_peer w b → has_peer (tun_DelPeer a w).2 b;
  DelPeer_mono a w b : has_peer (tun_DelPeer a w).2 b → has_peer w b;
}.

(** An address as pods have them: valid, without zone, and not the IPv6 form
    of an IPv4 address. *)
Definition canonical (a : Addr) : Prop :=
  wf_addr a ∧ a ≠ AddrInvalid ∧ withoutZone a = a ∧ Is4In6 a = false.

(** Setting up NAT for a client leaves the tunnels, and the other clients,
    alone. *)
Class GatewayLaws (W : Type) {T : Tunnel W} {TL : TunnelLaws W} {G : Gateway W} := {
  has_client : W → Addr → Prop;
  AddClient_client a l w w' : canonical a → nat_AddClient a l w = (Ok tt, w') → has_client w' a;
  AddClient_mono a l w b : canonical a → has_client w b → has_client (nat_AddClient a l w).2 b;
  AddClient_peers a l w b : canonical a → has_peer (nat_AddClient a l w).2 b ↔ has_peer w b;
}.

(** How the two share the namespace: while it is in order ([net_ok]), adding a
    tunnel keeps every client, and removing one keeps the clients of the
    others. *)
Class ServingLaws (W : Type) {T : Tunnel W} {TL : TunnelLaws W} {G : Gateway W} {GL : GatewayLaws W} := {
  net_ok : W → Prop;
  AddPeer_net a w : canonical a → net_ok w → net_ok (tun_AddPeer a w).2;
  AddClient_net a l w w' :
    canonical a → net_ok w → tun_AddPeer a w = (Ok l, w') → net_ok (nat_AddClient a l w').2;
  DelPeer_net a w : canonical a → net_ok w → net_ok (tun_DelPeer a w).2;
  AddPeer_client a w b : canonical a → net_ok w → has_client w b → has_client (tun_AddPeer a w).2 b;
  DelPeer_client a w b :
    canonical a → canonical b → net_ok w → ¬ same_peer a b → has_client w b → has_client (tun_DelPeer a w).2 b;
}.

#[export] Hint Resolve AddPeer_mono DelPeer_mono : go.

#[export] Instance has_peer_proper {W} `{TL : TunnelLaws W} w :
  Proper (same_peer ==> iff) (has_peer w).
Proof. intros a b Hab. split; apply has_peer_same; [done|by symmetry]. Qed.
