(* ===== verification/FouTunnel.v ===== *)
(** * pkg/tunnel/fou: Foo-over-UDP tunnels

    [FouTunnelController] of fou.go, every function of the file.  The state is
    the network namespace behind [Netlink]. *)
From Stdlib Require Import Ascii String.
From S2P Require Import Prelude GoStrings NetAddr NetParse NetIPUtil Sha1 Netlink SimKernel Tunnel.

Local Open Scope Z_scope.

Definition FoU4LinkPrefix : string := "fou4_".
Definition FoU6LinkPrefix : string := "fou6_".
Definition fouDummy : string := "fou-dummy".

Definition fouName (addr : Addr) : result string :=
  if Is4 addr then Ok (FoU4LinkPrefix +:+ hex_bytes (AsSlice addr))
  else if Is6 addr then
    let addrSlice := AsSlice addr in
    let hash := sha1_Sum addrSlice in
    Ok (FoU6LinkPrefix +:+ hex_bytes (take 4 hash))
  else Err (ErrText ("unknown ip families ip=" +:+ Addr_String addr)).

Record FouTunnelController := mkFouTunnelController {
  port : Z; local4 : option Addr; local6 : option Addr }.

Definition NewFoUTunnelController (port : Z) (localIPv4 localIPv6 : option Addr)
    : result FouTunnelController :=
  if from_option (λ a, negb (Is4 a)) false localIPv4 then Err ErrIPFamilyMismatch
  else if from_option (λ a, negb (Is6 a)) false localIPv6 then Err ErrIPFamilyMismatch
  else if bool_decide (localIPv4 = None ∧ localIPv6 = None) then Err ErrNoIPProvided
  else Ok (mkFouTunnelController port localIPv4 localIPv6).

(** Go's conversion [uint16(x)]. *)
Definition uint16 (x : Z) : Z := x mod 65536.

Section fou.
Context {K : Type} {NL : Netlink K}.

Definition modProbe (module : string) : M K unit := λ k,
  let '((out, err), k') := CombinedOutput "/sbin/modprobe" module k in
  match err with
  | Some e => (Err (ErrWrap ("modprobe " +:+ module +:+ " failed with ") e (": " +:+ out)), k')
  | None => (Ok tt, k')
  end.

Definition disableRPFilter : M K unit :=
  wrap (Errorf "setting net.ipv4.conf.default.rp_filter=0 failed: ")
    (Sysctl "net.ipv4.conf.default.rp_filter" "0");;
  wrap (Errorf "setting net.ipv4.conf.all.rp_filter=0 failed: ")
    (Sysctl "net.ipv4.conf.all.rp_filter" "0").

Definition initIPTables (t : FouTunnelController) (p : Family) : M K unit :=
  ask (ipt_NewWithProtocol p);;
  let rulespec := ["-p"; "udp"; "--dport"; Itoa (port t); "-j"; "CHECKSUM"; "--checksum-fill"] in
  wrap (Errorf "failed to setup mangle table: ")
    (ipt_Insert p "mangle" "POSTROUTING" 1 rulespec).

Definition Init4 (t : FouTunnelController) : M K unit :=
  wrap (Errorf "failed to disable RP Filter: ") disableRPFilter;;
  wrap (Errorf "failed to enable IPv4 forwarding: ") EnableIP4Forward;;
  wrap (Errorf "failed to load fou module: ") (modProbe "fou");;
  wrap (Errorf "netlink: fou addlink failed: ")
    (FouAdd (mkFou FAMILY_V4 4 (port t) FOU_ENCAP_DIRECT));;
  initIPTables t FAMILY_V4.

Definition Init6 (t : FouTunnelController) : M K unit :=
  wrap (Errorf "failed to enable IPv6 forwarding: ") EnableIP6Forward;;
  wrap (Errorf "failed to load fou module: ") (modProbe "fou6");;
  wrap (Errorf "netlink: fou addlink failed: ")
    (FouAdd (mkFou FAMILY_V6 41 (port t) FOU_ENCAP_DIRECT));;
  initIPTables t FAMILY_V6.

Definition with_name (a : LinkAttrs) (n : string) : LinkAttrs := mkLinkAttrs n (Index a) (TxQLen a).

Definition Init (t : FouTunnelController) : M K unit :=
  r ← try (ask (LinkByName fouDummy));
  match r with
  | Ok _ => mret tt
  | Err err =>
      if negb (errors_As_LinkNotFound err) then throw (Errorf "failed to initialize fou tunnel: " err)
      else
        (if local4 t is Some _ then Init4 t else mret tt);;
        (if local6 t is Some _ then Init6 t else mret tt);;
        let attrs := with_name NewLinkAttrs fouDummy in
        wrap (Errorf "failed to add dummy device: ") (LinkAdd (Dummy attrs));;
        mret tt
  end.

Definition IsInitialized (t : FouTunnelController) (k : K) : bool := is_ok (LinkByName fouDummy k).

(** configureDevice puts the given link into the up state *)
Definition configureDevice (link : Link) : M K unit :=
  wrap (Errorf ("netlink: failed to set link " +:+ lname link +:+ " up: ")) (LinkSetUp link).

Definition setupDevice (link : Link) : M K unit :=
  let name := lname link in
  r ← try (ask (LinkByName name));
  l ← match r with
      | Ok l => mret l
      | Err err =>
          if negb (errors_As_LinkNotFound err) then throw err
          else
            wrap (Errorf ("netlink: failed to create device " +:+ name +:+ ": ")) (LinkAdd link);;
            wrap (Errorf ("netlink: failed to retrieve created device " +:+ name +:+ ": "))
              (ask (LinkByName name))
      end;
  wrap (Errorf ("failed to set up device " +:+ lname l +:+ ": ")) (configureDevice l).

(** renameDevice returns nil when the device does not exist. *)
Definition renameDevice (from to : string) : M K unit :=
  r ← try (ask (LinkByName from));
  match r with
  | Err _ => mret tt
  | Ok link =>
      wrap (Errorf ("netlink: failed to rename device " +:+ from +:+ " to " +:+ to +:+ ": "))
        (LinkSetName link to)
  end.

Definition setupFlowBasedIP4TunDevice : M K unit :=
  let ipip4Device := "pona_ipip4" in
  wrap (Errorf ("creating " +:+ ipip4Device +:+ ": "))
    (setupDevice (Iptun (attrs_named ipip4Device) flow_based_opts));;
  wrap (Errorf "renaming fallback device tunl0: ") (renameDevice "tunl0" "pona_tunl").

Definition setupFlowBasedIP6TunDevice : M K unit :=
  let ipip6Device := "pona_ipip6" in
  wrap (Errorf ("creating " +:+ ipip6Device +:+ ": "))
    (setupDevice (Ip6tnl (attrs_named ipip6Device) flow_based_opts));;
  wrap (Errorf "renaming fallback device tunl0: ") (renameDevice "ip6tnl0" "pona_ip6tnl").

(** The tunnel literal of [addPeer4] and [addPeer6]: both build an [Iptun]. *)
Definition peer_link (t : FouTunnelController) (linkname : string) (addr local : Addr) : Link :=
  Iptun (with_name NewLinkAttrs linkname)
    (mkTunnelOpts 64 FOU_ENCAP_DIRECT (uint16 (port t)) 0 (FromAddr addr) (FromAddr local) false).

Definition addPeer4 (t : FouTunnelController) (addr : Addr) : M K Link :=
  match local4 t with
  | None => throw ErrIPFamilyMismatch
  | Some local =>
      linkname ← wrap (Errorf "failed to generate fou name: ") (lift (fouName addr));
      r ← try (ask (LinkByName linkname));
      match r with
      | Ok link => mret link (* if already exists, return old link *)
      | Err err =>
          if negb (errors_As_LinkNotFound err)
          then throw (Errorf "netlink: failed to get link by name: " err)
          else
            link ← wrap (Errorf "netlink: failed to add fou link: ")
                     (LinkAdd (peer_link t linkname addr local));
            wrap (Errorf "netlink: failed to setup ipip device: ") setupFlowBasedIP4TunDevice;;
            mret link
      end
  end.

Definition addPeer6 (t : FouTunnelController) (addr : Addr) : M K Link :=
  match local6 t with
  | None => throw ErrIPFamilyMismatch
  | Some local =>
      linkname ← wrap (Errorf "failed to generate fou name: ") (lift (fouName addr));
      r ← try (ask (LinkByName linkname));
      match r with
      | Ok link => mret link (* if already exists, return old link *)
      | Err err =>
          if negb (errors_As_LinkNotFound err)
          then throw (Errorf "netlink: failed to get link by name: " err)
          else
            link ← wrap (Errorf "netlink: failed to add fou link: ")
                     (LinkAdd (peer_link t linkname addr local));
            wrap (Errorf "netlink: failed to setup ipip device: ") setupFlowBasedIP6TunDevice;;
            mret link
      end
  end.

Definition AddPeer (t : FouTunnelController) (addr : Addr) : M K Link :=
  if Is4 addr then addPeer4 t addr
  else if Is6 addr then addPeer6 t addr
  else throw (ErrText ("unknown ip families ip=" +:+ Addr_String addr)).

Definition DelPeer (t : FouTunnelController) (addr : Addr) : M K unit :=
  linkName ← wrap (Errorf "failed to generate fou name: ") (lift (fouName addr));
  r ← try (ask (LinkByName linkName));
  match r with
  | Err err =>
      if errors_As_LinkNotFound err then mret tt
      else throw (Errorf "failed to delete interface: " err)
  | Ok link => LinkDel link
  end.
End fou.

(** ** Device names *)

(** Names the program gives to devices that are not tunnels to a peer, and the
    names of the devices it finds in a namespace. *)
Definition reserved_names : list string :=
  [fouDummy; "nat-dummy"; "pona_ipip4"; "pona_ipip6"; "tunl0"; "ip6tnl0"; "pona_tunl"; "pona_ip6tnl";
   "lo"; "eth0"].

Lemma fouName_shape a n :
  fouName a = Ok n →
  ∃ h, String.length h = 8%nat ∧
    ((Is4 a = true ∧ n = FoU4LinkPrefix +:+ h) ∨ (Is6 a = true ∧ n = FoU6LinkPrefix +:+ h)).
Proof.
  destruct a as [|v|v z]; [done| |]; intros [= <-].
  - exists (hex_bytes (be_bytes 4 v)). rewrite length_hex_bytes, length_be_bytes. auto.
  - exists (hex_bytes (take 4 (sha1_Sum (be_bytes 16 v)))).
    rewrite length_hex_bytes, length_take, length_sha1_Sum. auto.
Qed.

Lemma fouName_not_reserved a n : fouName a = Ok n → n ∉ reserved_names.
Proof.
  intros (h & _ & [[_ ->]|[_ ->]])%fouName_shape; unfold reserved_names;
    rewrite ?not_elem_of_cons; split_and!; try done; apply not_elem_of_nil.
Qed.

Lemma fouName_ne a n m : fouName a = Ok n → m ∈ reserved_names → n ≠ m.
Proof. intros Hn%fouName_not_reserved Hm ->. done. Qed.

Lemma markers_reserved : fouDummy ∈ reserved_names ∧ "nat-dummy" ∈ reserved_names.
Proof. by apply (bool_decide_unpack _). Qed.

Lemma fouName_valid a : a ≠ AddrInvalid → ∃ n, fouName a = Ok n.
Proof. destruct a; intros H; [done|..]; by eexists. Qed.

Lemma fouName_v4 v : fouName (AddrV4 v) = Ok (FoU4LinkPrefix +:+ hex_bytes (be_bytes 4 v)).
Proof. reflexivity. Qed.

Lemma fouName_v6 v z :
  fouName (AddrV6 v z) = Ok (FoU6LinkPrefix +:+ hex_bytes (take 4 (sha1_Sum (be_bytes 16 v)))).
Proof. reflexivity. Qed.

Lemma Ok_prefix_ne s t : Ok (FoU4LinkPrefix +:+ s) ≠ Ok (FoU6LinkPrefix +:+ t).
Proof. done. Qed.

Lemma Ok_append_inj p s t : Ok (p +:+ s) = Ok (p +:+ t) → s = t.
Proof. intros [= Heq]. exact (inj (String.app p) s t Heq). Qed.

(** ** What a successful or failed call leaves in the namespace *)

(** The devices [setupFlowBasedIP4TunDevice] and its IPv6 twin work on. *)
Definition aux_devices : list string :=
  ["pona_ipip4"; "pona_ipip6"; "tunl0"; "ip6tnl0"; "pona_tunl"; "pona_ip6tnl"].

Section fou_facts.
Context {K : Type} {NL : Netlink K} {L : NetlinkLaws K}.

Definition fou_frame (k k' : K) : Prop :=
  (∀ n, n ∉ aux_devices → LinkByName n k' = LinkByName n k) ∧ rules k' = rules k ∧
  (∀ f t, t ∉ kernel_tables →
     filter (λ r, rt_Table r = t) (routes k' f) = filter (λ r, rt_Table r = t) (routes k f)) ∧
  (index_unique k → index_unique k').

#[local] Instance fou_frame_preorder : PreOrder fou_frame.
Proof.
  split.
  - intros k. done.
  - intros k1 k2 k3 (H1 & H2 & H3 & Hu) (H4 & H5 & H6 & Hu2). split_and!; [|congruence| |by auto].
    + intros n Hn. rewrite H4, H1; done.
    + intros f t Ht. rewrite H6, H3; done.
Qed.

Lemma index_unique_same k k' :
  (∀ n, LinkByName n k' = LinkByName n k) → index_unique k → index_unique k'.
Proof. intros Hl Hu n1 n2 l1 l2. rewrite !Hl. apply Hu. Qed.

Lemma LinkAdd_aux l : lname l ∈ aux_devices → preserves fou_frame (LinkAdd l).
Proof.
  intros Hl k. destruct (LinkAdd l k) as [[l'|e] k'] eqn:H; simpl.
  - pose proof (LinkAdd_unique _ _ _ _ H) as Hu.
    apply LinkAdd_ok in H as (_ & _ & _ & Hf & Hr & Ht). split_and!; [|done|by rewrite Ht|done].
    intros n Hn. apply Hf; [congruence|]. unfold aux_devices, fallback_devices in *. set_solver.
  - by apply LinkAdd_err in H as ->.
Qed.

Lemma LinkSetUp_frame l : preserves fou_frame (LinkSetUp l).
Proof.
  intros k. destruct (LinkSetUp l k) as [[[]|e] k'] eqn:H; simpl.
  - apply LinkSetUp_ok in H as (Hl & Hr & Ht). split_and!; [done..|]. by apply index_unique_same.
  - by apply LinkSetUp_err in H as ->.
Qed.

Lemma renameDevice_frame from to :
  from ∈ aux_devices → to ∈ aux_devices → preserves fou_frame (renameDevice from to).
Proof.
  intros Hf Ht k. unfold renameDevice, mbind, M_bind, try, ask, wrap.
  destruct (LinkByName from k) as [l|e] eqn:Hl; [|done].
  pose proof (LinkByName_name _ _ _ Hl) as Hn.
  destruct (LinkSetName l to k) as [[[]|e] k'] eqn:H; simpl.
  - pose proof (LinkSetName_unique l to k k') as Hu. rewrite Hn in Hu. specialize (Hu Hl H).
    apply LinkSetName_ok in H as (_ & Ho & Hr & Hrt); [|by rewrite Hn].
    split_and!; [|done|by rewrite Hrt|done]. intros n Hne. apply Ho; congruence.
  - by apply LinkSetName_err in H as ->.
Qed.

Lemma setupDevice_frame l : lname l ∈ aux_devices → preserves fou_frame (setupDevice l).
Proof.
  intros Hl. unfold setupDevice, configureDevice.
  apply preserves_bind; [apply _|by auto with go typeclass_instances|]. intros [x|err].
  - apply preserves_bind; [apply _|by auto with go typeclass_instances|].
    intros y. do 2 apply preserves_wrap; try apply _. apply LinkSetUp_frame.
  - apply preserves_bind; [apply _| |].
    + case_match; [by auto with go typeclass_instances|].
      apply preserves_bind; [apply _|apply preserves_wrap; by apply LinkAdd_aux|].
      intros _. apply preserves_wrap, preserves_ask. apply _.
    + intros y. do 2 apply preserves_wrap; try apply _. apply LinkSetUp_frame.
Qed.

Lemma setup4_frame : preserves fou_frame setupFlowBasedIP4TunDevice.
Proof.
  apply preserves_bind; [apply _|apply preserves_wrap, setupDevice_frame; set_solver|].
  intros _. apply preserves_wrap, renameDevice_frame; set_solver.
Qed.

Lemma setup6_frame : preserves fou_frame setupFlowBasedIP6TunDevice.
Proof.
  apply preserves_bind; [apply _|apply preserves_wrap, setupDevice_frame; set_solver|].
  intros _. apply preserves_wrap, renameDevice_frame; set_solver.
Qed.

(** [addPeer4] and [addPeer6] are one function of the local address and the
    set-up of the flow-based device. *)
Definition addPeer_gen (loc : option Addr) (setup : M K unit)
    (t : FouTunnelController) (addr : Addr) : M K Link :=
  match loc with
  | None => throw ErrIPFamilyMismatch
  | Some local =>
      linkname ← wrap (Errorf "failed to generate fou name: ") (lift (fouName addr));
      r ← try (ask (LinkByName linkname));
      match r with
      | Ok link => mret link
      | Err err =>
          if negb (errors_As_LinkNotFound err)
          then throw (Errorf "netlink: failed to get link by name: " err)
          else
            link ← wrap (Errorf "netlink: failed to add fou link: ")
                     (LinkAdd (peer_link t linkname addr local));
            wrap (Errorf "netlink: failed to setup ipip device: ") setup;;
            mret link
      end
  end.

(** Every way [addPeer_gen] can end. *)
Inductive peer_run (loc : option Addr) (setup : M K unit) (t : FouTunnelController)
    (a : Addr) (n : string) (k : K) : result Link * K → Prop :=
| pr_mismatch : loc = None → peer_run loc setup t a n k (Err ErrIPFamilyMismatch, k)
| pr_old lc l : loc = Some lc → LinkByName n k = Ok l → peer_run loc setup t a n k (Ok l, k)
| pr_lookup lc e : loc = Some lc → LinkByName n k = Err e → errors_As_LinkNotFound e = false →
    peer_run loc setup t a n k (Err (Errorf "netlink: failed to get link by name: " e), k)
| pr_add lc e e' : loc = Some lc → LinkByName n k = Err e → errors_As_LinkNotFound e = true →
    LinkAdd (peer_link t n a lc) k = (Err e', k) →
    peer_run loc setup t a n k (Err (Errorf "netlink: failed to add fou link: " e'), k)
| pr_setup lc e l k1 e' k2 : loc = Some lc → LinkByName n k = Err e → errors_As_LinkNotFound e = true →
    LinkAdd (peer_link t n a lc) k = (Ok l, k1) → setup k1 = (Err e', k2) →
    peer_run loc setup t a n k (Err (Errorf "netlink: failed to setup ipip device: " e'), k2)
| pr_new lc e l k1 k2 : loc = Some lc → LinkByName n k = Err e → errors_As_LinkNotFound e = true →
    LinkAdd (peer_link t n a lc) k = (Ok l, k1) → setup k1 = (Ok tt, k2) →
    peer_run loc setup t a n k (Ok l, k2).

Lemma addPeer_gen_run loc setup t a n k :
  fouName a = Ok n → peer_run loc setup t a n k (addPeer_gen loc setup t a k).
Proof.
  intros Hn. unfold addPeer_gen. destruct loc as [lc|]; [|by apply pr_mismatch].
  unfold mbind, M_bind, wrap, lift, try, ask. rewrite Hn.
  destruct (LinkByName n k) as [l|e] eqn:Hl; [by eapply pr_old|].
  destruct (errors_As_LinkNotFound e) eqn:He; simpl; [|by eapply pr_lookup].
  destruct (LinkAdd _ k) as [[l|e'] k1] eqn:Hadd; simpl.
  - destruct (setup k1) as [[[]|e'] k2] eqn:Hs; [by eapply pr_new|by eapply pr_setup].
  - pose proof (LinkAdd_err _ _ _ _ Hadd) as ->. by eapply pr_add.
Qed.

(** The local address and set-up [AddPeer] uses for an address. *)
Definition local_for (t : FouTunnelController) (a : Addr) : option Addr :=
  if Is4 a then local4 t else local6 t.
Definition setup_for (a : Addr) : M K unit :=
  if Is4 a then setupFlowBasedIP4TunDevice else setupFlowBasedIP6TunDevice.

Lemma AddPeer_run t a n k :
  fouName a = Ok n → peer_run (local_for t a) (setup_for a) t a n k (AddPeer t a k).
Proof.
  intros Hn. destruct a as [|v|v z]; [done|..]; by apply (addPeer_gen_run _ _ t _ n k).
Qed.

Lemma setup_for_frame a : preserves fou_frame (setup_for a).
Proof. unfold setup_for. destruct (Is4 a); [apply setup4_frame|apply setup6_frame]. Qed.

Lemma aux_reserved n : n ∈ aux_devices → n ∈ reserved_names.
Proof. unfold aux_devices, reserved_names. set_solver. Qed.

Lemma frame_fou_link a n k k' :
  fouName a = Ok n → fou_frame k k' → LinkByName n k' = LinkByName n k.
Proof.
  intros Hn (Hf & _ & _ & _). apply Hf. intros Haux%aux_reserved.
  by apply (fouName_not_reserved a n).
Qed.
End fou_facts.

(** The constructor checks the families of the local addresses. *)
Lemma NewFoUTunnelController_families p a b t :
  NewFoUTunnelController p a b = Ok t →
  t = mkFouTunnelController p a b ∧ (∀ x, a = Some x → Is4 x = true) ∧ (∀ x, b = Some x → Is6 x = true).
Proof.
  unfold NewFoUTunnelController. destruct a as [x|], b as [y|]; simpl;
    try destruct (Is4 x) eqn:H4; try destruct (Is6 y) eqn:H6; simpl; try done;
    try case_match; try done; intros [= <-]; (split_and!; [done|..]); congruence.
Qed.

(** ** The controller implements the tunnel interface *)

Section fou_interface.
Context {K : Type} {NL : Netlink K} {L : NetlinkLaws K}.

Definition fou_tunnel (t : FouTunnelController) : Tunnel K := {|
  tun_Init := Init t;
  tun_IsInitialized := IsInitialized t;
  tun_AddPeer := AddPeer t;
  tun_DelPeer := DelPeer t;
|}.

Definition fou_has_peer (k : K) (a : Addr) : Prop :=
  ∃ n l, fouName a = Ok n ∧ LinkByName n k = Ok l.

Lemma fou_has_peer_mono k k' a n :
  fouName a = Ok n → (∀ l, LinkByName n k = Ok l → ∃ l', LinkByName n k' = Ok l') →
  fou_has_peer k a → fou_has_peer k' a.
Proof.
  intros Hn Hk (n' & l & Hn' & Hl). assert (n' = n) as -> by congruence.
  destruct (Hk l Hl) as [l' Hl']. by exists n, l'.
Qed.

Lemma fou_AddPeer_link t a n k l k' :
  fouName a = Ok n → AddPeer t a k = (Ok l, k') →
  ∃ l2, LinkByName n k' = Ok l2 ∧ lindex l2 = lindex l ∧ lname l = n.
Proof.
  intros Hn H. pose proof (AddPeer_run t a n k Hn) as Hrun. rewrite H in Hrun.
  inversion Hrun as [| | | | |]; subst.
  - eexists. split_and!; try done. by eapply LinkByName_name.
  - match goal with Ha : LinkAdd _ _ = (Ok _, _), Hs : setup_for _ _ = _ |- _ =>
      apply LinkAdd_ok in Ha as ((l2 & Hl2 & Hi) & Hnm & _);
      pose proof (setup_for_frame a k1) as Hf; rewrite Hs in Hf end.
    simpl in *. exists l2. rewrite (frame_fou_link a n _ _ Hn Hf). done.
Qed.

(** The ends of the tunnel to a peer: the port of the controller, cut to 16
    bits, and both addresses. *)
Definition peer_ends (port : Z) (a lc : Addr) : EncapKind * Z * IP * IP :=
  (FOU_ENCAP_DIRECT, uint16 port, FromAddr a, FromAddr lc).

Lemma uint16_range x : 0 ≤ uint16 x < 65536.
Proof. unfold uint16. by apply Z.mod_pos_bound. Qed.

Lemma length_FromAddr4 a : Is4 a = true → List.length (FromAddr a) = 4%nat.
Proof. destruct a; [done| |done]. intros _. apply (length_be_bytes 4). Qed.

(** A device that joins the local IPv4 address to a peer. *)
Definition joins (t : FouTunnelController) (a : Addr) (l : Link) : Prop :=
  ∃ lc, local4 t = Some lc ∧ fou_ends l = Some (peer_ends (port t) a lc).

(** The device of a peer that had none, whatever [AddPeer] returns. *)
Lemma fou_AddPeer_joins t a n e k l :
  (∀ x, local4 t = Some x → Is4 x = true) → fouName a = Ok n → Is4 a = true →
  LinkByName n k = Err e → LinkByName n (AddPeer t a k).2 = Ok l → joins t a l.
Proof.
  intros Hfam Hn H4 He Hl.
  assert (∀ lc l' k1, local_for t a = Some lc → LinkAdd (peer_link t n a lc) k = (Ok l', k1) →
    LinkByName n k1 = Ok l → joins t a l) as Hadd.
  { unfold local_for. rewrite H4. intros lc l' k1 Hlc HA Hl1.
    apply LinkAdd_ends in HA as (l2 & Hl2 & Hends);
      [|apply length_FromAddr4; by auto..|apply uint16_range].
    simpl in Hl2. rewrite Hl1 in Hl2. injection Hl2 as <-. by exists lc. }
  destruct (AddPeer_run t a n k Hn) as [|lc l'|lc e'|lc e' e2|lc e' l' k1 e2 k2 ? ? ? Ha Hs|lc e' l' k1 k2 ? ? ? Ha Hs];
    simpl in Hl; try congruence.
  all: pose proof (setup_for_frame a k1) as Hf; rewrite Hs in Hf; simpl in Hf.
  all: rewrite (frame_fou_link a n _ _ Hn Hf) in Hl; by eapply Hadd.
Qed.

(** Lookups of other tunnels, and of existing ones, survive [AddPeer]. *)
Lemma fou_AddPeer_keeps t a n b m k :
  fouName a = Ok n → fouName b = Ok m →
  (∀ l, LinkByName m k = Ok l → ∃ l', LinkByName m (AddPeer t a k).2 = Ok l') ∧
  (m ≠ n → LinkByName m (AddPeer t a k).2 = LinkByName m k).
Proof.
  intros Hn Hm.
  assert (∀ lc l k1, LinkAdd (peer_link t n a lc) k = (Ok l, k1) →
    (∀ l, LinkByName m k = Ok l → ∃ l', LinkByName m k1 = Ok l') ∧
    (m ≠ n → LinkByName m k1 = LinkByName m k)) as Hadd.
  { intros lc l k1 ((l2 & Hl2 & _) & _ & Hx & Hf & _)%LinkAdd_ok. simpl in *. split.
    - intros l0 Hl0. destruct (decide (m = n)) as [->|Hne]; [eauto|].
      exists l0. by apply Hx.
    - intros Hne. apply Hf; [done|]. intros Hfb. apply (fouName_not_reserved b m Hm).
      unfold reserved_names, fallback_devices in *. set_solver. }
  destruct (AddPeer_run t a n k Hn) as [|lc l|lc e|lc e e'|lc e l k1 e' k2 ? ? ? Ha Hs|lc e l k1 k2 ? ? ? Ha Hs];
    simpl; try (split; [by eauto|done]).
  all: pose proof (setup_for_frame a k1) as Hf; rewrite Hs in Hf; simpl in Hf.
  all: rewrite (frame_fou_link b m _ _ Hm Hf); exact (Hadd _ _ _ Ha).
Qed.

(** A device of the package's own does not touch the peers' devices. *)
Lemma LinkAdd_reserved l k l' k' a n :
  LinkAdd l k = (Ok l', k') → fouName a = Ok n → lname l ∈ reserved_names → LinkByName n k' = LinkByName n k.
Proof.
  intros (_ & _ & _ & Hf & _)%LinkAdd_ok Hn Hl. apply Hf; [by eapply fouName_ne|].
  intros Hfb. apply (fouName_not_reserved a n Hn). unfold reserved_names, fallback_devices in *. set_solver.
Qed.

Lemma fou_invalid a : fouName a = Err (ErrText "unknown ip families ip=invalid IP") ∨ ∃ n, fouName a = Ok n.
Proof. destruct a; [by left|right; by eexists..]. Qed.

(** [AddPeer] touches no rule and none of the tables pona keeps, and no link
    there is but the package's own. *)
Lemma fou_AddPeer_net t a k :
  let k' := (AddPeer t a k).2 in
  rules k' = rules k ∧
  (∀ f x, x ∉ kernel_tables →
    filter (λ r, rt_Table r = x) (routes k' f) = filter (λ r, rt_Table r = x) (routes k f)) ∧
  (index_unique k → index_unique k') ∧
  (∀ n l, n ∉ aux_devices → LinkByName n k = Ok l → LinkByName n k' = Ok l).
Proof.
  destruct (fou_invalid a) as [Hi|[n Hn]]; [by destruct a|].
  destruct (AddPeer_run t a n k Hn) as [|lc l|lc e|lc e e'|lc e l k1 e' k2 ? He ? Ha Hs|lc e l k1 k2 ? He ? Ha Hs];
    simpl; try done.
  all: pose proof (LinkAdd_unique _ _ _ _ Ha) as Hu; apply LinkAdd_ok in Ha as (_ & _ & Hold & _ & Hr & Ht).
  all: pose proof (setup_for_frame a k1) as (Hl & Hr2 & Ht2 & Hu2); rewrite Hs in *; simpl in *.
  all: split_and!; [congruence|intros f x Hx; by rewrite Ht2, Ht|by auto|].
  all: intros m l0 Hm Hl0; rewrite Hl by done; apply Hold; [|done]; intros ->; congruence.
Qed.

(** Every way [DelPeer] can end. *)
Lemma fou_DelPeer_run t a n k :
  fouName a = Ok n →
  (∃ l, LinkByName n k = Ok l ∧ DelPeer t a k = LinkDel l k) ∨
  (∃ e, LinkByName n k = Err e ∧ errors_As_LinkNotFound e = true ∧ DelPeer t a k = (Ok tt, k)) ∨
  (∃ e, LinkByName n k = Err e ∧ errors_As_LinkNotFound e = false ∧
     DelPeer t a k = (Err (Errorf "failed to delete interface: " e), k)).
Proof.
  intros Hn. unfold DelPeer, mbind, M_bind, wrap, lift, try, ask. rewrite Hn.
  destruct (LinkByName n k) as [l|e]; [by eauto|]. right.
  destruct (errors_As_LinkNotFound e) eqn:He; [left|right]; by exists e.
Qed.

Lemma fou_DelPeer_lookup t a n k :
  fouName a = Ok n →
  (∀ k', DelPeer t a k = (Ok tt, k') →
     ∃ e, LinkByName n k' = Err e ∧ errors_As_LinkNotFound e = true) ∧
  (∀ m, m ≠ n → LinkByName m (DelPeer t a k).2 = LinkByName m k) ∧
  (∀ l, LinkByName n (DelPeer t a k).2 = Ok l → LinkByName n k = Ok l).
Proof.
  intros Hn. destruct (fou_DelPeer_run t a n k Hn) as [(l & Hl & ->)|[(e & Hl & He & ->)|(e & Hl & He & ->)]].
  - pose proof (LinkByName_name _ _ _ Hl) as Hnm.
    destruct (LinkDel l k) as [[[]|e] k'] eqn:Hd.
    + apply LinkDel_ok in Hd as ((m & Hm) & Ho & _); [|by rewrite Hnm]. rewrite Hnm in Hm, Ho. simpl.
      split_and!; [intros ? [= <-]|done|intros x; by rewrite Hm]. by exists (ErrLinkNotFound m).
    + apply LinkDel_err in Hd as ->. by split_and!.
  - split_and!; [intros ? [= <-]|done|done]. by exists e.
  - by split_and!.
Qed.

#[export] Program Instance fou_tunnel_laws t : TunnelLaws K (T:=fou_tunnel t) := {|
  same_peer a b := fouName a = fouName b;
  has_peer := fou_has_peer;
|}.
Next Obligation. split; [by intros a|by intros a b ->|by intros a b c -> ->]. Qed.
Next Obligation. intros t w a b Hab (n & l & Hn & Hl). exists n, l. by rewrite <- Hab. Qed.
Next Obligation.
  intros t a w l w' H. destruct (fou_invalid a) as [Hi|[n Hn]].
  - by destruct a.
  - destruct (fou_AddPeer_link t a n w l w' Hn H) as (l2 & Hl2 & _). by exists n, l2.
Qed.
Next Obligation.
  intros t a w b (m & l & Hm & Hl). destruct (fou_invalid a) as [Hi|[n Hn]].
  - destruct a; try done. by exists m, l.
  - destruct (fou_AddPeer_keeps t a n b m w Hn Hm) as [Hk _].
    destruct (Hk l Hl) as [l' Hl']. by exists m, l'.
Qed.
Next Obligation.
  intros t a w b Hab (m & l & Hm & Hl). destruct (fou_invalid a) as [Hi|[n Hn]].
  - destruct a; try done. by exists m, l.
  - simpl in Hl. destruct (fou_AddPeer_keeps t a n b m w Hn Hm) as [_ Hk].
    rewrite Hk in Hl; [by exists m, l|]. congruence.
Qed.
Next Obligation.
  intros t a w w' H (n & l & Hn & Hl).
  destruct (fou_DelPeer_lookup t a n w Hn) as (Hgone & _). destruct (Hgone _ H) as (e & He & _). congruence.
Qed.
Next Obligation.
  intros t a w b Hab (m & l & Hm & Hl). exists m, l. split; [done|]. simpl.
  destruct (fou_invalid a) as [Hi|[n Hn]]; [by destruct a|].
  destruct (fou_DelPeer_lookup t a n w Hn) as (_ & Ho & _). rewrite Ho; [done|]. congruence.
Qed.
Next Obligation.
  intros t a w b (m & l & Hm & Hl). exists m, l. split; [done|]. simpl in Hl.
  destruct (fou_invalid a) as [Hi|[n Hn]]; [by destruct a|].
  destruct (fou_DelPeer_lookup t a n w Hn) as (_ & Ho & Hs).
  destruct (decide (m = n)) as [->|Hne]; [by apply Hs|]. by rewrite <- Ho.
Qed.
End fou_interface.

(** ** Initialisation touches no link before the dummy device *)

Section fou_init.
Context {K : Type} {NL : Netlink K} {L : NetlinkLaws K} {H : HostLaws K}.

Lemma modProbe_net m : preserves same_net (modProbe (K:=K) m).
Proof.
  intros k. unfold modProbe. pose proof (CombinedOutput_net "/sbin/modprobe" m k) as Hn.
  destruct (CombinedOutput _ _ k) as [[out [e|]] k']; exact Hn.
Qed.

Lemma initIPTables_net t p : preserves same_net (initIPTables (K:=K) t p).
Proof.
  apply preserves_bind; [apply _|by apply preserves_ask, _|]. intros _.
  apply preserves_wrap. intros k. auto with go.
Qed.

(** Chain of steps that leave links and routing alone. *)
Ltac net_step :=
  apply preserves_bind; [apply _|apply preserves_wrap; try (intros k; by auto with go)|intros _].

Lemma disableRPFilter_net : preserves same_net (disableRPFilter (K:=K)).
Proof. net_step. apply preserves_wrap. intros k. auto with go. Qed.

Lemma Init4_net t : preserves same_net (Init4 (K:=K) t).
Proof.
  net_step; [apply disableRPFilter_net|]. net_step. net_step; [apply modProbe_net|].
  net_step. apply initIPTables_net.
Qed.

Lemma Init6_net t : preserves same_net (Init6 (K:=K) t).
Proof. net_step. net_step; [apply modProbe_net|]. net_step. apply initIPTables_net. Qed.

(** What precedes the dummy device in [Init]. *)
Lemma Init_families_net t :
  preserves same_net
    ((if local4 t is Some _ then Init4 t else mret tt);;
     (if local6 t is Some _ then Init6 t else mret tt) : M K unit).
Proof.
  apply preserves_bind; [apply _| |intros _];
    [destruct (local4 t)|destruct (local6 t)];
    first [apply Init4_net|apply Init6_net|apply preserves_ret, _].
Qed.

Lemma Init_cases t k :
  (∃ l, LinkByName fouDummy k = Ok l ∧ Init t k = (Ok tt, k)) ∨
  (∃ e e0, LinkByName fouDummy k = Err e0 ∧ (Init t k).1 = Err e ∧ same_net k (Init t k).2) ∨
  (∃ e0 l k1 k2, LinkByName fouDummy k = Err e0 ∧ same_net k k1 ∧
     LinkAdd (Dummy (with_name NewLinkAttrs fouDummy)) k1 = (Ok l, k2) ∧ Init t k = (Ok tt, k2)).
Proof.
  destruct (Init t k) as [r k'] eqn:HI. pose proof (Init_families_net t k) as Hnet.
  unfold Init, try, ask, wrap, throw in HI. unfold mbind, M_bind in *.
  destruct (LinkByName fouDummy k) as [l|e0] eqn:Hl;
    [injection HI as <- <-; left; by exists l|right].
  destruct (errors_As_LinkNotFound e0); simpl in HI; [|injection HI as <- <-; left; by eexists _, e0].
  destruct ((if local4 t is Some _ then Init4 t else mret tt) k) as [[[]|e] k1]; simpl in *;
    [|injection HI as <- <-; left; by eexists _, e0].
  destruct ((if local6 t is Some _ then Init6 t else mret tt) k1) as [[[]|e] k2]; simpl in *;
    [|injection HI as <- <-; left; by eexists _, e0].
  destruct (LinkAdd _ k2) as [[l|e] k3] eqn:Ha; simpl in HI; injection HI as <- <-.
  - right. by exists e0, l, k2, k3.
  - left. pose proof (LinkAdd_err _ _ _ _ Ha) as ->. by eexists _, e0.
Qed.
End fou_init.

(** ** Theorems *)

(** Every valid address has a device name, of 13 bytes (the kernel allows
    15), which is none of the names the program uses for other devices. *)
Theorem fou_names_valid a :
  a ≠ AddrInvalid →
  ∃ n, fouName a = Ok n ∧ String.length n = 13%nat ∧ n ∉ reserved_names.
Proof.
  intros [n Hn]%fouName_valid. exists n. split; [done|]. split; [|by apply (fouName_not_reserved a)].
  destruct (fouName_shape a n Hn) as (h & Hh & [[_ ->]|[_ ->]]);
    rewrite length_append, Hh; done.
Qed.

Lemma fou_names_valid_witness : ∃ n, fouName (AddrV6 1 "") = Ok n ∧ String.length n = 13%nat ∧ n ∉ reserved_names.
Proof. apply (fou_names_valid (AddrV6 1 "")). discriminate. Defined.

(** C20: two addresses share a device name exactly when they are the same IPv4
    address, or IPv6 addresses whose SHA-1 digests agree on four bytes.  So
    IPv4 peers never collide, and no IPv4 peer collides with an IPv6 one. *)
Theorem fou_names_collide a b :
  wf_addr a → wf_addr b → a ≠ AddrInvalid → b ≠ AddrInvalid →
  fouName a = fouName b ↔
    (Is4 a = true ∧ a = b) ∨
    (Is6 a = true ∧ Is6 b = true ∧ take 4 (sha1_Sum (AsSlice a)) = take 4 (sha1_Sum (AsSlice b))).
Proof.
  intros Ha Hb Hna Hnb.
  destruct a as [|v|v z]; [done| |]; (destruct b as [|w|w y]; [done| |]);
    rewrite ?fouName_v4, ?fouName_v6; cbn [Is4 Is6 AsSlice]; split.
  - intros Heq%Ok_append_inj%hex_bytes_inj; [|apply be_bytes_Forall..]. left. split; [done|].
    apply (f_equal be_val) in Heq. rewrite !be_val_bytes in Heq by done. by subst.
  - intros [[_ [= ->]]|[? _]]; done.
  - intros Heq. exfalso. by apply Ok_prefix_ne in Heq.
  - intros [[_ ?]|[? _]]; done.
  - intros Heq. exfalso. symmetry in Heq. by apply Ok_prefix_ne in Heq.
  - intros [[? _]|(_ & ? & _)]; done.
  - intros Heq%Ok_append_inj%hex_bytes_inj; [|apply Forall_take, sha1_Sum_bytes..].
    right. split; [reflexivity|]. split; [reflexivity|exact Heq].
  - intros [[? _]|(_ & _ & Heq)]; [discriminate|by rewrite Heq].
Qed.

Lemma fou_names_collide_witness :
  fouName (AddrV4 1) = fouName (AddrV4 2) ↔
    (Is4 (AddrV4 1) = true ∧ AddrV4 1 = AddrV4 2) ∨
    (Is6 (AddrV4 1) = true ∧ Is6 (AddrV4 2) = true ∧
     take 4 (sha1_Sum (AsSlice (AddrV4 1))) = take 4 (sha1_Sum (AsSlice (AddrV4 2)))).
Proof. apply (fou_names_collide (AddrV4 1) (AddrV4 2)); done. Defined.

(** The constructor accepts exactly the documented configurations, and a
    controller it returns pairs every peer with a local address of its family. *)
Theorem fou_new_controller p a b t :
  NewFoUTunnelController p a b = Ok t ↔
    t = mkFouTunnelController p a b ∧ (a ≠ None ∨ b ≠ None) ∧
    (∀ peer lc, peer ≠ AddrInvalid → local_for t peer = Some lc → IsFamilyMatched peer lc = true).
Proof.
  unfold NewFoUTunnelController. split.
  - intros Hnew.
    assert ((∀ x, a = Some x → Is4 x = true) ∧ (∀ y, b = Some y → Is6 y = true) ∧ (a ≠ None ∨ b ≠ None) ∧
      t = mkFouTunnelController p a b) as (Ha & Hb & Hne & ->).
    { destruct a as [x|], b as [y|]; simpl in Hnew; try destruct (Is4 x) eqn:Hx; try destruct (Is6 y) eqn:Hy;
        simpl in Hnew; simplify_eq; naive_solver. }
    split_and!; [done|done|]. intros peer lc Hv. unfold local_for, IsFamilyMatched. simpl.
    destruct peer; try done; simpl; intros Hl; [rewrite (Ha _ Hl)|rewrite (Hb _ Hl)]; done.
  - intros (-> & Hne & Hfam).
    assert (from_option (λ x, negb (Is4 x)) false a = false) as ->.
    { destruct a as [x|]; [|done]. simpl. specialize (Hfam (AddrV4 0) x).
      unfold local_for, IsFamilyMatched in Hfam. simpl in Hfam.
      rewrite orb_false_r in Hfam. by rewrite Hfam. }
    assert (from_option (λ x, negb (Is6 x)) false b = false) as ->.
    { destruct b as [y|]; [|done]. simpl. specialize (Hfam (AddrV6 0 "") y).
      unfold local_for, IsFamilyMatched in Hfam. simpl in Hfam. by rewrite Hfam. }
    rewrite bool_decide_eq_false_2 by tauto. done.
Qed.

Section fou_theorems.
Context {K : Type} {NL : Netlink K} {L : NetlinkLaws K}.

(** [Init] runs once.  A successful [Init] leaves the controller
    initialised and a second one changes nothing; a failed [Init] leaves it
    uninitialised, so that it is tried again. *)
Theorem fou_Init_once {H : HostLaws K} t k :
  match Init t k with
  | (Ok _, k') => IsInitialized t k' = true ∧ Init t k' = (Ok tt, k')
  | (Err _, k') => IsInitialized t k' = false
  end.
Proof.
  assert (∀ k l, LinkByName fouDummy k = Ok l → IsInitialized t k = true ∧ Init t k = (Ok tt, k)) as Hdone.
  { intros k0 l Hl. unfold IsInitialized. rewrite Hl. split; [done|].
    unfold Init, try, ask, mbind, M_bind. by rewrite Hl. }
  destruct (Init_cases t k) as [(l & Hl & HI)|[(e & e0 & Hl & HI & (Hn & _))|(e0 & l & k1 & k2 & Hl & _ & Ha & HI)]].
  - rewrite HI. by apply (Hdone k l).
  - destruct (Init t k) as [r k']. simpl in *. rewrite HI. unfold IsInitialized. by rewrite Hn, Hl.
  - rewrite HI. apply LinkAdd_ok in Ha as ((l2 & Hl2 & _) & _). by apply (Hdone k2 l2).
Qed.

(** [AddPeer] is idempotent: adding a peer again returns the same device
    and changes nothing. *)
Theorem fou_AddPeer_idempotent t a k l k' :
  AddPeer t a k = (Ok l, k') →
  ∃ l2, AddPeer t a k' = (Ok l2, k') ∧ lindex l2 = lindex l ∧ lname l2 = lname l.
Proof.
  intros HA. destruct (fou_invalid a) as [Hi|[n Hn]]; [by destruct a|].
  destruct (fou_AddPeer_link t a n k l k' Hn HA) as (l2 & Hl2 & Hix & Hnm).
  exists l2. split_and!; [|done|rewrite Hnm; by eapply LinkByName_name].
  pose proof (AddPeer_run t a n k Hn) as Hrun. rewrite HA in Hrun.
  destruct (AddPeer_run t a n k' Hn); try congruence.
  inversion Hrun; congruence.
Qed.

(** For an address whose family the controller was not given,
    [AddPeer] returns [ErrIPFamilyMismatch] and touches nothing; for an
    invalid address it returns another error. *)
Theorem fou_AddPeer_unsupported t a k :
  local_for t a = None →
  AddPeer t a k =
    (Err (if decide (a = AddrInvalid) then ErrText "unknown ip families ip=invalid IP"
          else ErrIPFamilyMismatch), k).
Proof.
  intros Hloc. destruct (fou_invalid a) as [Hi|[n Hn]]; [by destruct a|].
  rewrite decide_False by (by intros ->).
  destruct (AddPeer_run t a n k Hn); congruence.
Qed.

(** C18: an IPv4 peer that had no device gets a tunnel.  After a successful
    [AddPeer] of a controller that [NewFoUTunnelController] made, the device
    of the peer's name is an IP tunnel encapsulated in FoU from the
    controller's local address to the peer, whose destination port is the
    controller's cut to 16 bits; it is the device returned; and every other
    device but the flow-based ones, every rule, and every table but the
    kernel's own are as before. *)
Theorem fou_AddPeer_new p v4 v6 t a n k e l k' :
  NewFoUTunnelController p v4 v6 = Ok t → Is4 a = true →
  fouName a = Ok n → LinkByName n k = Err e → AddPeer t a k = (Ok l, k') →
  ∃ lc dev, v4 = Some lc ∧ LinkByName n k' = Ok dev ∧ lindex dev = lindex l ∧ lname l = n ∧
    fou_ends dev = Some (FOU_ENCAP_DIRECT, uint16 p, FromAddr a, FromAddr lc) ∧ (uint16 p = p ↔ 0 ≤ p < 65536) ∧
    (∀ m, m ≠ n → m ∉ aux_devices → LinkByName m k' = LinkByName m k) ∧ rules k' = rules k ∧
    ∀ f x, x ∉ kernel_tables →
      filter (λ r, rt_Table r = x) (routes k' f) = filter (λ r, rt_Table r = x) (routes k f).
Proof.
  intros (-> & Hfam & _)%NewFoUTunnelController_families H4 Hn Hl HA. set (t := mkFouTunnelController p v4 v6) in *.
  destruct (fou_AddPeer_link t a n k l k' Hn HA) as (dev & Hdev & Hi & Hnm).
  pose proof (fou_AddPeer_net t a k) as (Hr & Ht & _). rewrite HA in Hr, Ht.
  destruct (fou_AddPeer_joins t a n e k dev Hfam Hn H4 Hl) as (lc & Hlc & Hends); [by rewrite HA|].
  exists lc, dev. split_and!; try done.
  - unfold uint16. split; [|by apply Z.mod_small]. intros <-. by apply Z.mod_pos_bound.
  - pose proof (AddPeer_run t a n k Hn) as Hrun. rewrite HA in Hrun.
    inversion Hrun as [|? ? ? Hl0| | | |? ? ? k1 ? ? Hl0 ? Hadd Hs]; subst; [congruence|].
    intros m Hm Haux. pose proof (setup_for_frame a k1) as (Hf & _). rewrite Hs in Hf. simpl in Hf.
    rewrite Hf by done. apply LinkAdd_ok in Hadd as (_ & _ & _ & Ho & _). apply Ho; [done|].
    unfold aux_devices, fallback_devices in *. set_solver.
Qed.

(** C36: when the set-up of the flow-based device fails after the tunnel was
    created, [AddPeer] reports the error, but the tunnel stays: the retry
    finds it and succeeds without setting up the flow-based device. *)
Theorem fou_AddPeer_lost_setup t a n k e lc l k1 e' k2 :
  fouName a = Ok n → local_for t a = Some lc → LinkByName n k = Err e →
  errors_As_LinkNotFound e = true →
  LinkAdd (peer_link t n a lc) k = (Ok l, k1) → setup_for a k1 = (Err e', k2) →
  (AddPeer t a k).1 = Err (Errorf "netlink: failed to setup ipip device: " e') ∧
  (AddPeer t a k).2 = k2 ∧ ∃ l2, AddPeer t a k2 = (Ok l2, k2).
Proof.
  intros Hn Hloc Hl He Hadd Hs.
  pose proof (AddPeer_run t a n k Hn) as Hrun. destruct Hrun; simplify_eq; try congruence.
  simpl. split_and!; [congruence..|].
  apply LinkAdd_ok in Hadd as ((l2 & Hl2 & _) & _).
  pose proof (setup_for_frame a k1) as Hf. rewrite Hs in Hf. simpl in Hf.
  exists l2. destruct (AddPeer_run t a n k2 Hn); try congruence.
  all: rewrite (frame_fou_link a n _ _ Hn Hf) in *; simpl in Hl2; congruence.
Qed.

(** C19: deleting the peer removes its device, of the devices of peers only
    its own (which is also that of the peers that share its name), and
    deleting it again succeeds without effect. *)
Theorem fou_DelPeer_exact t a k k' :
  DelPeer t a k = (Ok tt, k') →
  (∀ b, fou_has_peer k' b ↔ fou_has_peer k b ∧ fouName b ≠ fouName a) ∧
  DelPeer t a k' = (Ok tt, k').
Proof.
  intros HD. destruct (fou_invalid a) as [Hi|[n Hn]]; [by destruct a|].
  destruct (fou_DelPeer_lookup t a n k Hn) as (Hgone & Ho & _). rewrite HD in Ho. simpl in Ho.
  destruct (Hgone _ HD) as (e & Hl & He). split.
  - intros b. split.
    + intros (m & l & Hm & Hlm). assert (m ≠ n) as Hne by congruence.
      rewrite Ho in Hlm by done. split; [by exists m, l|congruence].
    + intros [(m & l & Hm & Hlm) Hne]. exists m, l. split; [done|]. rewrite Ho; [done|congruence].
  - destruct (fou_DelPeer_run t a n k' Hn) as [(l & ? & ?)|[(e' & ? & ? & ->)|(e' & ? & ? & ?)]]; congruence.
Qed.
End fou_theorems.

(** ** Witnesses in the concrete namespace *)

Definition sim_fou : FouTunnelController :=
  mkFouTunnelController 5555 (Some (AddrV4 (be_val [10; 0; 0; 1]))) None.
Definition sim_peer : Addr := AddrV4 (be_val [10; 96; 0; 7]).

Lemma fou_new_controller_witness :
  NewFoUTunnelController 5555 (Some (AddrV4 1)) None = Ok (mkFouTunnelController 5555 (Some (AddrV4 1)) None) ∧
  ∀ peer lc, peer ≠ AddrInvalid →
    local_for (mkFouTunnelController 5555 (Some (AddrV4 1)) None) peer = Some lc → IsFamilyMatched peer lc = true.
Proof.
  assert (NewFoUTunnelController 5555 (Some (AddrV4 1)) None =
    Ok (mkFouTunnelController 5555 (Some (AddrV4 1)) None)) as Hnew by reflexivity.
  split; [exact Hnew|]. apply fou_new_controller in Hnew. apply Hnew.
Defined.

Lemma fou_Init_once_witness :
  IsInitialized sim_fou (Init sim_fou empty_kern).2 = true ∧
  Init sim_fou (Init sim_fou empty_kern).2 = (Ok tt, (Init sim_fou empty_kern).2).
Proof.
  pose proof (fou_Init_once sim_fou empty_kern) as Honce.
  assert (is_ok (Init sim_fou empty_kern).1 = true) as Hok by (vm_compute; reflexivity).
  destruct (Init sim_fou empty_kern) as [[u|e] k]; [exact Honce|discriminate Hok].
Defined.

Lemma fou_AddPeer_idempotent_witness :
  ∃ l, (AddPeer sim_fou sim_peer empty_kern).1 = Ok l ∧
  ∃ l2, AddPeer sim_fou sim_peer (AddPeer sim_fou sim_peer empty_kern).2 =
          (Ok l2, (AddPeer sim_fou sim_peer empty_kern).2) ∧ lindex l2 = lindex l ∧ lname l2 = lname l.
Proof.
  eexists. split; [vm_compute; reflexivity|].
  eapply (fou_AddPeer_idempotent sim_fou sim_peer empty_kern). vm_compute. reflexivity.
Defined.

Lemma fou_AddPeer_unsupported_witness :
  AddPeer sim_fou (AddrV6 1 "") empty_kern = (Err ErrIPFamilyMismatch, empty_kern).
Proof. exact (fou_AddPeer_unsupported sim_fou (AddrV6 1 "") empty_kern eq_refl). Defined.

Lemma fou_AddPeer_new_witness :
  ∃ dev, LinkByName "fou4_0a600007" (AddPeer sim_fou sim_peer empty_kern).2 = Ok dev ∧
    fou_ends dev = Some (FOU_ENCAP_DIRECT, 5555, [10; 96; 0; 7], [10; 0; 0; 1]).
Proof.
  assert (AddPeer sim_fou sim_peer empty_kern =
    (Ok (Iptun (mkLinkAttrs "fou4_0a600007" 2 (-1))
      (mkTunnelOpts 64 FOU_ENCAP_DIRECT 5555 0 [10; 96; 0; 7] [10; 0; 0; 1] false)),
     (AddPeer sim_fou sim_peer empty_kern).2)) as HA by (vm_compute; reflexivity).
  assert (LinkByName "fou4_0a600007" empty_kern = Err (ErrLinkNotFound "fou4_0a600007")) as Hl by (vm_compute; reflexivity).
  destruct (fou_AddPeer_new 5555 (Some (AddrV4 (be_val [10; 0; 0; 1]))) None sim_fou sim_peer "fou4_0a600007" empty_kern
    (ErrLinkNotFound "fou4_0a600007") _ _ eq_refl eq_refl eq_refl Hl HA) as (lc & dev & [= <-] & Hdev & _ & _ & Hends & _).
  exists dev. split; [exact Hdev|]. rewrite Hends. vm_compute. reflexivity.
Defined.

(** A namespace in which the fallback device cannot be renamed. *)
Definition stuck_kern : Kern :=
  set_links empty_kern
    (<["tunl0" := OtherLink "ipip" (mkLinkAttrs "tunl0" 3 0)]>
      (<["pona_tunl" := OtherLink "ipip" (mkLinkAttrs "pona_tunl" 4 0)]> (k_links empty_kern))) 5.

Lemma fou_AddPeer_lost_setup_witness :
  is_ok (AddPeer sim_fou sim_peer stuck_kern).1 = false ∧
  ∃ l2, AddPeer sim_fou sim_peer (AddPeer sim_fou sim_peer stuck_kern).2 =
    (Ok l2, (AddPeer sim_fou sim_peer stuck_kern).2).
Proof.
  edestruct (fou_AddPeer_lost_setup sim_fou sim_peer "fou4_0a600007" stuck_kern
    (ErrLinkNotFound "fou4_0a600007") (AddrV4 (be_val [10; 0; 0; 1]))) as (H1 & H2 & H3);
    [vm_compute; reflexivity..|].
  rewrite H1, H2. split; [reflexivity|exact H3].
Defined.

Lemma fou_DelPeer_exact_witness :
  let k := (AddPeer sim_fou sim_peer empty_kern).2 in
  let k' := (DelPeer sim_fou sim_peer k).2 in
  (∀ b, fou_has_peer k' b ↔ fou_has_peer k b ∧ fouName b ≠ fouName sim_peer) ∧
  DelPeer sim_fou sim_peer k' = (Ok tt, k').
Proof. intros k k'. apply (fou_DelPeer_exact sim_fou sim_peer k). vm_compute. reflexivity. Defined.
