(* ===== verification/NatClient.v ===== *)
(** * pkg/nat/client.go: routes of a NAT client

    [natClient] keeps a rule and a routing table of its own in the client
    pod's namespace.  Every function of the file is modelled; the iteration
    order of a Go map is a parameter. *)
From Stdlib Require Import Ascii String.
From S2P Require Import Prelude GoStrings NetAddr NetParse NetIPUtil Netlink SimKernel.

Local Open Scope Z_scope.

Definition ncProtocolID : Z := 30.
Definition ncTableID : Z := 117.
Definition mainTableID : Z := 254.
Definition throwMetric : Z := 500.
Definition routeMetric : Z := 100.
Definition ncPrio : Z := 1900.

(** [netip.MustParsePrefix] panics on a bad literal; the literals below are
    checked to parse. *)
Definition MustParsePrefix (s : string) : Prefix :=
  match ParsePrefix s with Ok p => p | Err _ => PrefixZero end.

Definition v4PrivateList : list Prefix :=
  [MustParsePrefix "10.0.0.0/8"; MustParsePrefix "172.16.0.0/12"; MustParsePrefix "192.168.0.0/16"].
Definition v6PrivateList : list Prefix := [MustParsePrefix "fc00::/7"].
Definition v4LinkLocal : Prefix := MustParsePrefix "169.254.0.0/16".
Definition v6LinkLocal : Prefix := MustParsePrefix "fe80::/10".
Definition v4DefaultGW : Prefix := MustParsePrefix "0.0.0.0/0".
Definition v6DefaultGW : Prefix := MustParsePrefix "::/0".

Record natClient := mkNatClient { useipv4 : bool; useipv6 : bool }.

Definition NewNatClient (useipv4 useipv6 : bool) : result natClient :=
  Ok (mkNatClient useipv4 useipv6).

(** The destinations that never go through the NAT gateway unless an egress
    names them. *)
Definition throw_list : list Prefix :=
  v4PrivateList ++ v6PrivateList ++ [v4LinkLocal; v6LinkLocal].

Definition subnetsSet (subnets : list Prefix) : gset Prefix :=
  foldl (λ s subnet, {[subnet]} ∪ s) ∅ subnets.

Section client.
Context {K : Type} {NL : Netlink K}.

(** The order in which [range] visits a map. *)
Context (range : gmap Prefix Route → list (Prefix * Route)).

Definition newRuleForClient (family : Family) (table prio : Z) : Rule :=
  let r := NewRule in
  mkRule (Some family) table prio (ru_IifName r) (ru_Dst r) (ru_other r).

Definition clear (family : Family) : M K unit :=
  let defaultGW := match family with FAMILY_V4 => v4DefaultGW | FAMILY_V6 => v6DefaultGW end in
  rules ← wrap (Errorf "netlink: rule list failed: ") (ask (RuleList family));
  forM_ rules (λ r,
    if decide (ru_Priority r ≠ ncPrio) then mret tt
    else
      let r := match ru_Dst r with None => set_rule_dst r (Some (ToIPNet defaultGW)) | Some _ => r end in
      wrap (Errorf ("netlink: failed to delete a rule: " +:+ Rule_text r +:+ ", ")) (RuleDel r));;
  routes ← wrap (Errorf "netlink: route list failed: ")
    (ask (RouteListFiltered family (route_in_table ncTableID) RT_FILTER_TABLE));
  forM_ routes (λ r,
    let r := match rt_Dst r with None => set_route_dst r (Some (ToIPNet defaultGW)) | Some _ => r end in
    wrap (Errorf ("netlink: failed to delete a route in table " +:+ Itoa ncTableID +:+ ": "
                  +:+ Route_text r +:+ ", ")) (RouteDel r)).

Definition Init (c : natClient) : M K unit :=
  (if useipv4 c then
     clear FAMILY_V4;;
     wrap (Errorf "netlink: failed to add v4 natclient rule: ")
       (RuleAdd (newRuleForClient FAMILY_V4 ncTableID ncPrio))
   else mret tt);;
  (if useipv6 c then
     clear FAMILY_V6;;
     wrap (Errorf "netlink: failed to add v6 natclient rule: ")
       (RuleAdd (newRuleForClient FAMILY_V6 ncTableID ncPrio))
   else mret tt).

Definition IsInitialized (c : natClient) (k : K) : result bool :=
  if useipv4 c then
    match RuleListFiltered FAMILY_V4 (rule_in_table ncTableID) RT_FILTER_TABLE k with
    | Err err => Err (Errorf "netlink: failed to list v4 rule: " err)
    | Ok rules => if decide (List.length rules ≠ 1%nat) then Ok false else Ok true
    end
  else if useipv6 c then
    match RuleListFiltered FAMILY_V6 (rule_in_table ncTableID) RT_FILTER_TABLE k with
    | Err err => Err (Errorf "netlink: failed to list v6 rule: " err)
    | Ok rules => if decide (List.length rules ≠ 1%nat) then Ok false else Ok true
    end
  else Ok true.

(** The loop of [collectRoute1] over the listed routes.  The error of its
    failing branch wraps a nil error. *)
Fixpoint collect_loop (linkIndex : Z) (ro : list Route) (routes : gmap Prefix Route)
    : result (gmap Prefix Route) :=
  match ro with
  | [] => Ok routes
  | r :: ro' =>
      match rt_Dst r with
      | Some dst =>
          if decide (rt_LinkIndex r = linkIndex) then
            let '(d, ok) := FromIPNet dst in
            if negb ok then Err (ErrText "failed to convert to netip.Addr from net.IP: %!w(<nil>)")
            else collect_loop linkIndex ro' (<[d := r]> routes)
          else collect_loop linkIndex ro' routes
      | None => collect_loop linkIndex ro' routes
      end
  end.

Definition collectRoute1 (linkIndex : Z) (family : Family) (k : K) : result (gmap Prefix Route) :=
  match RouteListFiltered family (route_in_table ncTableID) RT_FILTER_TABLE k with
  | Err err => Err (Errorf "netlink: failed to list v4 routes: " err)
  | Ok ro => collect_loop linkIndex ro ∅
  end.

Definition collectRoutes (linkIndex : Z) (k : K) : result (gmap Prefix Route) :=
  match collectRoute1 linkIndex FAMILY_V4 k with
  | Err err => Err (Errorf "failed to collect routes: " err)
  | Ok r4 =>
      match collectRoute1 linkIndex FAMILY_V6 k with
      | Err err => Err (Errorf "failed to collect routes: " err)
      | Ok r6 => Ok (r6 ∪ r4) (* maps.Copy(r4, r6) *)
      end
  end.

Definition addThrow (c : natClient) (n : Prefix) : M K unit :=
  let dst := ToIPNet n in
  wrap (Errorf ("netlink: failed to add route(table " +:+ Itoa ncTableID +:+ ") to " +:+ Prefix_String n +:+ ": "))
    (RouteAdd (mkRoute ncTableID (Some dst) 0 ncProtocolID throwMetric RTN_THROW)).

Definition addRoute (c : natClient) (link : Link) (n : Prefix) : M K unit :=
  let a := ToIPNet n in
  wrap (Errorf ("netlink: failed to add route(table " +:+ Itoa ncTableID +:+ ") to " +:+ Prefix_String n +:+ ": "))
    (RouteAdd (mkRoute ncTableID (Some a) (lindex link) ncProtocolID routeMetric RTN_UNSPEC)).

Definition delRoute (c : natClient) (n : Route) : M K unit := RouteDel n.

Definition route_adds (current : gmap Prefix Route) (subnets : list Prefix) : list Prefix :=
  filter (λ n, current !! n = None) subnets.

Definition route_dels (current : gmap Prefix Route) (subnets : list Prefix) : list Route :=
  snd <$> filter (λ x, x.1 ∉ subnetsSet subnets) (range current).

Definition UpdateRoutes (c : natClient) (link : Link) (subnets : list Prefix) : M K unit :=
  current ← wrap (Errorf "failed to collect routes: ") (ask (collectRoutes (lindex link)));
  let adds := route_adds current subnets in
  let dels := route_dels current subnets in
  wrap (Errorf ("netlink: failed to link up " +:+ lname link +:+ ": ")) (LinkSetUp link);;
  forM_ throw_list (addThrow c);;
  forM_ adds (addRoute c link);;
  forM_ dels (delRoute c).
End client.

Example special_prefixes_parse :
  forallb (λ s, is_ok (ParsePrefix s))
    ["10.0.0.0/8"; "172.16.0.0/12"; "192.168.0.0/16"; "fc00::/7"; "169.254.0.0/16"; "fe80::/10";
     "0.0.0.0/0"; "::/0"] = true.
Proof. vm_compute. reflexivity. Qed.

(** ** Facts about the special prefixes *)

Lemma MustParsePrefix_kernel s :
  is_ok (ParsePrefix s) = true → masked (MustParsePrefix s) → Is4In6 (p_ip (MustParsePrefix s)) = false →
  kernel_prefix (MustParsePrefix s).
Proof.
  unfold MustParsePrefix. destruct (ParsePrefix s) as [p|] eqn:Hp; [|done].
  intros _ Hm H4. split_and!; [by eapply ParsePrefix_wf|done|done].
Qed.

Lemma throw_list_kernel : Forall kernel_prefix throw_list.
Proof.
  unfold throw_list, v4PrivateList, v6PrivateList, v4LinkLocal, v6LinkLocal.
  cbn [app]. rewrite !Forall_cons, Forall_nil.
  split_and!; [apply MustParsePrefix_kernel; vm_compute; reflexivity..|exact I].
Qed.

Definition defaultGW (f : Family) : Prefix :=
  match f with FAMILY_V4 => v4DefaultGW | FAMILY_V6 => v6DefaultGW end.

Lemma defaultGW_ipnet f :
  FromIPNet (ToIPNet (defaultGW f)) = (defaultGW f, true) ∧ ipnet_family (ToIPNet (defaultGW f)) = f.
Proof. destruct f; vm_compute; done. Qed.

(** ** Clearing a family *)

Section client_facts.
Context {K : Type} {NL : Netlink K} {L : NetlinkLaws K}.

Abbreviation nc_rules l := (filter (λ r, ru_Priority r = ncPrio) l).
Abbreviation other_rules l := (filter (λ r, ru_Priority r ≠ ncPrio) l).
Abbreviation in_table t l := (filter (λ r, rt_Table r = t) l).
Abbreviation nc_routes l := (in_table ncTableID l).
Abbreviation other_routes l := (filter (λ r, rt_Table r ≠ ncTableID) l).

(** Only the rules of the client's priority in family [f] may differ. *)
Definition rules_frame (f : Family) (k k' : K) : Prop :=
  other_rules (rules k' f) ≡ₚ other_rules (rules k f) ∧ (∀ f', f' ≠ f → rules k' f' = rules k f') ∧
  (∀ n, LinkByName n k' = LinkByName n k) ∧ routes k' = routes k.

(** Only the routes of the client's table in family [f] may differ. *)
Definition routes_frame (f : Family) (k k' : K) : Prop :=
  other_routes (routes k' f) ≡ₚ other_routes (routes k f) ∧ (∀ f', f' ≠ f → routes k' f' = routes k f') ∧
  (∀ n, LinkByName n k' = LinkByName n k) ∧ rules k' = rules k.

Lemma rules_frame_trans f k1 k2 k3 : rules_frame f k1 k2 → rules_frame f k2 k3 → rules_frame f k1 k3.
Proof.
  intros (H1 & H2 & H3 & H4) (H5 & H6 & H7 & H8). split_and!.
  - by rewrite H5.
  - intros f' Hf. rewrite H6, H2; done.
  - intros n. by rewrite H7.
  - congruence.
Qed.

Lemma routes_frame_trans f k1 k2 k3 : routes_frame f k1 k2 → routes_frame f k2 k3 → routes_frame f k1 k3.
Proof.
  intros (H1 & H2 & H3 & H4) (H5 & H6 & H7 & H8). split_and!.
  - by rewrite H5.
  - intros f' Hf. rewrite H6, H2; done.
  - intros n. by rewrite H7.
  - congruence.
Qed.

Lemma rules_frame_refl f k : rules_frame f k k.
Proof. done. Qed.
Lemma routes_frame_refl f k : routes_frame f k k.
Proof. done. Qed.

Definition clear_rule (f : Family) (r : Rule) : M K unit :=
  if decide (ru_Priority r ≠ ncPrio) then mret tt
  else
    let r := match ru_Dst r with None => set_rule_dst r (Some (ToIPNet (defaultGW f))) | Some _ => r end in
    wrap (Errorf ("netlink: failed to delete a rule: " +:+ Rule_text r +:+ ", ")) (RuleDel r).

Definition clear_route (f : Family) (r : Route) : M K unit :=
  let r := match rt_Dst r with None => set_route_dst r (Some (ToIPNet (defaultGW f))) | Some _ => r end in
  wrap (Errorf ("netlink: failed to delete a route in table " +:+ Itoa ncTableID +:+ ": "
                +:+ Route_text r +:+ ", ")) (RouteDel r).

Lemma clear_eq f :
  clear (K:=K) f =
    (rules ← wrap (Errorf "netlink: rule list failed: ") (ask (RuleList f));
     forM_ rules (clear_rule f);;
     routes ← wrap (Errorf "netlink: route list failed: ")
       (ask (RouteListFiltered f (route_in_table ncTableID) RT_FILTER_TABLE));
     forM_ routes (clear_route f)).
Proof. by destruct f. Qed.

Lemma clear_rule_ok f r k k' :
  ru_Family r = Some f → clear_rule f r k = (Ok tt, k') →
  List.length (nc_rules (rules k f)) =
    (List.length (nc_rules [r]) + List.length (nc_rules (rules k' f)))%nat ∧ rules_frame f k k'.
Proof.
  intros Hf. unfold clear_rule. case_decide as Hp.
  - intros [= <-]. rewrite filter_cons_False by done. done.
  - intros HD%wrap_ok. rewrite filter_cons_True by done.
    apply (RuleDel_ok _ f) in HD as ((r' & Hr' & Hperm) & Ho & Hl & Hrt);
      [|by destruct (ru_Dst r)|by destruct (ru_Dst r); simpl; rewrite Hp].
    assert (ru_Priority r' = ncPrio) as Hr'' by (destruct (ru_Dst r); simpl in *; congruence).
    rewrite Hperm. rewrite filter_cons_True by done. split; [done|].
    split_and!; [|done..]. rewrite Hperm. by rewrite filter_cons_False by (by intros ?).
Qed.

Lemma clear_rules_ok f l k k' :
  Forall (λ r, ru_Family r = Some f) l → forM_ l (clear_rule f) k = (Ok tt, k') →
  List.length (nc_rules (rules k f)) =
    (List.length (nc_rules l) + List.length (nc_rules (rules k' f)))%nat ∧ rules_frame f k k'.
Proof.
  intros Hl. revert k. induction Hl as [|r l Hr Hl IH]; intros k H; simpl in H.
  - injection H as <-. done.
  - apply bind_ok in H as ([] & k1 & H1 & H2).
    apply clear_rule_ok in H1 as [Hc1 Hf1]; [|done]. apply IH in H2 as [Hc2 Hf2].
    split; [|by eapply rules_frame_trans].
    rewrite Hc1, Hc2. change (r :: l) with ([r] ++ l). rewrite filter_app, length_app. lia.
Qed.

Lemma clear_route_ok f r k0 k k' :
  r ∈ nc_routes (routes k0 f) → clear_route f r k = (Ok tt, k') →
  List.length (nc_routes (routes k f)) = S (List.length (nc_routes (routes k' f))) ∧ routes_frame f k k'.
Proof.
  intros [Ht Hin]%list_elem_of_filter. unfold clear_route. intros HD%wrap_ok.
  assert (∃ d p, rt_Dst (match rt_Dst r with
      None => set_route_dst r (Some (ToIPNet (defaultGW f))) | Some _ => r end) = Some d ∧
      FromIPNet d = (p, true) ∧ ipnet_family d = f) as (d & p & Hd & Hp & Hfam).
  { destruct (rt_Dst r) as [d|] eqn:Hd.
    - destruct (routes_dst r d k0 f Hin Hd) as (Hf & p & Hp). by exists d, p.
    - exists (ToIPNet (defaultGW f)), (defaultGW f). split; [done|]. apply defaultGW_ipnet. }
  destruct (RouteDel_ok _ d p _ _ Hd Hp HD) as ((r' & Hr' & _ & _ & Hperm) & Ho & Hl & Hru).
  assert (rt_Table r' = ncTableID) as Ht' by (destruct (rt_Dst r); simpl in *; congruence).
  rewrite Hfam in *. rewrite Hperm, filter_cons_True by done. split; [done|].
  split_and!; [|done..]. rewrite Hperm. by rewrite filter_cons_False by (by intros ?).
Qed.

Lemma clear_routes_ok f l k0 k k' :
  (∀ r, r ∈ l → r ∈ nc_routes (routes k0 f)) → forM_ l (clear_route f) k = (Ok tt, k') →
  List.length (nc_routes (routes k f)) =
    (List.length l + List.length (nc_routes (routes k' f)))%nat ∧ routes_frame f k k'.
Proof.
  revert k. induction l as [|r l IH]; intros k Hl H; simpl in H.
  - injection H as <-. done.
  - apply bind_ok in H as ([] & k1 & H1 & H2).
    apply (clear_route_ok f r k0) in H1 as [Hc1 Hf1]; [|apply Hl; set_solver].
    apply IH in H2 as [Hc2 Hf2]; [|set_solver].
    split; [|by eapply routes_frame_trans]. simpl. lia.
Qed.

(** After [clear] the family has no rule of the client's priority and no route
    in its table, and nothing else has changed. *)
Lemma clear_ok f k k' :
  clear f k = (Ok tt, k') →
  nc_rules (rules k' f) = [] ∧ nc_routes (routes k' f) = [] ∧
  other_rules (rules k' f) ≡ₚ other_rules (rules k f) ∧
  other_routes (routes k' f) ≡ₚ other_routes (routes k f) ∧
  (∀ f', f' ≠ f → rules k' f' = rules k f' ∧ routes k' f' = routes k f') ∧
  (∀ n, LinkByName n k' = LinkByName n k).
Proof.
  rewrite clear_eq. intros H. ok_inv H.
  match goal with Hl : RuleList f _ = Ok _ |- _ => apply RuleList_ok in Hl; rename Hl into Hrl end.
  match goal with Hl : RouteListFiltered f _ _ _ = Ok _ |- _ =>
    apply RouteListFiltered_ok in Hl; rename Hl into Htl end.
  subst. match goal with Hr : forM_ (rules ?x f) _ ?x = (Ok _, ?y) |- _ => rename x into k0, y into k1 end.
  match goal with Hr : forM_ (rules k0 f) _ _ = (Ok ?u, _) |- _ => destruct u;
    apply clear_rules_ok in Hr as [Hc1 (Ho & Hof & Hn & Hrt)];
      [|apply Forall_forall; intros r; apply rules_family] end.
  apply (clear_routes_ok f _ k1) in H as [Hc2 (Hp & Hpf & Hn2 & Hru)]; [|done].
  split_and!.
  - rewrite Hru. apply nil_length_inv. lia.
  - apply nil_length_inv. lia.
  - by rewrite Hru.
  - rewrite <- Hrt. done.
  - intros f' Hf'. rewrite Hru, Hof by done. rewrite Hpf by done. by rewrite Hrt.
  - intros n. by rewrite Hn2, Hn.
Qed.

(** ** Initialisation *)

Definition uses (c : natClient) (f : Family) : bool :=
  match f with FAMILY_V4 => useipv4 c | FAMILY_V6 => useipv6 c end.

(** A rule that sends every packet to the client's table. *)
Definition client_rule (r : Rule) : Prop :=
  ru_Table r = ncTableID ∧ ru_IifName r = "" ∧ ru_Dst r = None ∧ ru_other r = [].

(** Exactly one rule of the client's priority, which sends every packet to its
    table, and nothing in the table. *)
Definition family_ready (k : K) (f : Family) : Prop :=
  ∃ r, nc_rules (rules k f) = [r] ∧ client_rule r ∧ nc_routes (routes k f) = [].

Definition others_kept (k k' : K) (f : Family) : Prop :=
  other_rules (rules k' f) ≡ₚ other_rules (rules k f) ∧
  other_routes (routes k' f) ≡ₚ other_routes (routes k f).

Definition init_family (c : natClient) (f : Family) (text : string) : M K unit :=
  if uses c f then
    clear f;; wrap (Errorf text) (RuleAdd (newRuleForClient f ncTableID ncPrio))
  else mret tt.

Lemma Init_eq c :
  Init (K:=K) c =
    (init_family c FAMILY_V4 "netlink: failed to add v4 natclient rule: ";;
     init_family c FAMILY_V6 "netlink: failed to add v6 natclient rule: ").
Proof. reflexivity. Qed.

Lemma init_family_ok c f text k k' :
  init_family c f text k = (Ok tt, k') →
  (if uses c f then family_ready k' f ∧ others_kept k k' f
   else rules k' f = rules k f ∧ routes k' f = routes k f) ∧
  (∀ f', f' ≠ f → rules k' f' = rules k f' ∧ routes k' f' = routes k f') ∧
  (∀ n, LinkByName n k' = LinkByName n k).
Proof.
  unfold init_family. destruct (uses c f); [|by intros [= <-]].
  intros ([] & k1 & Hc & Ha)%bind_ok. apply wrap_ok in Ha.
  apply clear_ok in Hc as (Hnr & Hnt & Hor & Hot & Hof & Hn).
  apply (RuleAdd_ok _ f) in Ha as ((r & (Ht & Hp & Hi & Hd & Hx) & Hperm) & Ho2 & Hn2 & Hrt); [|done].
  destruct NewRule_plain as (Ni & Nd & Nx). simpl in Ht, Hp, Hi, Hd, Hx. rewrite Ni in Hi. rewrite Nd in Hd. rewrite Nx in Hx.
  assert (nc_rules (rules k' f) = [r]) as Hone.
  { apply Permutation_singleton_r. rewrite Hperm, filter_cons_True, Hnr by done. done. }
  split_and!.
  - exists r. split_and!; [done..|]. by rewrite Hrt.
  - split; [|by rewrite Hrt]. rewrite Hperm, filter_cons_False by (by intros ?). done.
  - intros f' Hf'. destruct (Hof f' Hf') as [<- <-]. rewrite Ho2, Hrt by done. done.
  - intros n. by rewrite Hn2.
Qed.

(** Rules are split by priority, so the table filter counts both parts. *)
Lemma length_table_rules (l : list Rule) :
  Forall (λ r, ru_Priority r ≠ ncPrio → ru_Table r ≠ ncTableID) l →
  filter (λ r, ru_Table r = ncTableID) l = filter (λ r, ru_Table r = ncTableID) (nc_rules l).
Proof.
  induction 1 as [|r l Hr Hl IH]; [done|].
  destruct (decide (ru_Priority r = ncPrio)) as [Hp|Hp].
  - rewrite (filter_cons_True (λ r, ru_Priority r = ncPrio)) by done.
    destruct (decide (ru_Table r = ncTableID)) as [Ht|Ht].
    + by rewrite !(filter_cons_True (λ r, ru_Table r = ncTableID)), IH.
    + by rewrite !(filter_cons_False (λ r, ru_Table r = ncTableID)), IH.
  - rewrite (filter_cons_False (λ r, ru_Priority r = ncPrio)) by done.
    rewrite filter_cons_False by auto. done.
Qed.

(** ** Routes of a link *)

Definition all_routes (k : K) : list Route := routes k FAMILY_V4 ++ routes k FAMILY_V6.

(** The destinations routed through a link in the client's table. *)
Definition link_dsts (k : K) (idx : Z) : list (option Prefix) :=
  dst_prefix <$> filter (λ r, rt_LinkIndex r = idx) (nc_routes (all_routes k)).

Definition has_throw (k : K) (v : Prefix) : Prop :=
  ∃ r, r ∈ all_routes k ∧ rt_Table r = ncTableID ∧ rt_LinkIndex r ∈ throw_indexes ∧
    rt_Priority r = throwMetric ∧ lists_dst r v.

Lemma all_routes_change f k k' r :
  routes k' f ≡ₚ r :: routes k f → (∀ f', f' ≠ f → routes k' f' = routes k f') →
  all_routes k' ≡ₚ r :: all_routes k.
Proof.
  intros Hp Ho. unfold all_routes. destruct f.
  - by rewrite (Ho FAMILY_V6), Hp.
  - rewrite (Ho FAMILY_V4), Hp by done. symmetry. apply Permutation_middle.
Qed.

Lemma link_dsts_cons k k' r idx :
  all_routes k' ≡ₚ r :: all_routes k → rt_Table r = ncTableID →
  link_dsts k' idx ≡ₚ (if decide (rt_LinkIndex r = idx) then [dst_prefix r] else []) ++ link_dsts k idx.
Proof.
  intros Hp Ht. unfold link_dsts. rewrite Hp, filter_cons_True by done. case_decide.
  - by rewrite filter_cons_True.
  - by rewrite filter_cons_False.
Qed.

Lemma RouteAdd_all r d k k' :
  rt_Dst r = Some d → RouteAdd r k = (Ok tt, k') →
  rules k' = rules k ∧ ∃ r', route_like r r' ∧ all_routes k' ≡ₚ r' :: all_routes k.
Proof.
  intros Hd Ha. destruct (RouteAdd_ok _ _ _ _ Hd Ha) as ((r' & Hl & Hp) & Ho & _ & Hr).
  split; [done|]. exists r'. split; [done|]. by eapply all_routes_change.
Qed.

Lemma all_routes_elem k f r : r ∈ routes k f → r ∈ all_routes k.
Proof. unfold all_routes. destruct f; set_solver. Qed.

Lemma link_dsts_LinkSetUp l k k' :
  LinkSetUp l k = (Ok tt, k') →
  (∀ idx, link_dsts k' idx = link_dsts k idx) ∧ rules k' = rules k.
Proof.
  intros (_ & Hr & Ht)%LinkSetUp_ok. split; [|done]. intros idx.
  assert (∀ f, nc_routes (routes k' f) = nc_routes (routes k f)) as Hnc.
  { intros f. apply Ht. unfold ncTableID, kernel_tables. set_solver. }
  unfold link_dsts, all_routes. by rewrite !filter_app, !Hnc.
Qed.

Lemma addThrow_ok c v k k' :
  kernel_prefix v → addThrow c v k = (Ok tt, k') →
  has_throw k' v ∧ (∀ u, has_throw k u → has_throw k' u) ∧ rules k' = rules k ∧
  (∀ i, i ∉ throw_indexes → link_dsts k' i ≡ₚ link_dsts k i).
Proof.
  intros Hv Ha%wrap_ok.
  apply (RouteAdd_all _ (ToIPNet v)) in Ha as (Hr & r' & (Ht & Hp & Hi & _ & Hd) & Hall); [|done].
  rewrite decide_True in Hi by done. simpl in *. split_and!; [..|done|].
  - exists r'. rewrite Hall. split_and!; [set_solver|done|done|by apply Hp|]. by apply Hd.
  - intros u (r & Hin & Hu). exists r. rewrite Hall. split; [set_solver|done].
  - intros i Hni. rewrite (link_dsts_cons _ _ r') by done. rewrite decide_False by congruence. done.
Qed.

Lemma addThrows_ok c l k k' :
  Forall kernel_prefix l → forM_ l (addThrow c) k = (Ok tt, k') →
  (∀ v, v ∈ l → has_throw k' v) ∧ (∀ u, has_throw k u → has_throw k' u) ∧ rules k' = rules k ∧
  (∀ i, i ∉ throw_indexes → link_dsts k' i ≡ₚ link_dsts k i).
Proof.
  intros Hl. revert k. induction Hl as [|v l Hv Hl IH]; intros k H; simpl in H.
  - injection H as <-. split_and!; [set_solver|done..].
  - apply bind_ok in H as ([] & k1 & H1 & H2).
    destruct (addThrow_ok _ _ _ _ Hv H1) as (Ht & Hm & Hr & Hd).
    destruct (IH _ H2) as (Ht' & Hm' & Hr' & Hd'). split_and!.
    + intros u [->|Hu]%elem_of_cons; auto.
    + auto.
    + congruence.
    + intros i Hi. by rewrite Hd', Hd.
Qed.

(** ** The routes [collectRoutes] finds *)

Lemma collect_loop_ok idx ro m m' :
  collect_loop idx ro m = Ok m' →
  (∀ p r, m' !! p = Some r →
     m !! p = Some r ∨ r ∈ ro ∧ rt_LinkIndex r = idx ∧ dst_prefix r = Some p) ∧
  (∀ p, is_Some (m !! p) → is_Some (m' !! p)) ∧
  (∀ r p, r ∈ ro → rt_LinkIndex r = idx → dst_prefix r = Some p → is_Some (m' !! p)).
Proof.
  revert m. induction ro as [|r ro IH]; intros m H; simpl in H.
  { injection H as <-. split_and!; [auto|auto|set_solver]. }
  destruct (rt_Dst r) as [dst|] eqn:Hd; [case_decide as Hi; [destruct (FromIPNet dst) as [d []] eqn:Hf|]|];
    simpl in H; [|done|..].
  - assert (dst_prefix r = Some d) as Hdp by (unfold dst_prefix; by rewrite Hd, Hf).
    destruct (IH _ H) as (H1 & H2 & H3). split_and!.
    + intros p r0 Hl. destruct (H1 _ _ Hl) as [Hins|?]; [|set_solver].
      apply lookup_insert_Some in Hins as [[<- <-]|[_ ?]]; [right|by left]. set_solver.
    + intros p Hp. apply H2. destruct (decide (d = p)) as [->|Hne].
      * by rewrite lookup_insert_eq.
      * by rewrite lookup_insert_ne.
    + intros r0 p [->|Hin]%elem_of_cons Hi0 Hp; [|eauto].
      apply H2. assert (p = d) as -> by congruence. by rewrite lookup_insert_eq.
  - destruct (IH _ H) as (H1 & H2 & H3). split_and!; [|done|].
    + intros p r0 Hl. destruct (H1 _ _ Hl) as [?|?]; set_solver.
    + intros r0 p [->|Hin]%elem_of_cons Hi0 Hp; [done|eauto].
  - assert (dst_prefix r = None) as Hdp by (unfold dst_prefix; by rewrite Hd).
    destruct (IH _ H) as (H1 & H2 & H3). split_and!; [|done|].
    + intros p r0 Hl. destruct (H1 _ _ Hl) as [?|?]; set_solver.
    + intros r0 p [->|Hin]%elem_of_cons Hi0 Hp; [congruence|eauto].
Qed.

Lemma collectRoute1_ok idx f k m :
  collectRoute1 idx f k = Ok m →
  (∀ p r, m !! p = Some r →
     r ∈ routes k f ∧ rt_Table r = ncTableID ∧ rt_LinkIndex r = idx ∧ dst_prefix r = Some p) ∧
  (∀ r p, r ∈ routes k f → rt_Table r = ncTableID → rt_LinkIndex r = idx →
     dst_prefix r = Some p → is_Some (m !! p)).
Proof.
  unfold collectRoute1. destruct (RouteListFiltered _ _ _ _) as [ro|] eqn:Hl; [|done].
  apply RouteListFiltered_ok in Hl as ->. intros (H1 & _ & H3)%collect_loop_ok. split.
  - intros p r Hp. destruct (H1 _ _ Hp) as [He|([? ?]%list_elem_of_filter & ? & ?)]; [|done].
    by rewrite lookup_empty in He.
  - intros r p Hr Ht Hi Hp. apply (H3 r); [|done..]. by apply list_elem_of_filter.
Qed.

Lemma collectRoutes_ok idx k m :
  collectRoutes idx k = Ok m →
  (∀ p r, m !! p = Some r → rt_Table r = ncTableID ∧ rt_LinkIndex r = idx ∧ dst_prefix r = Some p) ∧
  (∀ p, is_Some (m !! p) ↔ Some p ∈ link_dsts k idx).
Proof.
  unfold collectRoutes. destruct (collectRoute1 _ FAMILY_V4 _) as [m4|] eqn:H4; [|done].
  destruct (collectRoute1 _ FAMILY_V6 _) as [m6|] eqn:H6; [|done]. intros [= <-].
  apply collectRoute1_ok in H4 as [H4a H4b], H6 as [H6a H6b].
  assert (∀ p r, (m6 ∪ m4) !! p = Some r → r ∈ all_routes k ∧ rt_Table r = ncTableID ∧
    rt_LinkIndex r = idx ∧ dst_prefix r = Some p) as Ha.
  { intros p r [Hp|[_ Hp]]%lookup_union_Some_raw.
    - destruct (H6a _ _ Hp) as [Hr ?]. split; [|done]. by eapply all_routes_elem.
    - destruct (H4a _ _ Hp) as [Hr ?]. split; [|done]. by eapply all_routes_elem. }
  split; [intros p r Hp; by apply Ha in Hp as [_ ?]|]. intros p. unfold link_dsts.
  rewrite list_elem_of_fmap. setoid_rewrite list_elem_of_filter. setoid_rewrite list_elem_of_filter. split.
  - intros [r Hr]. destruct (Ha _ _ Hr) as (? & ? & ? & ?). exists r. done.
  - intros (r & Hp & Hi & Ht & [Hr|Hr]%elem_of_app); rewrite lookup_union_is_Some;
      [right; by eapply H4b|left; by eapply H6b].
Qed.

(** Adding routes through a link adds exactly their destinations to it. *)
Context (listed_dst : ∀ k f r, r ∈ routes k f → rt_Dst r ≠ None).

Lemma all_routes_dst k r : r ∈ all_routes k → ∃ d p, rt_Dst r = Some d ∧ FromIPNet d = (p, true) ∧
  dst_prefix r = Some p ∧ r ∈ routes k (ipnet_family d).
Proof.
  intros Hr. assert (∃ f, r ∈ routes k f) as [f Hf].
  { unfold all_routes in Hr. apply elem_of_app in Hr as [?|?]; eauto. }
  destruct (rt_Dst r) as [d|] eqn:Hd; [|by destruct (listed_dst _ _ _ Hf)].
  destruct (routes_dst r d k f Hf Hd) as (Hfam & p & Hp). exists d, p.
  unfold dst_prefix. rewrite Hd, Hp, Hfam. done.
Qed.

Lemma lists_dst_all k r p : r ∈ all_routes k → lists_dst r p → dst_prefix r = Some p.
Proof.
  intros Hr [?|[_ Hn]]; [done|]. destruct (all_routes_dst _ _ Hr) as (d & ? & Hd & _). congruence.
Qed.

Lemma addRoutes_ok c link l k k' :
  Forall kernel_prefix l → forM_ l (addRoute c link) k = (Ok tt, k') →
  link_dsts k' (lindex link) ≡ₚ (Some <$> l) ++ link_dsts k (lindex link) ∧
  (∀ i, i ≠ lindex link → link_dsts k' i ≡ₚ link_dsts k i) ∧
  (∀ u, has_throw k u → has_throw k' u) ∧ rules k' = rules k.
Proof.
  intros Hl. revert k. induction Hl as [|v l Hv Hl IH]; intros k H; simpl in H.
  - injection H as <-. done.
  - apply bind_ok in H as ([] & k1 & H1 & H2). apply wrap_ok in H1.
    apply (RouteAdd_all _ (ToIPNet v)) in H1 as (Hr & r' & (Ht & Hp & Hi & _ & Hd) & Hall); [|done].
    rewrite decide_False in Hi by done. simpl in *.
    assert (dst_prefix r' = Some v) as Hdv.
    { apply (lists_dst_all k1); [rewrite Hall; set_solver|]. by apply Hd. }
    destruct (IH _ H2) as (Hd1 & Hd2 & Hm & Hr2). split_and!.
    + rewrite Hd1, (link_dsts_cons _ _ _ _ Hall Ht), decide_True, Hdv by done. csimpl.
      by rewrite <- Permutation_middle.
    + intros i Hne. rewrite Hd2, (link_dsts_cons _ _ _ _ Hall Ht), decide_False by congruence. done.
    + intros u (r & Hin & Hu). apply Hm. exists r. rewrite Hall. split; [set_solver|done].
    + congruence.
Qed.

(** A route listed for one that was added to [v]. *)
Definition added (mk : Prefix → Route) (v : Prefix) (r : Route) : Prop :=
  route_like (mk v) r ∧ dst_prefix r = Some v.

Lemma add_list_ok (mk : Prefix → Route) (text : Prefix → string) l k k' :
  (∀ v, rt_Dst (mk v) = Some (ToIPNet v)) → Forall kernel_prefix l →
  forM_ l (λ v, wrap (Errorf (text v)) (RouteAdd (mk v))) k = (Ok tt, k') →
  ∃ rs, all_routes k' ≡ₚ rs ++ all_routes k ∧ Forall2 (added mk) l rs.
Proof.
  intros Hmk Hl. revert k. induction Hl as [|v l Hv Hl IH]; intros k H; simpl in H.
  - injection H as <-. by exists [].
  - apply bind_ok in H as ([] & k1 & H1%wrap_ok & H2).
    apply (RouteAdd_all _ (ToIPNet v)) in H1 as (_ & r & Hr & Hall); [|by rewrite Hmk].
    destruct (IH _ H2) as (rs & Hrs & Hf). exists (r :: rs). split.
    + rewrite Hrs, Hall. by rewrite <- Permutation_middle.
    + constructor; [|done]. split; [done|]. apply (lists_dst_all k1); [rewrite Hall; set_solver|].
      apply Hr; [done|]. apply Hmk.
Qed.

(** Deleting routes of a link removes exactly their destinations from it. *)
Lemma delRoute_ok c r p idx k k' :
  rt_Table r = ncTableID → rt_LinkIndex r = idx → dst_prefix r = Some p → idx ∉ throw_indexes →
  delRoute c r k = (Ok tt, k') →
  link_dsts k idx ≡ₚ Some p :: link_dsts k' idx ∧
  (∀ i, i ≠ idx → link_dsts k i ≡ₚ link_dsts k' i) ∧
  (∀ u, has_throw k u → has_throw k' u) ∧ rules k' = rules k.
Proof.
  intros Ht Hi Hp Hidx HD. unfold dst_prefix in Hp.
  destruct (rt_Dst r) as [d|] eqn:Hd; [|done]. destruct (FromIPNet d) as [p' ok] eqn:Hfd.
  destruct ok; [|done]. injection Hp as ->.
  destruct (RouteDel_ok r d p _ _ Hd Hfd HD) as ((r' & Ht' & Hi' & Hl & Hperm) & Ho & _ & Hr).
  assert (rt_LinkIndex r' = idx) as Hri.
  { rewrite <- Hi. apply Hi'. intros H0. apply Hidx. rewrite <- Hi, H0. by left. }
  assert (all_routes k ≡ₚ r' :: all_routes k') as Hall.
  { eapply all_routes_change; [done|]. intros f' Hf'. symmetry. by apply Ho. }
  assert (dst_prefix r' = Some p) as Hdp.
  { apply (lists_dst_all k); [|done]. rewrite Hall. by left. }
  rewrite Ht in Ht'. split_and!; [| | |done].
  - by rewrite (link_dsts_cons _ _ _ _ Hall Ht'), decide_True, Hdp.
  - intros i Hne. rewrite (link_dsts_cons _ _ _ _ Hall Ht'), decide_False by congruence. done.
  - intros u (r0 & Hin & Hu). exists r0. split; [|done]. rewrite Hall in Hin.
    apply elem_of_cons in Hin as [->|?]; [|done]. by destruct Hu as (_ & Hu & _); rewrite Hri in Hu.
Qed.

Lemma delRoutes_ok c idx l k k' :
  Forall (λ r, rt_Table r = ncTableID ∧ rt_LinkIndex r = idx ∧ is_Some (dst_prefix r)) l →
  idx ∉ throw_indexes → forM_ l (delRoute c) k = (Ok tt, k') →
  link_dsts k idx ≡ₚ (dst_prefix <$> l) ++ link_dsts k' idx ∧
  (∀ i, i ≠ idx → link_dsts k i ≡ₚ link_dsts k' i) ∧
  (∀ u, has_throw k u → has_throw k' u) ∧ rules k' = rules k.
Proof.
  intros Hl Hidx. revert k. induction Hl as [|r l (Ht & Hi & p & Hp) Hl IH]; intros k H; simpl in H.
  - injection H as <-. done.
  - apply bind_ok in H as ([] & k1 & H1 & H2).
    destruct (delRoute_ok _ _ _ _ _ _ Ht Hi Hp Hidx H1) as (Hd & Ho & Hm & Hr).
    destruct (IH _ H2) as (Hd' & Ho' & Hm' & Hr'). split_and!.
    + csimpl. by rewrite Hd, Hd', Hp.
    + intros i Hne. by rewrite Ho, Ho'.
    + auto.
    + congruence.
Qed.

End client_facts.

(** ** The plan of an update *)

Lemma subnetsSet_elem l p : p ∈ subnetsSet l ↔ p ∈ l.
Proof.
  unfold subnetsSet. enough (∀ s : gset Prefix, p ∈ foldl (λ s subnet, {[subnet]} ∪ s) s l ↔ p ∈ l ∨ p ∈ s) as H.
  { rewrite H. set_solver. }
  induction l as [|x l IH]; intros s; simpl; [set_solver|]. rewrite IH. set_solver.
Qed.

Section update.
Context (range : gmap Prefix Route → list (Prefix * Route)).
Context (range_perm : ∀ m, range m ≡ₚ map_to_list m).

Lemma route_dels_elem m subnets r :
  r ∈ route_dels range m subnets ↔ ∃ p, m !! p = Some r ∧ p ∉ subnets.
Proof.
  unfold route_dels. rewrite list_elem_of_fmap. split.
  - intros ([p r'] & -> & [Hp Hin]%list_elem_of_filter). exists p. simpl in *.
    rewrite range_perm, elem_of_map_to_list in Hin. by rewrite subnetsSet_elem in Hp.
  - intros (p & Hr & Hp). exists (p, r). split; [done|]. apply list_elem_of_filter.
    rewrite range_perm, elem_of_map_to_list, subnetsSet_elem. done.
Qed.

(** The counting argument: what a table holds after the additions and the
    deletions [UpdateRoutes] computes from what it held before. *)
Lemma update_dsts (m : gmap Prefix Route) subnets (D0 D1 D2 : list (option Prefix)) p :
  NoDup D0 → (∀ q, is_Some (m !! q) ↔ Some q ∈ D0) → (∀ q r, m !! q = Some r → dst_prefix r = Some q) →
  D1 ≡ₚ (Some <$> route_adds m subnets) ++ D0 → D1 ≡ₚ (dst_prefix <$> route_dels range m subnets) ++ D2 →
  Some p ∈ D2 ↔ p ∈ subnets.
Proof.
  intros Hnd Hdom Hdst Hadd Hdel.
  assert (∀ q, Some q ∈ dst_prefix <$> route_dels range m subnets ↔ Some q ∈ D0 ∧ q ∉ subnets) as Hd.
  { intros q. rewrite list_elem_of_fmap. setoid_rewrite route_dels_elem. split.
    - intros (r & Hr & q' & Hq & Hn). apply Hdst in Hq as Hq'. assert (q' = q) as -> by congruence.
      split; [|done]. apply Hdom. eauto.
    - intros [[r Hr]%Hdom Hn]. exists r. split; [by rewrite (Hdst _ _ Hr)|eauto]. }
  assert (∀ q, q ∈ route_adds m subnets ↔ q ∈ subnets ∧ m !! q = None) as Ha.
  { intros q. unfold route_adds. rewrite list_elem_of_filter. tauto. }
  assert (Some p ∈ D1 ↔ p ∈ route_adds m subnets ∨ Some p ∈ D0) as H1.
  { rewrite Hadd, elem_of_app, list_elem_of_fmap_inj by (intros ?? [=]; done). done. }
  split.
  - intros H2. destruct (decide (p ∈ subnets)) as [|Hn]; [done|exfalso].
    assert (Some p ∈ D0) as H0.
    { assert (Some p ∈ D1) as HD by (rewrite Hdel, elem_of_app; by right).
      apply H1 in HD as [HD|?]; [|done]. by apply Ha in HD as [??]. }
    assert (filter (λ x, x = Some p) D1 ≡ₚ filter (λ x, x = Some p) D0) as Hf.
    { rewrite Hadd, filter_app.
      replace (filter (λ x, x = Some p) (Some <$> route_adds m subnets)) with (@nil (option Prefix)); [done|].
      symmetry. apply elem_of_nil_inv. intros x [-> Hx]%list_elem_of_filter.
      apply list_elem_of_fmap_inj in Hx; [|intros ?? [=]; done]. by apply Ha in Hx as [??]. }
    assert (NoDup (filter (λ x, x = Some p) D1)) as Hnd1 by (rewrite Hf; by apply NoDup_filter).
    rewrite Hdel, filter_app in Hnd1. apply NoDup_app in Hnd1 as (_ & Hdisj & _).
    apply (Hdisj (Some p)); apply list_elem_of_filter; (split; [done|]); [|done]. by apply Hd.
  - intros Hs. assert (Some p ∈ D1) as HD.
    { apply H1. destruct (m !! p) as [r|] eqn:Hp; [right|left].
      - apply Hdom. eauto.
      - by apply Ha. }
    rewrite Hdel, elem_of_app in HD. destruct HD as [HD|]; [|done]. by apply Hd in HD as [_ ?].
Qed.
End update.

(** ** Retrying *)

Lemma FromIPNet_family d p :
  FromIPNet d = (p, true) → ipnet_family d = if Is4 (p_ip p) then FAMILY_V4 else FAMILY_V6.
Proof.
  unfold FromIPNet, ToAddr, ipnet_family.
  destruct (To4 (ipn_IP d)) as [b|] eqn:H4; [|destruct (To16 (ipn_IP d)) as [b|] eqn:H16].
  - assert (List.length b = 4%nat) as Hb.
    { unfold To4 in H4. repeat case_decide; simplify_eq; [done|]. rewrite length_drop. lia. }
    unfold AddrFromSlice. rewrite Hb. cbn [negb]. destruct (Mask_Size _). by intros [= <-].
  - assert (List.length b = 16%nat) as Hb.
    { unfold To16, To4 in *. repeat case_decide; simplify_eq. done. }
    unfold AddrFromSlice. rewrite Hb. cbn [negb]. destruct (Mask_Size _). by intros [= <-].
  - done.
Qed.

Lemma ToIPNet_family p :
  kernel_prefix p → ipnet_family (ToIPNet p) = if Is4 (p_ip p) then FAMILY_V4 else FAMILY_V6.
Proof.
  intros (Hwf & _ & H4). apply FromIPNet_family. rewrite FromIPNet_ToIPNet, H4 by done. done.
Qed.

Section retry.
Context {K : Type} {NL : Netlink K} {L : NetlinkLaws K}.
Context (listed_dst : ∀ k f r, r ∈ routes k f → rt_Dst r ≠ None).

Lemma addThrow_again c k v :
  kernel_prefix v → has_throw k v → ∃ e, addThrow c v k = (Err e, k).
Proof.
  intros Hv (r & Hr & Ht & _ & Hp & Hl).
  pose proof (lists_dst_all listed_dst _ _ _ Hr Hl) as Hdp.
  destruct (all_routes_dst listed_dst _ _ Hr) as (d & p & Hd & Hf & Hdp2 & Hin). simplify_eq.
  rewrite (FromIPNet_family d v Hf), <- ToIPNet_family in Hin by done.
  destruct (RouteAdd_exists (mkRoute ncTableID (Some (ToIPNet v)) 0 ncProtocolID throwMetric RTN_THROW)
    v k r eq_refl Hv Hin Hl Ht Hp) as [e He].
  exists (Errorf ("netlink: failed to add route(table " +:+ Itoa ncTableID +:+ ") to " +:+ Prefix_String v +:+ ": ") e).
  unfold addThrow. apply run_wrap_err. exact He.
Qed.

Lemma has_throw_LinkSetUp l k k' v : LinkSetUp l k = (Ok tt, k') → has_throw k v → has_throw k' v.
Proof.
  intros (_ & _ & Hf)%LinkSetUp_ok (r & Hr & Ht & Hu). exists r. split; [|done].
  assert (∀ f, r ∈ routes k f → r ∈ routes k' f) as Hk.
  { intros f Hin. assert (r ∈ filter (λ r, rt_Table r = ncTableID) (routes k' f)) as Hin'.
    { rewrite Hf by (unfold ncTableID, kernel_tables; set_solver). by apply list_elem_of_filter. }
    by apply list_elem_of_filter in Hin' as [_ ?]. }
  apply elem_of_app in Hr as [Hr|Hr]; eapply all_routes_elem; by apply Hk.
Qed.
End retry.

(** ** Failing half way *)

Section failing.
Context {K : Type} {NL : Netlink K} {L : NetlinkLaws K}.

Definition keeps_rules (f : Family) : relation K := λ k k', rules k' f = rules k f.

#[local] Instance keeps_rules_pre f : PreOrder (keeps_rules f).
Proof. split; unfold keeps_rules; [done|congruence]. Qed.

Lemma clear_rule_keeps f f' r :
  f' ≠ f → ru_Family r = Some f → preserves (keeps_rules f') (clear_rule f r).
Proof.
  intros Hne Hf. unfold clear_rule. case_decide as Hp; [apply preserves_ret, _|].
  apply preserves_wrap. intros k. destruct (RuleDel _ k) as [[[]|e] k'] eqn:HD; unfold keeps_rules; simpl.
  - apply (RuleDel_ok _ f) in HD as (_ & Ho & _); [by apply Ho|by destruct (ru_Dst r)..|].
    destruct (ru_Dst r); simpl; by rewrite Hp.
  - by apply RuleDel_err in HD as ->.
Qed.

Lemma clear_route_keeps f f' r k0 :
  r ∈ routes k0 f → preserves (keeps_rules f') (clear_route f r).
Proof.
  intros Hin. apply preserves_wrap. intros k.
  destruct (RouteDel _ k) as [[[]|e] k'] eqn:HD; unfold keeps_rules; simpl;
    [|by apply RouteDel_err in HD as ->].
  destruct (rt_Dst r) as [d|] eqn:Hd.
  - destruct (routes_dst r d k0 f Hin Hd) as (_ & p & Hp).
    destruct (RouteDel_ok _ _ _ _ _ Hd Hp HD) as (_ & _ & _ & ->). done.
  - destruct (defaultGW_ipnet f) as [Hp _].
    apply (RouteDel_ok _ (ToIPNet (defaultGW f)) (defaultGW f)) in HD as (_ & _ & _ & ->); done.
Qed.

Lemma clear_keeps f f' : f' ≠ f → preserves (keeps_rules f') (clear f).
Proof.
  intros Hne k. rewrite clear_eq. unfold mbind, M_bind, wrap, ask.
  destruct (RuleList f k) as [l|] eqn:Hl; [|done]. apply RuleList_ok in Hl as ->.
  assert (keeps_rules f' k (forM_ (rules k f) (clear_rule f) k).2) as H1.
  { apply (preserves_forM (keeps_rules f')). intros r Hr. apply clear_rule_keeps; [done|].
    by eapply rules_family. }
  destruct (forM_ (rules k f) (clear_rule f) k) as [[[]|e] k1]; [|done]. cbn [snd] in H1.
  destruct (RouteListFiltered f _ _ k1) as [l|] eqn:Hl; [|done]. apply RouteListFiltered_ok in Hl as ->.
  etrans; [exact H1|]. apply (preserves_forM (keeps_rules f')).
  intros r [_ Hr]%list_elem_of_filter. by eapply clear_route_keeps.
Qed.

Lemma init_family_keeps c f f' text :
  f' ≠ f → preserves (keeps_rules f') (init_family c f text).
Proof.
  intros Hne. unfold init_family. destruct (uses c f); [|apply preserves_ret, _].
  apply preserves_bind; [apply _|by apply clear_keeps|]. intros [].
  apply preserves_wrap. intros k. destruct (RuleAdd _ k) as [[[]|e] k'] eqn:HA; unfold keeps_rules; simpl.
  - apply (RuleAdd_ok _ f) in HA as (_ & Ho & _); [|done]. by apply Ho.
  - by apply RuleAdd_err in HA as ->.
Qed.

(** No rule of another component uses the client's table. *)
Definition no_foreign_rule (k : K) (f : Family) : Prop :=
  Forall (λ r, ru_Priority r ≠ ncPrio → ru_Table r ≠ ncTableID) (rules k f).

Lemma no_foreign_rule_kept k k' f :
  others_kept k k' f → no_foreign_rule k f → no_foreign_rule k' f.
Proof.
  intros [Hr _]. unfold no_foreign_rule. rewrite !Forall_forall. intros H r Hin Hp.
  apply H; [|done]. assert (r ∈ filter (λ r, ru_Priority r ≠ ncPrio) (rules k f)) as Hf.
  { rewrite <- Hr. by apply list_elem_of_filter. }
  by apply list_elem_of_filter in Hf as [_ ?].
Qed.

Lemma family_ready_one k f :
  family_ready k f → no_foreign_rule k f →
  List.length (filter (λ r, ru_Table r = ncTableID) (rules k f)) = 1%nat.
Proof.
  intros (r & Hr & (Ht & _) & _) Hf. rewrite length_table_rules, Hr by done.
  by rewrite filter_cons_True.
Qed.

Lemma IsInitialized_v4 k c b :
  useipv4 c = true → List.length (filter (λ r, ru_Table r = ncTableID) (rules k FAMILY_V4)) = 1%nat →
  IsInitialized c k = Ok b → b = true.
Proof.
  intros Hc Hl. unfold IsInitialized. rewrite Hc.
  destruct (RuleListFiltered _ _ _ _) as [l|] eqn:He; [|done]. apply RuleListFiltered_ok in He as ->.
  rewrite decide_False by (rewrite Hl; lia). congruence.
Qed.
End failing.

(** ** The properties of the client *)

Section properties.
Context {K : Type} {NL : Netlink K} {L : NetlinkLaws K}.

Lemma Init_ok (c : natClient) (k k' : K) :
  Init c k = (Ok tt, k') →
  (∀ f, if uses c f then family_ready k' f ∧ others_kept k k' f
        else rules k' f = rules k f ∧ routes k' f = routes k f) ∧
  (∀ n, LinkByName n k' = LinkByName n k).
Proof.
  rewrite Init_eq. intros ([] & k1 & H4 & H6)%bind_ok.
  apply init_family_ok in H4 as (H4 & H4o & H4l), H6 as (H6 & H6o & H6l).
  destruct (H4o FAMILY_V6 ltac:(done)) as [E1 E2], (H6o FAMILY_V4 ltac:(done)) as [E3 E4].
  split; [|intros n; by rewrite H6l].
  intros []; unfold family_ready, others_kept in *.
  - by rewrite E3, E4.
  - by rewrite <- E1, <- E2.
Qed.

(** A successful [Init] leaves, in every address family the client uses,
    exactly one rule of the client's priority, pointing to the client's table,
    and an empty table, whatever was there before; rules of other priorities
    and routes of other tables are kept, families it does not use and all
    links are untouched. *)
Theorem nat_client_Init_ready (c : natClient) (k k' : K) :
  Init c k = (Ok tt, k') →
  (∀ f, if uses c f then family_ready k' f ∧ others_kept k k' f
        else rules k' f = rules k f ∧ routes k' f = routes k f) ∧
  (∀ n, LinkByName n k' = LinkByName n k).
Proof. apply Init_ok. Qed.

(** After a successful [Init], [IsInitialized] answers true, provided no
    other component keeps a rule to the client's table. *)
Theorem nat_client_IsInitialized_after_Init (c : natClient) (k k' : K) (b : bool) :
  Init c k = (Ok tt, k') → (∀ f, no_foreign_rule k f) → IsInitialized c k' = Ok b → b = true.
Proof.
  rewrite Init_eq. intros ([] & k1 & H4 & H6)%bind_ok Hno.
  apply init_family_ok in H4 as (H4 & H4o & _), H6 as (H6 & H6o & _).
  destruct (H4o FAMILY_V6 ltac:(done)) as [E1 _], (H6o FAMILY_V4 ltac:(done)) as [E3 _].
  destruct (useipv4 c) eqn:Hc.
  - simpl in H4. rewrite Hc in H4. destruct H4 as [Hr Ho]. apply IsInitialized_v4; [done|].
    rewrite E3. apply family_ready_one; [done|]. by eapply no_foreign_rule_kept.
  - unfold IsInitialized. rewrite Hc. destruct (useipv6 c) eqn:Hc6; [|congruence].
    simpl in H6. rewrite Hc6 in H6. destruct H6 as [Hr Ho].
    destruct (RuleListFiltered _ _ _ _) as [l|] eqn:He; [|done]. apply RuleListFiltered_ok in He as ->.
    rewrite decide_False; [congruence|]. rewrite family_ready_one; [lia|done|].
    eapply no_foreign_rule_kept; [done|]. unfold no_foreign_rule. rewrite E1. apply Hno.
Qed.

(** A dual-stack client whose IPv6 half of [Init] failed reports itself
    initialised: [IsInitialized] looks at the IPv4 rule only. *)
Theorem nat_client_half_Init (k k1 k2 : K) (e : goerror) (b : bool) :
  Init (mkNatClient true false) k = (Ok tt, k1) → Init (mkNatClient true true) k = (Err e, k2) →
  no_foreign_rule k FAMILY_V4 → IsInitialized (mkNatClient true true) k2 = Ok b → b = true.
Proof.
  rewrite !Init_eq. intros ([] & k1' & H4 & [= <-])%bind_ok H6 Hno.
  assert (init_family (mkNatClient true true) FAMILY_V4 "netlink: failed to add v4 natclient rule: " k =
    (Ok tt, k1')) as H4' by exact H4.
  rewrite (run_bind_ok _ _ _ _ _ H4') in H6.
  apply init_family_ok in H4 as ([Hr Ho] & _ & _). apply IsInitialized_v4; [done|].
  pose proof (init_family_keeps (mkNatClient true true) FAMILY_V6 FAMILY_V4
    "netlink: failed to add v6 natclient rule: " ltac:(done) k1') as Hk.
  rewrite H6 in Hk. unfold keeps_rules in Hk. simpl in Hk. rewrite Hk.
  apply family_ready_one; [done|]. by eapply no_foreign_rule_kept.
Qed.

Section routes.
Context (listed_dst : ∀ (k : K) f r, r ∈ routes k f → rt_Dst r ≠ None).
Context (range : gmap Prefix Route → list (Prefix * Route)).
Context (range_perm : ∀ m, range m ≡ₚ map_to_list m).

Lemma UpdateRoutes_ok c link subnets k k' :
  Forall kernel_prefix subnets → lindex link ∉ throw_indexes → NoDup (link_dsts k (lindex link)) →
  UpdateRoutes range c link subnets k = (Ok tt, k') →
  (∀ p, Some p ∈ link_dsts k' (lindex link) ↔ p ∈ subnets) ∧
  (∀ v, v ∈ throw_list → has_throw k' v) ∧
  (∀ i, i ≠ lindex link → i ∉ throw_indexes → link_dsts k' i ≡ₚ link_dsts k i) ∧
  rules k' = rules k.
Proof.
  intros Hs Hidx Hnd H. unfold UpdateRoutes in H.
  apply bind_ok in H as (m & k0 & Hc & H). apply wrap_ok, ask_ok in Hc as [Hc ->].
  apply bind_ok in H as ([] & k1 & H1 & H). apply wrap_ok, link_dsts_LinkSetUp in H1 as [Hd1 Hr1].
  apply bind_ok in H as ([] & k2 & H2 & H).
  destruct (addThrows_ok _ _ _ _ throw_list_kernel H2) as (Ht2 & _ & Hr2 & Hd2).
  apply bind_ok in H as ([] & k3 & H3 & H4).
  apply addRoutes_ok in H3 as (Hd3 & Ho3 & Ht3 & Hr3); [|done|].
  2:{ rewrite Forall_forall in *. intros x [_ Hx]%list_elem_of_filter. auto. }
  destruct (collectRoutes_ok _ _ _ Hc) as [Hm Hdom].
  assert (Forall (λ r, rt_Table r = ncTableID ∧ rt_LinkIndex r = lindex link ∧ is_Some (dst_prefix r))
    (route_dels range m subnets)) as Hdels.
  { apply Forall_forall. intros r Hr. apply route_dels_elem in Hr as (p & Hp & _); [|done..].
    destruct (Hm _ _ Hp) as (? & ? & ?). eauto. }
  destruct (delRoutes_ok listed_dst _ _ _ _ _ Hdels Hidx H4) as (Hd4 & Ho4 & Ht4 & Hr4).
  split_and!.
  - intros p. eapply (update_dsts range range_perm m subnets); [exact Hnd|exact Hdom| |etrans; [exact Hd3|]|exact Hd4].
    + intros q r Hq. apply Hm in Hq as (_ & _ & ?). done.
    + by rewrite Hd2, Hd1.
  - auto.
  - intros i Hi Hni. by rewrite <- Ho4, Ho3, Hd2, Hd1.
  - congruence.
Qed.

(** C13: A successful [UpdateRoutes] makes the destinations routed through the
    link exactly the requested subnets, adds a throw route for every private
    and link-local network, keeps what the table routes through every other
    link, and changes no rule; the order in which Go visits the map of current
    routes does not matter. *)
Theorem nat_client_UpdateRoutes_exact (c : natClient) (link : Link) (subnets : list Prefix) (k k' : K) :
  Forall kernel_prefix subnets → lindex link ∉ throw_indexes → NoDup (link_dsts k (lindex link)) →
  UpdateRoutes range c link subnets k = (Ok tt, k') →
  (∀ p, Some p ∈ link_dsts k' (lindex link) ↔ p ∈ subnets) ∧
  (∀ v, v ∈ throw_list → has_throw k' v) ∧
  (∀ i, i ≠ lindex link → i ∉ throw_indexes → link_dsts k' i ≡ₚ link_dsts k i) ∧
  rules k' = rules k.
Proof. apply UpdateRoutes_ok. Qed.

Lemma UpdateRoutes_again (c2 : natClient) (link2 : Link) (subnets2 : list Prefix) (k' : K) :
  (∀ v, v ∈ throw_list → has_throw k' v) →
  ∃ e k2, UpdateRoutes range c2 link2 subnets2 k' = (Err e, k2) ∧
    ∀ i, link_dsts k2 i = link_dsts k' i.
Proof.
  intros Ht.
  unfold UpdateRoutes, mbind, M_bind, wrap at 1, ask.
  destruct (collectRoutes (lindex link2) k') as [m|e]; [|by exists (Errorf "failed to collect routes: " e), k'].
  unfold wrap at 1. destruct (LinkSetUp link2 k') as [[[]|e] k2] eqn:Hup.
  2:{ apply LinkSetUp_err in Hup as ->. by eexists _, k'. }
  pose proof throw_list_kernel as Hk. pose proof (link_dsts_LinkSetUp _ _ _ Hup) as [Hd _].
  assert (∀ v, v ∈ throw_list → has_throw k2 v) as Ht2.
  { intros v Hv. eapply has_throw_LinkSetUp; [done..|]. by apply Ht. }
  destruct throw_list as [|v l] eqn:Hl; [done|].
  destruct (addThrow_again listed_dst c2 k2 v) as [e He].
  - by rewrite Forall_cons in Hk; destruct Hk.
  - apply Ht2. by left.
  - cbn [forM_]. rewrite (run_bind_err _ _ _ _ _ He). by exists e, k2.
Qed.

Lemma UpdateRoutes_links c link subnets k k' n :
  UpdateRoutes range c link subnets k = (Ok tt, k') → LinkByName n k' = LinkByName n k.
Proof.
  intros H. unfold UpdateRoutes in H.
  apply bind_ok in H as (m & k0 & Hc & H). apply wrap_ok, ask_ok in Hc as [Hc ->].
  destruct (collectRoutes_ok _ _ _ Hc) as [Hm _].
  apply bind_ok in H as ([] & k1 & H1 & H). apply wrap_ok, LinkSetUp_ok in H1 as [H1 _].
  apply bind_ok in H as ([] & k2 & H2 & H). apply bind_ok in H as ([] & k3 & H3 & H4).
  set (R := λ x y : K, LinkByName n y = LinkByName n x).
  assert (PreOrder R) as HR by (split; unfold R; [done|congruence]).
  assert (∀ text r d x, rt_Dst r = Some d → R x (wrap (Errorf text) (RouteAdd r) x).2) as Hadd.
  { intros text r d x Hd. apply (preserves_wrap R). intros y. unfold R.
    destruct (RouteAdd r y) as [[[]|e] z] eqn:HA; simpl.
    - by destruct (RouteAdd_ok _ _ _ _ Hd HA) as (_ & _ & -> & _).
    - by apply RouteAdd_err in HA as ->. }
  pose proof (preserves_forM R throw_list (addThrow c) ltac:(intros a _ x; by eapply Hadd) k1) as R2.
  pose proof (preserves_forM R (route_adds m subnets) (addRoute c link) ltac:(intros a _ x; by eapply Hadd) k2) as R3.
  pose proof (preserves_forM R (route_dels range m subnets) (delRoute c)) as R4.
  rewrite H2 in R2. rewrite H3 in R3. specialize (R4 ltac:(
    intros r Hr x; apply route_dels_elem in Hr as (p & Hp & _); [|done];
    destruct (Hm _ _ Hp) as (_ & _ & Hd); unfold dst_prefix in Hd;
    destruct (rt_Dst r) as [d|] eqn:Hdst; [|done]; destruct (FromIPNet d) as [q []] eqn:Hf; [|done];
    unfold R, delRoute; destruct (RouteDel r x) as [[[]|e] z] eqn:HD; simpl;
    [by destruct (RouteDel_ok _ _ _ _ _ Hdst Hf HD) as (_ & _ & -> & _)|by apply RouteDel_err in HD as ->]) k3).
  rewrite H4 in R4. unfold R in *. simpl in *. by rewrite R4, R3, R2.
Qed.

(** The routes [UpdateRoutes] puts into an empty table: those to the subnets
    and the throw routes, and nothing else. *)
Lemma UpdateRoutes_fresh c link subnets k k' :
  Forall kernel_prefix subnets → (∀ f, filter (λ r, rt_Table r = ncTableID) (routes k f) = []) →
  UpdateRoutes range c link subnets k = (Ok tt, k') →
  ∃ rs ts, filter (λ r, rt_Table r = ncTableID) (all_routes k') ≡ₚ rs ++ ts ∧
    Forall2 (added (λ n, mkRoute ncTableID (Some (ToIPNet n)) (lindex link) ncProtocolID routeMetric RTN_UNSPEC))
      subnets rs ∧
    Forall2 (added (λ n, mkRoute ncTableID (Some (ToIPNet n)) 0 ncProtocolID throwMetric RTN_THROW))
      throw_list ts.
Proof.
  intros Hs Hempty H. unfold UpdateRoutes in H.
  apply bind_ok in H as (m & k0 & Hc & H). apply wrap_ok, ask_ok in Hc as [Hc ->].
  assert (link_dsts k (lindex link) = []) as Hld.
  { unfold link_dsts, all_routes. by rewrite filter_app, !Hempty. }
  assert (m = ∅) as ->.
  { apply map_empty. intros q. destruct (m !! q) as [r|] eqn:Hq; [|done]. exfalso.
    destruct (collectRoutes_ok _ _ _ Hc) as [_ Hd]. apply (not_elem_of_nil (Some q)). rewrite <- Hld.
    apply Hd. by exists r. }
  apply bind_ok in H as ([] & k1 & (_ & _ & H1)%wrap_ok%LinkSetUp_ok & H).
  apply bind_ok in H as ([] & k2 & H2 & H). apply bind_ok in H as ([] & k3 & H3 & H4).
  assert (route_dels range ∅ subnets = []) as Hdel.
  { apply elem_of_nil_inv. intros r (q & Hq & _)%route_dels_elem; [by rewrite lookup_empty in Hq|done]. }
  rewrite Hdel in H4. injection H4 as <-.
  assert (route_adds ∅ subnets = subnets) as Hadd.
  { unfold route_adds. rewrite list_filter_all; [done|]. apply Forall_forall. intros q _. apply lookup_empty. }
  rewrite Hadd in H3.
  apply (add_list_ok listed_dst) in H2 as (ts & Hts & Ht), H3 as (rs & Hrs & Hr); [|done|done|done|exact throw_list_kernel].
  exists rs, ts. split_and!; [|done..]. rewrite Hrs, Hts, !filter_app.
  assert (filter (λ r, rt_Table r = ncTableID) (all_routes k1) = []) as ->.
  { unfold all_routes. rewrite filter_app, !H1, !Hempty by (unfold ncTableID, kernel_tables; set_solver). done. }
  rewrite app_nil_r, !list_filter_all; [done|..].
  - eapply Forall2_Forall_r; [exact Ht|]. apply Forall_forall. intros v _ r [[Htb _] _]. exact Htb.
  - eapply Forall2_Forall_r; [exact Hr|]. apply Forall_forall. intros v _ r [[Htb _] _]. exact Htb.
Qed.

(** Once an [UpdateRoutes] has succeeded, every further one in the same
    namespace fails, whatever its link and subnets, without changing what is
    routed through any link: the throw routes are added each time, and adding
    a route that exists is an error.  A pod with two egresses needs two. *)
Theorem nat_client_UpdateRoutes_only_once (c : natClient) (link : Link) (subnets : list Prefix) (k k' : K)
    (c2 : natClient) (link2 : Link) (subnets2 : list Prefix) :
  Forall kernel_prefix subnets → lindex link ∉ throw_indexes → NoDup (link_dsts k (lindex link)) →
  UpdateRoutes range c link subnets k = (Ok tt, k') →
  ∃ e k2, UpdateRoutes range c2 link2 subnets2 k' = (Err e, k2) ∧
    ∀ i, link_dsts k2 i = link_dsts k' i.
Proof.
  intros Hs Hi Hnd H. destruct (UpdateRoutes_ok _ _ _ _ _ Hs Hi Hnd H) as (_ & Ht & _).
  by apply UpdateRoutes_again.
Qed.
End routes.
End properties.

(** ** What the client never touches

    No operation, whatever comes of it, changes a rule of another priority or
    its place among the others, nor a route of a table that is neither the
    client's nor one the kernel itself writes. *)

Section frame.
Context {K : Type} {NL : Netlink K} {L : NetlinkLaws K}.

Definition client_frame (k k' : K) : Prop :=
  (∀ f, filter (λ r, ru_Priority r ≠ ncPrio) (rules k' f) = filter (λ r, ru_Priority r ≠ ncPrio) (rules k f)) ∧
  ∀ f t, t ≠ ncTableID → t ∉ kernel_tables →
    filter (λ r, rt_Table r = t) (routes k' f) = filter (λ r, rt_Table r = t) (routes k f).

#[export] Instance client_frame_pre : PreOrder client_frame.
Proof.
  split; [by intros k|]. intros k1 k2 k3 [H1 H2] [H3 H4].
  split; [intros f; by rewrite H3|]. intros f t Ht Hk. by rewrite H4, H2.
Qed.

Lemma frame_RuleAdd r f : ru_Family r = Some f → ru_Priority r = ncPrio → preserves client_frame (RuleAdd r).
Proof.
  intros Hf Hp k. destruct (RuleAdd r k) as [[[]|e] k'] eqn:HA; simpl; [|by apply RuleAdd_err in HA as ->].
  apply (RuleAdd_place _ f) in HA as ((r' & (_ & Hp' & _) & Hpl) & Ho & _ & Hrt); [|done].
  split; [|by rewrite Hrt]. intros f'. destruct (decide (f' = f)) as [->|Hne]; [|by rewrite Ho].
  apply (plus_one_filter (λ r, ru_Priority r ≠ ncPrio)) in Hpl as [_ Hpl]. apply Hpl. rewrite Hp'. intros Hn. by apply Hn.
Qed.

Lemma frame_RuleDel r f : ru_Family r = Some f → ru_Priority r = ncPrio → preserves client_frame (RuleDel r).
Proof.
  intros Hf Hp k. destruct (RuleDel r k) as [[[]|e] k'] eqn:HD; simpl; [|by apply RuleDel_err in HD as ->].
  apply (RuleDel_place _ f) in HD as ((r' & Hp' & Hpl) & Ho & _ & Hrt); [|done|by rewrite Hp].
  split; [|by rewrite Hrt]. intros f'. destruct (decide (f' = f)) as [->|Hne]; [|by rewrite Ho].
  apply (plus_one_filter (λ r, ru_Priority r ≠ ncPrio)) in Hpl as [_ Hpl]. symmetry. apply Hpl.
  rewrite Hp'. intros Hn. by apply Hn.
Qed.

Lemma frame_RouteAdd r d : rt_Dst r = Some d → rt_Table r = ncTableID → preserves client_frame (RouteAdd r).
Proof.
  intros Hd Ht k. destruct (RouteAdd r k) as [[[]|e] k'] eqn:HA; simpl; [|by apply RouteAdd_err in HA as ->].
  apply (RouteAdd_place _ d) in HA as ((r' & (Ht' & _) & Hpl) & Ho & _ & Hru); [|done].
  split; [by rewrite Hru|]. intros f t Hnt _. destruct (decide (f = ipnet_family d)) as [->|Hne]; [|by rewrite Ho].
  apply (plus_one_filter (λ r, rt_Table r = t)) in Hpl as [_ Hpl]. apply Hpl. congruence.
Qed.

Lemma frame_RouteDel r d p :
  rt_Dst r = Some d → FromIPNet d = (p, true) → rt_Table r = ncTableID → preserves client_frame (RouteDel r).
Proof.
  intros Hd Hp Ht k. destruct (RouteDel r k) as [[[]|e] k'] eqn:HD; simpl; [|by apply RouteDel_err in HD as ->].
  apply (RouteDel_place _ d p) in HD as ((r' & Ht' & _ & _ & Hpl) & Ho & _ & Hru); [|done..].
  split; [by rewrite Hru|]. intros f t Hnt _. destruct (decide (f = ipnet_family d)) as [->|Hne]; [|by rewrite Ho].
  apply (plus_one_filter (λ r, rt_Table r = t)) in Hpl as [_ Hpl]. symmetry. apply Hpl. congruence.
Qed.

Lemma frame_LinkSetUp l : preserves client_frame (LinkSetUp l).
Proof.
  intros k. destruct (LinkSetUp l k) as [[[]|e] k'] eqn:HU; simpl; [|by apply LinkSetUp_err in HU as ->].
  apply LinkSetUp_ok in HU as (_ & Hr & Ht). split; [by rewrite Hr|]. intros f t _. apply Ht.
Qed.

Lemma frame_clear_rule f r : ru_Family r = Some f → preserves client_frame (clear_rule f r).
Proof.
  intros Hf. unfold clear_rule. case_decide as Hp; [apply preserves_ret, _|].
  apply preserves_wrap, (frame_RuleDel _ f); by destruct (ru_Dst r).
Qed.

Lemma frame_clear_route f r k0 :
  r ∈ routes k0 f → rt_Table r = ncTableID → preserves client_frame (clear_route f r).
Proof.
  intros Hin Ht. apply preserves_wrap. destruct (rt_Dst r) as [d|] eqn:Hd.
  - destruct (routes_dst r d k0 f Hin Hd) as (_ & p & Hp). by apply (frame_RouteDel _ d p).
  - destruct (defaultGW_ipnet f) as [Hp _]. by apply (frame_RouteDel _ (ToIPNet (defaultGW f)) (defaultGW f)).
Qed.

Lemma frame_clear f : preserves client_frame (clear f).
Proof.
  intros k. rewrite clear_eq. unfold mbind, M_bind, wrap, ask.
  destruct (RuleList f k) as [l|] eqn:Hl; [|done]. apply RuleList_ok in Hl as ->.
  assert (client_frame k (forM_ (rules k f) (clear_rule f) k).2) as H1.
  { apply (preserves_forM client_frame). intros r Hr. apply frame_clear_rule. by eapply rules_family. }
  destruct (forM_ (rules k f) (clear_rule f) k) as [[[]|e] k1]; [|done]. cbn [snd] in H1.
  destruct (RouteListFiltered f _ _ k1) as [l|] eqn:Hl; [|done]. apply RouteListFiltered_ok in Hl as ->.
  etrans; [exact H1|]. apply (preserves_forM client_frame).
  intros r [Ht Hr]%list_elem_of_filter. by eapply frame_clear_route.
Qed.

Lemma frame_Init c : preserves client_frame (Init c).
Proof.
  rewrite Init_eq.
  assert (∀ f text, preserves client_frame (init_family c f text)) as Hi.
  { intros f text. unfold init_family. destruct (uses c f); [|apply preserves_ret, _].
    apply preserves_bind; [apply _|apply frame_clear|]. intros []. by apply preserves_wrap, (frame_RuleAdd _ f). }
  apply preserves_bind; [apply _|apply Hi|]. intros []. apply Hi.
Qed.

Lemma frame_UpdateRoutes range (range_perm : ∀ m, range m ≡ₚ map_to_list m) c link subnets :
  preserves client_frame (UpdateRoutes range c link subnets).
Proof.
  intros k. unfold UpdateRoutes, mbind at 1, M_bind at 1, wrap at 1, ask.
  destruct (collectRoutes (lindex link) k) as [m|e] eqn:Hc; [|done]. destruct (collectRoutes_ok _ _ _ Hc) as [Hm _].
  clear Hc. revert k Hm. intros k Hm.
  apply (preserves_bind client_frame); [apply preserves_wrap, frame_LinkSetUp|intros []].
  apply (preserves_bind client_frame); [|intros []].
  { apply (preserves_forM client_frame). intros v _. by eapply preserves_wrap, frame_RouteAdd. }
  apply (preserves_bind client_frame); [|intros []].
  { apply (preserves_forM client_frame). intros v _. by eapply preserves_wrap, frame_RouteAdd. }
  apply (preserves_forM client_frame). intros r Hr. apply (route_dels_elem range range_perm) in Hr as (p & Hp & _).
  destruct (Hm _ _ Hp) as (Ht & _ & Hd). unfold dst_prefix in Hd.
  destruct (rt_Dst r) as [d|] eqn:Hdst; [|done]. destruct (FromIPNet d) as [q []] eqn:Hf; [|done].
  by eapply frame_RouteDel.
Qed.
End frame.

(** ** Witnesses *)

Definition sim_eth : Link := OtherLink "veth" (mkLinkAttrs "eth0" 2 1000).
Definition sim_net (s : string) : Prefix := MustParsePrefix s.

(** A pod's namespace in which an earlier run left a rule and a route. *)
Definition sim_pod : Kern :=
  mkKern {[ "eth0" := sim_eth ]} 3
    [mkRule (Some FAMILY_V4) 254 32766 "" None []; mkRule (Some FAMILY_V4) 117 1900 "" None []]
    [mkRoute 117 (Some (ToIPNet (sim_net "8.8.8.0/24"))) 2 30 100 0] [] [] ∅ [].

Lemma sim_listed_dst (k : Kern) f r : r ∈ routes k f → rt_Dst r ≠ None.
Proof. intros [[Hf _] _]%list_elem_of_filter Hn. by rewrite Hn in Hf. Qed.

Lemma nat_client_Init_ready_witness :
  family_ready (Init (mkNatClient true true) sim_pod).2 FAMILY_V4 ∧
  family_ready (Init (mkNatClient true true) sim_pod).2 FAMILY_V6.
Proof.
  destruct (nat_client_Init_ready (mkNatClient true true) sim_pod (Init (mkNatClient true true) sim_pod).2)
    as [Hf _]; [vm_compute; reflexivity|].
  split; [exact (proj1 (Hf FAMILY_V4))|exact (proj1 (Hf FAMILY_V6))].
Defined.

Lemma sim_pod_no_foreign f : no_foreign_rule sim_pod f.
Proof.
  apply Forall_forall. intros r Hr. destruct f; vm_compute in Hr;
    repeat (apply elem_of_cons in Hr as [->|Hr]; [by vm_compute|]); by apply elem_of_nil in Hr.
Qed.

Lemma nat_client_IsInitialized_after_Init_witness :
  IsInitialized (mkNatClient true true) sim_pod = Ok true ∧
  IsInitialized (mkNatClient true true) (Init (mkNatClient true true) sim_pod).2 = Ok true.
Proof.
  split; [vm_compute; reflexivity|].
  destruct (IsInitialized (mkNatClient true true) (Init (mkNatClient true true) sim_pod).2) as [b|] eqn:Hb.
  - f_equal. eapply (nat_client_IsInitialized_after_Init (mkNatClient true true) sim_pod);
      [vm_compute; reflexivity|exact sim_pod_no_foreign|exact Hb].
  - exfalso. vm_compute in Hb. discriminate Hb.
Defined.

Definition sim_pod_no6 : Kern :=
  mkKern (k_links sim_pod) 3 (k_rules sim_pod) (k_routes sim_pod) [] [] ∅ ["ipv6.disable=1"].

Lemma nat_client_half_Init_witness :
  is_ok (Init (mkNatClient true true) sim_pod_no6).1 = false ∧
  (∀ b, IsInitialized (mkNatClient true true) (Init (mkNatClient true true) sim_pod_no6).2 = Ok b → b = true).
Proof.
  split; [vm_compute; reflexivity|]. intros b.
  eapply (nat_client_half_Init sim_pod_no6); [vm_compute; reflexivity| |exact (sim_pod_no_foreign FAMILY_V4)].
  vm_compute. reflexivity.
Defined.

Lemma sim_subnets_kernel : Forall kernel_prefix [sim_net "1.1.1.0/24"; sim_net "2001:db8::/32"].
Proof.
  rewrite !Forall_cons, Forall_nil.
  split_and!; [apply MustParsePrefix_kernel; vm_compute; reflexivity..|exact I].
Qed.

Lemma sim_eth_index : lindex sim_eth ∉ throw_indexes.
Proof. unfold throw_indexes. simpl. set_solver. Qed.

Lemma nat_client_UpdateRoutes_exact_witness :
  let k' := (UpdateRoutes map_to_list (mkNatClient true true) sim_eth
               [sim_net "1.1.1.0/24"; sim_net "2001:db8::/32"] sim_pod).2 in
  link_dsts sim_pod 2 = [Some (sim_net "8.8.8.0/24")] ∧
  (∀ p, Some p ∈ link_dsts k' 2 ↔ p ∈ [sim_net "1.1.1.0/24"; sim_net "2001:db8::/32"]).
Proof.
  intros k'. split; [vm_compute; reflexivity|].
  eapply (nat_client_UpdateRoutes_exact sim_listed_dst map_to_list (λ m, reflexivity _)
    (mkNatClient true true) sim_eth _ sim_pod k' sim_subnets_kernel);
    [exact sim_eth_index|apply NoDup_singleton|vm_compute; reflexivity].
Defined.

Lemma nat_client_UpdateRoutes_only_once_witness :
  let k' := (UpdateRoutes map_to_list (mkNatClient true true) sim_eth
               [sim_net "1.1.1.0/24"; sim_net "2001:db8::/32"] sim_pod).2 in
  ∃ e k2, UpdateRoutes map_to_list (mkNatClient true true) sim_eth [sim_net "9.9.9.0/24"] k' = (Err e, k2).
Proof.
  intros k'.
  destruct (nat_client_UpdateRoutes_only_once sim_listed_dst map_to_list (λ m, reflexivity _)
    (mkNatClient true true) sim_eth _ sim_pod k' (mkNatClient true true) sim_eth [sim_net "9.9.9.0/24"]
    sim_subnets_kernel) as (e & k2 & H1 & _);
    [exact sim_eth_index|apply NoDup_singleton|vm_compute; reflexivity|].
  by exists e, k2.
Defined.
