(* ===== verification/NatGateway.v ===== *)
(** * pkg/nat/gateway.go: the NAT gateway of an egress pod

    [gateway] masquerades what leaves through an interface and routes replies
    back into the tunnel of the client they are for.  Every function of the
    file is modelled. *)
From Stdlib Require Import Ascii String.
From S2P Require Import Prelude GoStrings NetAddr NetParse NetIPUtil Netlink SimKernel Tunnel FouTunnel.

Local Open Scope Z_scope.

Definition egressTableID : Z := 118.
Definition egressProtocolID : Z := 30.
Definition egressRulePrio : Z := 2000.
Definition egressDummy : string := "nat-dummy".

(** The package's own variable, with the text of the tunnel package's. *)
Definition nat_ErrIPFamilyMismatch : goerror :=
  ErrVar "nat.ErrIPFamilyMismatch" "no matching IP family".

Record gateway := mkGateway { iface : string; ipv4 : option Addr; ipv6 : option Addr }.

Definition NewGateway (iface : string) (ipv4 ipv6 : option Addr) : result gateway :=
  match ipv4 with
  | Some a => if negb (Is4 a) then Err (ErrText ("invalid IPv4 address, ip=" +:+ Addr_String a)) else Ok tt
  | None => Ok tt
  end ≫= λ _,
  match ipv6 with
  | Some a => if negb (Is6 a) then Err (ErrText ("invalid IPv6 address, ip=" +:+ Addr_String a)) else Ok tt
  | None => Ok tt
  end ≫= λ _,
  Ok (mkGateway iface ipv4 ipv6).

Section gateway.
Context {K : Type} {NL : Netlink K}.

Definition newRule (c : gateway) (family : Family) : Rule :=
  let r := NewRule in
  mkRule (Some family) egressTableID egressRulePrio (iface c) (ru_Dst r) (ru_other r).

Definition Init (c : gateway) : M K unit :=
  r ← try (ask (LinkByName egressDummy));
  match r with
  | Ok _ => mret tt
  | Err err =>
      if negb (is_LinkNotFound err) then throw err
      else
        (if ipv4 c is Some a then
           ask (ipt_NewWithProtocol FAMILY_V4);;
           let ipn := NewIPNet (FromAddr a) in
           wrap (Errorf "failed to setup masquerade rule for IPv4: ")
             (ipt_Append FAMILY_V4 "nat" "POSTROUTING"
                ["!"; "-s"; IPNet_String ipn; "-o"; iface c; "-j"; "MASQUERADE"]);;
           wrap (Errorf "netlink: failed to add egress rule for IPv4: ") (RuleAdd (newRule c FAMILY_V4))
         else mret tt);;
        (if ipv6 c is Some a then
           ask (ipt_NewWithProtocol FAMILY_V6);;
           let ipn := NewIPNet (FromAddr a) in
           wrap (Errorf "failed to setup masquerade rule for IPv6: ")
             (ipt_Append FAMILY_V6 "nat" "POSTROUTING"
                ["!"; "-s"; IPNet_String ipn; "-o"; iface c; "-j"; "MASQUERADE"]);;
           wrap (Errorf "netlink: failed to add egress rule for IPv6: ") (RuleAdd (newRule c FAMILY_V6))
         else mret tt);;
        let attrs := with_name NewLinkAttrs egressDummy in
        wrap (Errorf "failed to add dummy device: ") (LinkAdd (Dummy attrs));;
        mret tt
  end.

(** The test of the loop of [AddClient]. *)
Definition routes_to (addr : Addr) (r : Route) : bool :=
  match rt_Dst r with
  | None => false
  | Some d => IP_Equal (ipn_IP d) (FromAddr addr)
  end.

Definition AddClient (c : gateway) (addr : Addr) (link : Link) : M K unit :=
  if Is4 addr && bool_decide (ipv4 c = None) then throw nat_ErrIPFamilyMismatch
  else if Is6 addr && bool_decide (ipv6 c = None) then throw nat_ErrIPFamilyMismatch
  else
    let family := if Is6 addr then FAMILY_V6 else FAMILY_V4 in
    routes ← wrap (Errorf ("netlink: failed to list routes in table " +:+ Itoa egressTableID +:+ ": "))
      (ask (RouteListFiltered family (route_in_table egressTableID) RT_FILTER_TABLE));
    if existsb (routes_to addr) routes then mret tt
    else
      wrap (Errorf ("netlink: failed to link up " +:+ lname link +:+ ": ")) (LinkSetUp link);;
      wrap (Errorf ("netlink: failed to add " +:+ Addr_String addr +:+ " to table "
                    +:+ Itoa egressTableID +:+ ": "))
        (RouteAdd (mkRoute egressTableID (Some (NewIPNet (FromAddr addr))) (lindex link)
                     egressProtocolID 0 RTN_UNSPEC)).
End gateway.

(** ** The host prefix of a client *)

Definition host_prefix (a : Addr) : Prefix := mkPrefix a (BitLen a + 1).

Lemma host_prefix_kernel a : canonical a → kernel_prefix (host_prefix a).
Proof.
  intros (Hwf & Hne & Hz & H4). split_and!; simpl; try done.
  - destruct a; simpl; try done; lia.
  - unfold masked, Prefix_Bits. simpl. replace (BitLen a - (BitLen a + 1 - 1)) with 0 by lia. apply Z.mod_1_r.
Qed.

Lemma To4_canonical a :
  canonical a → To4 (FromAddr a) = if Is6 a then None else Some (FromAddr a).
Proof.
  intros (Hwf & Hne & Hz & H4). rewrite To4_FromAddr by done.
  destruct a as [|v|v z]; [done|done|]. simpl in *. by rewrite H4.
Qed.

Lemma ipnet_family_host a : canonical a → ipnet_family (ToIPNet (host_prefix a)) = addr_family a.
Proof.
  intros Ha. unfold ipnet_family. simpl. rewrite To4_canonical by done.
  unfold addr_family. by destruct (Is6 a).
Qed.

(** Only the address itself has the bytes of its listed destination. *)
Lemma ToAddr_Equal ip a :
  Forall is_byte ip → ToAddr ip = (a, true) → IP_Equal ip (FromAddr a) = true.
Proof.
  intros Hb. unfold ToAddr.
  destruct (To4 ip) as [f|] eqn:H4; [|destruct (To16 ip) as [f|] eqn:H16; [|done]].
  - unfold To4 in H4. case_decide as Hl.
    + injection H4 as <-. unfold AddrFromSlice. rewrite Hl. intros [= <-].
      unfold FromAddr, AsSlice. rewrite <- Hl at 1.
      rewrite be_bytes_val by done. apply IP_Equal_refl.
    + case_decide as Hp; [|done]. destruct Hp as [Hl16 Hp]. injection H4 as <-.
      assert (List.length (drop 12 ip) = 4%nat) as Hd by (rewrite length_drop; lia).
      unfold AddrFromSlice. rewrite Hd. intros [= <-]. unfold FromAddr, AsSlice.
      rewrite <- Hd at 1. rewrite be_bytes_val by (by apply Forall_drop).
      unfold IP_Equal. rewrite Hl16, Hd. simpl.
      rewrite !bool_decide_eq_true_2 by done. done.
  - unfold To4 in H4. unfold To16 in H16. case_decide as Hl; [done|]. case_decide as Hl16; [|done].
    injection H16 as <-. unfold AddrFromSlice. rewrite Hl16. intros [= <-].
    unfold FromAddr, AsSlice. rewrite <- Hl16 at 1. rewrite be_bytes_val by done. apply IP_Equal_refl.
Qed.

Lemma dst_prefix_routes_to r d a p :
  rt_Dst r = Some d → Forall is_byte (ipn_IP d) → dst_prefix r = Some p → p_ip p = a →
  withoutZone a = a → routes_to a r = true.
Proof.
  intros Hd Hb Hp Ha Hz. unfold dst_prefix in Hp. unfold routes_to. rewrite Hd in *.
  unfold FromIPNet in Hp. destruct (ToAddr (ipn_IP d)) as [b ok] eqn:Hto. destruct ok; [|done].
  simpl in Hp. destruct (Mask_Size _). injection Hp as <-. simpl in Ha. subst a.
  assert (withoutZone b = b) as ->.
  { unfold ToAddr in Hto. repeat case_match; simplify_eq; unfold AddrFromSlice in *;
      repeat case_match; by simplify_eq. }
  by apply ToAddr_Equal.
Qed.

Section gateway_facts.
Context {K : Type} {NL : Netlink K} {L : NetlinkLaws K}.

(** The gateway routes replies for [a] into some tunnel. *)
Definition gw_has_client (k : K) (a : Addr) : Prop :=
  ∃ r, r ∈ routes k (addr_family a) ∧ rt_Table r = egressTableID ∧ routes_to a r = true.

Definition supports (c : gateway) (a : Addr) : bool :=
  match a with AddrV4 _ => bool_decide (ipv4 c ≠ None) | AddrV6 _ _ => bool_decide (ipv6 c ≠ None)
  | AddrInvalid => true end.

Lemma egress_not_kernel : egressTableID ∉ kernel_tables.
Proof. unfold egressTableID, kernel_tables. set_solver. Qed.

Lemma has_client_found k a :
  gw_has_client k a ↔ existsb (routes_to a) (filter (λ r, rt_Table r = egressTableID) (routes k (addr_family a))) = true.
Proof.
  rewrite existsb_exists. unfold gw_has_client. setoid_rewrite <- list_elem_of_In.
  setoid_rewrite list_elem_of_filter. naive_solver.
Qed.

(** What [AddClient] adds when it finds no route. *)
Definition client_route (a : Addr) (link : Link) : Route :=
  mkRoute egressTableID (Some (NewIPNet (FromAddr a))) (lindex link) egressProtocolID 0 RTN_UNSPEC.

Lemma NewIPNet_host a : canonical a → NewIPNet (FromAddr a) = ToIPNet (host_prefix a).
Proof.
  intros Ha. rewrite NewIPNet_ok, To4_canonical by done. unfold ToIPNet, Prefix_Bits, host_prefix.
  cbn [p_ip p_bitsPlusOne]. rewrite Z.add_simpl_r.
  destruct Ha as (_ & Hne & _). by destruct a.
Qed.

(** Every way [AddClient] can end. *)
Inductive client_run (c : gateway) (a : Addr) (link : Link) (k : K) : result unit * K → Prop :=
| cr_family : supports c a = false → client_run c a link k (Err nat_ErrIPFamilyMismatch, k)
| cr_list e : supports c a = true → client_run c a link k (Err e, k)
| cr_found : supports c a = true → gw_has_client k a → client_run c a link k (Ok tt, k)
| cr_add e k1 : supports c a = true → ¬ gw_has_client k a → LinkSetUp link k = (Ok tt, k1) →
    client_run c a link k (Err e, k1)
| cr_new k1 k2 : supports c a = true → ¬ gw_has_client k a → LinkSetUp link k = (Ok tt, k1) →
    RouteAdd (client_route a link) k1 = (Ok tt, k2) → client_run c a link k (Ok tt, k2).

Lemma AddClient_run c a link k : a ≠ AddrInvalid → client_run c a link k (AddClient c a link k).
Proof.
  intros Hne. unfold AddClient, throw.
  destruct (supports c a) eqn:Hs.
  - assert (Is4 a && bool_decide (ipv4 c = None) = false ∧ Is6 a && bool_decide (ipv6 c = None) = false) as [-> ->].
    { destruct a; simpl in *; [done|..]; apply bool_decide_eq_true in Hs;
        by rewrite bool_decide_eq_false_2. }
    unfold mbind, M_bind, wrap, ask.
    destruct (RouteListFiltered _ _ _ _) as [l|e] eqn:Hl; [|by apply cr_list].
    apply RouteListFiltered_ok in Hl as ->. pose proof (has_client_found k a) as Hf.
    unfold addr_family in Hf. destruct (existsb _ _); [apply cr_found; [done|by apply Hf]|].
    assert (¬ gw_has_client k a) as Hno by (by intros ?%Hf).
    destruct (LinkSetUp link k) as [[[]|e] k1] eqn:Hup; [|apply LinkSetUp_err in Hup as ->; by apply cr_list].
    destruct (RouteAdd _ k1) as [[[]|e] k2] eqn:Ha; [by eapply cr_new|].
    apply RouteAdd_err in Ha as ->. by eapply cr_add.
  - assert (Is4 a && bool_decide (ipv4 c = None) || Is6 a && bool_decide (ipv6 c = None) = true) as Hm.
    { destruct a; [done|destruct (ipv4 c) eqn:H4|destruct (ipv6 c) eqn:H6]; simpl in *;
        rewrite ?H4, ?H6 in *; done. }
    destruct (Is4 a && _); [by apply cr_family|]. simpl in Hm. rewrite Hm. by apply cr_family.
Qed.

(** The state after a new client's route was added. *)
Lemma new_client a link k k1 k2 :
  canonical a → LinkSetUp link k = (Ok tt, k1) → RouteAdd (client_route a link) k1 = (Ok tt, k2) →
  ∃ r, rt_Table r = egressTableID ∧ rt_LinkIndex r = lindex link ∧ dst_prefix r = Some (host_prefix a) ∧
    (routes_to a r = true ∧ rt_Type r ≠ RTN_THROW) ∧
    filter (λ r, rt_Table r = egressTableID) (routes k2 (addr_family a)) ≡ₚ
      r :: filter (λ r, rt_Table r = egressTableID) (routes k (addr_family a)) ∧
    (∀ f t, t ∉ kernel_tables → (f, t) ≠ (addr_family a, egressTableID) →
      filter (λ r, rt_Table r = t) (routes k2 f) ≡ₚ filter (λ r, rt_Table r = t) (routes k f)) ∧
    (∀ n, LinkByName n k2 = LinkByName n k) ∧ rules k2 = rules k.
Proof.
  intros Ha (Hl1 & Hr1 & Ht1)%LinkSetUp_ok HA.
  apply (RouteAdd_ok _ (ToIPNet (host_prefix a))) in HA as ((r & (Ht & _ & Hi & Hty & Hd) & Hp) & Ho & Hl2 & Hr2);
    [|simpl; by rewrite NewIPNet_host]. rewrite ipnet_family_host in Hp, Ho by done.
  rewrite decide_False in Hi by done. simpl in Ht, Hi.
  destruct (Hd (host_prefix a) (host_prefix_kernel a Ha)) as [Hdp|[Hb _]];
    [simpl; by rewrite NewIPNet_host|..].
  2:{ exfalso. unfold Prefix_Bits, host_prefix in Hb. simpl in Hb.
      destruct Ha as (_ & Hne & _). destruct a; simpl in Hb; [done|lia..]. }
  assert (∃ d, rt_Dst r = Some d) as [d Hdd].
  { unfold dst_prefix in Hdp. destruct (rt_Dst r) as [d|]; [by exists d|done]. }
  assert (r ∈ routes k2 (addr_family a)) as Hin by (rewrite Hp; set_solver).
  exists r. split_and!; try done.
  - eapply dst_prefix_routes_to; [done|by eapply routes_bytes|done|done|]. by destruct Ha as (_ & _ & ? & _).
  - by rewrite Hty.
  - rewrite Hp, filter_cons_True, Ht1 by first [done|exact egress_not_kernel]. done.
  - intros f t Hk Hne. destruct (decide (f = addr_family a)) as [->|Hf].
    + rewrite Hp, filter_cons_False by congruence. by rewrite Ht1.
    + rewrite Ho by done. by rewrite Ht1.
  - intros n. by rewrite Hl2.
  - congruence.
Qed.

Lemma has_client_perm k k' b :
  (∀ f, ∃ l, filter (λ r, rt_Table r = egressTableID) (routes k' f) ≡ₚ
     l ++ filter (λ r, rt_Table r = egressTableID) (routes k f)) →
  gw_has_client k b → gw_has_client k' b.
Proof.
  intros H (r & Hr & Ht & Hto). destruct (H (addr_family b)) as [l Hl]. exists r. split; [|done].
  assert (r ∈ filter (λ r, rt_Table r = egressTableID) (routes k' (addr_family b))) as Hin.
  { rewrite Hl, elem_of_app. right. by apply list_elem_of_filter. }
  by apply list_elem_of_filter in Hin as [_ ?].
Qed.

Lemma AddClient_grows c a link k f :
  canonical a →
  ∃ l, filter (λ r, rt_Table r = egressTableID) (routes (AddClient c a link k).2 f) ≡ₚ
     l ++ filter (λ r, rt_Table r = egressTableID) (routes k f).
Proof.
  intros Ha. destruct (AddClient_run c a link k) as [| | |e k1 ? ? Hup|k1 k2 ? ? Hup HA];
    [by destruct Ha as (_ & ? & _)|by exists []..| |]; simpl.
  - exists []. apply LinkSetUp_ok in Hup as (_ & _ & Ht). by rewrite Ht by exact egress_not_kernel.
  - destruct (new_client a link k k1 k2 Ha Hup HA) as (r & _ & _ & _ & _ & Hp & Ho & _).
    destruct (decide (f = addr_family a)) as [->|Hf]; [by exists [r]|].
    exists []. apply Ho; [exact egress_not_kernel|congruence].
Qed.

Lemma AddClient_links c a link k n :
  canonical a → LinkByName n (AddClient c a link k).2 = LinkByName n k.
Proof.
  intros Ha. destruct (AddClient_run c a link k) as [| | |e k1 ? ? Hup|k1 k2 ? ? Hup HA];
    [by destruct Ha as (_ & ? & _)|done..| |]; simpl.
  - by apply LinkSetUp_ok in Hup as (Hl & _).
  - by destruct (new_client a link k k1 k2 Ha Hup HA) as (r & _ & _ & _ & _ & _ & _ & Hl & _).
Qed.

Lemma AddClient_has c a link k k' :
  canonical a → AddClient c a link k = (Ok tt, k') → gw_has_client k' a.
Proof.
  intros Ha HA. pose proof (AddClient_run c a link k) as Hrun. rewrite HA in Hrun.
  destruct Ha as (? & Hne & ?). specialize (Hrun Hne).
  inversion Hrun as [| | |? ? ? ? Hup|k1 k2 Hs Hno Hup HR]; subst; [done|].
  destruct (new_client a link k k1 k') as (r & Ht & _ & _ & [Hto _] & Hp & _); [done..|].
  exists r. split_and!; [|done..].
  assert (r ∈ filter (λ r, rt_Table r = egressTableID) (routes k' (addr_family a))) as Hin
    by (rewrite Hp; set_solver).
  by apply list_elem_of_filter in Hin as [_ ?].
Qed.

(** ** The gateway and the tunnels as the pod watcher sees them *)

Definition nat_gateway (c : gateway) : Gateway K := {|
  nat_Init := Init c;
  nat_AddClient := AddClient c;
|}.

#[export] Program Instance nat_gateway_laws t c :
  GatewayLaws K (T:=fou_tunnel t) (TL:=fou_tunnel_laws t) (G:=nat_gateway c) := {|
  has_client := gw_has_client;
|}.
Next Obligation. intros t c a l w w'. apply AddClient_has. Qed.
Next Obligation.
  intros t c a l w b Ha. apply has_client_perm. intros f. by apply AddClient_grows.
Qed.
Next Obligation.
  intros t c a l w b Ha. unfold has_peer; simpl. unfold fou_has_peer.
  by setoid_rewrite (AddClient_links c a l w).
Qed.
End gateway_facts.

(** ** Initialisation *)

Section gateway_init.
Context {K : Type} {NL : Netlink K} {L : NetlinkLaws K} {H : HostLaws K}.

Definition gw_addr (c : gateway) (f : Family) : option Addr :=
  match f with FAMILY_V4 => ipv4 c | FAMILY_V6 => ipv6 c end.

(** The set-up of one family. *)
Definition init_half (c : gateway) (f : Family) (text1 text2 : string) : M K unit :=
  if gw_addr c f is Some a then
    ask (ipt_NewWithProtocol f);;
    wrap (Errorf text1)
      (ipt_Append f "nat" "POSTROUTING"
         ["!"; "-s"; IPNet_String (NewIPNet (FromAddr a)); "-o"; iface c; "-j"; "MASQUERADE"]);;
    wrap (Errorf text2) (RuleAdd (newRule c f))
  else mret tt.

(** A rule that sends all that enters through the interface to the clients'
    table. *)
Definition egress_rule (c : gateway) (r : Rule) : Prop :=
  ru_Table r = egressTableID ∧ ru_Priority r = egressRulePrio ∧ ru_IifName r = iface c ∧
  ru_Dst r = None ∧ ru_other r = [].

Lemma egress_rule_like c f r : rule_like (newRule c f) r ↔ egress_rule c r.
Proof.
  destruct NewRule_plain as (_ & Hd & Ho). unfold rule_like, egress_rule, newRule. simpl. by rewrite Hd, Ho.
Qed.

Definition rules_extended (c : gateway) (f : Family) (k k' : K) : Prop :=
  match gw_addr c f with
  | Some _ => ∃ r, egress_rule c r ∧ plus_one r (rules k f) (rules k' f)
  | None => rules k' f = rules k f
  end.

Definition same_links (k k' : K) : Prop := ∀ n, LinkByName n k' = LinkByName n k.

Lemma init_half_ok c f t1 t2 k k' :
  init_half c f t1 t2 k = (Ok tt, k') →
  rules_extended c f k k' ∧ (∀ f', f' ≠ f → rules k' f' = rules k f') ∧ same_links k k' ∧ routes k' = routes k.
Proof.
  unfold init_half, rules_extended. destruct (gw_addr c f) as [a|]; [|by intros [= <-]].
  intros HI. ok_inv HI. match goal with Hx : ipt_Append _ _ _ _ _ = (_, ?k1) |- _ =>
    rename Hx into Hi; rename k1 into k1' end.
  match type of Hi with _ = (Ok ?u, _) => destruct u end.
  pose proof (ipt_Append_net f "nat" "POSTROUTING" 
     ["!"; "-s"; IPNet_String (NewIPNet (FromAddr a)); "-o"; iface c; "-j"; "MASQUERADE"] k) as (Hl & Hru & Ht).
  rewrite Hi in Hl, Hru, Ht. simpl in Hl, Hru, Ht.
  apply (RuleAdd_place _ f) in HI as ((r & Hlike & Hp) & Ho & Hl2 & Ht2); [|done]. split_and!.
  - exists r. split; [by eapply egress_rule_like|]. by rewrite <- Hru.
  - intros f' Hf. by rewrite Ho, Hru.
  - intros n. by rewrite Hl2, Hl.
  - congruence.
Qed.

Lemma init_half_links c f t1 t2 k : same_links k (init_half c f t1 t2 k).2.
Proof.
  assert (PreOrder same_links) as Hpre.
  { split; [done|]. intros k1 k2 k3 H1 H2 n. by rewrite H2. }
  revert k. unfold init_half. destruct (gw_addr c f) as [a|]; [|done].
  apply (preserves_bind same_links); [done|]. intros _.
  apply (preserves_bind same_links).
  - apply preserves_wrap. intros k. exact (proj1 (ipt_Append_net _ _ _ _ k)).
  - intros _. apply preserves_wrap. intros k.
    destruct (RuleAdd _ k) as [[[]|e] k'] eqn:HA; simpl.
    + by apply (RuleAdd_ok _ f) in HA as (_ & _ & ? & _).
    + by apply RuleAdd_err in HA as ->.
Qed.

Lemma init_half_err c f t1 t2 k e k' :
  init_half c f t1 t2 k = (Err e, k') → rules k' = rules k ∧ same_links k k'.
Proof.
  intros HI. pose proof (init_half_links c f t1 t2 k) as Hl. rewrite HI in Hl. split; [|done].
  revert HI. unfold init_half. destruct (gw_addr c f) as [a|]; [|done].
  set (spec := ["!"; "-s"; _; "-o"; _; "-j"; _]).
  pose proof (ipt_Append_net f "nat" "POSTROUTING" spec k) as (_ & Hr & _).
  unfold mbind, M_bind, wrap, ask. destruct (ipt_NewWithProtocol f k); [|by intros [= _ <-]].
  destruct (ipt_Append _ _ _ _ k) as [[[]|e1] k1]; simpl in Hr; [|by intros [= _ <-]].
  destruct (RuleAdd _ k1) as [[[]|e2] k2] eqn:HR; intros [= _ <-]. by apply RuleAdd_err in HR as ->.
Qed.

(** The half of a family whose rule is there already fails. *)
Lemma init_half_again c f t1 t2 k r :
  gw_addr c f ≠ None → r ∈ rules k f → egress_rule c r →
  ∃ e k', init_half c f t1 t2 k = (Err e, k').
Proof.
  intros Hc Hr He. destruct (init_half c f t1 t2 k) as [[[]|e] k'] eqn:HI; [exfalso|by exists e, k'].
  revert HI. unfold init_half. destruct (gw_addr c f) as [a|]; [|done].
  set (spec := ["!"; "-s"; _; "-o"; _; "-j"; _]). intros HI. ok_inv HI.
  match goal with Hx : ipt_Append _ _ _ _ _ = (_, ?k1) |- _ => rename Hx into Hi; rename k1 into k1' end.
  pose proof (ipt_Append_net f "nat" "POSTROUTING" spec k) as (_ & Hru & _). rewrite Hi in Hru.
  destruct (RuleAdd_exists (newRule c f) f k1' r) as [e' He']; [done|done|simpl in Hru; by rewrite Hru| |congruence].
  by apply egress_rule_like.
Qed.

Lemma gw_Init_eq c :
  Init (K:=K) c =
    (r ← try (ask (LinkByName egressDummy));
     match r with
     | Ok _ => mret tt
     | Err err =>
         if negb (is_LinkNotFound err) then throw err
         else
           init_half c FAMILY_V4 "failed to setup masquerade rule for IPv4: "
             "netlink: failed to add egress rule for IPv4: ";;
           init_half c FAMILY_V6 "failed to setup masquerade rule for IPv6: "
             "netlink: failed to add egress rule for IPv6: ";;
           wrap (Errorf "failed to add dummy device: ") (LinkAdd (Dummy (with_name NewLinkAttrs egressDummy)));;
           mret tt
     end).
Proof. reflexivity. Qed.

Lemma gw_Init_done c k l : LinkByName egressDummy k = Ok l → Init c k = (Ok tt, k).
Proof. intros Hl. unfold Init, try, ask, mbind, M_bind. by rewrite Hl. Qed.

(** A successful [Init] without the marker device, up to adding it. *)
Lemma gw_Init_new c k k' e :
  LinkByName egressDummy k = Err e → Init c k = (Ok tt, k') →
  ∃ k2 l, (∀ f, rules_extended c f k k2) ∧ routes k2 = routes k ∧ same_links k k2 ∧
    LinkAdd (Dummy (with_name NewLinkAttrs egressDummy)) k2 = (Ok l, k').
Proof.
  intros He. rewrite gw_Init_eq. intros (r & k0 & Hr & HI)%bind_ok. unfold try, ask in Hr. injection Hr as <- <-.
  rewrite He in HI. destruct (negb (is_LinkNotFound e)); [done|].
  apply bind_ok in HI as ([] & k1 & (R4 & O4 & L4 & T4)%init_half_ok & HI).
  apply bind_ok in HI as ([] & k2 & (R6 & O6 & L6 & T6)%init_half_ok & HI).
  apply bind_ok in HI as (l & k3 & HA%wrap_ok & [= <-]). exists k2, l. split_and!; [|congruence| |done].
  - intros []; unfold rules_extended in *; simpl in *; [by rewrite O6|by rewrite <- (O4 FAMILY_V6)].
  - intros n. by rewrite L6, L4.
Qed.

(** A failed [Init] leaves the links alone. *)
Lemma gw_Init_failed c k e k' : Init c k = (Err e, k') → same_links k k'.
Proof.
  rewrite gw_Init_eq. unfold mbind at 1, M_bind at 1, try, ask.
  destruct (LinkByName egressDummy k) as [l|e0]; [done|]. destruct (negb (is_LinkNotFound e0)); [by intros [= _ <-]|].
  intros [H4|([] & k1 & H4 & [H6|([] & k2 & H6 & [HA|(? & ? & _ & [=])]%bind_err)]%bind_err)]%bind_err.
  - apply init_half_err in H4 as [_ ?]. done.
  - apply init_half_ok in H4 as (_ & _ & L4 & _). apply init_half_err in H6 as [_ L6]. intros n. by rewrite L6, L4.
  - apply init_half_ok in H4 as (_ & _ & L4 & _), H6 as (_ & _ & L6 & _).
    apply wrap_err in HA as (e1 & ->%LinkAdd_err & _). intros n. by rewrite L6, L4.
Qed.

(** C21: [Init] of the gateway runs once: a successful one leaves the marker
    device, so that the next changes nothing, and, if the device was missing,
    adds to every configured family exactly one rule, which sends what enters
    through the interface to the clients' table, leaves the other rules in
    their order, and touches no route; a
    failed one leaves no marker device. *)
Theorem gw_Init_once c k e :
  LinkByName egressDummy k = Err e →
  match Init c k with
  | (Ok _, k') => (∀ f, rules_extended c f k k') ∧ routes k' = routes k ∧ Init c k' = (Ok tt, k')
  | (Err _, k') => LinkByName egressDummy k' = Err e
  end.
Proof.
  intros He. destruct (Init c k) as [[[]|e'] k'] eqn:HI; [|by rewrite (gw_Init_failed _ _ _ _ HI)].
  destruct (gw_Init_new c k k' e He HI) as (k2 & l & Hx & Ht & _ & HA).
  apply LinkAdd_ok in HA as ((l2 & Hl2 & _) & _ & _ & _ & Hr & Ht2).
  split_and!; [|congruence|by eapply gw_Init_done]. intros f. unfold rules_extended. rewrite Hr. apply Hx.
Qed.

(** What is left when [Init] fails after it added a rule: the rule, and no
    marker device. *)
Definition half_initialised (c : gateway) (k : K) : Prop :=
  (∃ e, LinkByName egressDummy k = Err e) ∧
  ∃ f r, gw_addr c f ≠ None ∧ r ∈ rules k f ∧ egress_rule c r.

Lemma rules_extended_elem c f k k' r : rules_extended c f k k' → r ∈ rules k f → r ∈ rules k' f.
Proof.
  unfold rules_extended. destruct (gw_addr c f); [|by intros ->].
  intros (r' & _ & ->%plus_one_perm). set_solver.
Qed.

Lemma rules_extended_half c f k k' k0 :
  rules_extended c f k k' → rules k f = rules k0 f → rules k' f ≠ rules k0 f →
  ∃ r, gw_addr c f ≠ None ∧ r ∈ rules k' f ∧ egress_rule c r.
Proof.
  unfold rules_extended. destruct (gw_addr c f); [|congruence].
  intros (r & He & Hp%plus_one_perm) _ _. exists r. split_and!; [done|rewrite Hp; set_solver|done].
Qed.

Lemma half_initialised_again c k :
  half_initialised c k → ∃ e k', Init c k = (Err e, k') ∧ half_initialised c k'.
Proof.
  intros [[e He] (f & r & Hf & Hr & Heg)].
  rewrite gw_Init_eq. unfold mbind at 1, M_bind at 1, try, ask. rewrite He.
  destruct (is_LinkNotFound e); simpl; [|exists e, k; split; [done|]; split; [by exists e|by exists f, r]].
  unfold mbind, M_bind.
  set (t1 := "failed to setup masquerade rule for IPv4: "). set (t2 := "netlink: failed to add egress rule for IPv4: ").
  set (t3 := "failed to setup masquerade rule for IPv6: "). set (t4 := "netlink: failed to add egress rule for IPv6: ").
  destruct (init_half c FAMILY_V4 t1 t2 k) as [[[]|e4] k1] eqn:H4; simpl.
  2:{ apply init_half_err in H4 as [R4 L4]. exists e4, k1. split; [done|].
      split; [exists e; by rewrite L4|]. exists f, r. by rewrite R4. }
  pose proof (init_half_ok _ _ _ _ _ _ H4) as (X4 & O4 & L4 & _).
  assert (f = FAMILY_V6) as ->.
  { destruct f; [|done]. destruct (init_half_again c FAMILY_V4 t1 t2 k r Hf Hr Heg) as (? & ? & ?). congruence. }
  destruct (init_half_again c FAMILY_V6 t3 t4 k1 r Hf) as (e6 & k2 & H6); [by rewrite O4|done|].
  rewrite H6. apply init_half_err in H6 as [R6 L6]. exists e6, k2. split; [done|].
  split; [exists e; by rewrite L6, L4|]. exists FAMILY_V6, r. by rewrite R6, O4.
Qed.

(** C32: [Init] of the gateway cannot be retried: once it failed after adding a
    rule (the other family's half failed, or the marker device could not be
    added), the rule makes every later [Init] fail, however often it is
    called. *)
Theorem gw_Init_stuck c k e k1 err :
  LinkByName egressDummy k = Err e → Init c k = (Err err, k1) → (∃ f, rules k1 f ≠ rules k f) →
  ∀ n, is_ok (Init c (Nat.iter n (λ k, (Init c k).2) k1)).1 = false.
Proof.
  intros He HI [f Hne].
  assert (half_initialised c k1) as Hh.
  { revert HI. rewrite gw_Init_eq. unfold mbind at 1, M_bind at 1, try, ask. rewrite He.
    destruct (is_LinkNotFound e); simpl; [|by intros [= _ <-]]. unfold mbind, M_bind, wrap, half_initialised.
    destruct (init_half c FAMILY_V4 _ _ k) as [[[]|e4] k2] eqn:H4; simpl;
      [|intros [= _ <-]; by apply init_half_err in H4 as [H4 _]; rewrite H4 in Hne].
    apply init_half_ok in H4 as (X4 & O4 & L4 & _).
    destruct (init_half c FAMILY_V6 _ _ k2) as [[[]|e6] k3] eqn:H6; simpl.
    - apply init_half_ok in H6 as (X6 & O6 & L6 & _).
      destruct (LinkAdd _ k3) as [[]k4] eqn:HA; intros [= _ <-]. apply LinkAdd_err in HA as ->.
      split; [exists e; by rewrite L6, L4|]. destruct f; [exists FAMILY_V4|exists FAMILY_V6].
      + rewrite O6 in * by done. by eapply rules_extended_half.
      + eapply rules_extended_half; [exact X6|by apply O4|done].
    - intros [= _ <-]. apply init_half_err in H6 as [R6 L6]. rewrite R6 in *.
      split; [exists e; by rewrite L6, L4|]. destruct f; [|by rewrite O4 in Hne].
      exists FAMILY_V4. by eapply rules_extended_half. }
  intros n. enough (half_initialised c (Nat.iter n (λ k, (Init c k).2) k1)) as (e' & k' & -> & _)%half_initialised_again by done.
  induction n as [|n IH]; [done|]. simpl. by destruct (half_initialised_again _ _ IH) as (e' & k' & -> & ?).
Qed.

(** A client of a family the gateway has no address of is refused with
    the package's [ErrIPFamilyMismatch], and nothing changes. *)
Theorem gw_AddClient_unsupported c a link k :
  supports c a = false → AddClient c a link k = (Err nat_ErrIPFamilyMismatch, k).
Proof.
  intros Hs. assert (a ≠ AddrInvalid) as Hne by (by intros ->).
  destruct (AddClient_run c a link k Hne); congruence.
Qed.

(** C17: a successful [AddClient] for a client without a route adds exactly
    one: to the client's address alone, through the given link, in the
    clients' table of its family.  No other table but the kernel's own, no
    rule and no link changes. *)
Theorem gw_AddClient_new c a link k k' :
  canonical a → ¬ gw_has_client k a → AddClient c a link k = (Ok tt, k') →
  ∃ r, rt_Table r = egressTableID ∧ rt_LinkIndex r = lindex link ∧ dst_prefix r = Some (host_prefix a) ∧
    filter (λ r, rt_Table r = egressTableID) (routes k' (addr_family a)) ≡ₚ
      r :: filter (λ r, rt_Table r = egressTableID) (routes k (addr_family a)) ∧
    (∀ f t, t ∉ kernel_tables → (f, t) ≠ (addr_family a, egressTableID) →
      filter (λ r, rt_Table r = t) (routes k' f) ≡ₚ filter (λ r, rt_Table r = t) (routes k f)) ∧
    (∀ n, LinkByName n k' = LinkByName n k) ∧ rules k' = rules k.
Proof.
  intros Ha Hno HA. pose proof (AddClient_run c a link k) as Hrun. rewrite HA in Hrun.
  specialize (Hrun (proj1 (proj2 Ha))). inversion Hrun as [| | | |k1 k2 Hs Hno' Hup HR]; subst; [done|].
  destruct (new_client a link k k1 k' Ha Hup HR) as (r & H1 & H2 & H3 & _ & H5 & H6 & H7 & H8).
  by exists r.
Qed.

(** [AddClient] is idempotent: after it succeeded for a client, calling it
    again for that client, with any link, succeeds (or fails to list the
    routes) and changes nothing. *)
Theorem gw_AddClient_idempotent c a link link2 k k' :
  canonical a → AddClient c a link k = (Ok tt, k') →
  gw_has_client k' a ∧ (AddClient c a link2 k').2 = k' ∧
  ((∃ l, RouteListFiltered (addr_family a) (route_in_table egressTableID) RT_FILTER_TABLE k' = Ok l) →
   AddClient c a link2 k' = (Ok tt, k')).
Proof.
  intros Ha HA. pose proof (AddClient_has c a link k k' Ha HA) as Hc.
  assert (supports c a = true) as Hs.
  { pose proof (AddClient_run c a link k (proj1 (proj2 Ha))) as Hrun. rewrite HA in Hrun. by inversion Hrun. }
  split; [done|]. split.
  - by destruct (AddClient_run c a link2 k' (proj1 (proj2 Ha))).
  - intros [l Hl]. unfold AddClient.
    assert (Is4 a && bool_decide (ipv4 c = None) = false ∧ Is6 a && bool_decide (ipv6 c = None) = false) as [-> ->].
    { destruct a; simpl in *; [done|..]; apply bool_decide_eq_true in Hs; by rewrite bool_decide_eq_false_2. }
    unfold mbind, M_bind, wrap, ask. fold (addr_family a). rewrite Hl.
    apply RouteListFiltered_ok in Hl as ->. apply has_client_found in Hc as ->. done.
Qed.
End gateway_init.

(** ** Witnesses *)

Definition sim_gw : gateway := mkGateway "eth0" (Some (AddrV4 167772161)) None.
Definition sim_tun : Link := Iptun (mkLinkAttrs "fou4_0a600007" 5 0) flow_based_opts.
Definition sim_gw_kern : Kern :=
  mkKern {[ "fou4_0a600007" := sim_tun ]} 6 [] [] [] [] ∅ [].

Lemma gw_Init_once_witness :
  ∃ r k', Init sim_gw sim_gw_kern = (Ok tt, k') ∧ egress_rule sim_gw r ∧ rules k' FAMILY_V4 ≡ₚ [r].
Proof.
  pose proof (gw_Init_once sim_gw sim_gw_kern (ErrLinkNotFound egressDummy) eq_refl) as Hw.
  destruct (Init sim_gw sim_gw_kern) as [[[]|e] k'] eqn:HI.
  - destruct Hw as (Hw & _). destruct (Hw FAMILY_V4) as (r & Hr & Hp%plus_one_perm). exists r, k'. done.
  - exfalso. vm_compute in HI. discriminate HI.
Defined.

(** A dual-stack gateway on a host without IPv6. *)
Definition sim_gw46 : gateway := mkGateway "eth0" (Some (AddrV4 167772161)) (Some (AddrV6 1 "")).
Definition sim_gw_no6 : Kern :=
  mkKern {[ "fou4_0a600007" := sim_tun ]} 6 [] [] [] [] ∅ ["ipv6.disable=1"].

Lemma gw_Init_stuck_witness :
  let k1 := (Init sim_gw46 sim_gw_no6).2 in
  rules sim_gw_no6 FAMILY_V4 = [] ∧ List.length (rules k1 FAMILY_V4) = 1%nat ∧
  (∀ n, is_ok (Init sim_gw46 (Nat.iter n (λ k, (Init sim_gw46 k).2) k1)).1 = false).
Proof.
  intros k1. split; [reflexivity|]. split; [vm_compute; reflexivity|].
  destruct (Init sim_gw46 sim_gw_no6) as [[[]|err] k2] eqn:HI; [exfalso; vm_compute in HI; discriminate HI|].
  apply (gw_Init_stuck sim_gw46 sim_gw_no6 (ErrLinkNotFound egressDummy) k2 err); [reflexivity|exact HI|].
  exists FAMILY_V4. pose proof (f_equal (λ x, rules x.2 FAMILY_V4) HI) as Hr. cbn [snd] in Hr. rewrite <- Hr.
  intros Hx. vm_compute in Hx. discriminate Hx.
Defined.

Lemma gw_AddClient_unsupported_witness :
  AddClient sim_gw (AddrV6 1 "") sim_tun sim_gw_kern = (Err nat_ErrIPFamilyMismatch, sim_gw_kern).
Proof. exact (gw_AddClient_unsupported sim_gw (AddrV6 1 "") sim_tun sim_gw_kern eq_refl). Defined.

Lemma sim_client_canonical : canonical (AddrV4 174063623).
Proof. split_and!; [vm_compute; split; congruence|discriminate|reflexivity|reflexivity]. Qed.

Lemma gw_AddClient_new_witness :
  ∃ r, rt_LinkIndex r = 5 ∧ dst_prefix r = Some (host_prefix (AddrV4 174063623)) ∧
    filter (λ r, rt_Table r = egressTableID)
      (routes (AddClient sim_gw (AddrV4 174063623) sim_tun sim_gw_kern).2 FAMILY_V4) ≡ₚ [r].
Proof.
  destruct (gw_AddClient_new sim_gw (AddrV4 174063623) sim_tun sim_gw_kern
    (AddClient sim_gw (AddrV4 174063623) sim_tun sim_gw_kern).2) as (r & _ & H1 & H2 & H3 & _).
  - exact sim_client_canonical.
  - intros (r & Hr & _). by apply elem_of_nil in Hr.
  - vm_compute. reflexivity.
  - exists r. split; [exact H1|]. split; [exact H2|exact H3].
Defined.

Lemma gw_AddClient_idempotent_witness :
  let k' := (AddClient sim_gw (AddrV4 174063623) sim_tun sim_gw_kern).2 in
  gw_has_client k' (AddrV4 174063623) ∧ AddClient sim_gw (AddrV4 174063623) sim_tun k' = (Ok tt, k').
Proof.
  intros k'. destruct (gw_AddClient_idempotent sim_gw (AddrV4 174063623) sim_tun sim_tun sim_gw_kern k')
    as (H1 & _ & H3); [exact sim_client_canonical|vm_compute; reflexivity|].
  split; [exact H1|]. apply H3. eexists. reflexivity.
Defined.
