(* ===== verification/Mocks.v ===== *)
(** * pkg/tunnel/mock and pkg/nat/mock

    The in-memory tunnel and gateway the controllers are tested with.  They
    implement the same interfaces as the real ones, and satisfy the same laws;
    the world is the pair of the two maps. *)
From Stdlib Require Import Ascii String.
From S2P Require Import Prelude GoStrings NetAddr Netlink Tunnel.

Local Open Scope Z_scope.

Record MockWorld := mkMockWorld { Tunnels : gset Addr; Clients : gmap Addr string }.

Definition NewMockTunnel : gset Addr := ∅.
Definition NewMockNat : gmap Addr string := ∅.

Module MockTunnel.
Definition AddPeer (addr : Addr) : M MockWorld Link := λ w,
  let link := Dummy (mkLinkAttrs "dummy" 1 0) in
  (Ok link, mkMockWorld ({[addr]} ∪ Tunnels w) (Clients w)).

Definition DelPeer (addr : Addr) : M MockWorld unit := λ w,
  (Ok tt, mkMockWorld (Tunnels w ∖ {[addr]}) (Clients w)).

Definition Init : M MockWorld unit := mret tt.

Definition IsInitialized (w : MockWorld) : bool := true.
End MockTunnel.

Module MockNat.
Definition Init : M MockWorld unit := mret tt.

(** No link of the model has nil attributes, so the guard never fires. *)
Definition AddClient (addr : Addr) (link : Link) : M MockWorld unit := λ w,
  (Ok tt, mkMockWorld (Tunnels w) (<[addr := lname link]> (Clients w))).
End MockNat.

#[export] Instance mock_tunnel : Tunnel MockWorld := {|
  tun_Init := MockTunnel.Init;
  tun_IsInitialized := MockTunnel.IsInitialized;
  tun_AddPeer := MockTunnel.AddPeer;
  tun_DelPeer := MockTunnel.DelPeer;
|}.

#[export] Instance mock_nat : Gateway MockWorld := {|
  nat_Init := MockNat.Init;
  nat_AddClient := MockNat.AddClient;
|}.

#[export] Program Instance mock_tunnel_laws : TunnelLaws MockWorld := {|
  same_peer := (=);
  has_peer w a := a ∈ Tunnels w;
|}.
Next Obligation. by intros w a b ->. Qed.
Next Obligation. intros a w l w' [= <- <-]. simpl. set_solver. Qed.
Next Obligation. intros a w b Hb. simpl. set_solver. Qed.
Next Obligation. intros a w b Hab Hb. simpl in Hb. set_solver. Qed.
Next Obligation. intros a w w' [= <-]. simpl. set_solver. Qed.
Next Obligation. intros a w b Hab Hb. simpl. set_solver. Qed.
Next Obligation. intros a w b Hb. simpl in Hb. set_solver. Qed.

#[export] Program Instance mock_gateway_laws : GatewayLaws MockWorld := {|
  has_client w a := is_Some (Clients w !! a);
|}.
Next Obligation. intros a l w w' _ [= <-]. simpl. rewrite lookup_insert_eq. by eexists. Qed.
Next Obligation.
  intros a l w b _ Hb. simpl. destruct (decide (a = b)) as [->|Hne].
  - rewrite lookup_insert_eq. by eexists.
  - by rewrite lookup_insert_ne.
Qed.
Next Obligation. intros a l w b _. done. Qed.
