(* ===== verification/PodWatcher.v ===== *)
(** * internal/controller/pod_watcher.go

    The pod watcher runs in the egress pod: for every client pod that names
    this egress it keeps a tunnel and a NAT client.  Its bookkeeping is two
    maps, from pods to addresses and back; the tunnels and the gateway are
    behind the interfaces of [Tunnel].  The handlers hold [linkMutex] from
    beginning to end, so a run of the controller is a sequence of [Reconcile]
    calls; logging is not modelled. *)
From Stdlib Require Import Ascii String.
From S2P Require Import Prelude GoStrings NetAddr NetParse NetIPUtil Netlink Tunnel Mocks.

Local Open Scope Z_scope.

Definition EgressAnnotationPrefix : string := "egress.pona.cybozu.com/".

(** ** Kubernetes data *)

Record NamespacedName := mkNamespacedName { nn_Namespace : string; nn_Name : string }.

#[export] Instance NamespacedName_eq_dec : EqDecision NamespacedName.
Proof. solve_decision. Defined.

#[export] Instance NamespacedName_countable : Countable NamespacedName.
Proof.
  refine (inj_countable' (λ x, (nn_Namespace x, nn_Name x)) (λ x, mkNamespacedName x.1 x.2) _).
  by intros [].
Defined.

(** [types.NamespacedName.String]. *)
Definition nn_String (n : NamespacedName) : string := nn_Namespace n +:+ "/" +:+ nn_Name n.

(** The fields of [corev1.Pod] the sources read. *)
Record Pod := mkPod {
  pod_Name : string; pod_Namespace : string; pod_Annotations : gmap string string;
  HostNetwork : bool; Phase : string; PodIPs : list string; DeletionTimestamp : option Z }.

Definition PodSucceeded : string := "Succeeded".
Definition PodFailed : string := "Failed".

(** ** The watcher *)

Record PodWatcher := mkPodWatcher { EgressName : string; EgressNamespace : string }.

Record WatcherState (W : Type) := mkWatcherState {
  podToPodIPs : gmap NamespacedName (list Addr);
  podIPToPod : gmap Addr (gset NamespacedName);
  world : W }.
Arguments mkWatcherState {W}.
Arguments podToPodIPs {W}.
Arguments podIPToPod {W}.
Arguments world {W}.

Definition NewPodWatcher {W} (egressName egressNamespace : string) (w : W) : PodWatcher * WatcherState W :=
  (mkPodWatcher egressName egressNamespace, mkWatcherState ∅ ∅ w).

Definition isTerminated (pod : Pod) : bool :=
  bool_decide (Phase pod = PodSucceeded) || bool_decide (Phase pod = PodFailed).

(** One iteration of the loop of [hasEgressAnnotation]: whether it returns. *)
Definition annotation_matches (r : PodWatcher) (kv : string * string) : bool :=
  let '(k, name) := kv in
  if negb (HasPrefix k EgressAnnotationPrefix) then false
  else if decide (slice_from (String.length EgressAnnotationPrefix) k ≠ EgressNamespace r) then false
  else if decide (name = EgressName r) then true
  else existsb (λ n, bool_decide (n = EgressNamespace r)) (Split name comma).

Section watcher.
Context {W : Type} `{Tunnel W} `{Gateway W}.

(** The order in which [range] visits the annotations. *)
Context (range : gmap string string → list (string * string)).

Definition hasEgressAnnotation (r : PodWatcher) (pod : Pod) : bool :=
  existsb (annotation_matches r) (range (pod_Annotations pod)).

Definition shouldHandle (r : PodWatcher) (pod : Pod) : bool :=
  if HostNetwork pod then false else hasEgressAnnotation r pod.

Definition with_world {A} (m : M W A) : M (WatcherState W) A := λ s,
  let '(a, w) := m (world s) in (a, mkWatcherState (podToPodIPs s) (podIPToPod s) w).

Definition get_ips (key : NamespacedName) : M (WatcherState W) (list Addr) :=
  ask (λ s, Ok (default [] (podToPodIPs s !! key))).

Definition set_ips (key : NamespacedName) (ips : list Addr) : M (WatcherState W) unit := λ s,
  (Ok tt, mkWatcherState (<[key := ips]> (podToPodIPs s)) (podIPToPod s) (world s)).

Definition del_ips (key : NamespacedName) : M (WatcherState W) unit := λ s,
  (Ok tt, mkWatcherState (delete key (podToPodIPs s)) (podIPToPod s) (world s)).

(** [keySet, ok := r.podIPToPod[ip]]: a fresh set, or one more key. *)
Definition index_add (key : NamespacedName) (ip : Addr) : M (WatcherState W) unit := λ s,
  (Ok tt, mkWatcherState (podToPodIPs s)
    (match podIPToPod s !! ip with
     | None => <[ip := {[key]}]> (podIPToPod s)
     | Some keySet => <[ip := {[key]} ∪ keySet]> (podIPToPod s)
     end) (world s)).

Definition index_del (key : NamespacedName) (ip : Addr) : M (WatcherState W) unit := λ s,
  (Ok tt, mkWatcherState (podToPodIPs s)
    (match podIPToPod s !! ip with
     | None => podIPToPod s
     | Some keySet =>
         let keySet' := keySet ∖ {[key]} in
         if decide (size keySet' = 0%nat) then delete ip (podIPToPod s)
         else <[ip := keySet']> (podIPToPod s)
     end) (world s)).

Definition add_pod_ip (existing : list Addr) (ip : Addr) : M (WatcherState W) unit :=
  if decide (ip ∈ existing) then mret tt
  else
    r ← try (with_world (tun_AddPeer ip));
    match r with
    | Err err => if errors_Is err ErrIPFamilyMismatch then mret tt else throw err
    | Ok link =>
        wrap (Errorf ("failed to setup NAT for ip=" +:+ Addr_String ip +:+ "; "))
          (with_world (nat_AddClient ip link))
    end.

Definition drop_pod_ip (statusPodIPs : list Addr) (eip : Addr) : M (WatcherState W) unit :=
  if decide (eip ∈ statusPodIPs) then mret tt else with_world (tun_DelPeer eip).

Definition handlePodRunning (pod : Pod) : M (WatcherState W) unit :=
  let podKey := mkNamespacedName (pod_Namespace pod) (pod_Name pod) in
  existing ← get_ips podKey;
  statusPodIPs ← lift (mapR ParseAddr (PodIPs pod));
  forM_ statusPodIPs (add_pod_ip existing);;
  forM_ existing (drop_pod_ip statusPodIPs);;
  set_ips podKey statusPodIPs;;
  forM_ statusPodIPs (index_add podKey).

Definition existsOtherLiveTunnels (namespacedName : NamespacedName) (ip : Addr) (s : WatcherState W)
    : result bool :=
  match podIPToPod s !! ip with
  | Some keySet =>
      if decide (namespacedName ∈ keySet) then Ok (bool_decide (1 < size keySet)%nat)
      else Err (ErrText ("keySet in the podIPToPod doesn't contain my key. key: "
                         +:+ nn_String namespacedName +:+ " ip: " +:+ Addr_String ip))
  | None => Err (ErrText ("podIPToPod doesn't contain my IP. key: "
                          +:+ nn_String namespacedName +:+ " ip: " +:+ Addr_String ip))
  end.

Definition release_ip (namespacedName : NamespacedName) (ip : Addr) : M (WatcherState W) unit :=
  exists_ ← ask (existsOtherLiveTunnels namespacedName ip);
  (if negb exists_ then with_world (tun_DelPeer ip) else mret tt);;
  index_del namespacedName ip.

Definition handlePodDeletion (namespacedName : NamespacedName) : M (WatcherState W) unit :=
  ips ← get_ips namespacedName;
  forM_ ips (release_ip namespacedName);;
  del_ips namespacedName.

(** [Get] is the API server's answer to the controller's query. *)
Definition Reconcile (r : PodWatcher) (Get : result Pod) (req : NamespacedName) : M (WatcherState W) unit :=
  match Get with
  | Err err =>
      if IsNotFound err then wrap (Errorf "failed to remove tunnel: ") (handlePodDeletion req)
      else throw (Errorf "failed to get Pod: " err)
  | Ok pod =>
      if negb (shouldHandle r pod) then mret tt
      else if isTerminated pod || bool_decide (DeletionTimestamp pod ≠ None) then
        wrap (Errorf "failed to remove tunnel for terminated pod: ") (handlePodDeletion req)
      else wrap (Errorf "failed to setup tunnel: ") (handlePodRunning pod)
  end.
End watcher.

(** ** Annotations *)

Definition annotation_key (r : PodWatcher) : string := EgressAnnotationPrefix +:+ EgressNamespace r.

(** What the code accepts as the value of the annotation. *)
Definition names_egress (r : PodWatcher) (value : string) : Prop :=
  value = EgressName r ∨ EgressNamespace r ∈ Split value comma.

Lemma annotation_matches_spec r k v :
  annotation_matches r (k, v) = true ↔ k = annotation_key r ∧ names_egress r v.
Proof.
  unfold annotation_matches, annotation_key, names_egress. split.
  - destruct (HasPrefix k EgressAnnotationPrefix) eqn:Hp; [|done]. cbn [negb].
    case_decide as Hs; [done|]. apply HasPrefix_split in Hp. rewrite Hs in Hp.
    case_decide as Hv; [by auto|]. intros (x & Hin & ->%bool_decide_eq_true)%existsb_exists.
    split; [done|]. right. by apply list_elem_of_In.
  - intros [-> Hv]. destruct (HasPrefix_app EgressAnnotationPrefix (EgressNamespace r)) as [-> ->].
    cbn [negb]. rewrite decide_False by (intros Hn; by apply Hn). case_decide as Hn; [done|].
    destruct Hv as [?|Hin]; [done|]. apply existsb_exists. exists (EgressNamespace r).
    split; [by apply list_elem_of_In|by apply bool_decide_eq_true].
Qed.

(** Whatever the order in which Go visits the annotations, a pod is
    accepted exactly when the annotation of this egress's namespace is the
    egress's name, or a comma-separated list with the egress's NAMESPACE in
    it.  (The list was meant to hold the egress's name.) *)
Theorem watcher_annotation_spec (range : gmap string string → list (string * string)) (r : PodWatcher) (pod : Pod) :
  (∀ m, range m ≡ₚ map_to_list m) →
  hasEgressAnnotation range r pod = true ↔
    ∃ v, pod_Annotations pod !! annotation_key r = Some v ∧ names_egress r v.
Proof.
  intros Hrange. unfold hasEgressAnnotation. rewrite existsb_exists. split.
  - intros ([k v] & Hin%list_elem_of_In & [-> Hv]%annotation_matches_spec). exists v. split; [|done].
    by rewrite Hrange, elem_of_map_to_list in Hin.
  - intros (v & Hl & Hv). exists (annotation_key r, v). split; [|by apply annotation_matches_spec].
    apply list_elem_of_In. by rewrite Hrange, elem_of_map_to_list.
Qed.

(** ** The loops of the handlers *)

Lemma other_member (X : gset NamespacedName) p : p ∈ X → X ≠ {[p]} → ∃ q, q ≠ p ∧ q ∈ X.
Proof.
  intros Hp Hne. destruct (set_choose_or_empty (X ∖ {[p]})) as [[q Hq]|He]; [exists q; set_solver|].
  exfalso. apply Hne, set_eq. intros x. rewrite elem_of_singleton. split; [|by intros ->].
  intros Hx. destruct (decide (x = p)) as [|Hn]; [done|exfalso].
  apply (not_elem_of_empty (C:=gset NamespacedName) x). rewrite <- He.
  apply elem_of_difference. by rewrite elem_of_singleton.
Qed.

Section bookkeeping.
Context {W : Type} {T : Tunnel W} {G : Gateway W}.

Implicit Types s : WatcherState W.

(** The tunnel refuses the address as one of a family it does not serve. *)
Definition refused (a : Addr) : Prop :=
  ∃ (w : W) e w', tun_AddPeer a w = (Err e, w') ∧ errors_Is e ErrIPFamilyMismatch = true.

Definition pods_of s (a : Addr) : gset NamespacedName := default ∅ (podIPToPod s !! a).

Definition same_maps s s' : Prop :=
  podToPodIPs s' = podToPodIPs s ∧ podIPToPod s' = podIPToPod s.

Lemma drop_loop_none existing ips s :
  existing ⊆ ips → forM_ existing (drop_pod_ip ips) s = (Ok tt, s).
Proof.
  intros Hsub. induction existing as [|a l IH]; [done|].
  rewrite (forM_cons_ok _ _ _ _ s); [apply IH; set_solver|].
  unfold drop_pod_ip. by rewrite decide_True by set_solver.
Qed.

Lemma drop_loop_maps existing ips s : same_maps s (forM_ existing (drop_pod_ip ips) s).2.
Proof.
  assert (PreOrder same_maps) as Hpre.
  { split; [done|]. intros s1 s2 s3 [? ?] [? ?]. split; congruence. }
  apply (preserves_forM same_maps). intros a _ s0. unfold drop_pod_ip, with_world.
  case_decide; [done|]. by destruct (tun_DelPeer a (world s0)).
Qed.

Definition index_nonempty s : Prop := ∀ a x, podIPToPod s !! a = Some x → x ≠ ∅.

Lemma index_add_run key ip s s' :
  index_add key ip s = (Ok tt, s') →
  podToPodIPs s' = podToPodIPs s ∧ world s' = world s ∧ (index_nonempty s → index_nonempty s') ∧
  (∀ a q, q ∈ pods_of s' a ↔ q ∈ pods_of s a ∨ (a = ip ∧ q = key)).
Proof.
  intros [= <-]. split_and!; try done; unfold index_nonempty, pods_of; cbn [podIPToPod].
  - intros Hne a x. destruct (podIPToPod s !! ip); intros [[<- <-]|[_ ?]]%lookup_insert_Some;
      [set_solver|by eapply Hne|set_solver|by eapply Hne].
  - intros a q. destruct (decide (a = ip)) as [->|Hne].
    + destruct (podIPToPod s !! ip); rewrite lookup_insert_eq; set_solver.
    + destruct (podIPToPod s !! ip); rewrite lookup_insert_ne by done; naive_solver.
Qed.

Lemma index_add_loop key ips s r s' :
  forM_ ips (index_add key) s = (r, s') →
  r = Ok tt ∧ podToPodIPs s' = podToPodIPs s ∧ world s' = world s ∧ (index_nonempty s → index_nonempty s') ∧
  (∀ a q, q ∈ pods_of s' a ↔ q ∈ pods_of s a ∨ (a ∈ ips ∧ q = key)).
Proof.
  revert s. induction ips as [|ip ips IH]; intros s Hrun; simpl in Hrun.
  - injection Hrun as <- <-. split_and!; try done. intros a q. set_solver.
  - unfold mbind, M_bind in Hrun. destruct (index_add key ip s) as [[[]|e] s1] eqn:Ha; [|done].
    destruct (index_add_run _ _ _ _ Ha) as (H1 & H2 & H3 & H4).
    destruct (IH _ Hrun) as (-> & H5 & H6 & H7 & H8). split_and!; try congruence; [auto|].
    intros a q. rewrite H8, H4, elem_of_cons. naive_solver.
Qed.

Lemma index_del_run key ip s s' :
  index_nonempty s → index_del key ip s = (Ok tt, s') →
  podToPodIPs s' = podToPodIPs s ∧ world s' = world s ∧ index_nonempty s' ∧
  (∀ a q, q ∈ pods_of s' a ↔ q ∈ pods_of s a ∧ ¬ (a = ip ∧ q = key)).
Proof.
  intros Hne [= <-]. split_and!; try done; unfold index_nonempty, pods_of; cbn [podIPToPod].
  - intros a x. destruct (podIPToPod s !! ip) as [ks|] eqn:Hip; [|by apply Hne].
    case_decide as Hz.
    + intros [_ ?]%lookup_delete_Some. by eapply Hne.
    + intros [[<- <-]|[_ ?]]%lookup_insert_Some; [|by eapply Hne]. intros He. apply Hz.
      by rewrite He, size_empty.
  - intros a q. destruct (podIPToPod s !! ip) as [ks|] eqn:Hip.
    + case_decide as Hz.
      * apply size_empty_inv in Hz. destruct (decide (a = ip)) as [->|Hn].
        -- rewrite lookup_delete_eq, Hip. simpl. set_solver.
        -- rewrite lookup_delete_ne by done. naive_solver.
      * destruct (decide (a = ip)) as [->|Hn].
        -- rewrite lookup_insert_eq, Hip. simpl. set_solver.
        -- rewrite lookup_insert_ne by done. naive_solver.
    + destruct (decide (a = ip)) as [->|Hn]; [rewrite Hip; set_solver|naive_solver].
Qed.

(** [existsOtherLiveTunnels] answers when the index knows the pod. *)
Lemma existsOther_ok p a s :
  p ∈ pods_of s a → existsOtherLiveTunnels p a s = Ok (bool_decide (pods_of s a ≠ {[p]})).
Proof.
  unfold pods_of, existsOtherLiveTunnels. destruct (podIPToPod s !! a) as [ks|]; simpl; [|set_solver].
  intros Hp. rewrite decide_True by done. f_equal. apply bool_decide_ext. split.
  - intros Hsz ->. rewrite size_singleton in Hsz. lia.
  - intros Hne. destruct (decide (size ks = 1%nat)) as [Hs1|].
    + apply size_1_elem_of in Hs1 as [x Hx]. destruct Hne. set_solver.
    + assert (size ks ≠ 0%nat); [|lia]. intros ?%size_empty_inv. set_solver.
Qed.

Definition tracked s (a : Addr) : Prop :=
  ∃ p ips, podToPodIPs s !! p = Some ips ∧ a ∈ ips.

Definition pod_key (pod : Pod) : NamespacedName := mkNamespacedName (pod_Namespace pod) (pod_Name pod).

(** A pod handled without an error is tracked with all its addresses. *)
Lemma running_tracks pod s s' ips a :
  mapR ParseAddr (PodIPs pod) = Ok ips → a ∈ ips → handlePodRunning pod s = (Ok tt, s') → tracked s' a.
Proof.
  intros Hips Ha Hrun. unfold handlePodRunning in Hrun. fold (pod_key pod) in Hrun.
  apply bind_ok in Hrun as (existing & s1 & _ & Hrun). rewrite Hips in Hrun.
  apply bind_ok in Hrun as (ips' & s2 & Hl & Hrun). unfold lift in Hl. injection Hl as <- <-.
  apply bind_ok in Hrun as ([] & s3 & _ & Hrun). apply bind_ok in Hrun as ([] & s4 & _ & Hrun).
  apply bind_ok in Hrun as ([] & s5 & Hset & Hrun). injection Hset as <-.
  apply index_add_loop in Hrun as (_ & Hp & _). exists (pod_key pod), ips. rewrite Hp. cbn.
  by rewrite lookup_insert_eq.
Qed.

(** [release_ip] fails on a bookkeeping error or on [DelPeer]'s, and then
    leaves the bookkeeping alone. *)
Lemma release_err p a s e s' :
  release_ip p a s = (Err e, s') →
  same_maps s s' ∧ (p ∈ pods_of s a → ∃ w w', tun_DelPeer a w = (Err e, w')).
Proof.
  unfold release_ip, mbind, M_bind, ask, index_del.
  destruct (existsOtherLiveTunnels p a s) as [[]|e0] eqn:Hex; cbn [negb].
  - done.
  - unfold with_world. destruct (tun_DelPeer a (world s)) as [[[]|e1] w] eqn:HD; [done|].
    intros [= -> <-]. split; [done|]. intros _. eauto.
  - intros [= -> <-]. split; [done|]. intros Hp. rewrite existsOther_ok in Hex by done. done.
Qed.

Definition index_shrinks s s' : Prop :=
  podToPodIPs s' = podToPodIPs s ∧ (∀ a q, q ∈ pods_of s' a → q ∈ pods_of s a).

#[local] Instance index_shrinks_pre : PreOrder index_shrinks.
Proof. split; [done|]. intros s1 s2 s3 [H1 H2] [H3 H4]. split; [congruence|auto]. Qed.

Lemma index_del_shrinks p a : preserves index_shrinks (index_del p a).
Proof.
  intros s. unfold index_del. split; [done|]. cbn [snd]. intros b q. unfold pods_of. cbn [podIPToPod].
  destruct (podIPToPod s !! a) as [ks|] eqn:Ha; [|done]. destruct (decide (b = a)) as [->|Hne].
  - rewrite Ha. case_decide; [rewrite lookup_delete_eq|rewrite lookup_insert_eq]; simpl; set_solver.
  - case_decide; [rewrite lookup_delete_ne by done|rewrite lookup_insert_ne by done]; done.
Qed.

Lemma release_shrinks p a : preserves index_shrinks (release_ip p a).
Proof.
  apply preserves_bind; [apply _|apply preserves_ask, _|]. intros ex.
  apply preserves_bind; [apply _| |intros []; apply index_del_shrinks].
  destruct ex; cbn [negb]; [apply preserves_ret, _|].
  intros s. unfold with_world. by destruct (tun_DelPeer a (world s)).
Qed.

(** An address that was released no longer lists the pod. *)
Lemma released p a s s' : release_ip p a s = (Ok tt, s') → p ∉ pods_of s' a.
Proof.
  unfold release_ip. intros (ex & s0 & _ & Hrun)%bind_ok. apply bind_ok in Hrun as ([] & s1 & _ & [= <-]).
  unfold pods_of. cbn [podIPToPod]. destruct (podIPToPod s1 !! a) as [ks|] eqn:Ha; [|rewrite Ha; set_solver].
  case_decide; [rewrite lookup_delete_eq|rewrite lookup_insert_eq]; simpl; set_solver.
Qed.

Lemma existsOther_err p a s : p ∉ pods_of s a → ∃ e, existsOtherLiveTunnels p a s = Err e.
Proof.
  unfold pods_of, existsOtherLiveTunnels. destruct (podIPToPod s !! a) as [ks|]; simpl; [|by eauto].
  intros Hp. rewrite decide_False by done. eauto.
Qed.

(** C33: a deletion that fails after it has released an address can never be
    completed: whatever happens to the tunnels meanwhile, every retry fails on
    the released address and changes nothing, so the pod's other tunnels and
    its entry stay. *)
Theorem watcher_deletion_stuck (p : NamespacedName) (s s' : WatcherState W) (e : goerror) :
  handlePodDeletion p s = (Err e, s') → podIPToPod s' ≠ podIPToPod s →
  ∀ w, let s2 := mkWatcherState (podToPodIPs s') (podIPToPod s') w in
    ∃ e2, handlePodDeletion p s2 = (Err e2, s2).
Proof.
  intros Hrun Hch w s2. unfold handlePodDeletion, get_ips in *.
  unfold mbind at 1, M_bind at 1, ask in Hrun. unfold mbind at 1, M_bind at 1, ask.
  apply bind_err in Hrun as [Hloop|([] & s1 & _ & Hd)]; [|done].
  destruct (podToPodIPs s !! p) as [[|a ips]|] eqn:Hl; simpl in Hloop; [done| |done].
  apply bind_err in Hloop as [Herr|([] & s1 & H1 & Hloop)].
  { apply release_err in Herr as [[_ ?] _]. done. }
  pose proof (preserves_forM index_shrinks ips (release_ip p) (λ a _, release_shrinks p a) s1) as [Hm1 Hs1].
  rewrite Hloop in Hm1, Hs1. cbn [snd] in Hm1, Hs1.
  pose proof (release_shrinks p a s) as [Hm0 _]. rewrite H1 in Hm0. cbn [snd] in Hm0.
  assert (p ∉ pods_of s2 a) as Hgone.
  { intros Hp. apply (released p a s s1 H1). by apply Hs1. }
  destruct (existsOther_err p a s2 Hgone) as [e2 He2]. exists e2.
  assert (release_ip p a s2 = (Err e2, s2)) as Hr by (unfold release_ip, mbind, M_bind, ask; by rewrite He2).
  assert (podToPodIPs s2 !! p = Some (a :: ips)) as -> by (unfold s2; cbn [podToPodIPs]; by rewrite Hm1, Hm0).
  cbn [default from_option id]. apply run_bind_err. cbn [forM_]. by apply run_bind_err.
Qed.

Lemma add_loop_maps existing ips : preserves same_maps (forM_ ips (add_pod_ip existing)).
Proof.
  assert (PreOrder same_maps) as Hpre.
  { split; [done|]. intros s1 s2 s3 [? ?] [? ?]. split; congruence. }
  apply preserves_forM; [done|]. intros ip _ s. unfold add_pod_ip, mbind, M_bind, try, with_world.
  case_decide; [done|]. destruct (tun_AddPeer ip (world s)) as [[l|e] w1].
  - unfold wrap. cbn [world]. by destruct (nat_AddClient ip l w1) as [[[]|e2] w2].
  - by destruct (errors_Is e ErrIPFamilyMismatch).
Qed.
End bookkeeping.

(** ** Changing addresses *)

Section changing.
Context {W : Type} {T : Tunnel W} {TL : TunnelLaws W} {G : Gateway W}.

Implicit Types s : WatcherState W.

Lemma drop_loop_gone existing ips s s' a :
  forM_ existing (drop_pod_ip ips) s = (Ok tt, s') → a ∈ existing → a ∉ ips → ¬ has_peer (world s') a.
Proof.
  revert s. induction existing as [|b l IH]; intros s Hrun Hin Hni; [by apply elem_of_nil in Hin|].
  simpl in Hrun. apply bind_ok in Hrun as ([] & s1 & H1 & Hrun).
  destruct (decide (a ∈ l)) as [Hal|Hal]; [by eapply IH|].
  apply elem_of_cons in Hin as [->|]; [|done].
  assert (¬ has_peer (world s1) b) as Hgone.
  { unfold drop_pod_ip in H1. rewrite decide_False in H1 by done. unfold with_world in H1.
    destruct (tun_DelPeer b (world s)) as [r w] eqn:HD. injection H1 as -> <-. by eapply DelPeer_gone. }
  intros Hp. apply Hgone. clear -Hrun Hp TL. revert s1 Hrun. induction l as [|c l IH]; intros s1 Hrun.
  - by injection Hrun as ->.
  - simpl in Hrun. apply bind_ok in Hrun as ([] & s2 & H2 & Hrun). specialize (IH _ Hrun).
    unfold drop_pod_ip in H2. case_decide; [by injection H2 as ->|]. unfold with_world in H2.
    destruct (tun_DelPeer c (world s1)) as [r w] eqn:HD. injection H2 as -> <-.
    pose proof (DelPeer_mono c (world s1) b) as Hm. rewrite HD in Hm. by apply Hm.
Qed.

(** C34: when a running pod loses an address that another pod also has, the
    watcher removes the tunnel of that address from under the other pod, which
    it still tracks; and the index keeps the first pod on the address, so that
    the tunnel, once added again, is not removed with the other pod. *)
Theorem watcher_ip_change (pod : Pod) (ips l : list Addr) (a : Addr) (q : NamespacedName)
    (s s' : WatcherState W) :
  handlePodRunning pod s = (Ok tt, s') → mapR ParseAddr (PodIPs pod) = Ok ips →
  a ∈ default [] (podToPodIPs s !! pod_key pod) → a ∉ ips → pod_key pod ∈ pods_of s a →
  q ≠ pod_key pod → podToPodIPs s !! q = Some l → a ∈ l →
  tracked s' a ∧ ¬ has_peer (world s') a ∧ pod_key pod ∈ pods_of s' a ∧
  podToPodIPs s' !! pod_key pod = Some ips.
Proof.
  intros Hrun Hips Hex Hni Hpk Hq Hl Ha. unfold handlePodRunning in Hrun. fold (pod_key pod) in Hrun.
  apply bind_ok in Hrun as (ex & s0 & [[= <-] ->]%ask_ok & Hrun).
  apply bind_ok in Hrun as (ips' & s1 & Hlift & Hrun). unfold lift in Hlift. rewrite Hips in Hlift.
  injection Hlift as <- <-. apply bind_ok in Hrun as ([] & s1 & H1 & Hrun).
  apply bind_ok in Hrun as ([] & s2 & H2 & Hrun). apply bind_ok in Hrun as ([] & s3 & [= <-] & Hrun).
  pose proof (add_loop_maps (default [] (podToPodIPs s !! pod_key pod)) ips s) as [Hm1 Hi1]. rewrite H1 in Hm1, Hi1.
  pose proof (drop_loop_maps (default [] (podToPodIPs s !! pod_key pod)) ips s1) as [Hm2 Hi2]. rewrite H2 in Hm2, Hi2.
  apply index_add_loop in Hrun as (_ & Hp & Hw & _ & Hidx). cbn [fst snd podToPodIPs world podIPToPod] in *.
  split_and!.
  - exists q, l. rewrite Hp, Hm2, Hm1, lookup_insert_ne by done. done.
  - rewrite Hw. by eapply drop_loop_gone.
  - apply Hidx. left. unfold pods_of. cbn [podIPToPod]. by rewrite Hi2, Hi1.
  - by rewrite Hp, lookup_insert_eq.
Qed.
End changing.

(** ** Tunnels *)

Section facts.
Context {W : Type} {T : Tunnel W} {TL : TunnelLaws W} {G : Gateway W} {GL : GatewayLaws W}.

(** The addresses pods may have: canonical, and no two share a device. *)
Context (used : Addr → Prop).
Context (used_canonical : ∀ a, used a → canonical a).
Context (used_inj : ∀ a b, used a → used b → same_peer a b → a = b).

Implicit Types s : WatcherState W.

Lemma used_frame a b : used a → used b → a ≠ b → ¬ same_peer a b.
Proof. intros Ha Hb Hne Hs. by apply Hne, used_inj. Qed.

Lemma AddPeer_other a w b :
  used a → used b → has_peer (tun_AddPeer a w).2 b → has_peer w b ∨ b = a.
Proof.
  intros Ha Hb Hp. destruct (decide (b = a)) as [|Hne]; [by right|left].
  eapply AddPeer_frame; [|exact Hp]. by apply used_frame.
Qed.

Lemma add_pod_ip_run existing ip s :
  used ip →
  let s' := (add_pod_ip existing ip s).2 in
  same_maps s s' ∧ (∀ b, has_peer (world s) b → has_peer (world s') b) ∧
  (∀ b, used b → has_peer (world s') b → has_peer (world s) b ∨ b = ip) ∧
  ((add_pod_ip existing ip s).1 = Ok tt → ip ∈ existing ∨ has_peer (world s') ip ∨ refused ip).
Proof.
  intros Hu. unfold add_pod_ip. case_decide as He.
  { simpl. split_and!; auto. done. }
  unfold mbind, M_bind, try, with_world.
  destruct (tun_AddPeer ip (world s)) as [[link|err] w1] eqn:HA; cbn [fst snd].
  - unfold wrap. cbn [world]. pose proof (λ b, AddClient_peers ip link w1 b (used_canonical ip Hu)) as Hc.
    destruct (nat_AddClient ip link w1) as [rc w2] eqn:HC; cbn [snd] in Hc.
    assert (∀ b, has_peer (world s) b → has_peer w2 b) as Hmono.
    { intros b Hb. apply Hc. pose proof (AddPeer_mono ip (world s) b Hb) as Hm. by rewrite HA in Hm. }
    assert (∀ b, used b → has_peer w2 b → has_peer (world s) b ∨ b = ip) as Hback.
    { intros b Hub Hb%Hc. apply AddPeer_other; [done..|]. by rewrite HA. }
    destruct rc as [[]|e]; cbn [fst snd world]; split_and!; try done.
    intros _. right; left. apply Hc. by eapply AddPeer_peer.
  - assert (∀ b, has_peer (world s) b → has_peer w1 b) as Hmono.
    { intros b Hb. pose proof (AddPeer_mono ip (world s) b Hb) as Hm. by rewrite HA in Hm. }
    assert (∀ b, used b → has_peer w1 b → has_peer (world s) b ∨ b = ip) as Hback.
    { intros b Hub Hb. apply AddPeer_other; [done..|]. by rewrite HA. }
    destruct (errors_Is err ErrIPFamilyMismatch) eqn:Hm; cbn; split_and!; try done.
    intros _. right; right. by exists (world s), err, w1.
Qed.

Lemma add_loop existing ips s r s' :
  Forall used ips → forM_ ips (add_pod_ip existing) s = (r, s') →
  same_maps s s' ∧ (∀ b, has_peer (world s) b → has_peer (world s') b) ∧
  (∀ b, used b → has_peer (world s') b → has_peer (world s) b ∨ b ∈ ips) ∧
  (r = Ok tt → ∀ ip, ip ∈ ips → ip ∈ existing ∨ has_peer (world s') ip ∨ refused ip).
Proof.
  intros Hu. revert s. induction Hu as [|ip ips Hip Hu IH]; intros s Hrun; simpl in Hrun.
  - injection Hrun as <- <-. split_and!; try done; [by auto|]. intros _ ip Hin. by apply elem_of_nil in Hin.
  - destruct (add_pod_ip_run existing ip s Hip) as ([Hm1 Hm2] & Hmono & Hback & Hok).
    unfold mbind, M_bind in Hrun.
    destruct (add_pod_ip existing ip s) as [[[]|e] s1]; cbn [fst snd] in *.
    + destruct (IH _ Hrun) as ([Hn1 Hn2] & Hmono' & Hback' & Hok'). split_and!.
      * split; congruence.
      * auto.
      * intros b Hb Hp. destruct (Hback' b Hb Hp) as [Hp'|?]; [|set_solver].
        destruct (Hback b Hb Hp') as [?| ->]; set_solver.
      * intros Hr x [->|Hx]%elem_of_cons; [|by auto]. destruct (Hok eq_refl) as [?|[?|?]]; auto.
    + injection Hrun as <- <-. split_and!; try done.
      intros b Hb Hp. destruct (Hback b Hb Hp) as [?| ->]; set_solver.
Qed.

(** ** Releasing the addresses of a pod *)

(** One address of a pod released: the tunnel goes with the last pod. *)
Lemma release_run p a s s' :
  used a → index_nonempty s → p ∈ pods_of s a → release_ip p a s = (Ok tt, s') →
  podToPodIPs s' = podToPodIPs s ∧ index_nonempty s' ∧
  (∀ b q, q ∈ pods_of s' b ↔ q ∈ pods_of s b ∧ ¬ (b = a ∧ q = p)) ∧
  (∀ b, used b → has_peer (world s') b ↔ has_peer (world s) b ∧ ¬ (b = a ∧ pods_of s a = {[p]})).
Proof.
  intros Hu Hne Hp. unfold release_ip. intros (ex & s0 & Hex & Hrun)%bind_ok.
  apply ask_ok in Hex as [Hex ->]. rewrite existsOther_ok in Hex by done. injection Hex as <-.
  apply bind_ok in Hrun as ([] & s1 & Hd & Hi).
  destruct (bool_decide (pods_of s a ≠ {[p]})) eqn:Hb; cbn [negb] in Hd.
  - apply bool_decide_eq_true in Hb. injection Hd as <-.
    destruct (index_del_run _ _ _ _ Hne Hi) as (H1 & H2 & H3 & H4). rewrite H2.
    split_and!; try done. intros b _. tauto.
  - apply bool_decide_eq_false in Hb. unfold with_world in Hd.
    destruct (tun_DelPeer a (world s)) as [rd w1] eqn:HD. injection Hd as -> <-.
    assert (index_nonempty (mkWatcherState (podToPodIPs s) (podIPToPod s) w1)) as Hne' by exact Hne.
    destruct (index_del_run _ _ _ _ Hne' Hi) as (H1 & H2 & H3 & H4). cbn in H1, H2. rewrite H2.
    split_and!; [done|done|exact H4|]. intros b Hub. pose proof (DelPeer_gone a _ _ HD) as Hgone.
    pose proof (DelPeer_mono a (world s) b) as Hmono. pose proof (DelPeer_frame a (world s) b) as Hframe.
    rewrite HD in Hmono, Hframe. cbn [snd] in *. split.
    + intros Hw. split; [by apply Hmono|]. intros [-> _]. done.
    + intros [Hw Hn]. apply Hframe; [|done]. apply used_frame; [done..|]. intros ->.
      apply Hn. split; [done|]. by apply dec_stable.
Qed.

Lemma release_loop p ips s s' :
  NoDup ips → Forall used ips → index_nonempty s → (∀ a, a ∈ ips → p ∈ pods_of s a) →
  forM_ ips (release_ip p) s = (Ok tt, s') →
  podToPodIPs s' = podToPodIPs s ∧ index_nonempty s' ∧
  (∀ b q, q ∈ pods_of s' b ↔ q ∈ pods_of s b ∧ ¬ (b ∈ ips ∧ q = p)) ∧
  (∀ b, used b → has_peer (world s') b ↔ has_peer (world s) b ∧ ¬ (b ∈ ips ∧ pods_of s b = {[p]})).
Proof.
  intros Hnd. revert s. induction Hnd as [|a ips Hni Hnd IH]; intros s Hu Hne Hin Hrun.
  - injection Hrun as <-. split_and!; try done; intros; set_solver.
  - apply Forall_cons in Hu as [Hua Hu]. simpl in Hrun. apply bind_ok in Hrun as ([] & s1 & H1 & Hrun).
    destruct (release_run p a s s1 Hua Hne) as (Hm & Hne1 & Hp1 & Hw1); [apply Hin; set_solver|done|].
    destruct (IH s1 Hu Hne1) as (Hm2 & Hne2 & Hp2 & Hw2); [|done|].
    { intros b Hb. apply Hp1. split; [apply Hin; set_solver|]. intros [-> _]. done. }
    split_and!; [congruence|done|..].
    + intros b q. rewrite Hp2, Hp1, elem_of_cons. naive_solver.
    + intros b Hb. rewrite Hw2, Hw1, elem_of_cons by done.
      assert (b ∈ ips → pods_of s1 b = pods_of s b) as Heq.
      { intros Hbi. apply set_eq. intros q. rewrite Hp1. split; [tauto|].
        intros Hq. split; [done|]. intros [-> _]. done. }
      destruct (decide (b ∈ ips)) as [Hbi|Hbi]; [rewrite (Heq Hbi)|]; naive_solver.
Qed.

(** ** The invariant *)

(** The two maps are inverse to each other, and every tracked address has its
    tunnel unless the tunnel controller refuses its family. *)
Record watcher_inv s : Prop := {
  inv_index p a : p ∈ pods_of s a ↔ ∃ ips, podToPodIPs s !! p = Some ips ∧ a ∈ ips;
  inv_nonempty : index_nonempty s;
  inv_ips p ips : podToPodIPs s !! p = Some ips → NoDup ips ∧ Forall used ips;
  inv_tunnel a : tracked s a → has_peer (world s) a ∨ refused a;
}.

(** No tunnel is left without a pod. *)
Definition no_leak s : Prop := ∀ a, used a → has_peer (world s) a → tracked s a.

(** The tunnels without a pod are among [X]. *)
Definition leaks_within (X : Addr → Prop) s : Prop := ∀ a, used a → has_peer (world s) a → tracked s a ∨ X a.

Lemma no_leak_within s : no_leak s ↔ leaks_within (λ _, False) s.
Proof. unfold no_leak, leaks_within. naive_solver. Qed.

(** The status of a pod the watcher is shown: distinct usable addresses, the
    ones it had among them (a pod keeps its addresses). *)
Definition stable_status s (pod : Pod) : Prop :=
  ∀ ips, mapR ParseAddr (PodIPs pod) = Ok ips →
    NoDup ips ∧ Forall used ips ∧ default [] (podToPodIPs s !! pod_key pod) ⊆ ips.

(** Every way [handlePodRunning] can end on such a pod. *)
Lemma handlePodRunning_run pod s r s' :
  stable_status s pod → handlePodRunning pod s = (r, s') →
  let key := pod_key pod in
  (∃ e, r = Err e ∧ same_maps s s' ∧ (∀ b, has_peer (world s) b → has_peer (world s') b)) ∨
  (r = Ok tt ∧ ∃ ips, NoDup ips ∧ Forall used ips ∧ default [] (podToPodIPs s !! key) ⊆ ips ∧
    podToPodIPs s' = <[key := ips]> (podToPodIPs s) ∧ (index_nonempty s → index_nonempty s') ∧
    (∀ a q, q ∈ pods_of s' a ↔ q ∈ pods_of s a ∨ (a ∈ ips ∧ q = key)) ∧
    (∀ b, has_peer (world s) b → has_peer (world s') b) ∧
    (∀ b, used b → has_peer (world s') b → has_peer (world s) b ∨ b ∈ ips) ∧
    (∀ ip, ip ∈ ips → ip ∈ default [] (podToPodIPs s !! key) ∨ has_peer (world s') ip ∨ refused ip)).
Proof.
  intros Hst Hrun key. unfold handlePodRunning, get_ips in Hrun. fold (pod_key pod) key in Hrun.
  unfold mbind at 1, M_bind at 1, ask in Hrun. unfold stable_status in Hst. fold key in Hst.
  set (existing := default [] (podToPodIPs s !! key)) in *.
  unfold mbind at 1, M_bind at 1, lift in Hrun.
  destruct (mapR ParseAddr (PodIPs pod)) as [ips|e]; [|injection Hrun as <- <-; left; by exists e].
  destruct (Hst ips eq_refl) as (Hnd & Hu & Hsub). unfold mbind at 1, M_bind at 1 in Hrun.
  destruct (forM_ ips (add_pod_ip existing) s) as [ra s1] eqn:Ha.
  destruct (add_loop existing ips s ra s1 Hu Ha) as ([Hm1 Hm2] & Hmono & Hback & Hok).
  destruct ra as [[]|e]; [|injection Hrun as <- <-; left; by exists e].
  rewrite (run_bind_ok _ _ _ _ _ (drop_loop_none existing ips s1 Hsub)) in Hrun.
  unfold mbind, M_bind, set_ips in Hrun.
  apply index_add_loop in Hrun as (-> & Hp & Hw & Hne & Hidx). cbn [podToPodIPs world] in Hp, Hw.
  right. split; [done|]. exists ips. rewrite Hw, Hp, Hm1. split_and!; try done.
  - intros Hn. apply Hne. unfold index_nonempty. cbn [podIPToPod]. by rewrite Hm2.
  - intros a q. rewrite Hidx. unfold pods_of. cbn [podIPToPod]. by rewrite Hm2.
  - by apply Hok.
Qed.

Lemma running_tracked s s' key ips :
  podToPodIPs s' = <[key := ips]> (podToPodIPs s) → default [] (podToPodIPs s !! key) ⊆ ips →
  ∀ a, tracked s' a ↔ tracked s a ∨ a ∈ ips.
Proof.
  intros Hp Hsub a. unfold tracked. rewrite Hp. split.
  - intros (p & l & [[<- <-]|[_ Hl]]%lookup_insert_Some & Ha); eauto.
  - intros [(p & l & Hl & Ha)|Ha].
    + destruct (decide (p = key)) as [->|Hne].
      * exists key, ips. rewrite lookup_insert_eq. split; [done|]. apply Hsub. by rewrite Hl.
      * exists p, l. by rewrite lookup_insert_ne.
    + exists key, ips. by rewrite lookup_insert_eq.
Qed.

Lemma handlePodRunning_inv pod s r s' :
  watcher_inv s → stable_status s pod → handlePodRunning pod s = (r, s') →
  watcher_inv s' ∧ (r = Ok tt → ∀ X, leaks_within X s → leaks_within X s').
Proof.
  intros [Hidx Hne Hips Htun] Hst Hrun.
  destruct (handlePodRunning_run pod s r s' Hst Hrun)
    as [(e & -> & [H1 H2] & Hmono)|(-> & ips & Hnd & Hu & Hsub & Hp & Hne' & Hidx' & Hmono & Hback & Hok)].
  - split; [|done]. split.
    + intros p a. unfold pods_of. rewrite H1, H2. apply Hidx.
    + unfold index_nonempty. by rewrite H2.
    + by rewrite H1.
    + intros a Ha. destruct (Htun a) as [?|?]; [|by left; apply Hmono|by right].
      unfold tracked in *. by rewrite <- H1.
  - pose proof (running_tracked s s' _ ips Hp Hsub) as Htr. split; [split|].
    + intros p a. rewrite Hidx', Hidx, Hp. split.
      * intros [(l & Hl & Ha)|[Ha ->]].
        -- destruct (decide (p = pod_key pod)) as [->|Hn].
           ++ exists ips. rewrite lookup_insert_eq. split; [done|]. apply Hsub. by rewrite Hl.
           ++ exists l. by rewrite lookup_insert_ne.
        -- exists ips. by rewrite lookup_insert_eq.
      * intros (l & [[<- <-]|[_ Hl]]%lookup_insert_Some & Ha); eauto.
    + by apply Hne'.
    + intros p l. rewrite Hp. intros [[_ <-]|[_ Hl]]%lookup_insert_Some; [done|by eapply Hips].
    + intros a [Ha|Ha]%Htr.
      * destruct (Htun a Ha); auto.
      * destruct (Hok a Ha) as [He|?]; [|done].
        assert (tracked s a) as Ht.
        { destruct (podToPodIPs s !! pod_key pod) as [l|] eqn:Hl; simpl in He; [|set_solver].
          by exists (pod_key pod), l. }
        destruct (Htun a Ht); auto.
    + intros _ X Hnl a Hua Hpe. rewrite Htr. destruct (Hback a Hua Hpe) as [Hw|]; [|by auto].
      destruct (Hnl a Hua Hw); auto.
Qed.

Lemma handlePodDeletion_inv p s s' :
  watcher_inv s → handlePodDeletion p s = (Ok tt, s') →
  watcher_inv s' ∧ podToPodIPs s' = delete p (podToPodIPs s) ∧ (∀ X, leaks_within X s → leaks_within X s').
Proof.
  intros [Hidx Hne Hips Htun] Hrun. unfold handlePodDeletion in Hrun.
  apply bind_ok in Hrun as (ips & s0 & [Hg ->]%ask_ok & Hrun). injection Hg as Hg.
  apply bind_ok in Hrun as ([] & s1 & Hloop & [= <-]).
  assert (NoDup ips ∧ Forall used ips ∧ ∀ a, a ∈ ips ↔ p ∈ pods_of s a) as (Hnd & Hu & Hin).
  { destruct (podToPodIPs s !! p) as [l|] eqn:Hl; simpl in Hg; subst ips.
    - destruct (Hips p l Hl). split_and!; [done..|]. intros a. rewrite Hidx, Hl. naive_solver.
    - split_and!; [constructor|done|]. intros a. rewrite Hidx, Hl. set_solver. }
  destruct (release_loop p ips s s1 Hnd Hu Hne) as (Hm & Hne1 & Hp1 & Hw1); [by intros a ?%Hin|done|].
  assert (∀ a, tracked (mkWatcherState (delete p (podToPodIPs s1)) (podIPToPod s1) (world s1)) a ↔
    ∃ q, q ≠ p ∧ q ∈ pods_of s a) as Htr.
  { intros a. unfold tracked. cbn [podToPodIPs]. rewrite Hm. split.
    - intros (q & l & [Hqp Hl]%lookup_delete_Some & Ha). exists q. split; [done|]. apply Hidx. eauto.
    - intros (q & Hqp & (l & Hl & Ha)%Hidx). exists q, l. by rewrite lookup_delete_ne by done. }
  split_and!; [split|by rewrite <- Hm|].
  - intros q a. change (q ∈ pods_of s1 a ↔ ∃ l, delete p (podToPodIPs s1) !! q = Some l ∧ a ∈ l).
    rewrite Hp1, Hm. split.
    + intros [Hq Hn]. assert (q ≠ p) as Hqp by (intros ->; apply Hn; by rewrite Hin).
      apply Hidx in Hq as (l & Hl & Ha). exists l. by rewrite lookup_delete_ne by done.
    + intros (l & [Hqp Hl]%lookup_delete_Some & Ha). split; [apply Hidx; eauto|]. intros [_ ->]. done.
  - done.
  - intros q l. cbn [podToPodIPs]. rewrite Hm. intros [_ Hl]%lookup_delete_Some. by eapply Hips.
  - intros a (q & Hqp & Hq)%Htr. cbn [world]. assert (tracked s a) as Ht.
    { apply Hidx in Hq as (l & ? & ?). by exists q, l. }
    destruct (Htun a Ht) as [Hpe|?]; [left|by right]. apply Hw1; [|split; [done|]].
    + destruct Ht as (q' & l & Hl & Ha). destruct (Hips _ _ Hl) as [_ Hf]. by eapply Forall_forall in Hf.
    + intros [_ Hs]. rewrite Hs in Hq. set_solver.
  - intros X Hnl a Hua [Hpe Hn]%Hw1; [|done]. destruct (Hnl a Hua Hpe) as [(q & l & Hl & Ha)|]; [left|by right].
    apply Htr. assert (q ∈ pods_of s a) as Hq by (apply Hidx; eauto).
    destruct (decide (q = p)) as [->|]; [|by exists q].
    destruct (decide (pods_of s a = {[p]})) as [He|He]; [destruct Hn; split; [by apply Hin|done]|].
    by apply other_member.
Qed.

(** ** Failing deletions *)

Lemma release_loop_err p ips s e s' :
  NoDup ips → Forall used ips → index_nonempty s → (∀ a, a ∈ ips → p ∈ pods_of s a) →
  forM_ ips (release_ip p) s = (Err e, s') → ∃ a w w', a ∈ ips ∧ tun_DelPeer a w = (Err e, w').
Proof.
  intros Hnd. revert s. induction Hnd as [|a ips Hni Hnd IH]; intros s Hu Hne Hin Hrun; [done|].
  apply Forall_cons in Hu as [Hua Hu]. simpl in Hrun.
  apply bind_err in Hrun as [Herr|([] & s1 & H1 & Hrun)].
  - apply release_err in Herr as [_ Hd]. destruct (Hd (Hin a ltac:(left))) as (w & w' & HD).
    exists a, w, w'. split; [by left|done].
  - destruct (release_run p a s s1 Hua Hne) as (_ & Hne1 & Hp1 & _); [apply Hin; by left|done|].
    destruct (IH s1 Hu Hne1) as (b & w & w' & Hb & HD); [|done|].
    { intros b Hb. apply Hp1. split; [apply Hin; by right|]. intros [-> _]. done. }
    exists b, w, w'. split; [by right|done].
Qed.

(** C16: deleting a pod under the invariant.  On success the pod is forgotten
    and a tunnel goes away exactly when no other pod has its address; the only
    error is one that [DelPeer] returned for an address of the pod, never one
    of the bookkeeping. *)
Theorem watcher_deletion_exact (p : NamespacedName) (s : WatcherState W) :
  watcher_inv s →
  match handlePodDeletion p s with
  | (Ok _, s') =>
      podToPodIPs s' = delete p (podToPodIPs s) ∧
      ∀ a, used a → has_peer (world s') a ↔ has_peer (world s) a ∧ pods_of s a ≠ {[p]}
  | (Err e, _) => ∃ a w w', p ∈ pods_of s a ∧ tun_DelPeer a w = (Err e, w')
  end.
Proof.
  intros Hinv. pose proof Hinv as [Hidx Hne Hips _].
  assert (∃ ips, ips = default [] (podToPodIPs s !! p) ∧ NoDup ips ∧ Forall used ips ∧
    ∀ a, a ∈ ips ↔ p ∈ pods_of s a) as (ips & Hg & Hnd & Hu & Hin).
  { exists (default [] (podToPodIPs s !! p)). destruct (podToPodIPs s !! p) as [l|] eqn:Hl; simpl.
    - destruct (Hips p l Hl). split_and!; [done..|]. intros a. rewrite Hidx, Hl. naive_solver.
    - split_and!; [done|constructor|done|]. intros a. rewrite Hidx, Hl. set_solver. }
  destruct (handlePodDeletion p s) as [[[]|e] s'] eqn:Hrun.
  - split; [by apply handlePodDeletion_inv in Hrun as (_ & ? & _)|].
    unfold handlePodDeletion in Hrun. apply bind_ok in Hrun as (ips' & s0 & [[= <-] ->]%ask_ok & Hrun).
    rewrite <- Hg in Hrun. apply bind_ok in Hrun as ([] & s1 & Hloop & [= <-]).
    destruct (release_loop p ips s s1 Hnd Hu Hne) as (_ & _ & _ & Hw); [by intros a ?%Hin|done|].
    intros a Ha. cbn [world]. rewrite Hw, Hin by done. split; [|naive_solver].
    intros [Hp Hn]. split; [done|]. intros Hs. apply Hn. split; [|done]. rewrite Hs. set_solver.
  - unfold handlePodDeletion, get_ips in Hrun. unfold mbind at 1, M_bind at 1, ask in Hrun.
    rewrite <- Hg in Hrun. apply bind_err in Hrun as [Hloop|([] & s1 & _ & Hd)]; [|done].
    destruct (release_loop_err p ips s e s' Hnd Hu Hne) as (a & w & w' & Ha & HD); [by intros a ?%Hin|done|].
    exists a, w, w'. by rewrite <- Hin.
Qed.

(** ** Runs of the controller *)

Section runs.
Context (range : gmap string string → list (string * string)) (r : PodWatcher).

(** What the API server may answer: a pod asked for by its key, with a stable
    status, or an error. *)
Definition admissible s (req : NamespacedName) (Get : result Pod) : Prop :=
  match Get with Ok pod => pod_key pod = req ∧ stable_status s pod | Err _ => True end.

(** A deletion is what the call asks for. *)
Definition deleting (Get : result Pod) : bool :=
  match Get with
  | Ok pod => isTerminated pod || bool_decide (DeletionTimestamp pod ≠ None)
  | Err e => IsNotFound e
  end.

(** One [Reconcile]: successful, or failed while not deleting. *)
Inductive watcher_step : bool → relation (WatcherState W) :=
| step_ok Get req s s' : admissible s req Get →
    Reconcile range r Get req s = (Ok tt, s') → watcher_step true s s'
| step_failed Get req s e s' : admissible s req Get → deleting Get = false →
    Reconcile range r Get req s = (Err e, s') → watcher_step false s s'.

Definition any_step s s' : Prop := ∃ b, watcher_step b s s'.

Lemma watcher_step_inv b s s' :
  watcher_inv s → watcher_step b s s' → watcher_inv s' ∧ (b = true → no_leak s → no_leak s').
Proof.
  intros Hinv Hstep. rewrite !no_leak_within.
  destruct Hstep as [Get req s s' Had Hrun|Get req s e s' Had Hdel Hrun].
  - unfold Reconcile in Hrun. destruct Get as [pod|e].
    + destruct (shouldHandle range r pod); cbn [negb] in Hrun; [|by injection Hrun as <-].
      destruct (isTerminated pod || _); apply wrap_ok in Hrun.
      * apply handlePodDeletion_inv in Hrun as (? & _ & ?); auto.
      * destruct (handlePodRunning_inv pod s (Ok tt) s' Hinv (proj2 Had) Hrun). auto.
    + destruct (IsNotFound e); [|done]. apply wrap_ok in Hrun.
      apply handlePodDeletion_inv in Hrun as (? & _ & ?); auto.
  - split; [|done]. unfold Reconcile in Hrun. destruct Get as [pod|e0]; cbn [deleting] in Hdel.
    + destruct (shouldHandle range r pod); cbn [negb] in Hrun; [|done].
      rewrite Hdel in Hrun. apply wrap_err in Hrun as (e1 & Hrun & _).
      by destruct (handlePodRunning_inv pod s (Err e1) s' Hinv (proj2 Had) Hrun).
    + rewrite Hdel in Hrun. by injection Hrun as _ <-.
Qed.

Lemma initial_inv w : watcher_inv (mkWatcherState ∅ ∅ w).
Proof.
  split; unfold pods_of, index_nonempty, tracked; cbn.
  - intros p a. rewrite !lookup_empty. simpl. set_solver.
  - intros a x. by rewrite lookup_empty.
  - intros p ips. by rewrite lookup_empty.
  - intros a (p & ips & Hl & _). by rewrite lookup_empty in Hl.
Qed.

Lemma reach_inv s s' : watcher_inv s → rtc any_step s s' → watcher_inv s'.
Proof. intros Hi Hr. induction Hr as [|s1 s2 s3 [b Hs] _ IH]; [done|]. apply IH. by eapply watcher_step_inv. Qed.

Lemma reach_exact s s' :
  watcher_inv s → no_leak s → rtc (watcher_step true) s s' → watcher_inv s' ∧ no_leak s'.
Proof.
  intros Hi Hl Hr. induction Hr as [|s1 s2 s3 Hs _ IH]; [done|].
  destruct (watcher_step_inv _ _ _ Hi Hs) as [Hi2 Hl2]. auto.
Qed.

(** C11: in every state the controller reaches from its start, errors on the
    way included as long as no deletion failed, the two maps are inverse to
    each other and every tracked address has its tunnel, or is of a family the
    tunnel refuses.  Every call is for a pod shown with distinct addresses,
    among them those the watcher tracks for it ([stable_status]). *)
Theorem watcher_reachable_inv (w : W) (s : WatcherState W) :
  rtc any_step (NewPodWatcher (EgressName r) (EgressNamespace r) w).2 s → watcher_inv s.
Proof. apply reach_inv, initial_inv. Qed.

(** C10: in every state reached by calls none of which failed, from a world
    without tunnels, an address of the supported families has a tunnel exactly
    when the watcher tracks it for a pod.  The runs are those in which the API
    server shows each pod with distinct addresses, among them those the
    watcher tracks for it ([stable_status]). *)
Theorem watcher_tunnels_exact (w : W) (s : WatcherState W) :
  (∀ a, used a → ¬ has_peer w a) →
  rtc (watcher_step true) (NewPodWatcher (EgressName r) (EgressNamespace r) w).2 s →
  ∀ a, used a → ¬ refused a → has_peer (world s) a ↔ tracked s a.
Proof.
  intros Hw Hr a Hu Hnr. assert (no_leak (mkWatcherState ∅ ∅ w)) as H0.
  { intros b Hb Hp. by destruct (Hw b Hb). }
  destruct (reach_exact _ _ (initial_inv w) H0 Hr) as [Hi Hl].
  split; [by apply Hl|]. intros Ht. by destruct (inv_tunnel _ Hi a Ht).
Qed.
End runs.
End facts.

(** ** Witnesses, with the mock tunnel and gateway *)

Definition ex_watcher : PodWatcher := mkPodWatcher "egress-a" "internet".
Definition ex_pod (name : string) (ips : list string) : Pod :=
  mkPod name "default" {[ "egress.pona.cybozu.com/internet" := "egress-a" ]} false "Running" ips None.
Definition ex_world : MockWorld := mkMockWorld NewMockTunnel NewMockNat.
Definition ex_start : WatcherState MockWorld := (NewPodWatcher "egress-a" "internet" ex_world).2.

Lemma watcher_annotation_spec_witness :
  hasEgressAnnotation map_to_list ex_watcher (ex_pod "p" []) = true ↔
    ∃ v, pod_Annotations (ex_pod "p" []) !! annotation_key ex_watcher = Some v ∧ names_egress ex_watcher v.
Proof. apply (watcher_annotation_spec map_to_list ex_watcher (ex_pod "p" [])). intros m. reflexivity. Defined.

Lemma mock_inj (a b : Addr) : canonical a → canonical b → same_peer a b → a = b.
Proof. done. Qed.

Definition ex_ips : list Addr := [AddrV4 (be_val [10; 0; 0; 1]); AddrV4 (be_val [10; 0; 0; 2])].

Lemma ex_parse : mapR ParseAddr ["10.0.0.1"; "10.0.0.2"] = Ok ex_ips.
Proof. vm_compute. reflexivity. Qed.

Lemma ex_ips_canonical : NoDup ex_ips ∧ Forall canonical ex_ips.
Proof.
  split; [vm_compute; repeat constructor; set_solver|].
  unfold ex_ips. rewrite !Forall_cons, Forall_nil. unfold canonical.
  split_and!; try discriminate; try exact I; vm_compute; done.
Qed.

Lemma ex_stable (s : WatcherState MockWorld) name :
  default [] (podToPodIPs s !! mkNamespacedName "default" name) ⊆ ex_ips →
  stable_status canonical s (ex_pod name ["10.0.0.1"; "10.0.0.2"]).
Proof.
  intros Hsub ips. simpl PodIPs. rewrite ex_parse. intros [= <-].
  destruct ex_ips_canonical. split_and!; done.
Qed.

(** One pod set up by one [Reconcile]. *)
Definition ex_one : WatcherState MockWorld :=
  (Reconcile map_to_list ex_watcher (Ok (ex_pod "p" ["10.0.0.1"; "10.0.0.2"]))
     (mkNamespacedName "default" "p") ex_start).2.

Lemma ex_one_step : watcher_step canonical map_to_list ex_watcher true ex_start ex_one.
Proof.
  eapply (step_ok _ _ _ (Ok (ex_pod "p" ["10.0.0.1"; "10.0.0.2"])) (mkNamespacedName "default" "p")).
  - split; [reflexivity|]. apply ex_stable. vm_compute. set_solver.
  - vm_compute. reflexivity.
Qed.

Lemma watcher_reachable_inv_witness : watcher_inv canonical ex_one.
Proof.
  apply (watcher_reachable_inv canonical (λ a H, H) mock_inj map_to_list ex_watcher ex_world).
  apply rtc_once. exists true. exact ex_one_step.
Defined.

Lemma mock_not_refused (a : Addr) : ¬ refused (W:=MockWorld) a.
Proof. intros (w & e & w' & H & _). by injection H. Qed.

Lemma watcher_tunnels_exact_witness :
  has_peer (world ex_one) (AddrV4 (be_val [10; 0; 0; 2])) ↔ tracked ex_one (AddrV4 (be_val [10; 0; 0; 2])).
Proof.
  apply (watcher_tunnels_exact canonical (λ a H, H) mock_inj map_to_list ex_watcher ex_world).
  - intros a _ Ha. simpl in Ha. set_solver.
  - apply rtc_once. exact ex_one_step.
  - destruct ex_ips_canonical as [_ Hc]. rewrite Forall_forall in Hc. apply Hc. right. left.
  - apply mock_not_refused.
Defined.

Lemma ex_one_inv : watcher_inv canonical ex_one.
Proof.
  eapply (reach_inv canonical (λ a H, H) mock_inj map_to_list ex_watcher ex_start).
  - apply initial_inv; [exact (λ a H, H)|exact mock_inj].
  - apply rtc_once. exists true. exact ex_one_step.
Qed.

Lemma watcher_deletion_exact_witness :
  let s' := (handlePodDeletion (mkNamespacedName "default" "p") ex_one).2 in
  podToPodIPs s' = delete (mkNamespacedName "default" "p") (podToPodIPs ex_one) ∧
  ∀ a, canonical a → has_peer (world s') a ↔
    has_peer (world ex_one) a ∧ pods_of ex_one a ≠ {[mkNamespacedName "default" "p"]}.
Proof.
  pose proof (watcher_deletion_exact canonical (λ a H, H) mock_inj (mkNamespacedName "default" "p") ex_one
    ex_one_inv) as Hw.
  intros s'. unfold s'. destruct (handlePodDeletion (mkNamespacedName "default" "p") ex_one) as [[u|e] s1] eqn:Hr.
  - exact Hw.
  - exfalso. vm_compute in Hr. discriminate Hr.
Defined.

(** A tunnel controller that cannot delete one peer. *)
Definition flaky_tunnel (bad : Addr) : Tunnel MockWorld := {|
  tun_Init := MockTunnel.Init;
  tun_IsInitialized := MockTunnel.IsInitialized;
  tun_AddPeer := MockTunnel.AddPeer;
  tun_DelPeer a := if decide (a = bad) then throw (ErrLib "unix" "device or resource busy")
                   else MockTunnel.DelPeer a;
|}.

Lemma watcher_deletion_stuck_witness :
  let T := flaky_tunnel (AddrV4 (be_val [10; 0; 0; 2])) in
  let p := mkNamespacedName "default" "p" in
  let s' := (handlePodDeletion (H:=T) p ex_one).2 in
  is_ok (handlePodDeletion (H:=T) p ex_one).1 = false ∧
  ∀ w, ∃ e, handlePodDeletion (H:=T) p (mkWatcherState (podToPodIPs s') (podIPToPod s') w) =
    (Err e, mkWatcherState (podToPodIPs s') (podIPToPod s') w).
Proof.
  intros T p s'. split; [vm_compute; reflexivity|]. intros w.
  eapply (watcher_deletion_stuck (T:=T) p ex_one s'); [vm_compute; reflexivity|].
  intros Heq%(f_equal (λ m, bool_decide (m !! AddrV4 (be_val [10; 0; 0; 1]) = None))).
  vm_compute in Heq. discriminate Heq.
Defined.

(** Two pods share an address; then the first one moves away from it. *)
Definition ex_two : WatcherState MockWorld :=
  (handlePodRunning (ex_pod "q" ["10.0.0.1"; "10.0.0.2"]) ex_one).2.

Lemma watcher_ip_change_witness :
  let s' := (handlePodRunning (ex_pod "p" ["10.0.0.2"]) ex_two).2 in
  tracked s' (AddrV4 (be_val [10; 0; 0; 1])) ∧ ¬ has_peer (world s') (AddrV4 (be_val [10; 0; 0; 1])).
Proof.
  intros s'.
  destruct (watcher_ip_change (ex_pod "p" ["10.0.0.2"]) [AddrV4 (be_val [10; 0; 0; 2])] ex_ips
    (AddrV4 (be_val [10; 0; 0; 1])) (mkNamespacedName "default" "q") ex_two s') as (H1 & H2 & _).
  - vm_compute. reflexivity.
  - vm_compute. reflexivity.
  - apply (bool_decide_unpack _). vm_compute. exact I.
  - apply (bool_decide_unpack _). vm_compute. exact I.
  - apply (bool_decide_unpack _). vm_compute. exact I.
  - discriminate.
  - vm_compute. reflexivity.
  - left.
  - split; [exact H1|exact H2].
Defined.
