(* ===== verification/WatcherLive.v ===== *)
(** * The pod watcher over time: recovery, and what is never recovered

    [PodWatcher] shows what successful calls of [Reconcile] keep true.  Here
    the tunnel and the gateway are assumed to work again ([Healthy]), and the
    watcher is shown to bring its bookkeeping and the tunnels in line with the
    pods of the cluster, from any state its invariant allows.  The opposite is
    stated too: a tunnel left behind by a failed call for a pod that is gone
    stays for ever. *)
From Stdlib Require Import Ascii String.
From S2P Require Import Prelude GoStrings NetAddr NetParse NetIPUtil Netlink Tunnel Mocks PodWatcher.

Local Open Scope Z_scope.

Section live.
Context {W : Type} {T : Tunnel W} {TL : TunnelLaws W} {G : Gateway W} {GL : GatewayLaws W}.
Context (used : Addr → Prop).
Context (used_canonical : ∀ a, used a → canonical a).
Context (used_inj : ∀ a b, used a → used b → same_peer a b → a = b).
Context (range : gmap string string → list (string * string)) (r : PodWatcher).

Implicit Types s : WatcherState W.

(** The tunnel fails for addresses of a family it does not serve only. *)
Class Healthy := {
  AddPeer_up a w e w' : used a → tun_AddPeer a w = (Err e, w') → errors_Is e ErrIPFamilyMismatch = true;
  DelPeer_up a w : used a → is_ok (tun_DelPeer a w).1 = true;
  AddClient_up a l w : used a → is_ok (nat_AddClient a l w).1 = true;
}.

(** ** The cluster *)

(** The pods there are, as the API server knows them. *)
Definition Pods : Type := gmap NamespacedName Pod.

Definition answer (pods : Pods) (n : NamespacedName) : result Pod :=
  match pods !! n with Some pod => Ok pod | None => Err (ErrAPINotFound "pod not found") end.

Definition live (pod : Pod) : bool :=
  shouldHandle range r pod && negb (isTerminated pod || bool_decide (DeletionTimestamp pod ≠ None)).

(** The addresses the watcher should keep for a pod. *)
Definition wanted (pods : Pods) (n : NamespacedName) : option (list Addr) :=
  match pods !! n with
  | Some pod => if live pod then match mapR ParseAddr (PodIPs pod) with Ok ips => Some ips | Err _ => None end else None
  | None => None
  end.

Definition wanted_addr (pods : Pods) (a : Addr) : Prop := ∃ n ips, wanted pods n = Some ips ∧ a ∈ ips.

(** One call of [Reconcile] for each key. *)
Definition sweep (pods : Pods) (keys : list NamespacedName) : M (WatcherState W) unit :=
  forM_ keys (λ n, Reconcile range r (answer pods n) n).

(** Pods a watcher can be asked to follow in state [s]: found under their
    names, with distinct usable addresses, the ones it had among them; a pod
    that does not name the egress is not one that did. *)
Definition admissible_pods s (pods : Pods) : Prop := ∀ n pod, pods !! n = Some pod →
  pod_key pod = n ∧
  (live pod = true → ∃ ips, mapR ParseAddr (PodIPs pod) = Ok ips ∧ NoDup ips ∧ Forall used ips ∧
     default [] (podToPodIPs s !! n) ⊆ ips) ∧
  (shouldHandle range r pod = false → podToPodIPs s !! n = None).

(** ** Progress *)

Section healthy.
Context {HE : Healthy}.

Lemma add_loop_up existing ips s :
  Forall used ips → ∃ s', forM_ ips (add_pod_ip existing) s = (Ok tt, s').
Proof.
  intros Hu. revert s. induction Hu as [|ip ips Hip Hu IH]; intros s; [by eexists|].
  assert (∃ s1, add_pod_ip existing ip s = (Ok tt, s1)) as [s1 H1].
  { unfold add_pod_ip. case_decide; [by eexists|]. unfold mbind, M_bind, try, with_world.
    destruct (tun_AddPeer ip (world s)) as [[link|err] w1] eqn:HA.
    - unfold wrap. cbn [world]. pose proof (AddClient_up ip link w1 Hip) as Hc.
      destruct (nat_AddClient ip link w1) as [[[]|e] w2]; [by eexists|done].
    - rewrite (AddPeer_up ip _ err w1 Hip HA). by eexists. }
  rewrite (forM_cons_ok _ _ _ _ _ H1). apply IH.
Qed.

Lemma handlePodRunning_up pod s ips :
  mapR ParseAddr (PodIPs pod) = Ok ips → Forall used ips → default [] (podToPodIPs s !! pod_key pod) ⊆ ips →
  ∃ s', handlePodRunning pod s = (Ok tt, s') ∧ podToPodIPs s' = <[pod_key pod := ips]> (podToPodIPs s).
Proof.
  intros Hips Hu Hsub. unfold handlePodRunning, get_ips. fold (pod_key pod).
  unfold mbind at 1, M_bind at 1, ask. unfold mbind at 1, M_bind at 1, lift. rewrite Hips.
  set (existing := default [] (podToPodIPs s !! pod_key pod)) in *.
  destruct (add_loop_up existing ips s Hu) as [s1 H1]. rewrite (run_bind_ok _ _ _ _ _ H1).
  rewrite (run_bind_ok _ _ _ _ _ (drop_loop_none existing ips s1 Hsub)).
  unfold mbind, M_bind, set_ips. destruct (forM_ ips (index_add (pod_key pod)) _) as [res s'] eqn:Hi.
  apply index_add_loop in Hi as (-> & Hp & _). exists s'. split; [done|].
  pose proof (add_loop_maps existing ips s) as [Hm _]. rewrite H1 in Hm. by rewrite Hp, <- Hm.
Qed.

Lemma handlePodDeletion_up p s :
  watcher_inv used s → ∃ s', handlePodDeletion p s = (Ok tt, s').
Proof.
  intros Hinv. destruct (handlePodDeletion p s) as [[[]|e] s'] eqn:Hrun; [by eexists|exfalso].
  unfold handlePodDeletion in Hrun. unfold get_ips in Hrun. unfold mbind at 1, M_bind at 1, ask in Hrun.
  apply bind_err in Hrun as [Hrun|(? & ? & _ & Hrun)]; [|done].
  destruct (podToPodIPs s !! p) as [ips|] eqn:Hl; simpl in Hrun; [|done].
  destruct (inv_ips _ _ Hinv p ips Hl) as [Hnd Hu].
  apply (release_loop_err used used_inj) in Hrun as (a & w & w' & Ha & HD); [|done|done|apply Hinv|].
  - eapply Forall_forall in Ha; [|exact Hu]. pose proof (DelPeer_up a w Ha) as Hok. by rewrite HD in Hok.
  - intros a Ha. apply (inv_index _ _ Hinv). eauto.
Qed.

(** One call, for one key. *)
Lemma reconcile_key pods n s :
  watcher_inv used s → admissible_pods s pods →
  ∃ s', Reconcile range r (answer pods n) n s = (Ok tt, s') ∧ watcher_inv used s' ∧
    podToPodIPs s' !! n = wanted pods n ∧ (∀ m, m ≠ n → podToPodIPs s' !! m = podToPodIPs s !! m) ∧
    (∀ X, leaks_within used X s → leaks_within used X s').
Proof.
  intros Hinv Hadm. unfold wanted.
  assert (∀ w, ∃ s', wrap w (handlePodDeletion n) s = (Ok tt, s') ∧ watcher_inv used s' ∧
    podToPodIPs s' !! n = None ∧ (∀ m, m ≠ n → podToPodIPs s' !! m = podToPodIPs s !! m) ∧
    (∀ X, leaks_within used X s → leaks_within used X s')) as Hdel.
  { intros w. destruct (handlePodDeletion_up n s Hinv) as [s' Hs']. exists s'. split; [by apply wrap_ok|].
    apply (handlePodDeletion_inv used used_canonical used_inj) in Hs' as (Hi & Hp & Hx); [|done].
    split_and!; [done|by rewrite Hp, lookup_delete_eq| |done]. intros m Hm. by rewrite Hp, lookup_delete_ne. }
  unfold Reconcile, answer. destruct (pods !! n) as [pod|] eqn:Hpod; [|apply Hdel].
  destruct (Hadm n pod Hpod) as (Hk & Hlive & Hno). unfold live in *.
  destruct (shouldHandle range r pod); cbn [negb andb] in *.
  2: { exists s. split_and!; [done|done|by apply Hno|done|done]. }
  destruct (isTerminated pod || _); cbn [negb] in *; [apply Hdel|].
  destruct (Hlive eq_refl) as (ips & Hips & Hnd & Hu & Hsub). rewrite Hips.
  destruct (handlePodRunning_up pod s ips Hips Hu) as (s' & Hs' & Hp); [by rewrite Hk|]. exists s'.
  split; [by apply wrap_ok|]. rewrite Hk in Hp.
  destruct (handlePodRunning_inv used used_canonical used_inj pod s (Ok tt) s' Hinv) as [Hi Hx]; [|done|].
  { intros l Hl. rewrite Hips in Hl. injection Hl as <-. by rewrite Hk. }
  split_and!; [done|by rewrite Hp, lookup_insert_eq| |by apply Hx]. intros m Hm. by rewrite Hp, lookup_insert_ne.
Qed.

Lemma sweep_run pods keys s0 s :
  watcher_inv used s → admissible_pods s0 pods →
  (∀ n, podToPodIPs s !! n = podToPodIPs s0 !! n ∨ podToPodIPs s !! n = wanted pods n) →
  ∃ s', sweep pods keys s = (Ok tt, s') ∧ watcher_inv used s' ∧
    (∀ n, n ∈ keys → podToPodIPs s' !! n = wanted pods n) ∧
    (∀ n, podToPodIPs s' !! n = podToPodIPs s !! n ∨ podToPodIPs s' !! n = wanted pods n) ∧
    (∀ X, leaks_within used X s → leaks_within used X s').
Proof.
  intros Hinv Hadm. revert s Hinv. induction keys as [|k keys IH]; intros s Hinv Hold.
  { exists s. split_and!; [done|done|intros n Hn; by apply elem_of_nil in Hn|by left|done]. }
  assert (admissible_pods s pods) as Hadms.
  { intros n pod Hpod. destruct (Hadm n pod Hpod) as (H1 & H2 & H3).
    split_and!; [done| |].
    - intros Hl. destruct (H2 Hl) as (ips & Hi & Hnd & Hu & Hsub). exists ips. split_and!; try done.
      destruct (Hold n) as [-> | ->]; [done|]. unfold wanted. by rewrite Hpod, Hl, Hi.
    - intros Hs. destruct (Hold n) as [-> | ->]; [by apply H3|]. unfold wanted, live. by rewrite Hpod, Hs. }
  destruct (reconcile_key pods k s Hinv Hadms) as (s1 & Hr & Hi1 & Hk & Hne & Hx).
  destruct (IH s1 Hi1) as (s' & Hs' & Hi' & Hin & Hor & Hx').
  { intros n. destruct (decide (n = k)) as [->|Hnk]; [by right|]. rewrite Hne by done. apply Hold. }
  exists s'. split_and!.
  - unfold sweep. by rewrite (forM_cons_ok k keys (λ n, Reconcile range r (answer pods n) n) s s1 Hr).
  - done.
  - intros n [->|Hn]%elem_of_cons; [|by apply Hin]. destruct (Hor k) as [->|]; done.
  - intros n. destruct (Hor n) as [->|]; [|by right]. destruct (decide (n = k)) as [->|Hnk]; [by right|].
    left. by apply Hne.
  - auto.
Qed.

(** C12: once the tunnel and the gateway work, the watcher catches up.  From any
    state its invariant allows, however many calls have failed before, one
    call of [Reconcile] for every pod that exists or is still tracked, in any
    order and as often as one likes, succeeds throughout and leaves the
    watcher with exactly the addresses of the live client pods; and if every
    tunnel without a tracked pod belongs to a live pod, there are tunnels for
    exactly those addresses, as far as their families are served.  The live
    pods have addresses that parse, are distinct and include those tracked for
    them, and no tracked pod has lost its annotation ([admissible_pods]). *)
Theorem watcher_catches_up pods keys s :
  watcher_inv used s → admissible_pods s pods →
  (∀ n, is_Some (pods !! n) ∨ is_Some (podToPodIPs s !! n) → n ∈ keys) →
  ∃ s', sweep pods keys s = (Ok tt, s') ∧ watcher_inv used s' ∧
    (∀ n, podToPodIPs s' !! n = wanted pods n) ∧
    (leaks_within used (wanted_addr pods) s →
       ∀ a, used a → ¬ refused a → has_peer (world s') a ↔ wanted_addr pods a).
Proof.
  intros Hinv Hadm Hkeys.
  destruct (sweep_run pods keys s s Hinv Hadm) as (s' & Hs' & Hi & Hin & Hor & Hx); [by left|].
  assert (∀ n, podToPodIPs s' !! n = wanted pods n) as Hall.
  { intros n. destruct (Hor n) as [Ho|]; [|done]. destruct (decide (n ∈ keys)) as [|Hn]; [by apply Hin|].
    assert (pods !! n = None ∧ podToPodIPs s !! n = None) as [H1 H2].
    { split; apply eq_None_not_Some; intros Hs; apply Hn, Hkeys; auto. }
    rewrite Ho, H2. unfold wanted. by rewrite H1. }
  assert (∀ a, tracked s' a ↔ wanted_addr pods a) as Htr.
  { intros a. unfold tracked, wanted_addr. by setoid_rewrite Hall. }
  exists s'. split_and!; [done..|]. intros Hl a Hu Hnr. split.
  - intros Hp. destruct (Hx _ Hl a Hu Hp) as [Ht|]; [by apply Htr|done].
  - intros Ht%Htr. by destruct (inv_tunnel _ _ Hi a Ht).
Qed.
End healthy.

(** ** Tunnels without a pod *)

(** A call of [Reconcile], whatever comes of it, in which the API server does
    not show a pod with the address [a]. *)
Definition shows_not (a : Addr) (req : NamespacedName) (Get : result Pod) : Prop :=
  match Get with
  | Ok pod => pod_key pod = req ∧ ∀ ips, mapR ParseAddr (PodIPs pod) = Ok ips → Forall used ips ∧ a ∉ ips
  | Err _ => True
  end.

Inductive call_without (a : Addr) : relation (WatcherState W) :=
| call Get req s res s' : shows_not a req Get → Reconcile range r Get req s = (res, s') → call_without a s s'.

(** [a] has a tunnel and no pod. *)
Record leaked (a : Addr) s : Prop := mkLeaked {
  lk_peer : has_peer (world s) a;
  lk_free : ¬ tracked s a;
  lk_used p ips : podToPodIPs s !! p = Some ips → Forall used ips }.

(** The bookkeeping is as before, and so is the tunnel of [a]. *)
Definition keeps_peer (a : Addr) s s' : Prop :=
  podToPodIPs s' = podToPodIPs s ∧ (has_peer (world s) a → has_peer (world s') a).

#[local] Instance keeps_peer_pre a : PreOrder (keeps_peer a).
Proof. split; [done|]. intros s1 s2 s3 [H1 H2] [H3 H4]. split; [congruence|auto]. Qed.

Lemma with_DelPeer_keeps a b : used a → used b → b ≠ a → preserves (keeps_peer a) (with_world (tun_DelPeer b)).
Proof.
  intros Ha Hb Hne s. unfold with_world. pose proof (DelPeer_frame b (world s) a) as Hf.
  destruct (tun_DelPeer b (world s)) as [res w]. cbn in *. split; [done|]. apply Hf. intros Hs. by apply Hne, used_inj.
Qed.

Lemma add_keeps a existing ip : used ip → preserves (keeps_peer a) (add_pod_ip existing ip).
Proof.
  intros Hip s. destruct (add_pod_ip_run used used_canonical used_inj existing ip s Hip) as ([H1 _] & H2 & _).
  split; [done|apply H2].
Qed.

Lemma release_keeps a p b : used a → used b → b ≠ a → preserves (keeps_peer a) (release_ip p b).
Proof.
  intros Ha Hb Hne. apply preserves_bind; [apply _|apply preserves_ask, _|]. intros ex.
  apply preserves_bind; [apply _| |intros [] s; by split]. destruct (negb ex); [by apply with_DelPeer_keeps|].
  apply preserves_ret, _.
Qed.

Lemma tracked_not a s p ips : ¬ tracked s a → podToPodIPs s !! p = Some ips → a ∉ ips.
Proof. intros Hn Hp Ha. apply Hn. by exists p, ips. Qed.

Lemma deletion_leaked a p s res s' :
  used a → leaked a s → handlePodDeletion p s = (res, s') → leaked a s'.
Proof.
  intros Hu [Hp Hf Hus] Hrun.
  assert (∀ s2 : WatcherState W, keeps_peer a s s2 → leaked a s2) as Hkeep.
  { intros s2 [H1 H2]. constructor; [auto| |by rewrite H1]. unfold tracked in *. by rewrite H1. }
  unfold handlePodDeletion, get_ips in Hrun. unfold mbind at 1, M_bind at 1, ask in Hrun.
  assert (preserves (keeps_peer a) (forM_ (default [] (podToPodIPs s !! p)) (release_ip p))) as Hloop.
  { apply preserves_forM; [apply _|]. destruct (podToPodIPs s !! p) as [ips|] eqn:Hl; simpl; [|by intros ? ?%elem_of_nil].
    intros b Hb. apply release_keeps; [done| |].
    - specialize (Hus p ips Hl). by eapply Forall_forall in Hus.
    - intros ->. by eapply tracked_not. }
  specialize (Hloop s). unfold mbind, M_bind in Hrun.
  destruct (forM_ (default [] (podToPodIPs s !! p)) (release_ip p) s) as [[[]|e] s1]; cbn [snd] in Hloop.
  - injection Hrun as <- <-. destruct (Hkeep s1 Hloop) as [G1 G2 G3]. constructor; cbn; [done| |].
    + intros (q & l & Hq & Ha). cbn in Hq. apply lookup_delete_Some in Hq as [_ Hq]. apply G2. by exists q, l.
    + intros q l [_ Hq]%lookup_delete_Some. by eapply G3.
  - injection Hrun as <- <-. by apply Hkeep.
Qed.

Lemma running_leaked a pod s res s' :
  used a → leaked a s → (∀ ips, mapR ParseAddr (PodIPs pod) = Ok ips → Forall used ips ∧ a ∉ ips) →
  handlePodRunning pod s = (res, s') → leaked a s'.
Proof.
  intros Hu [Hp Hf Hus] Hshow Hrun.
  assert (∀ s2 : WatcherState W, keeps_peer a s s2 → leaked a s2) as Hkeep.
  { intros s2 [H1 H2]. constructor; [auto| |by rewrite H1]. unfold tracked in *. by rewrite H1. }
  unfold handlePodRunning, get_ips in Hrun. fold (pod_key pod) in Hrun.
  unfold mbind at 1, M_bind at 1, ask in Hrun. unfold mbind at 1, M_bind at 1, lift in Hrun.
  destruct (mapR ParseAddr (PodIPs pod)) as [ips|e]; [|injection Hrun as <- <-; by constructor].
  destruct (Hshow ips eq_refl) as [Hui Hai]. set (existing := default [] (podToPodIPs s !! pod_key pod)) in *.
  assert (preserves (keeps_peer a) (forM_ ips (add_pod_ip existing))) as Hadd.
  { apply preserves_forM; [apply _|]. intros ip Hip. apply add_keeps. by eapply Forall_forall in Hui. }
  assert (preserves (keeps_peer a) (forM_ existing (drop_pod_ip ips))) as Hdrop.
  { apply preserves_forM; [apply _|]. unfold existing. destruct (podToPodIPs s !! pod_key pod) as [l|] eqn:Hl; simpl;
      [|by intros ? ?%elem_of_nil]. intros b Hb. unfold drop_pod_ip. case_decide; [apply preserves_ret, _|].
    apply with_DelPeer_keeps; [done| |].
    - specialize (Hus _ _ Hl). by eapply Forall_forall in Hus.
    - intros ->. by eapply tracked_not. }
  specialize (Hadd s). unfold mbind at 1, M_bind at 1 in Hrun.
  destruct (forM_ ips (add_pod_ip existing) s) as [[[]|e] s1]; cbn [snd] in Hadd; [|injection Hrun as <- <-; by apply Hkeep].
  specialize (Hdrop s1). unfold mbind at 1, M_bind at 1 in Hrun.
  destruct (forM_ existing (drop_pod_ip ips) s1) as [[[]|e] s2]; cbn [snd] in Hdrop;
    [|injection Hrun as <- <-; apply Hkeep; by etrans].
  destruct (Hkeep s2) as [G1 G2 G3]; [by etrans|].
  unfold mbind, M_bind, set_ips in Hrun. apply index_add_loop in Hrun as (_ & Hm & Hw & _). cbn in Hm, Hw.
  constructor.
  - by rewrite Hw.
  - intros (q & l & Hq & Ha). rewrite Hm in Hq. apply lookup_insert_Some in Hq as [[_ <-]|[_ Hq]]; [done|].
    apply G2. by exists q, l.
  - intros q l. rewrite Hm. intros [[_ <-]|[_ Hq]]%lookup_insert_Some; [done|by eapply G3].
Qed.

Lemma call_leaked a s s' : used a → leaked a s → call_without a s s' → leaked a s'.
Proof.
  intros Hu Hl Hc. revert Hl. destruct Hc as [Get req s0 res s1 Hshow Hrun]. intros Hl. unfold Reconcile in Hrun. destruct Get as [pod|e].
  - destruct Hshow as [_ Hips]. destruct (negb (shouldHandle range r pod)); [by injection Hrun as _ <-|].
    destruct (isTerminated pod || _); unfold wrap in Hrun.
    + destruct (handlePodDeletion req s0) as [[[]|e] s2] eqn:Hd; injection Hrun as <- <-; by eapply deletion_leaked.
    + destruct (handlePodRunning pod s0) as [[[]|e] s2] eqn:Hd; injection Hrun as <- <-; by eapply running_leaked.
  - destruct (IsNotFound e); [|by injection Hrun as _ <-]. unfold wrap in Hrun.
    destruct (handlePodDeletion req s0) as [[[]|e0] s2] eqn:Hd; injection Hrun as <- <-; by eapply deletion_leaked.
Qed.

(** C35: a pod whose NAT could not be set up after its tunnel was, leaves the
    tunnel behind.  The failing [Reconcile] does not record the address, so
    when the pod is gone before a retry succeeds, no later call ever removes
    the tunnel, whatever pods come and go with other addresses. *)
Theorem watcher_leaks_tunnel pod a l w1 e w2 s :
  watcher_inv used s → used a → ¬ tracked s a → live pod = true → mapR ParseAddr (PodIPs pod) = Ok [a] →
  tun_AddPeer a (world s) = (Ok l, w1) → nat_AddClient a l w1 = (Err e, w2) →
  ∃ e' s1, Reconcile range r (Ok pod) (pod_key pod) s = (Err e', s1) ∧
    ∀ s', rtc (call_without a) s1 s' → has_peer (world s') a ∧ ¬ tracked s' a.
Proof.
  intros Hinv Hu Hnt Hlive Hips HA HC.
  assert (handlePodRunning pod s = (Err (Errorf ("failed to setup NAT for ip=" +:+ Addr_String a +:+ "; ") e),
    mkWatcherState (podToPodIPs s) (podIPToPod s) w2)) as Hrun.
  { unfold handlePodRunning, get_ips. fold (pod_key pod). unfold mbind at 1, M_bind at 1, ask.
    unfold mbind at 1, M_bind at 1, lift. rewrite Hips. apply run_bind_err. cbn [forM_]. apply run_bind_err.
    unfold add_pod_ip. rewrite decide_False.
    - unfold mbind, M_bind, try, with_world. rewrite HA. unfold wrap. cbn [world]. by rewrite HC.
    - destruct (podToPodIPs s !! pod_key pod) as [ips|] eqn:Hp; simpl; [by eapply tracked_not|set_solver]. }
  eexists _, (mkWatcherState (podToPodIPs s) (podIPToPod s) w2). split.
  - unfold Reconcile. unfold live in Hlive. apply andb_prop in Hlive as [-> Hl]. cbn [negb].
    apply negb_true_iff in Hl as ->. by apply run_wrap_err.
  - assert (leaked a (mkWatcherState (podToPodIPs s) (podIPToPod s) w2)) as Hlk.
    { constructor; cbn; [|exact Hnt|intros p ips Hp; by destruct (inv_ips _ _ Hinv p ips Hp)].
      pose proof (AddClient_peers a l w1 a (used_canonical a Hu)) as Hc. rewrite HC in Hc. apply Hc.
      by eapply AddPeer_peer. }
    clear Hrun. intros s' Hsteps. assert (leaked a s') as [H1 H2 _]; [|done].
    induction Hsteps as [|x y z Hxy _ IH]; [done|]. apply IH. by eapply call_leaked.
Qed.
End live.

(** ** Witnesses *)

#[export] Instance mock_healthy : Healthy canonical (W:=MockWorld).
Proof. split; done. Qed.

Definition ex_p : NamespacedName := mkNamespacedName "default" "p".
Definition ex_q : NamespacedName := mkNamespacedName "default" "q".

(** The pod [p] is gone and [q] has one of its addresses. *)
Definition ex_pods : Pods := {[ ex_q := ex_pod "q" ["10.0.0.1"] ]}.

Lemma ex_parse_one : mapR ParseAddr ["10.0.0.1"] = Ok [AddrV4 (be_val [10; 0; 0; 1])].
Proof. vm_compute. reflexivity. Qed.

Lemma ex_admissible : admissible_pods canonical map_to_list ex_watcher ex_one ex_pods.
Proof.
  intros n pod Hpod. unfold ex_pods in Hpod. apply lookup_singleton_Some in Hpod as [<- <-].
  split; [reflexivity|]. split.
  - intros _. exists [AddrV4 (be_val [10; 0; 0; 1])]. split; [exact ex_parse_one|]. destruct ex_ips_canonical as [_ Hc].
    split; [apply NoDup_singleton|]. split.
    + unfold ex_ips in Hc. apply Forall_cons in Hc as [Hc _]. by constructor.
    + vm_compute. set_solver.
  - vm_compute. discriminate.
Qed.

Lemma ex_one_ips : podToPodIPs ex_one = {[ ex_p := ex_ips ]}.
Proof. vm_compute. reflexivity. Qed.

Lemma watcher_catches_up_witness :
  ∃ s', sweep map_to_list ex_watcher ex_pods [ex_p; ex_q] ex_one = (Ok tt, s') ∧
    podToPodIPs s' !! ex_p = None ∧ podToPodIPs s' !! ex_q = Some [AddrV4 (be_val [10; 0; 0; 1])].
Proof.
  destruct (watcher_catches_up canonical (λ a H, H) mock_inj map_to_list ex_watcher ex_pods [ex_p; ex_q] ex_one)
    as (s' & H1 & _ & H3 & _).
  - exact ex_one_inv.
  - exact ex_admissible.
  - intros n. rewrite ex_one_ips. unfold ex_pods. intros Hn. apply elem_of_cons.
    destruct Hn as [Hn|Hn]; apply lookup_singleton_is_Some in Hn; subst n; [right; apply elem_of_cons|]; by left.
  - exists s'. split; [exact H1|]. rewrite !H3. split; vm_compute; reflexivity.
Defined.

(** A gateway that cannot set clients up. *)
Definition broken_nat : Gateway MockWorld := {|
  nat_Init := MockNat.Init;
  nat_AddClient := λ a l w, (Err (ErrLib "netlink" "no such device"), w);
|}.

Definition broken_nat_laws : @GatewayLaws MockWorld _ _ broken_nat.
Proof. refine {| has_client := λ w a, is_Some (Clients w !! a) |}; done. Defined.

Lemma watcher_leaks_tunnel_witness :
  ∃ e s1, Reconcile (H0:=broken_nat) map_to_list ex_watcher (Ok (ex_pod "q" ["10.0.0.1"])) ex_q ex_start = (Err e, s1) ∧
    (∀ s', rtc (call_without (G:=broken_nat) canonical map_to_list ex_watcher (AddrV4 (be_val [10; 0; 0; 1]))) s1 s' →
      has_peer (world s') (AddrV4 (be_val [10; 0; 0; 1])) ∧ ¬ tracked s' (AddrV4 (be_val [10; 0; 0; 1]))).
Proof.
  eapply (watcher_leaks_tunnel (GL:=broken_nat_laws) canonical (λ a H, H) mock_inj map_to_list ex_watcher
    (ex_pod "q" ["10.0.0.1"]) (AddrV4 (be_val [10; 0; 0; 1])) _ _ _ _ ex_start).
  - apply initial_inv; [exact (λ a H, H)|exact mock_inj].
  - destruct ex_ips_canonical as [_ Hc]. unfold ex_ips in Hc. by apply Forall_cons in Hc as [Hc _].
  - intros (p & l & Hl & _). change ((∅ : gmap NamespacedName (list Addr)) !! p = Some l) in Hl. by rewrite lookup_empty in Hl.
  - vm_compute. reflexivity.
  - exact ex_parse_one.
  - reflexivity.
  - reflexivity.
Defined.
