(* ===== verification/WatcherServe.v ===== *)
(** * The pod watcher keeps its clients served

    Against the interfaces of [Tunnel]: every address the watcher tracks is a
    client of the NAT gateway, in every state it reaches. *)
From Stdlib Require Import Ascii String.
From S2P Require Import Prelude GoStrings NetAddr NetParse Netlink SimKernel Tunnel Mocks PodWatcher.

Section serving.
Context {W : Type} {T : Tunnel W} {TL : TunnelLaws W} {G : Gateway W} {GL : GatewayLaws W} {SL : ServingLaws W}.
Context (used : Addr → Prop).
Context (used_canonical : ∀ a, used a → canonical a).
Context (used_inj : ∀ a b, used a → used b → same_peer a b → a = b).

Implicit Types s : WatcherState W.

Abbreviation clients_kept s s' := (∀ b, has_client (world s) b → has_client (world s') b).

Lemma add_pod_ip_serves existing ip s :
  used ip → net_ok (world s) →
  let s' := (add_pod_ip existing ip s).2 in
  net_ok (world s') ∧ clients_kept s s' ∧
  ((add_pod_ip existing ip s).1 = Ok tt → ip ∈ existing ∨ has_client (world s') ip ∨ refused ip).
Proof.
  intros Hu%used_canonical Hn. unfold add_pod_ip. case_decide as He; [by split_and!; auto|].
  unfold mbind, M_bind, try, with_world.
  pose proof (AddPeer_net ip (world s) Hu Hn) as Hn1.
  pose proof (λ b, AddPeer_client ip (world s) b Hu Hn) as Hc1.
  destruct (tun_AddPeer ip (world s)) as [[link|err] w1] eqn:HA; cbn [fst snd] in *.
  - unfold wrap. cbn [world].
    pose proof (AddClient_net ip link (world s) w1 Hu Hn HA) as Hn2.
    pose proof (λ b, AddClient_mono ip link w1 b Hu) as Hc2.
    destruct (nat_AddClient ip link w1) as [[[]|e] w2] eqn:HC; cbn [fst snd world] in *;
      (split_and!; [done|by auto|]); [|done]. intros _. right; left. by eapply AddClient_client.
  - destruct (errors_Is err ErrIPFamilyMismatch) eqn:Hm; cbn; (split_and!; [done|by auto|]); [|done].
    intros _. right; right. by exists (world s), err, w1.
Qed.

Lemma add_loop_serves existing ips s r s' :
  Forall used ips → net_ok (world s) → forM_ ips (add_pod_ip existing) s = (r, s') →
  net_ok (world s') ∧ clients_kept s s' ∧
  (r = Ok tt → ∀ ip, ip ∈ ips → ip ∈ existing ∨ has_client (world s') ip ∨ refused ip).
Proof.
  intros Hu. revert s. induction Hu as [|ip ips Hip Hu IH]; intros s Hn Hrun; simpl in Hrun.
  - injection Hrun as <- <-. split_and!; [done..|]. intros _ ip Hin. by apply elem_of_nil in Hin.
  - destruct (add_pod_ip_serves existing ip s Hip Hn) as (Hn1 & Hc1 & Hok). unfold mbind, M_bind in Hrun.
    destruct (add_pod_ip existing ip s) as [[[]|e] s1]; cbn [fst snd] in *.
    + destruct (IH _ Hn1 Hrun) as (Hn2 & Hc2 & Hok2). split_and!; [done|by auto|].
      intros Hr x [->|Hx]%elem_of_cons; [|by auto]. destruct (Hok eq_refl) as [?|[?|?]]; auto.
    + injection Hrun as <- <-. done.
Qed.

Lemma handlePodRunning_serves pod s r s' :
  stable_status used s pod → net_ok (world s) → handlePodRunning pod s = (r, s') →
  net_ok (world s') ∧ clients_kept s s' ∧
  (r = Ok tt → ∃ ips, podToPodIPs s' = <[pod_key pod := ips]> (podToPodIPs s) ∧
    default [] (podToPodIPs s !! pod_key pod) ⊆ ips ∧
    ∀ ip, ip ∈ ips → ip ∈ default [] (podToPodIPs s !! pod_key pod) ∨ has_client (world s') ip ∨ refused ip).
Proof.
  intros Hst Hn Hrun. unfold handlePodRunning, get_ips in Hrun. fold (pod_key pod) in Hrun.
  unfold mbind at 1, M_bind at 1, ask in Hrun. unfold stable_status in Hst.
  set (existing := default [] (podToPodIPs s !! pod_key pod)) in *.
  unfold mbind at 1, M_bind at 1, lift in Hrun.
  destruct (mapR ParseAddr (PodIPs pod)) as [ips|e]; [|by injection Hrun as <- <-].
  destruct (Hst ips eq_refl) as (_ & Hu & Hsub). unfold mbind at 1, M_bind at 1 in Hrun.
  destruct (forM_ ips (add_pod_ip existing) s) as [ra s1] eqn:Ha.
  pose proof (add_loop_maps existing ips s) as [Hm1 _]. rewrite Ha in Hm1. simpl in Hm1.
  destruct (add_loop_serves existing ips s ra s1 Hu Hn Ha) as (Hn1 & Hc1 & Hok).
  destruct ra as [[]|e]; [|by injection Hrun as <- <-].
  rewrite (run_bind_ok _ _ _ _ _ (drop_loop_none existing ips s1 Hsub)) in Hrun.
  unfold mbind, M_bind, set_ips in Hrun.
  apply index_add_loop in Hrun as (-> & Hp & Hw & _). cbn [podToPodIPs world] in Hp, Hw. rewrite Hw.
  split_and!; [done..|]. intros _. exists ips. rewrite Hp, Hm1. split_and!; [done..|]. by apply Hok.
Qed.

Lemma release_serves p a s s' :
  used a → p ∈ pods_of s a → net_ok (world s) → release_ip p a s = (Ok tt, s') →
  net_ok (world s') ∧
  ∀ b, used b → has_client (world s) b → ¬ (b = a ∧ pods_of s a = {[p]}) → has_client (world s') b.
Proof.
  intros Hu Hp Hn. unfold release_ip. intros (ex & s0 & Hex & Hrun)%bind_ok.
  apply ask_ok in Hex as [Hex ->]. rewrite existsOther_ok in Hex by done. injection Hex as <-.
  apply bind_ok in Hrun as ([] & s1 & Hd & [= <-]).
  destruct (bool_decide (pods_of s a ≠ {[p]})) eqn:Hb; cbn [negb] in Hd.
  - injection Hd as <-. by split; [|auto].
  - apply bool_decide_eq_false in Hb. unfold with_world in Hd.
    pose proof (DelPeer_net a (world s) (used_canonical a Hu) Hn) as Hn1.
    pose proof (λ b Hb, DelPeer_client a (world s) b (used_canonical a Hu) Hb Hn) as Hc.
    destruct (tun_DelPeer a (world s)) as [rd w1] eqn:HD. injection Hd as _ <-. split; [done|].
    intros b Hub Hcb Hne. apply Hc; [by apply used_canonical| |done].
    intros Hs. apply Hne. split; [symmetry; by apply used_inj|]. by apply dec_stable.
Qed.

Lemma release_loop_serves p ips s s' :
  NoDup ips → Forall used ips → index_nonempty s → (∀ a, a ∈ ips → p ∈ pods_of s a) → net_ok (world s) →
  forM_ ips (release_ip p) s = (Ok tt, s') →
  net_ok (world s') ∧
  ∀ b, used b → has_client (world s) b → ¬ (b ∈ ips ∧ pods_of s b = {[p]}) → has_client (world s') b.
Proof.
  intros Hnd. revert s. induction Hnd as [|a ips Hni Hnd IH]; intros s Hu Hne Hin Hn Hrun.
  - injection Hrun as <-. by split; [|auto].
  - apply Forall_cons in Hu as [Hua Hu]. simpl in Hrun. apply bind_ok in Hrun as ([] & s1 & H1 & Hrun).
    assert (p ∈ pods_of s a) as Hpa by (apply Hin; set_solver).
    destruct (release_serves p a s s1 Hua Hpa Hn H1) as [Hn1 Hc1].
    destruct (release_run used used_inj p a s s1 Hua Hne Hpa H1) as (_ & Hne1 & Hp1 & _).
    destruct (IH s1 Hu Hne1) as [Hn2 Hc2]; [|done|done|].
    { intros b Hb. apply Hp1. split; [apply Hin; set_solver|]. intros [-> _]. done. }
    split; [done|]. intros b Hb Hcb Hno. apply Hc2; [done| |].
    + apply Hc1; [done..|]. intros [-> Hs]. apply Hno. split; [by left|done].
    + intros [Hbi Hs]. apply Hno. split; [by right|]. rewrite <- Hs. apply set_eq. intros q. rewrite Hp1.
      split; [|tauto]. intros Hq. split; [done|]. intros [-> _]. done.
Qed.

(** Every tracked address is a client, unless the tunnels refuse its family. *)
Definition served s : Prop :=
  net_ok (world s) ∧ ∀ a, tracked s a → has_client (world s) a ∨ refused a.

Lemma handlePodRunning_served pod s r s' :
  served s → watcher_inv used s → stable_status used s pod → handlePodRunning pod s = (r, s') → served s'.
Proof.
  intros [Hn Hs] Hinv Hst Hrun. destruct (handlePodRunning_serves pod s r s' Hst Hn Hrun) as (Hn' & Hc & Hok).
  split; [done|]. destruct r as [[]|e].
  - destruct (Hok eq_refl) as (ips & Hp & Hsub & Hips). intros a [Ha|Ha]%(running_tracked s s' _ ips Hp Hsub).
    + destruct (Hs a Ha); auto.
    + destruct (Hips a Ha) as [He|?]; [|done]. assert (tracked s a) as Ht.
      { destruct (podToPodIPs s !! pod_key pod) as [l|] eqn:Hl; simpl in He; [|set_solver]. by exists (pod_key pod), l. }
      destruct (Hs a Ht); auto.
  - destruct (handlePodRunning_run used used_canonical used_inj pod s (Err e) s' Hst Hrun)
      as [(e' & _ & [Hm _] & _)|([=] & _)].
    intros a Ha. destruct (Hs a); [|by auto..]. unfold tracked in *. by rewrite <- Hm.
Qed.

Lemma handlePodDeletion_served p s s' :
  served s → watcher_inv used s → handlePodDeletion p s = (Ok tt, s') → served s'.
Proof.
  intros [Hn Hs] Hinv Hrun. pose proof Hinv as [Hidx Hne Hips _].
  destruct (handlePodDeletion_inv used used_canonical used_inj p s s' Hinv Hrun) as ([Hidx' _ _ _] & Hdel & _).
  unfold handlePodDeletion in Hrun.
  apply bind_ok in Hrun as (ips & s0 & [Hg ->]%ask_ok & Hrun). injection Hg as Hg.
  apply bind_ok in Hrun as ([] & s1 & Hloop & [= <-]).
  assert (NoDup ips ∧ Forall used ips ∧ ∀ a, a ∈ ips → p ∈ pods_of s a) as (Hnd & Hu & Hin).
  { destruct (podToPodIPs s !! p) as [l|] eqn:Hl; simpl in Hg; subst ips.
    - destruct (Hips p l Hl). split_and!; [done..|]. intros a Ha. apply Hidx. eauto.
    - split_and!; [constructor|done|]. intros a Ha. by apply elem_of_nil in Ha. }
  destruct (release_loop_serves p ips s s1 Hnd Hu Hne Hin Hn Hloop) as [Hn1 Hc].
  split; [done|]. intros a (q & l & Hl & Ha). rewrite Hdel in Hl. apply lookup_delete_Some in Hl as [Hqp Hl].
  destruct (Hs a ltac:(by exists q, l)) as [Hca|?]; [left|by right]. apply Hc; [|done|].
  - destruct (Hips _ _ Hl) as [_ Hf]. by eapply Forall_forall in Hf.
  - intros [_ Hpods]. assert (q ∈ pods_of s a) as Hq by (apply Hidx; eauto). rewrite Hpods in Hq. set_solver.
Qed.

Section runs.
Context (range : gmap string string → list (string * string)) (r : PodWatcher).

Lemma step_served b s s' :
  served s → watcher_inv used s → watcher_step used range r b s s' → served s'.
Proof.
  intros Hs Hinv Hstep.
  destruct Hstep as [Get req s s' Had Hrun|Get req s e s' Had Hdel Hrun]; unfold Reconcile in Hrun.
  - destruct Get as [pod|e].
    + destruct (shouldHandle range r pod); cbn [negb] in Hrun; [|by injection Hrun as <-].
      destruct (isTerminated pod || _); apply wrap_ok in Hrun.
      * by eapply handlePodDeletion_served.
      * by eapply handlePodRunning_served; [..|exact (proj2 Had)|].
    + destruct (IsNotFound e); [|done]. apply wrap_ok in Hrun. by eapply handlePodDeletion_served.
  - destruct Get as [pod|e0]; cbn [deleting] in Hdel.
    + destruct (shouldHandle range r pod); cbn [negb] in Hrun; [|done].
      rewrite Hdel in Hrun. apply wrap_err in Hrun as (e1 & Hrun & _).
      by eapply handlePodRunning_served; [..|exact (proj2 Had)|].
    + rewrite Hdel in Hrun. by injection Hrun as _ <-.
Qed.

Lemma reach_served s s' :
  served s → watcher_inv used s → rtc (any_step used range r) s s' → served s'.
Proof.
  intros Hs Hi Hr. induction Hr as [|s1 s2 s3 [b Hb] _ IH]; [done|]. apply IH.
  - by eapply step_served.
  - by eapply (watcher_step_inv used used_canonical used_inj range r).
Qed.

Lemma initial_served w : net_ok w → served (mkWatcherState ∅ ∅ w).
Proof. split; [done|]. intros a (p & l & Hl & _). simpl in Hl. by rewrite lookup_empty in Hl. Qed.
End runs.
End serving.
