(* ===== verification/CniPlugin.v ===== *)
(** * cmd/pona and pkg/cni: the CNI plugin, and the errors of its RPC

    The plugin forwards an ADD to ponad over gRPC and turns what comes back
    into a CNI result or a CNI error.  JSON, the CNI library and gRPC are
    parameters; [newError] and [newInternalError] of internal/ponad/server.go,
    which make the errors the plugin takes apart, are here too. *)
From Stdlib Require Import Ascii String.
From S2P Require Import Prelude GoStrings NetAddr.

Local Open Scope Z_scope.

(** ** Error texts *)

(** [codes.Code] with its [String]. *)
Definition codes_Unknown : Z := 2.
Definition codes_NotFound : Z := 5.
Definition codes_FailedPrecondition : Z := 9.
Definition codes_Internal : Z := 13.

Definition code_names : list string :=
  ["OK"; "Canceled"; "Unknown"; "InvalidArgument"; "DeadlineExceeded"; "NotFound"; "AlreadyExists";
   "PermissionDenied"; "ResourceExhausted"; "FailedPrecondition"; "Aborted"; "OutOfRange"; "Unimplemented";
   "Internal"; "Unavailable"; "DataLoss"; "Unauthenticated"].

Definition code_String (c : Z) : string :=
  match code_names !! Z.to_nat c with
  | Some s => if decide (0 ≤ c) then s else "Code(" +:+ Itoa c +:+ ")"
  | None => "Code(" +:+ Itoa c +:+ ")"
  end.

(** [err.Error()]. *)
Fixpoint Error (e : goerror) : string :=
  match e with
  | ErrVar _ m | ErrText m | ErrLinkNotFound m | ErrAPINotFound m | ErrLib _ m => m
  | ErrWrap pre e' post => pre +:+ Error e' +:+ post
  | ErrStatus c m _ => "rpc error: code = " +:+ code_String c +:+ " desc = " +:+ m
  | ErrCNI _ m d => if decide (d = "") then m else m +:+ "; " +:+ d
  end.

(** ** Error codes *)

(** [cnirpc.ErrorCode], an int32. *)
Definition ErrorCode_UNKNOWN_CONTAINER : Z := 3.
Definition ErrorCode_INTERNAL : Z := 999.

(** The codes of the CNI [types] package. *)
Definition types_ErrDecodingFailure : Z := 6.
Definition types_ErrInvalidNetworkConfig : Z := 7.
Definition types_ErrTryAgainLater : Z := 11.
Definition types_ErrInternal : Z := 999.

(** Go's conversion of an int32 to [uint] on a 64-bit machine. *)
Definition to_uint (x : Z) : Z := x mod 2 ^ 64.

(** ** ponad's errors *)

(** The panic of [WithDetails] needs the code OK, which no caller passes. *)
Definition newError (c cniCode : Z) (msg details : string) : goerror :=
  ErrStatus c msg [DetailCNIError cniCode (msg +:+ details) details].

Definition newInternalError (err : goerror) (msg : string) : goerror :=
  newError codes_Internal ErrorCode_INTERNAL (msg +:+ Error err) (Error err).

(** ** pkg/cni *)

(** What [skel.CmdArgs] and [cnirpc.CNIArgs] carry. *)
Record CmdArgs := mkCmdArgs {
  ContainerID : string; Netns : string; IfName : string; Args : string; Path : string; StdinData : list Z }.

Record CNIArgs := mkCNIArgs {
  rpc_ContainerId : string; rpc_Netns : string; rpc_Ifname : string; rpc_Args : gmap string string;
  rpc_Path : string; rpc_StdinData : list Z }.

(** [PluginConf], and the previous result the CNI library keeps in it. *)
Record PluginConf (R : Type) := mkPluginConf { CNIVersion : string; PrevResult : option R; Socket : string }.
Arguments mkPluginConf {R}.
Arguments CNIVersion {R}.
Arguments PrevResult {R}.
Arguments Socket {R}.

(** The addresses of a [cni100.Result]; the rest of it is only passed on. *)
Record Result := mkResult { IPs : list IPNet; res_other : string }.

(** The library calls: encoding/json, the CNI library, gRPC. *)
Record CniLib := mkCniLib {
  RawResult : Type;
  Unmarshal_conf : list Z → result (PluginConf RawResult);
  ParsePrevResult : PluginConf RawResult → result (PluginConf RawResult);
  GetResult : option RawResult → result Result;
  NewResult : list Z → result Result;
  PrintResult : Result → string → result unit;
  Marshal : Result → result (list Z);
  (** [types.LoadArgs] into [PluginEnvArgs]: its three fields. *)
  LoadArgs : string → result (string * string * string);
  NewClient : string → result unit;
  status_Convert : goerror → Z * string * list StatusDetail }.

Section plugin.
Context (lib : CniLib).

Definition ParseConfig (stdin : list Z) : result (PluginConf (RawResult lib)) :=
  match Unmarshal_conf lib stdin with
  | Err err => Err (Errorf "failed to parse network configuration: " err)
  | Ok conf =>
      match ParsePrevResult lib conf with
      | Err err => Err (Errorf "failed to parse prev result: " err)
      | Ok conf => Ok conf
      end
  end.

Definition GetPrevResult (cniargs : CNIArgs) : result Result :=
  match ParseConfig (rpc_StdinData cniargs) with
  | Err _ => Err (ErrText "failed to parse config")
  | Ok conf =>
      match GetResult lib (PrevResult conf) with
      | Err _ => Err (ErrText "failed to get prevresult")
      | Ok r => Ok r
      end
  end.

(** ** cmd/pona *)

Definition PodNameKey : string := "K8S_POD_NAME".
Definition PodNamespaceKey : string := "K8S_POD_NAMESPACE".
Definition PodContainerKey : string := "K8S_POD_INFRA_CONTAINER_ID".

(** [PluginEnvArgs.Map]; the arguments are namespace, name and container. *)
Definition PluginEnvArgs_Map (e : string * string * string) : gmap string string :=
  let '(ns, name, container) := e in
  <[PodNamespaceKey := ns]> (<[PodNameKey := name]> {[PodContainerKey := container]}).

Definition makeCNIArgs (args : CmdArgs) : result CNIArgs :=
  match LoadArgs lib (Args args) with
  | Err err => Err (Errorf "failed to load args: " err)
  | Ok a => Ok (mkCNIArgs (ContainerID args) (Netns args) (IfName args) (PluginEnvArgs_Map a)
                  (Path args) (StdinData args))
  end.

Definition connect (sockPath : string) : result unit :=
  match NewClient lib sockPath with
  | Err err => Err (Errorf ("failed to connect to " +:+ sockPath +:+ ": ") err)
  | Ok conn => Ok conn
  end.

(** A call that returns, or panics on a nil pointer. *)
Inductive outcome (A : Type) :=
| Returns (a : A)
| Panics.
Arguments Returns {A} a.
Arguments Panics {A}.

Definition convertError (err : goerror) : outcome goerror :=
  let '(_, message, details) := status_Convert lib err in
  match details with
  | [detail] =>
      match detail with
      | DetailCNIError code msg det => Returns (ErrCNI (to_uint code) msg det)
      | DetailOther _ => Panics (* the error made here is dropped, and cniErr is nil below *)
      end
  | _ => Returns (ErrCNI types_ErrInternal message (Error err))
  end.

(** [client_Add] is the RPC, over a state of its own. *)
Definition cmdAdd {S} (client_Add : CNIArgs → M S (list Z)) (args : CmdArgs) (s : S) : outcome (result unit) * S :=
  match ParseConfig (StdinData args) with
  | Err err => (Returns (Err (ErrCNI types_ErrDecodingFailure "failed to parse config from stdin data" (Error err))), s)
  | Ok conf =>
      if bool_decide (is_Some (PrevResult conf)) then
        match makeCNIArgs args with
        | Err err =>
            (Returns (Err (ErrCNI types_ErrInvalidNetworkConfig "failed to transform args to RPC arg" (Error err))), s)
        | Ok cniArgs =>
            match connect (Socket conf) with
            | Err err => (Returns (Err (ErrCNI types_ErrTryAgainLater "failed to connect to socket" (Error err))), s)
            | Ok _ =>
                match client_Add cniArgs s with
                | (Err err, s') =>
                    (match convertError err with Returns e => Returns (Err e) | Panics => Panics end, s')
                | (Ok resp, s') =>
                    match NewResult lib resp with
                    | Err err =>
                        (Returns (Err (ErrCNI types_ErrDecodingFailure "failed to unmarshal result" (Error err))), s')
                    | Ok result => (Returns (PrintResult lib result (CNIVersion conf)), s')
                    end
                end
            end
        end
      else (Returns (Err (ErrCNI types_ErrInternal "ponad must be called as chained plugin" "")), s)
  end.

Definition cmdDel (args : CmdArgs) : result unit := Ok tt.
Definition cmdCheck (args : CmdArgs) : result unit := Ok tt.
End plugin.
Arguments Returns {A} a.
Arguments Panics {A}.

(** ** Properties *)

Section errors.
Context (lib : CniLib).

(** gRPC hands a status to the client as it was made. *)
Context (status_Convert_status : ∀ c m d, c ≠ 0 → status_Convert lib (ErrStatus c m d) = (c, m, d)).

(** The error ponad reports is the error the container runtime sees: the
    CNI code, message and details put into the status by [newError] are those
    of the CNI error the plugin returns, and for [newInternalError] the code
    is 999 and the text of the cause is in the message twice. *)
Theorem cni_error_roundtrip (c code : Z) (msg details : string) (err : goerror) :
  c ≠ 0 → 0 ≤ code < 2 ^ 31 →
  convertError lib (newError c code msg details) = Returns (ErrCNI code (msg +:+ details) details) ∧
  convertError lib (newInternalError err msg) =
    Returns (ErrCNI 999 ((msg +:+ Error err) +:+ Error err) (Error err)).
Proof.
  intros Hc Hcode. unfold convertError, newInternalError, newError.
  rewrite !status_Convert_status by done. unfold to_uint. rewrite Z.mod_small by lia. done.
Qed.

(** The plugin crashes exactly on a status with one detail that is not a
    CNI error; every other error becomes a CNI error, with the code ponad gave
    it or as an internal error. *)
Theorem cni_convertError_total (c : Z) (m : string) (d : list StatusDetail) :
  c ≠ 0 →
  (convertError lib (ErrStatus c m d) = Panics ↔ ∃ t, d = [DetailOther t]) ∧
  ((∀ t, d ≠ [DetailOther t]) → ∃ code msg det,
     convertError lib (ErrStatus c m d) = Returns (ErrCNI code msg det) ∧
     (code = 999 ∨ ∃ x, d = [DetailCNIError x msg det] ∧ code = to_uint x)).
Proof.
  intros Hc. unfold convertError. rewrite status_Convert_status by done.
  destruct d as [|x [|y l]].
  - split; [split; [done|by intros [? ?]]|]. intros _. eexists _, _, _. split; [done|by left].
  - destruct x as [code msg det|t].
    + split; [split; [done|by intros [? ?]]|]. intros _. eexists _, _, _. split; [done|]. right. eauto.
    + split; [split; [by eauto|done]|]. intros Hd. by destruct (Hd t).
  - split; [split; [by destruct x|by intros [? ?]]|]. intros _. eexists _, _, _. split; [by destruct x|by left].
Qed.
End errors.

(** ** Witnesses *)

Definition ex_lib : CniLib := mkCniLib unit
  (λ _, Ok (mkPluginConf "1.0.0" (Some tt) "/run/ponad.sock")) Ok (λ _, Ok (mkResult [] "")) (λ _, Ok (mkResult [] ""))
  (λ _ _, Ok tt) (λ _, Ok []) (λ _, Ok ("default", "pod", "abc")) (λ _, Ok tt)
  (λ e, match e with ErrStatus c m d => (c, m, d) | _ => (2, Error e, []) end).

Lemma cni_error_roundtrip_witness :
  convertError ex_lib (newError codes_NotFound ErrorCode_UNKNOWN_CONTAINER "pod not found" "x") =
    Returns (ErrCNI 3 "pod not foundx" "x").
Proof.
  apply (cni_error_roundtrip ex_lib (λ c m d _, eq_refl) codes_NotFound ErrorCode_UNKNOWN_CONTAINER
    "pod not found" "x" (ErrText "")); [discriminate|vm_compute; split; [discriminate|reflexivity]].
Defined.

Lemma cni_convertError_total_witness :
  convertError ex_lib (ErrStatus 13 "boom" [DetailOther "type.googleapis.com/google.rpc.DebugInfo"]) = Panics.
Proof.
  apply (proj1 (cni_convertError_total ex_lib (λ c m d _, eq_refl) 13 "boom"
    [DetailOther "type.googleapis.com/google.rpc.DebugInfo"] ltac:(discriminate))).
  by eexists.
Defined.
