(* ===== verification/EgressAPI.v ===== *)
(** * api/v1beta1/egress_types.go, and the Kubernetes types it is made of

    The Egress resource with every field of its specification and status.  Of
    the Kubernetes types only the fields pona reads or writes are kept apart;
    the [other] field of a type stands for all the rest, which pona copies.
    The deployment strategy and the session affinity configuration are opaque
    values for the same reason. *)
From Stdlib Require Import Ascii String.
From S2P Require Import Prelude GoStrings PodWatcher.

Local Open Scope Z_scope.

(** The part of [metav1.ObjectMeta] the controllers use. *)
Record ObjectMeta := mkObjectMeta {
  m_Name : string; m_Namespace : string; m_Labels : gmap string string;
  m_DeletionTimestamp : option Z; m_CreationTimestamp : option Z; m_OwnerReferences : list string }.

Inductive IntOrString := IntVal (n : Z) | StrVal (s : string).

(** [corev1.EnvVar]: a value, or a field of the pod. *)
Inductive EnvSource := Value (s : string) | FieldRef (fieldPath : string) | OtherSource (s : string).
Record EnvVar := mkEnvVar { env_Name : string; env_Source : EnvSource }.

Inductive VolumeSource := EmptyDir | HostPath (path : string) | OtherVolume (s : string).
Record Volume := mkVolume { vol_Name : string; vol_Source : VolumeSource }.
Record VolumeMount := mkVolumeMount { vm_MountPath : string; vm_Name : string; vm_ReadOnly : bool }.

Record SecurityContext := mkSecurityContext {
  Privileged : option bool; ReadOnlyRootFilesystem : option bool; CapAdd : list string; sc_other : string }.

Record ContainerPort := mkContainerPort { cp_Name : string; cp_Port : Z; cp_Protocol : string }.
Record Probe := mkProbe { pr_Path : string; pr_Port : IntOrString; pr_Scheme : string }.

Record Container := mkContainer {
  c_Name : string; c_Image : string; c_Env : list EnvVar; c_VolumeMounts : list VolumeMount;
  c_SecurityContext : option SecurityContext; c_Requests : option (gmap string string);
  c_Ports : list ContainerPort; c_LivenessProbe : option Probe; c_ReadinessProbe : option Probe;
  c_Args : list string; c_other : string }.

(** The Go zero value [corev1.Container{}]. *)
Definition Container_zero : Container := mkContainer "" "" [] [] None None [] None None [] "".

Record PodSpec := mkPodSpec {
  ServiceAccountName : string; Volumes : list Volume; Containers : list Container; ps_other : string }.

Definition PodSpec_zero : PodSpec := mkPodSpec "" [] [] "".

(** [corev1.PodTemplateSpec] of a deployment; [Annotations] may be nil. *)
Record PodTemplateSpec := mkPodTemplateSpec {
  t_Labels : gmap string string; t_Annotations : option (gmap string string); t_Spec : PodSpec }.

(** The pod template of an Egress: [Metadata] and a pod specification. *)
Record EgressPodTemplate := mkEgressPodTemplate {
  et_Annotations : gmap string string; et_Labels : gmap string string; et_Spec : PodSpec }.

Record EgressPDBSpec := mkEgressPDBSpec {
  MinAvailable : option IntOrString; MaxUnavailable : option IntOrString }.

Record EgressSpec := mkEgressSpec {
  Destinations : list string; Replicas : Z; Strategy : option string; Template : option EgressPodTemplate;
  SessionAffinity : string; SessionAffinityConfig : option string; PodDisruptionBudget : option EgressPDBSpec }.

Record EgressStatus := mkEgressStatus { st_Replicas : Z; st_Selector : string }.

Record Egress := mkEgress { eg_meta : ObjectMeta; eg_Spec : EgressSpec; eg_Status : EgressStatus }.

Definition eg_key (eg : Egress) : NamespacedName :=
  mkNamespacedName (m_Namespace (eg_meta eg)) (m_Name (eg_meta eg)).

(** ** The objects the controller owns *)

Record Deployment := mkDeployment {
  dep_meta : ObjectMeta; dep_Selector : option (gmap string string); dep_Replicas : option Z;
  dep_Strategy : string; dep_Template : PodTemplateSpec; dep_AvailableReplicas : Z }.

Record ServicePort := mkServicePort { sp_Port : Z; sp_TargetPort : IntOrString; sp_Protocol : string }.

Record Service := mkService {
  svc_meta : ObjectMeta; svc_Type : string; svc_Selector : gmap string string; svc_Ports : list ServicePort;
  svc_SessionAffinity : string; svc_SessionAffinityConfig : option string; ClusterIP : string }.

Record PDB := mkPDB {
  pdb_meta : ObjectMeta; pdb_MinAvailable : option IntOrString; pdb_MaxUnavailable : option IntOrString;
  pdb_Selector : option (gmap string string) }.

Record Subject := mkSubject { sub_Kind : string; sub_Name : string; sub_Namespace : string }.
Record RoleRef := mkRoleRef { rr_APIGroup : string; rr_Kind : string; rr_Name : string }.
Record CRB := mkCRB { crb_Name : string; crb_RoleRef : RoleRef; crb_Subjects : list Subject }.
Record PolicyRule := mkPolicyRule { APIGroups : list string; Resources : list string; Verbs : list string }.
Record ClusterRole := mkClusterRole { cr_Name : string; cr_Rules : list PolicyRule }.
Record ServiceAccount := mkServiceAccount { sa_Name : string; sa_Namespace : string }.

(** Equality of stored objects, as [CreateOrUpdate] decides it. *)
#[export] Instance ObjectMeta_eq_dec : EqDecision ObjectMeta.
Proof. solve_decision. Defined.
#[export] Instance IntOrString_eq_dec : EqDecision IntOrString.
Proof. solve_decision. Defined.
#[export] Instance EnvSource_eq_dec : EqDecision EnvSource.
Proof. solve_decision. Defined.
#[export] Instance EnvVar_eq_dec : EqDecision EnvVar.
Proof. solve_decision. Defined.
#[export] Instance VolumeSource_eq_dec : EqDecision VolumeSource.
Proof. solve_decision. Defined.
#[export] Instance Volume_eq_dec : EqDecision Volume.
Proof. solve_decision. Defined.
#[export] Instance VolumeMount_eq_dec : EqDecision VolumeMount.
Proof. solve_decision. Defined.
#[export] Instance SecurityContext_eq_dec : EqDecision SecurityContext.
Proof. solve_decision. Defined.
#[export] Instance ContainerPort_eq_dec : EqDecision ContainerPort.
Proof. solve_decision. Defined.
#[export] Instance Probe_eq_dec : EqDecision Probe.
Proof. solve_decision. Defined.
#[export] Instance Container_eq_dec : EqDecision Container.
Proof. solve_decision. Defined.
#[export] Instance PodSpec_eq_dec : EqDecision PodSpec.
Proof. solve_decision. Defined.
#[export] Instance PodTemplateSpec_eq_dec : EqDecision PodTemplateSpec.
Proof. solve_decision. Defined.
#[export] Instance Deployment_eq_dec : EqDecision Deployment.
Proof. solve_decision. Defined.
#[export] Instance ServicePort_eq_dec : EqDecision ServicePort.
Proof. solve_decision. Defined.
#[export] Instance Service_eq_dec : EqDecision Service.
Proof. solve_decision. Defined.
#[export] Instance PDB_eq_dec : EqDecision PDB.
Proof. solve_decision. Defined.
#[export] Instance Subject_eq_dec : EqDecision Subject.
Proof. solve_decision. Defined.
#[export] Instance RoleRef_eq_dec : EqDecision RoleRef.
Proof. solve_decision. Defined.
#[export] Instance CRB_eq_dec : EqDecision CRB.
Proof. solve_decision. Defined.
