(* ===== verification/GoHeap.v ===== *)
(** * Go's memory, as far as deep copies need it

    A heap of typed cells: what pointers point to, the arrays behind slices
    and the tables behind maps.  [Stored] says of a type what value an object
    has in a heap and which cells it is made of; [deep] is the contract of a
    copying function: the copy has the value of the original and is made of
    cells that did not exist before. *)
From Stdlib Require Import Ascii String.
From S2P Require Import Prelude GoStrings.

Abbreviation loc := positive.
Abbreviation heap C := (gmap loc C).

(** Types that cells can hold; [zero] is Go's zero value. *)
Class Cell (C T : Type) := {
  to_cell : T → C;
  of_cell : C → option T;
  zero : T;
  of_to_cell t : of_cell (to_cell t) = Some t;
}.

Section operations.
Context {C : Type}.

Definition peek {T} `{!Cell C T} (h : heap C) (l : loc) : option T := h !! l ≫= of_cell.

Definition load {T} `{!Cell C T} (l : loc) : M (heap C) T := ask (λ h,
  match peek h l with
  | Some t => Ok t
  | None => Err (ErrText "invalid memory address or nil pointer dereference")
  end).

Definition new {T} `{!Cell C T} (t : T) : M (heap C) loc := λ h,
  let l := fresh (dom h) in (Ok l, <[l := to_cell t]> h).

Definition store {T} `{!Cell C T} (l : loc) (t : T) : M (heap C) unit := λ h, (Ok tt, <[l := to_cell t]> h).

(** A pointer to [T]; a slice of an array of [T]; a map.  [None] is nil. *)
Record ptr (T : Type) := mkPtr { ptr_addr : option loc }.
Record window := mkWindow { arr : loc; off : nat; len : nat }.
Record slice (T : Type) := mkSlice { slice_of : option window }.
Record map_ref := mkMap { map_addr : option loc }.
#[global] Arguments mkPtr {T} _.
#[global] Arguments ptr_addr {T} _.
#[global] Arguments mkSlice {T} _.
#[global] Arguments slice_of {T} _.

(** A pointer unless it is nil: a [new] object, into which the old one is copied. *)
Definition copy_ptr {T} `{!Cell C T} (copy : T → M (heap C) T) (p : ptr T) : M (heap C) (ptr T) :=
  match ptr_addr p with
  | None => mret (mkPtr None)
  | Some l =>
      l' ← new zero;
      t ← load l;
      t' ← copy t;
      store l' t';;
      mret (mkPtr (Some l'))
  end.

(** One round of the loop over a slice. *)
Definition copy_elem {T} `{!Cell C (list T)} (copy : T → M (heap C) T) (w : window) (l' : loc) (i : nat)
    : M (heap C) unit :=
  ts ← load (arr w);
  t ← lift (match ts !! (off w + i)%nat with Some t => Ok t | None => Err (ErrText "index out of range") end);
  t' ← copy t;
  out ← load l';
  store l' (<[i := t']> out).

(** A slice unless it is nil: [make] of the same length, and the loop that copies the elements. *)
Definition copy_slice {T} `{!Cell C T, !Cell C (list T)} (copy : T → M (heap C) T) (s : slice T)
    : M (heap C) (slice T) :=
  match slice_of s with
  | None => mret (mkSlice None)
  | Some w =>
      l' ← new (replicate (len w) zero);
      forM_ (seq 0 (len w)) (copy_elem copy w l');;
      mret (mkSlice (Some (mkWindow l' 0 (len w))))
  end.

(** The same for strings, with the built-in [copy]. *)
Definition copy_strings `{!Cell C (list string)} (s : slice string) : M (heap C) (slice string) :=
  match slice_of s with
  | None => mret (mkSlice None)
  | Some w =>
      l' ← new (replicate (len w) "");
      ts ← load (arr w);
      store l' (take (len w) (drop (off w) ts));;
      mret (mkSlice (Some (mkWindow l' 0 (len w))))
  end.

(** A map unless it is nil: [make] and the loop that copies the entries. *)
Definition copy_map (range : gmap string string → list (string * string)) `{!Cell C (gmap string string)} (m : map_ref)
    : M (heap C) map_ref :=
  match map_addr m with
  | None => mret (mkMap None)
  | Some l =>
      l' ← new (∅ : gmap string string);
      t ← load l;
      forM_ (range t) (λ kv, out ← load l'; store l' (<[kv.1 := kv.2]> out));;
      mret (mkMap (Some l'))
  end.
End operations.

(** ** What an object is worth, and what it is made of *)

Class Stored (C T V : Type) := {
  value : heap C → T → option V;
  reach : heap C → T → gset loc;
  (** The value depends on the cells the object is made of, and these exist. *)
  value_local h h' t v :
    value h t = Some v → (∀ l, l ∈ reach h t → h' !! l = h !! l) → value h' t = Some v ∧ reach h' t = reach h t;
  reach_dom h t v : value h t = Some v → reach h t ⊆ dom h;
}.

Section stored.
Context {C : Type}.

(** A type without references. *)
Program Definition flat {T} : Stored C T T := {| value _ t := Some t; reach _ _ := ∅ |}.
Next Obligation. done. Qed.
Next Obligation. intros. apply empty_subseteq. Qed.

Definition agree (X : gset loc) (h h' : heap C) : Prop := ∀ l, l ∈ X → h' !! l = h !! l.

Lemma peek_ext {T} `{!Cell C T} (h h' : heap C) l : h' !! l = h !! l → peek h' l = peek h l.
Proof. unfold peek. by intros ->. Qed.

Lemma peek_dom {T} `{!Cell C T} (h : heap C) l t : peek h l = Some t → l ∈ dom h.
Proof. unfold peek. intros H. apply elem_of_dom. destruct (h !! l); [done|]. done. Qed.

#[export, program] Instance ptr_stored {T V} `{!Cell C T, !Stored C T V} : Stored C (ptr T) (option V) := {|
  value h p := match ptr_addr p with
               | None => Some None
               | Some l => t ← peek h l; Some <$> value h t
               end;
  reach h p := match ptr_addr p with
               | None => ∅
               | Some l => {[l]} ∪ from_option (reach h) ∅ (peek h l)
               end;
|}.
Next Obligation.
  intros T V HC HS h h' [[l|]] v; simpl; [|done]. intros Hv Ha. rewrite (peek_ext h h' l) by (apply Ha; set_solver).
  destruct (peek h l) as [t|]; simpl in *; [|done].
  destruct (value h t) as [x|] eqn:Hx; simpl in *; [|done]. simplify_eq.
  destruct (value_local h h' t x Hx) as [-> ->]; [|done]. intros m Hm. apply Ha. set_solver.
Qed.
Next Obligation.
  intros T V HC HS h [[l|]] v; simpl; [|intros; apply empty_subseteq].
  destruct (peek h l) as [t|] eqn:Hl; simpl; [|done]. destruct (value h t) as [x|] eqn:Hx; simpl; [|done]. intros _.
  apply peek_dom in Hl. apply reach_dom in Hx. set_solver.
Qed.

(** The elements a slice shows. *)
Definition elems {T} `{!Cell C (list T)} (h : heap C) (w : window) : option (list T) :=
  ts ← peek h (arr w);
  if decide (off w + len w ≤ length ts)%nat then Some (take (len w) (drop (off w) ts)) else None.

Definition reach_all {T V} `{!Stored C T V} (h : heap C) (ts : list T) : gset loc := ⋃ (reach h <$> ts).

Lemma reach_all_elem {T V} `{!Stored C T V} h (ts : list T) t : t ∈ ts → reach h t ⊆ reach_all h ts.
Proof. intros Ht l Hl. apply elem_of_union_list. exists (reach h t). split; [|done]. by apply list_elem_of_fmap_2. Qed.

Lemma reach_all_cons {T V} `{!Stored C T V} h (t : T) ts : reach_all h (t :: ts) = reach h t ∪ reach_all h ts.
Proof. reflexivity. Qed.

Lemma values_local {T V} `{!Stored C T V} h h' (ts : list T) vs :
  mapM (value h) ts = Some vs → agree (reach_all h ts) h h' →
  mapM (value h') ts = Some vs ∧ reach_all h' ts = reach_all h ts.
Proof.
  revert vs. induction ts as [|t ts IH]; intros vs Hv Ha; simpl in *; [done|].
  destruct (value h t) as [v|] eqn:Ht; simpl in *; [|done].
  destruct (mapM (value h) ts) as [vs'|]; simpl in *; [|done]. simplify_eq.
  destruct (value_local h h' t v Ht) as [-> Hr]; [intros l Hl; apply Ha, elem_of_union; by left|].
  destruct (IH vs') as [-> Hr']; [done|intros l Hl; apply Ha, elem_of_union; by right|]. simpl. split; [done|].
  by rewrite !reach_all_cons, Hr, Hr'.
Qed.

Lemma reach_all_dom {T V} `{!Stored C T V} h (ts : list T) vs :
  mapM (value h) ts = Some vs → reach_all h ts ⊆ dom h.
Proof.
  revert vs. induction ts as [|t ts IH]; intros vs; simpl; [intros; apply empty_subseteq|].
  destruct (value h t) as [v|] eqn:Ht; simpl; [|done]. destruct (mapM (value h) ts) as [vs'|]; simpl; [|done].
  intros _. apply reach_dom in Ht. specialize (IH vs' eq_refl). rewrite reach_all_cons. by apply union_subseteq.
Qed.

#[export, program] Instance slice_stored {T V} `{!Cell C (list T), !Stored C T V} : Stored C (slice T) (option (list V)) := {|
  value h s := match slice_of s with
               | None => Some None
               | Some w => ts ← elems h w; Some <$> mapM (value h) ts
               end;
  reach h s := match slice_of s with
               | None => ∅
               | Some w => {[arr w]} ∪ from_option (reach_all h) ∅ (elems h w)
               end;
|}.
Next Obligation.
  intros T V HC HS h h' [[w|]] v; simpl; [|done]. intros Hv Ha.
  assert (elems h' w = elems h w) as -> by (unfold elems; by rewrite (peek_ext h h') by (apply Ha; set_solver)).
  destruct (elems h w) as [ts|]; simpl in *; [|done]. destruct (mapM (value h) ts) as [vs|] eqn:Hvs; simpl in *; [|done].
  destruct (values_local h h' ts vs Hvs) as [-> ->]; [|done]. intros l Hl. apply Ha. set_solver.
Qed.
Next Obligation.
  intros T V HC HS h [[w|]] v; simpl; [|intros; apply empty_subseteq].
  destruct (elems h w) as [ts|] eqn:He; simpl; [|done]. destruct (mapM (value h) ts) as [vs|] eqn:Hvs; simpl; [|done].
  intros _. apply reach_all_dom in Hvs. unfold elems in He. destruct (peek h (arr w)) as [all|] eqn:Hp; [|done].
  apply peek_dom in Hp. set_solver.
Qed.

#[export, program] Instance map_stored `{!Cell C (gmap string string)} : Stored C map_ref (option (gmap string string)) := {|
  value h m := match map_addr m with None => Some None | Some l => Some <$> peek h l end;
  reach h m := match map_addr m with None => ∅ | Some l => {[l]} end;
|}.
Next Obligation.
  intros HC h h' [[l|]] v; simpl; [|done]. intros Hv Ha. by rewrite (peek_ext h h') by (apply Ha; set_solver).
Qed.
Next Obligation.
  intros HC h [[l|]] v; simpl; [|intros; apply empty_subseteq].
  destruct (peek h l) as [m|] eqn:Hp; simpl; [|done]. apply peek_dom in Hp. set_solver.
Qed.

(** An object is the same in a bigger heap. *)
Lemma value_mono {T V} `{!Stored C T V} (h h' : heap C) t v :
  value h t = Some v → h ⊆ h' → value h' t = Some v ∧ reach h' t = reach h t.
Proof.
  intros Hv Hh. apply value_local; [done|]. intros l Hl. apply reach_dom in Hv.
  assert (l ∈ dom h) as [c Hc]%elem_of_dom by set_solver. rewrite Hc. by eapply lookup_weaken.
Qed.

(** A write to a cell an object is not made of. *)
Lemma value_write {T V} `{!Stored C T V} (h : heap C) t v l c :
  value h t = Some v → l ∉ reach h t → value (<[l := c]> h) t = Some v ∧ reach (<[l := c]> h) t = reach h t.
Proof. intros Hv Hl. apply value_local; [done|]. intros m Hm. rewrite lookup_insert_ne; [done|]. by intros ->. Qed.
End stored.

(** ** The contract of a copy *)

Section deep.
Context {C : Type}.

Record fresh_copy {T V} `{!Stored C T V} (h : heap C) (v : V) (t' : T) (h' : heap C) : Prop := mkFreshCopy {
  fc_heap : h ⊆ h';
  fc_value : value h' t' = Some v;
  fc_reach : reach h' t' ## dom h;
}.

Definition deep {T V} `{!Stored C T V} (copy : T → M (heap C) T) : Prop :=
  ∀ h t v, value h t = Some v → ∃ t' h', copy t h = (Ok t', h') ∧ fresh_copy h v t' h'.

Lemma new_run {T} `{!Cell C T} (t : T) (h : heap C) :
  ∃ l, new t h = (Ok l, <[l := to_cell t]> h) ∧ l ∉ dom h.
Proof. eexists. split; [reflexivity|]. apply is_fresh. Qed.

Lemma peek_new {T} `{!Cell C T} (h : heap C) l t : peek (<[l := to_cell t]> h) l = Some t.
Proof. unfold peek. rewrite lookup_insert_eq. simpl. apply of_to_cell. Qed.

Lemma peek_mono {T} `{!Cell C T} (h h' : heap C) l t : peek h l = Some t → h ⊆ h' → peek h' l = Some t.
Proof.
  intros Hp Hh. rewrite (peek_ext h h'); [done|]. apply peek_dom in Hp as [c Hc]%elem_of_dom. rewrite Hc.
  by eapply lookup_weaken.
Qed.

Lemma load_run {T} `{!Cell C T} (h : heap C) l t : peek h l = Some t → load l h = (Ok t, h).
Proof. unfold load, ask. by intros ->. Qed.

Lemma deep_flat {T} : @deep T T flat mret.
Proof. intros h t v [= <-]. exists t, h. split; [done|]. constructor; [done|done|]. simpl. set_solver. Qed.

Lemma write_fresh (h h' : heap C) l c : h ⊆ h' → l ∉ dom h → h ⊆ <[l := c]> h'.
Proof. intros Hh Hl. etrans; [by apply (insert_subseteq h l c), not_elem_of_dom|by apply insert_mono]. Qed.

Lemma deep_ptr {T V} `{!Cell C T, !Stored C T V} (copy : T → M (heap C) T) : deep copy → deep (copy_ptr copy).
Proof.
  intros Hcopy h [[l|]] v; unfold copy_ptr; simpl.
  2: { intros [= <-]. eexists _, h. split; [done|]. constructor; simpl; [done..|set_solver]. }
  destruct (peek h l) as [t|] eqn:Hp; simpl; [|done]. destruct (value h t) as [x|] eqn:Hx; simpl; [|done]. intros [= <-].
  destruct (new_run zero h) as (l' & Hn & Hl'). rewrite (run_bind_ok _ _ _ _ _ Hn).
  pose proof (write_fresh h h l' (to_cell zero) (reflexivity h) Hl') as H1.
  rewrite (run_bind_ok _ _ _ _ _ (load_run _ _ _ (peek_mono _ _ _ _ Hp H1))).
  destruct (value_mono _ _ _ _ Hx H1) as [Hx1 _].
  destruct (Hcopy _ _ _ Hx1) as (t' & h2 & Hc & [H2 Hv2 Hr2]). rewrite (run_bind_ok _ _ _ _ _ Hc).
  rewrite dom_insert in Hr2.
  destruct (value_write h2 t' x l' (to_cell t') Hv2) as [Hv3 Hr3]; [set_solver|].
  eexists _, _. split; [reflexivity|]. constructor; simpl.
  - apply write_fresh; [by etrans|done].
  - rewrite peek_new. simpl. by rewrite Hv3.
  - rewrite peek_new. simpl. rewrite Hr3. set_solver.
Qed.

Lemma elems_some {T} `{!Cell C (list T)} (h : heap C) w ts :
  elems h w = Some ts → ∃ all, peek h (arr w) = Some all ∧ ts = take (len w) (drop (off w) all) ∧ length ts = len w.
Proof.
  unfold elems. destruct (peek h (arr w)) as [all|]; simpl; [|done]. case_decide; [|done]. intros [= <-].
  exists all. split_and!; [done..|]. rewrite length_take, length_drop. lia.
Qed.

(** All of an array. *)
Lemma elems_all {T} `{!Cell C (list T)} (h : heap C) l ts n :
  length ts = n → elems (<[l := to_cell ts]> h) (mkWindow l 0 n) = Some ts.
Proof. intros <-. unfold elems. simpl. rewrite peek_new. simpl. rewrite decide_True by lia. by rewrite take_ge. Qed.

Lemma reach_all_flat {T} (h : heap C) (ts : list T) : reach_all (Stored0:=flat) h ts = ∅.
Proof. induction ts as [|t ts IH]; [done|]. rewrite reach_all_cons, IH. apply union_empty_l_L. Qed.

Definition strings_stored `{!Cell C (list string)} : Stored C (slice string) (option (list string)) :=
  slice_stored (Stored0:=flat).

Lemma deep_strings `{!Cell C (list string)} : @deep _ _ strings_stored copy_strings.
Proof.
  intros h [[w|]] v; unfold copy_strings; simpl.
  2: { intros [= <-]. eexists _, h. split; [done|]. constructor; simpl; [done..|set_solver]. }
  destruct (elems h w) as [ts|] eqn:He; simpl; [|done]. destruct (elems_some _ _ _ He) as (all & Hp & Hts & Hlen).
  assert (mapM (λ t : string, Some t) ts = Some ts) as Hid by (apply mapM_Some; by apply Forall_Forall2_diag, Forall_true).
  rewrite Hid. intros [= <-].
  destruct (new_run (replicate (len w) "") h) as (l' & Hn & Hl'). rewrite (run_bind_ok _ _ _ _ _ Hn).
  pose proof (write_fresh h h l' (to_cell (replicate (len w) "")) (reflexivity h) Hl') as H1.
  rewrite (run_bind_ok _ _ _ _ _ (load_run _ _ _ (peek_mono _ _ _ _ Hp H1))). rewrite <- Hts.
  eexists _, _. split; [reflexivity|]. constructor; cbn -[elems].
  - by apply write_fresh.
  - rewrite elems_all by done. simpl. by rewrite Hid.
  - rewrite elems_all by done. simpl. rewrite (reach_all_flat _ ts). clear -Hl'. set_solver.
Qed.

(** *** Slices *)

Section slices.
Context {T V : Type} `{!Cell C T, !Cell C (list T), !Stored C T V}.
Context (copy : T → M (heap C) T) (Hcopy : deep copy).
Context (h : heap C) (w : window) (l : loc) (ts : list T) (vs : list V).
Context (He : elems h w = Some ts) (Hvs : mapM (value h) ts = Some vs) (Hl : l ∉ dom h).

(** [i] elements are copied, to [done]. *)
Record copied (i : nat) (hi : heap C) (done : list T) : Prop := mkCopied {
  cp_heap : h ⊆ hi;
  cp_arr : peek hi l = Some (done ++ replicate (len w - i) zero);
  cp_len : length done = i;
  cp_values : Forall2 (λ t v, value hi t = Some v ∧ reach hi t ## {[l]} ∪ dom h) done (take i vs);
}.

Lemma copied_step i hi done :
  copied i hi done → (i < len w)%nat →
  ∃ t' h', copy_elem copy w l i hi = (Ok tt, h') ∧ copied (S i) h' (done ++ [t']).
Proof.
  intros [Hh Harr Hlen Hvals] Hi. destruct (elems_some _ _ _ He) as (all & Hp & Hts & Htl).
  destruct (lookup_lt_is_Some_2 ts i) as [t Ht]; [lia|].
  pose proof (mapM_Some_1 _ _ _ Hvs) as HF. destruct (Forall2_lookup_l _ _ _ _ _ HF Ht) as (v & Hv & Hval).
  unfold copy_elem. rewrite (run_bind_ok _ _ _ _ _ (load_run _ _ _ (peek_mono _ _ _ _ Hp Hh))).
  assert (all !! (off w + i)%nat = Some t) as ->.
  { rewrite Hts, lookup_take_lt, lookup_drop in Ht by done. done. }
  destruct (value_mono _ _ _ _ Hval Hh) as [Hval1 _].
  destruct (Hcopy _ _ _ Hval1) as (t' & h2 & Hc & [H2 Hv2 Hr2]).
  rewrite (run_bind_ok (lift (Ok t)) _ hi t hi eq_refl), (run_bind_ok _ _ _ _ _ Hc).
  rewrite (run_bind_ok _ _ _ _ _ (load_run _ _ _ (peek_mono _ _ _ _ Harr H2))).
  assert (l ∈ dom hi) as Hld by (by eapply peek_dom). pose proof (subseteq_dom _ _ Hh) as Hd.
  assert (<[i := t']> (done ++ replicate (len w - i) zero) = (done ++ [t']) ++ replicate (len w - S i) zero) as ->.
  { rewrite <- Hlen at 1. replace (length done) with (length done + 0)%nat by lia. rewrite insert_app_r.
    replace (len w - i)%nat with (S (len w - S i)) by lia. by rewrite <- app_assoc. }
  eexists t', _. split; [reflexivity|]. constructor.
  - apply write_fresh; [by etrans|done].
  - apply peek_new.
  - rewrite length_app. simpl. lia.
  - rewrite (take_S_r _ _ _ Hv). apply Forall2_app.
    + eapply Forall2_impl; [exact Hvals|]. intros x y [Hx Hr]. destruct (value_mono _ _ _ _ Hx H2) as [Hx2 Hrx].
      destruct (value_write h2 x y l (to_cell ((done ++ [t']) ++ replicate (len w - S i) zero)) Hx2) as [Hx3 Hrx3];
        [rewrite Hrx; clear -Hr; set_solver|]. split; [done|]. by rewrite Hrx3, Hrx.
    + constructor; [|constructor].
      destruct (value_write h2 t' v l (to_cell ((done ++ [t']) ++ replicate (len w - S i) zero)) Hv2) as [Hx3 Hrx3];
        [clear -Hr2 Hld; set_solver|]. split; [done|]. rewrite Hrx3. clear -Hr2 Hld Hd. set_solver.
Qed.

Lemma copied_loop k i hi done :
  copied i hi done → (i + k = len w)%nat →
  ∃ out h', forM_ (seq i k) (copy_elem copy w l) hi = (Ok tt, h') ∧ copied (len w) h' out.
Proof.
  revert i hi done. induction k as [|k IH]; intros i hi done Hc Hk; simpl.
  - exists done, hi. split; [done|]. by replace (len w) with i by lia.
  - destruct (copied_step i hi done Hc) as (t' & h' & Hr & Hc'); [lia|].
    rewrite (run_bind_ok _ _ _ _ _ Hr). apply (IH _ _ _ Hc'). lia.
Qed.
End slices.

Lemma deep_slice {T V} `{!Cell C T, !Cell C (list T), !Stored C T V} (copy : T → M (heap C) T) :
  deep copy → deep (copy_slice copy).
Proof.
  intros Hcopy h [[w|]] v; unfold copy_slice; simpl.
  2: { intros [= <-]. eexists _, h. split; [done|]. constructor; simpl; [done..|set_solver]. }
  destruct (elems h w) as [ts|] eqn:He; simpl; [|done].
  destruct (mapM (value h) ts) as [vs|] eqn:Hvs; simpl; [|done]. intros [= <-].
  destruct (new_run (replicate (len w) zero) h) as (l' & Hn & Hl'). rewrite (run_bind_ok _ _ _ _ _ Hn).
  destruct (copied_loop copy Hcopy h w l' ts vs He Hvs Hl' (len w) 0 (<[l' := to_cell (replicate (len w) zero)]> h) [])
    as (out & h' & Hr & [Hh Harr Hlen Hvals]); [|done|].
  { constructor; [by apply write_fresh|by rewrite peek_new, Nat.sub_0_r|done|constructor]. }
  rewrite (run_bind_ok _ _ _ _ _ Hr). eexists _, h'. split; [reflexivity|].
  rewrite Nat.sub_diag, app_nil_r in Harr.
  assert (elems h' (mkWindow l' 0 (len w)) = Some out) as Hel.
  { unfold elems. simpl. rewrite Harr. simpl. rewrite decide_True by lia. rewrite drop_0, take_ge; [done|]. by rewrite Hlen. }
  assert (length vs = len w) as Hvl.
  { rewrite <- (Forall2_length _ _ _ (mapM_Some_1 _ _ _ Hvs)). by destruct (elems_some _ _ _ He) as (_ & _ & _ & <-). }
  rewrite take_ge in Hvals by lia. constructor; cbn -[elems]; [done|..]; rewrite Hel; simpl.
  - rewrite (mapM_Some_2 _ out vs); [done|]. eapply Forall2_impl; [exact Hvals|]. by intros x y [? _].
  - intros m [->%elem_of_singleton|Hm]%elem_of_union; [done|].
    apply elem_of_union_list in Hm as (X & (t & -> & [i Hi]%list_elem_of_lookup)%list_elem_of_fmap & Hm).
    destruct (Forall2_lookup_l _ _ _ _ _ Hvals Hi) as (y & _ & _ & Hr'). clear -Hr' Hm. set_solver.
Qed.

(** *** Maps *)

Lemma deep_map range `{!Cell C (gmap string string)} :
  (∀ m, range m ≡ₚ map_to_list m) → deep (copy_map range).
Proof.
  intros Hrange h [[l|]] v; unfold copy_map; simpl.
  2: { intros [= <-]. eexists _, h. split; [done|]. constructor; simpl; [done..|set_solver]. }
  destruct (peek h l) as [m|] eqn:Hp; simpl; [|done]. intros [= <-].
  destruct (new_run (∅ : gmap string string) h) as (l' & Hn & Hl'). rewrite (run_bind_ok _ _ _ _ _ Hn).
  rewrite (run_bind_ok _ _ _ _ _ (load_run _ _ _ (peek_mono _ _ _ _ Hp (write_fresh h h l' _ (reflexivity h) Hl')))).
  assert (∀ kvs h1 m1, h ⊆ h1 → peek h1 l' = Some m1 → NoDup kvs.*1 → ∃ h2,
    forM_ kvs (λ kv, out ← load l'; store l' (<[kv.1 := kv.2]> out)) h1 = (Ok tt, h2) ∧ h ⊆ h2 ∧
    peek h2 l' = Some (list_to_map kvs ∪ m1)) as Hloop.
  { induction kvs as [|[k x] kvs IH]; intros h1 m1 Hh Hp1 Hnd; simpl.
    - exists h1. by rewrite (left_id_L ∅ (∪)).
    - rewrite (run_bind_ok _ _ h1 tt (<[l' := to_cell (<[k := x]> m1)]> h1));
        [|by rewrite (run_bind_ok _ _ _ _ _ (load_run _ _ _ Hp1))].
      inversion Hnd as [|? ? Hk Hnd']; subst.
      destruct (IH (<[l' := to_cell (<[k := x]> m1)]> h1) (<[k := x]> m1)) as (h2 & Hr & Hh2 & Hp2);
        [by apply write_fresh|apply peek_new|done|]. exists h2. split_and!; [done..|]. rewrite Hp2. f_equal.
      rewrite <- insert_union_r by (by apply not_elem_of_list_to_map_1). by rewrite insert_union_l. }
  destruct (Hloop (range m) (<[l' := to_cell (∅ : gmap string string)]> h) ∅) as (h2 & Hr & Hh2 & Hp2);
    [by apply write_fresh|apply peek_new|rewrite Hrange; apply NoDup_fst_map_to_list|].
  rewrite (run_bind_ok _ _ _ _ _ Hr). eexists _, h2. split; [reflexivity|]. constructor; simpl.
  - done.
  - rewrite Hp2. simpl. rewrite (right_id_L ∅ (∪)). do 2 f_equal.
    rewrite <- (list_to_map_to_list m) at 2. apply list_to_map_proper; [|apply Hrange].
    rewrite Hrange. apply NoDup_fst_map_to_list.
  - clear -Hl'. set_solver.
Qed.
(** *** Structs *)

#[export, program] Instance prod_stored {A B VA VB} `{!Stored C A VA, !Stored C B VB} : Stored C (A * B) (VA * VB) := {|
  value h p := a ← value h p.1; b ← value h p.2; Some (a, b);
  reach h p := reach h p.1 ∪ reach h p.2;
|}.
Next Obligation.
  intros A B VA VB SA SB h h' [a b] v. simpl. intros Hv Ha.
  destruct (value h a) as [x|] eqn:Hx; simpl in Hv; [|done]. destruct (value h b) as [y|] eqn:Hy; simpl in Hv; [|done].
  destruct (value_local h h' a x Hx) as [-> ->]; [intros l Hl; apply Ha, elem_of_union; by left|].
  destruct (value_local h h' b y Hy) as [-> ->]; [intros l Hl; apply Ha, elem_of_union; by right|]. done.
Qed.
Next Obligation.
  intros A B VA VB SA SB h [a b] v. simpl.
  destruct (value h a) as [x|] eqn:Hx; simpl; [|done]. destruct (value h b) as [y|] eqn:Hy; simpl; [|done]. intros _.
  apply union_subseteq. by split; eapply reach_dom.
Qed.

(** A struct is worth the tuple of its fields. *)
Program Definition stored_via {T A V} (f : T → A) (S : Stored C A V) : Stored C T V := {|
  value h t := value h (f t); reach h t := reach h (f t) |}.
Next Obligation. intros T A V f S h h' t v. apply value_local. Qed.
Next Obligation. intros T A V f S h t v. apply reach_dom. Qed.

Lemma deep_pair {A B VA VB} `{!Stored C A VA, !Stored C B VB} (ca : A → M (heap C) A) (cb : B → M (heap C) B) :
  deep ca → deep cb → deep (λ p, a ← ca p.1; b ← cb p.2; mret (a, b)).
Proof.
  intros Ha Hb h [a b] v. simpl. destruct (value h a) as [x|] eqn:Hx; simpl; [|done].
  destruct (value h b) as [y|] eqn:Hy; simpl; [|done]. intros [= <-].
  destruct (Ha _ _ _ Hx) as (a' & h1 & H1 & [Hh1 Hv1 Hr1]). rewrite (run_bind_ok _ _ _ _ _ H1).
  destruct (value_mono _ _ _ _ Hy Hh1) as [Hy1 _].
  destruct (Hb _ _ _ Hy1) as (b' & h2 & H2 & [Hh2 Hv2 Hr2]). rewrite (run_bind_ok _ _ _ _ _ H2).
  destruct (value_mono _ _ _ _ Hv1 Hh2) as [Hv1' Hr1']. pose proof (subseteq_dom _ _ Hh1) as Hd.
  eexists _, h2. split; [reflexivity|]. constructor; simpl.
  - by etrans.
  - by rewrite Hv1', Hv2.
  - rewrite Hr1'. clear -Hr1 Hr2 Hd. set_solver.
Qed.

Lemma deep_via {T A V} (f : T → A) (g : A → T) {S : Stored C A V} (copyA : A → M (heap C) A) (copy : T → M (heap C) T) :
  deep copyA → (∀ a, f (g a) = a) → (∀ t h, copy t h = (a ← copyA (f t); mret (g a)) h) →
  @deep T V (stored_via f S) copy.
Proof.
  intros Hd Hfg Heq h t v Hv. destruct (Hd _ _ _ Hv) as (a & h' & Hc & [H1 H2 H3]).
  exists (g a), h'. split; [by rewrite Heq, (run_bind_ok _ _ _ _ _ Hc)|]. constructor; [done|..]; simpl; by rewrite Hfg.
Qed.

(** ** What a deep copy is good for *)

(** All that differs is in [X]. *)
Definition changes_only (X : gset loc) (h h' : heap C) : Prop := ∀ l, l ∉ X → h' !! l = h !! l.

(** [t'] has the value of [t], and whatever is done to the cells of one of
    them, the other keeps its value. *)
Record independent {T V} `{!Stored C T V} (h : heap C) (t t' : T) (v : V) : Prop := mkIndependent {
  ind_original : value h t = Some v;
  ind_copy : value h t' = Some v;
  ind_write_copy h2 : changes_only (reach h t') h h2 → value h2 t = Some v;
  ind_write_original h2 : changes_only (reach h t) h h2 → value h2 t' = Some v;
}.

Lemma deep_independent {T V} `{!Stored C T V} (copy : T → M (heap C) T) h t v :
  deep copy → value h t = Some v → ∃ t' h', copy t h = (Ok t', h') ∧ h ⊆ h' ∧ independent h' t t' v.
Proof.
  intros Hd Hv. destruct (Hd _ _ _ Hv) as (t' & h' & Hc & [H1 H2 H3]). exists t', h'. split_and!; [done..|].
  destruct (value_mono _ _ _ _ Hv H1) as [Hv' Hr]. pose proof (reach_dom _ _ _ Hv) as Hdom.
  assert (reach h' t ## reach h' t') as Hdis by (rewrite Hr; clear -Hdom H3; set_solver).
  constructor; [done..| |]; intros h2 Hch; (eapply value_local; [done|]); intros l Hl; apply Hch; clear -Hdis Hl; set_solver.
Qed.
End deep.
