(* ===== verification/DeepCopy.v ===== *)
(** * api/v1beta1/zz_generated.deepcopy.go

    The generated deep copies of the Egress types, over the memory of
    [GoHeap]: the types here are what the structs hold in memory, references
    to cells instead of values.  The Kubernetes types inside them and their
    own [DeepCopyInto] are parameters, which obey the contract [deep]. *)
From Stdlib Require Import Ascii String.
From S2P Require Import Prelude GoStrings EgressAPI GoHeap.

Local Open Scope Z_scope.

(** ** The types in memory *)

(** Kubernetes types: what they hold in memory, what they are worth, their
    zero values, and the cells that only they use. *)
Class K8sTypes := {
  go_ObjectMeta : Type; ObjectMetaV : Type; ObjectMeta_empty : go_ObjectMeta;
  go_ListMeta : Type; ListMetaV : Type; ListMeta_empty : go_ListMeta;
  go_DeploymentStrategy : Type; DeploymentStrategyV : Type; DeploymentStrategy_empty : go_DeploymentStrategy;
  go_PodSpec : Type; PodSpecV : Type; PodSpec_empty : go_PodSpec;
  go_SessionAffinityConfig : Type; SessionAffinityConfigV : Type; SessionAffinityConfig_empty : go_SessionAffinityConfig;
  LibCell : Type;
}.

Record TypeMeta := mkTypeMeta { tm_Kind : string; tm_APIVersion : string }.

Section types.
Context {KT : K8sTypes}.

Record go_Metadata := mkMetadata { go_Annotations : map_ref; go_Labels : map_ref }.

Record go_EgressPodTemplate := mkPodTemplate { go_Metadata_ : go_Metadata; go_Spec : go_PodSpec }.

Record go_EgressPDBSpec := mkPDBSpec { go_MinAvailable : ptr IntOrString; go_MaxUnavailable : ptr IntOrString }.

Record go_EgressSpec := mkSpec {
  go_Destinations : slice string;
  go_Replicas : Z;
  go_Strategy : ptr go_DeploymentStrategy;
  go_Template : ptr go_EgressPodTemplate;
  go_SessionAffinity : string;
  go_SessionAffinityConfig_ : ptr go_SessionAffinityConfig;
  go_PodDisruptionBudget : ptr go_EgressPDBSpec }.

Record go_EgressStatus := mkGoStatus { go_StatusReplicas : Z; go_Selector : string }.

Record go_Egress := mkGoEgress {
  go_TypeMeta : TypeMeta; go_meta : go_ObjectMeta; go_spec : go_EgressSpec; go_status : go_EgressStatus }.

Record go_EgressList := mkEgressList {
  go_ListTypeMeta : TypeMeta; go_ListMeta_ : go_ListMeta; go_Items : slice go_Egress }.

(** What a location can hold. *)
Inductive cell :=
  | CIntOrString (x : IntOrString)
  | CMap (m : gmap string string)
  | CStrings (l : list string)
  | CStrategy (s : go_DeploymentStrategy)
  | CAffinity (s : go_SessionAffinityConfig)
  | CMetadata (m : go_Metadata)
  | CTemplate (t : go_EgressPodTemplate)
  | CPDBSpec (s : go_EgressPDBSpec)
  | CSpec (s : go_EgressSpec)
  | CStatus (s : go_EgressStatus)
  | CEgress (e : go_Egress)
  | CEgresses (l : list go_Egress)
  | CEgressList (l : go_EgressList)
  | CLib (c : LibCell).

Definition Metadata_zero : go_Metadata := mkMetadata (mkMap None) (mkMap None).
Definition Template_zero : go_EgressPodTemplate := mkPodTemplate Metadata_zero PodSpec_empty.
Definition PDBSpec_zero : go_EgressPDBSpec := mkPDBSpec (mkPtr None) (mkPtr None).
Definition Spec_zero : go_EgressSpec :=
  mkSpec (mkSlice None) 0 (mkPtr None) (mkPtr None) "" (mkPtr None) (mkPtr None).
Definition Status_zero : go_EgressStatus := mkGoStatus 0 "".
Definition Egress_zero : go_Egress := mkGoEgress (mkTypeMeta "" "") ObjectMeta_empty Spec_zero Status_zero.
Definition EgressList_zero : go_EgressList := mkEgressList (mkTypeMeta "" "") ListMeta_empty (mkSlice None).

#[export, refine] Instance cell_IntOrString : Cell cell IntOrString := {|
  to_cell := CIntOrString; of_cell c := match c with CIntOrString x => Some x | _ => None end; zero := IntVal 0 |}.
Proof. done. Defined.
#[export, refine] Instance cell_map : Cell cell (gmap string string) := {|
  to_cell := CMap; of_cell c := match c with CMap x => Some x | _ => None end; zero := ∅ |}.
Proof. done. Defined.
#[export, refine] Instance cell_strings : Cell cell (list string) := {|
  to_cell := CStrings; of_cell c := match c with CStrings x => Some x | _ => None end; zero := [] |}.
Proof. done. Defined.
#[export, refine] Instance cell_strategy : Cell cell go_DeploymentStrategy := {|
  to_cell := CStrategy; of_cell c := match c with CStrategy x => Some x | _ => None end; zero := DeploymentStrategy_empty |}.
Proof. done. Defined.
#[export, refine] Instance cell_affinity : Cell cell go_SessionAffinityConfig := {|
  to_cell := CAffinity; of_cell c := match c with CAffinity x => Some x | _ => None end; zero := SessionAffinityConfig_empty |}.
Proof. done. Defined.
#[export, refine] Instance cell_metadata : Cell cell go_Metadata := {|
  to_cell := CMetadata; of_cell c := match c with CMetadata x => Some x | _ => None end; zero := Metadata_zero |}.
Proof. done. Defined.
#[export, refine] Instance cell_template : Cell cell go_EgressPodTemplate := {|
  to_cell := CTemplate; of_cell c := match c with CTemplate x => Some x | _ => None end; zero := Template_zero |}.
Proof. done. Defined.
#[export, refine] Instance cell_pdbspec : Cell cell go_EgressPDBSpec := {|
  to_cell := CPDBSpec; of_cell c := match c with CPDBSpec x => Some x | _ => None end; zero := PDBSpec_zero |}.
Proof. done. Defined.
#[export, refine] Instance cell_spec : Cell cell go_EgressSpec := {|
  to_cell := CSpec; of_cell c := match c with CSpec x => Some x | _ => None end; zero := Spec_zero |}.
Proof. done. Defined.
#[export, refine] Instance cell_status : Cell cell go_EgressStatus := {|
  to_cell := CStatus; of_cell c := match c with CStatus x => Some x | _ => None end; zero := Status_zero |}.
Proof. done. Defined.
#[export, refine] Instance cell_egress : Cell cell go_Egress := {|
  to_cell := CEgress; of_cell c := match c with CEgress x => Some x | _ => None end; zero := Egress_zero |}.
Proof. done. Defined.
#[export, refine] Instance cell_egresses : Cell cell (list go_Egress) := {|
  to_cell := CEgresses; of_cell c := match c with CEgresses x => Some x | _ => None end; zero := [] |}.
Proof. done. Defined.
#[export, refine] Instance cell_egresslist : Cell cell go_EgressList := {|
  to_cell := CEgressList; of_cell c := match c with CEgressList x => Some x | _ => None end; zero := EgressList_zero |}.
Proof. done. Defined.
End types.

Abbreviation mem := (heap cell).

(** Kubernetes' own deep copies. *)
Class K8sCopies {KT : K8sTypes} := {
  #[global] ObjectMeta_stored :: Stored cell go_ObjectMeta ObjectMetaV;
  #[global] ListMeta_stored :: Stored cell go_ListMeta ListMetaV;
  #[global] DeploymentStrategy_stored :: Stored cell go_DeploymentStrategy DeploymentStrategyV;
  #[global] PodSpec_stored :: Stored cell go_PodSpec PodSpecV;
  #[global] SessionAffinityConfig_stored :: Stored cell go_SessionAffinityConfig SessionAffinityConfigV;
  ObjectMeta_DeepCopyInto : go_ObjectMeta → M mem go_ObjectMeta;
  ListMeta_DeepCopyInto : go_ListMeta → M mem go_ListMeta;
  DeploymentStrategy_DeepCopyInto : go_DeploymentStrategy → M mem go_DeploymentStrategy;
  PodSpec_DeepCopyInto : go_PodSpec → M mem go_PodSpec;
  SessionAffinityConfig_DeepCopyInto : go_SessionAffinityConfig → M mem go_SessionAffinityConfig;
}.

Class K8sCopyLaws `{KC : K8sCopies} := {
  ObjectMeta_deep : deep ObjectMeta_DeepCopyInto;
  ListMeta_deep : deep ListMeta_DeepCopyInto;
  DeploymentStrategy_deep : deep DeploymentStrategy_DeepCopyInto;
  PodSpec_deep : deep PodSpec_DeepCopyInto;
  SessionAffinityConfig_deep : deep SessionAffinityConfig_DeepCopyInto;
}.

(** ** The copies

    [X_DeepCopyInto in] is what is written into the struct [out] points to:
    the fields of [in], each replaced where the code replaces it. *)

Section copies.
Context `{KC : K8sCopies}.
Context (range : gmap string string → list (string * string)).

Definition Metadata_DeepCopyInto (i : go_Metadata) : M mem go_Metadata :=
  annotations ← copy_map range (go_Annotations i);
  labels ← copy_map range (go_Labels i);
  mret (mkMetadata annotations labels).

Definition EgressPodTemplate_DeepCopyInto (i : go_EgressPodTemplate) : M mem go_EgressPodTemplate :=
  metadata ← Metadata_DeepCopyInto (go_Metadata_ i);
  spec ← PodSpec_DeepCopyInto (go_Spec i);
  mret (mkPodTemplate metadata spec).

Definition EgressPDBSpec_DeepCopyInto (i : go_EgressPDBSpec) : M mem go_EgressPDBSpec :=
  minAvailable ← copy_ptr mret (go_MinAvailable i);
  maxUnavailable ← copy_ptr mret (go_MaxUnavailable i);
  mret (mkPDBSpec minAvailable maxUnavailable).

Definition EgressSpec_DeepCopyInto (i : go_EgressSpec) : M mem go_EgressSpec :=
  destinations ← copy_strings (go_Destinations i);
  strategy ← copy_ptr DeploymentStrategy_DeepCopyInto (go_Strategy i);
  template ← copy_ptr EgressPodTemplate_DeepCopyInto (go_Template i);
  sessionAffinityConfig ← copy_ptr SessionAffinityConfig_DeepCopyInto (go_SessionAffinityConfig_ i);
  podDisruptionBudget ← copy_ptr EgressPDBSpec_DeepCopyInto (go_PodDisruptionBudget i);
  mret (mkSpec destinations (go_Replicas i) strategy template (go_SessionAffinity i)
          sessionAffinityConfig podDisruptionBudget).

Definition EgressStatus_DeepCopyInto (i : go_EgressStatus) : M mem go_EgressStatus := mret i.

Definition Egress_DeepCopyInto (i : go_Egress) : M mem go_Egress :=
  meta ← ObjectMeta_DeepCopyInto (go_meta i);
  spec ← EgressSpec_DeepCopyInto (go_spec i);
  mret (mkGoEgress (go_TypeMeta i) meta spec (go_status i)).

Definition EgressList_DeepCopyInto (i : go_EgressList) : M mem go_EgressList :=
  meta ← ListMeta_DeepCopyInto (go_ListMeta_ i);
  items ← copy_slice Egress_DeepCopyInto (go_Items i);
  mret (mkEgressList (go_ListTypeMeta i) meta items).

(** A nil receiver gives nil. *)
Definition Metadata_DeepCopy : ptr go_Metadata → M mem (ptr go_Metadata) := copy_ptr Metadata_DeepCopyInto.
Definition EgressPodTemplate_DeepCopy : ptr go_EgressPodTemplate → M mem (ptr go_EgressPodTemplate) :=
  copy_ptr EgressPodTemplate_DeepCopyInto.
Definition EgressPDBSpec_DeepCopy : ptr go_EgressPDBSpec → M mem (ptr go_EgressPDBSpec) :=
  copy_ptr EgressPDBSpec_DeepCopyInto.
Definition EgressSpec_DeepCopy : ptr go_EgressSpec → M mem (ptr go_EgressSpec) := copy_ptr EgressSpec_DeepCopyInto.
Definition EgressStatus_DeepCopy : ptr go_EgressStatus → M mem (ptr go_EgressStatus) :=
  copy_ptr EgressStatus_DeepCopyInto.
Definition Egress_DeepCopy : ptr go_Egress → M mem (ptr go_Egress) := copy_ptr Egress_DeepCopyInto.
Definition EgressList_DeepCopy : ptr go_EgressList → M mem (ptr go_EgressList) := copy_ptr EgressList_DeepCopyInto.

(** [runtime.Object]: [None] is the nil interface, which differs from an
    interface that holds a nil pointer. *)
Inductive Object := OEgress (p : ptr go_Egress) | OEgressList (p : ptr go_EgressList).

Definition Egress_DeepCopyObject (p : ptr go_Egress) : M mem (option Object) :=
  c ← Egress_DeepCopy p;
  mret (match ptr_addr c with Some _ => Some (OEgress c) | None => None end).

Definition EgressList_DeepCopyObject (p : ptr go_EgressList) : M mem (option Object) :=
  c ← EgressList_DeepCopy p;
  mret (match ptr_addr c with Some _ => Some (OEgressList c) | None => None end).
End copies.

(** ** What the structs are worth: the tuples of their fields *)

Section values.
Context `{KC : K8sCopies}.

#[export] Instance IntOrString_stored : Stored cell IntOrString IntOrString := flat.
#[export] Instance Status_stored : Stored cell go_EgressStatus go_EgressStatus := flat.

Definition metadata_fields (m : go_Metadata) := (go_Annotations m, go_Labels m).
Abbreviation MetadataV := (option (gmap string string) * option (gmap string string))%type.
#[export] Instance Metadata_stored : Stored cell go_Metadata MetadataV := stored_via metadata_fields prod_stored.

Definition template_fields (t : go_EgressPodTemplate) := (go_Metadata_ t, go_Spec t).
#[export] Instance Template_stored : Stored cell go_EgressPodTemplate (MetadataV * PodSpecV) :=
  stored_via template_fields prod_stored.

Definition pdb_fields (s : go_EgressPDBSpec) := (go_MinAvailable s, go_MaxUnavailable s).
#[export] Instance PDBSpec_stored : Stored cell go_EgressPDBSpec (option IntOrString * option IntOrString) :=
  stored_via pdb_fields prod_stored.

Definition spec_fields (s : go_EgressSpec) :=
  (go_Destinations s, (go_Strategy s, (go_Template s, (go_SessionAffinityConfig_ s,
    (go_PodDisruptionBudget s, (go_Replicas s, go_SessionAffinity s)))))).
Abbreviation SpecV :=
  (option (list string) * (option DeploymentStrategyV * (option (MetadataV * PodSpecV) *
    (option SessionAffinityConfigV * (option (option IntOrString * option IntOrString) * (Z * string))))))%type.
#[export] Instance Spec_stored : Stored cell go_EgressSpec SpecV :=
  stored_via spec_fields
    (prod_stored (Stored0:=strings_stored) (Stored1:=prod_stored (Stored1:=prod_stored (Stored1:=prod_stored
       (Stored1:=prod_stored (Stored1:=flat)))))).

Definition egress_fields (e : go_Egress) := (go_meta e, (go_spec e, (go_TypeMeta e, go_status e))).
Abbreviation EgressV := (ObjectMetaV * (SpecV * (TypeMeta * go_EgressStatus)))%type.
#[export] Instance Egress_stored : Stored cell go_Egress EgressV :=
  stored_via egress_fields (prod_stored (Stored1:=prod_stored (Stored1:=flat))).

Definition list_fields (l : go_EgressList) := (go_ListMeta_ l, (go_Items l, go_ListTypeMeta l)).
#[export] Instance EgressList_stored : Stored cell go_EgressList (ListMetaV * (option (list EgressV) * TypeMeta)) :=
  stored_via list_fields (prod_stored (Stored1:=prod_stored (Stored1:=flat))).

(** ** Every copy is deep *)

Context {KL : K8sCopyLaws}.
Context (range : gmap string string → list (string * string)) (range_perm : ∀ m, range m ≡ₚ map_to_list m).

(** Both sides run the same steps. *)
Ltac same_steps :=
  let h := fresh "h" in intros [] h; simpl; unfold mbind, M_bind;
  repeat (match goal with |- context [match ?m ?s with (_, _) => _ end] =>
    lazymatch m with mret _ => fail | _ => destruct (m s) as [[?|?] ?] end end; simpl; try reflexivity).

Lemma Metadata_deep : deep (Metadata_DeepCopyInto range).
Proof.
  eapply (deep_via metadata_fields (λ p, mkMetadata p.1 p.2)); [apply deep_pair; by apply deep_map|by intros []|].
  unfold Metadata_DeepCopyInto. same_steps.
Qed.

Lemma Template_deep : deep (EgressPodTemplate_DeepCopyInto range).
Proof.
  eapply (deep_via template_fields (λ p, mkPodTemplate p.1 p.2));
    [apply deep_pair; [apply Metadata_deep|apply PodSpec_deep]|by intros []|].
  unfold EgressPodTemplate_DeepCopyInto. same_steps.
Qed.

Lemma PDBSpec_deep : deep EgressPDBSpec_DeepCopyInto.
Proof.
  eapply (deep_via pdb_fields (λ p, mkPDBSpec p.1 p.2)); [apply deep_pair; apply deep_ptr, deep_flat|by intros []|].
  unfold EgressPDBSpec_DeepCopyInto. same_steps.
Qed.

Lemma Spec_deep : deep (EgressSpec_DeepCopyInto range).
Proof.
  eapply (deep_via spec_fields (λ '(d, (st, (t, (sac, (pdb, (r, sa)))))), mkSpec d r st t sa sac pdb)).
  - apply deep_pair; [apply deep_strings|]. apply deep_pair; [apply deep_ptr, DeploymentStrategy_deep|].
    apply deep_pair; [apply deep_ptr, Template_deep|]. apply deep_pair; [apply deep_ptr, SessionAffinityConfig_deep|].
    apply deep_pair; [apply deep_ptr, PDBSpec_deep|]. apply deep_flat.
  - by intros (d & st & t & sac & pdb & r & sa).
  - unfold EgressSpec_DeepCopyInto. same_steps.
Qed.

Lemma Egress_deep : deep (Egress_DeepCopyInto range).
Proof.
  eapply (deep_via egress_fields (λ '(m, (s, (t, st))), mkGoEgress t m s st)).
  - apply deep_pair; [apply ObjectMeta_deep|]. apply deep_pair; [apply Spec_deep|apply deep_flat].
  - by intros (m & s & t & st).
  - unfold Egress_DeepCopyInto. same_steps.
Qed.

Lemma EgressList_deep : deep (EgressList_DeepCopyInto range).
Proof.
  eapply (deep_via list_fields (λ '(m, (i, t)), mkEgressList t m i)).
  - apply deep_pair; [apply ListMeta_deep|]. apply deep_pair; [apply deep_slice, Egress_deep|apply deep_flat].
  - by intros (m & i & t).
  - unfold EgressList_DeepCopyInto. same_steps.
Qed.

(** C15: copies of objects are deep.  [DeepCopyObject] of an egress, or of a
    list of egresses, returns an object of the same value, changes no cell
    that existed, and shares no memory with the original, down to the last
    map and slice: whatever is then written through the copy, the original
    keeps its value, and the other way round.  A nil object gives the nil
    interface. *)
Theorem deepcopy_independent (h : mem) :
  (∀ (p : ptr go_Egress) v, value h p = Some (Some v) →
     ∃ p' h', Egress_DeepCopyObject range p h = (Ok (Some (OEgress p')), h') ∧ h ⊆ h' ∧ independent h' p p' (Some v)) ∧
  (∀ (p : ptr go_EgressList) v, value h p = Some (Some v) →
     ∃ p' h', EgressList_DeepCopyObject range p h = (Ok (Some (OEgressList p')), h') ∧ h ⊆ h' ∧
       independent h' p p' (Some v)) ∧
  Egress_DeepCopyObject range (mkPtr None) h = (Ok None, h) ∧
  EgressList_DeepCopyObject range (mkPtr None) h = (Ok None, h).
Proof.
  split_and!; [| |done..]; intros p v Hv.
  - destruct (deep_independent _ h p (Some v) (deep_ptr _ Egress_deep) Hv) as (p' & h' & Hc & Hh & Hi).
    exists p', h'. split_and!; [|done..]. unfold Egress_DeepCopyObject, Egress_DeepCopy. rewrite (run_bind_ok _ _ _ _ _ Hc).
    destruct Hi as [_ Hp _ _]. destruct p' as [[l|]]; [done|]. done.
  - destruct (deep_independent _ h p (Some v) (deep_ptr _ EgressList_deep) Hv) as (p' & h' & Hc & Hh & Hi).
    exists p', h'. split_and!; [|done..]. unfold EgressList_DeepCopyObject, EgressList_DeepCopy.
    rewrite (run_bind_ok _ _ _ _ _ Hc). destruct Hi as [_ Hp _ _]. destruct p' as [[l|]]; [done|]. done.
Qed.
End values.

(** ** Witness: metadata that is a map of labels, a pod specification that is a list of images *)

Module Demo.
#[export] Instance ex_types : K8sTypes := {|
  go_ObjectMeta := map_ref; ObjectMetaV := option (gmap string string); ObjectMeta_empty := mkMap None;
  go_ListMeta := string; ListMetaV := string; ListMeta_empty := "";
  go_DeploymentStrategy := string; DeploymentStrategyV := string; DeploymentStrategy_empty := "";
  go_PodSpec := slice string; PodSpecV := option (list string); PodSpec_empty := mkSlice None;
  go_SessionAffinityConfig := string; SessionAffinityConfigV := string; SessionAffinityConfig_empty := "";
  LibCell := Empty_set;
|}.

#[export] Instance ex_copies : K8sCopies := {|
  ObjectMeta_stored := map_stored (C:=cell);
  ListMeta_stored := flat (C:=cell) (T:=string);
  DeploymentStrategy_stored := flat (C:=cell) (T:=string);
  PodSpec_stored := strings_stored (C:=cell);
  SessionAffinityConfig_stored := flat (C:=cell) (T:=string);
  ObjectMeta_DeepCopyInto := copy_map map_to_list;
  ListMeta_DeepCopyInto := mret;
  DeploymentStrategy_DeepCopyInto := mret;
  PodSpec_DeepCopyInto := copy_strings;
  SessionAffinityConfig_DeepCopyInto := mret;
|}.

#[export] Instance ex_laws : K8sCopyLaws.
Proof.
  constructor; simpl.
  - by apply deep_map.
  - apply (deep_flat (C:=cell) (T:=string)).
  - apply (deep_flat (C:=cell) (T:=string)).
  - apply deep_strings.
  - apply (deep_flat (C:=cell) (T:=string)).
Qed.

(** An egress with two destinations and a pod template with labels. *)
Definition ex_spec_mem : go_EgressSpec :=
  mkSpec (mkSlice (Some (mkWindow 2 1 2))) 2 (mkPtr None) (mkPtr (Some 3%positive)) "None" (mkPtr None) (mkPtr None).

Definition ex_mem : mem :=
  {[ 1%positive := CEgress (mkGoEgress (mkTypeMeta "Egress" "v1beta1") (mkMap None) ex_spec_mem (mkGoStatus 0 ""));
     2%positive := CStrings ["10.0.0.0/8"; "0.0.0.0/0"; "::/0"];
     3%positive := CTemplate (mkPodTemplate (mkMetadata (mkMap None) (mkMap (Some 4%positive))) (mkSlice None));
     4%positive := CMap {[ "app" := "egress" ]} ]}.

Lemma deepcopy_independent_witness :
  ∃ v p' h', value ex_mem (mkPtr (T:=go_Egress) (Some 1%positive)) = Some (Some v) ∧
    Egress_DeepCopyObject map_to_list (mkPtr (Some 1%positive)) ex_mem = (Ok (Some (OEgress p')), h') ∧
    independent h' (mkPtr (Some 1%positive)) p' (Some v).
Proof.
  eexists. destruct (deepcopy_independent map_to_list (λ m, reflexivity _) ex_mem) as [H _].
  destruct (H (mkPtr (Some 1%positive)) _ eq_refl) as (p' & h' & Hc & _ & Hi).
  exists p', h'. split; [reflexivity|]. split; [exact Hc|exact Hi].
Defined.
End Demo.
