(* ===== verification/Ponad.v ===== *)
(** * internal/ponad/server.go: the node daemon

    [Add] sets a client pod up: a tunnel to every egress its annotations name,
    and the routes into it.  The state is the network namespace of the pod
    (the closure of [ns.Do] runs in it; ponad touches no other), the API
    server's answers, the CNI library and the namespace library are
    parameters.  [newError] and [newInternalError] are in [CniPlugin]. *)
From Stdlib Require Import Ascii String.
From S2P Require Import Prelude GoStrings NetAddr NetParse NetIPUtil Netlink SimKernel Tunnel Mocks.
From S2P Require Import FouTunnel NatClient PodWatcher EgressAPI CniPlugin.

Local Open Scope Z_scope.

(** The API server as the daemon reads it. *)
Record Reader := mkReader {
  GetPod : NamespacedName → result Pod;
  GetEgress : NamespacedName → result Egress;
  GetService : NamespacedName → result Service }.

Record server := mkServer { apiReader : Reader; egressPort : Z }.

Definition NewServer (r : Reader) (egressPort : Z) : server := mkServer r egressPort.

(** One iteration of the loop of [listEgress]. *)
Definition egress_names (kv : string * string) : list NamespacedName :=
  let '(k, v) := kv in
  if negb (HasPrefix k EgressAnnotationPrefix) then []
  else
    let ns := slice_from (String.length EgressAnnotationPrefix) k in
    (λ name, mkNamespacedName ns name) <$> Split v comma.

Definition listEgress (range : gmap string string → list (string * string)) (pod : Pod)
    : result (list NamespacedName) :=
  if HostNetwork pod then Ok [] else Ok (range (pod_Annotations pod) ≫= egress_names).

(** The loops over the destinations: parse all, keep one family. *)
Fixpoint parse_destinations (keep : Addr → bool) (text : string) (l : list string) : result (list Prefix) :=
  match l with
  | [] => Ok []
  | sn :: l' =>
      match ParsePrefix sn with
      | Err err => Err (newInternalError err text)
      | Ok prefix =>
          match parse_destinations keep text l' with
          | Err e => Err e
          | Ok ps => Ok (if keep (p_ip prefix) then prefix :: ps else ps)
          end
      end
  end.

Definition collectDestinationsForEgress (s : server) (egName : NamespacedName)
    : result (Addr * list Prefix) :=
  match GetEgress (apiReader s) egName with
  | Err err => Err (newError codes_FailedPrecondition ErrorCode_INTERNAL
                      ("failed to get Egress " +:+ nn_String egName) (Error err))
  | Ok eg =>
      match GetService (apiReader s) egName with
      | Err err => Err (newError codes_FailedPrecondition ErrorCode_INTERNAL
                          ("failed to get Service " +:+ nn_String egName) (Error err))
      | Ok svc =>
          match ParseAddr (ClusterIP svc) with
          | Err _ => Err (newError codes_Internal ErrorCode_INTERNAL
                            ("invalid ClusterIP in Service " +:+ nn_String egName) (ClusterIP svc))
          | Ok svcIP =>
              let text := "invalid network in Egress " +:+ nn_String egName in
              if Is4 svcIP then
                subnets ← parse_destinations Is4 text (Destinations (eg_Spec eg)); Ok (svcIP, subnets)
              else if Is6 svcIP then
                subnets ← parse_destinations Is6 text (Destinations (eg_Spec eg)); Ok (svcIP, subnets)
              else Err (ErrText "invalid service ip")
          end
      end
  end.

(** The loop over the addresses of the previous result: the first of each
    family. *)
Fixpoint pick_locals (l : list IPNet) (local4 local6 : option Addr) : result (option Addr * option Addr) :=
  match l with
  | [] => Ok (local4, local6)
  | ipc :: l' =>
      let '(ip, ok) := ToAddr (ipn_IP ipc) in
      if negb ok then Err (newInternalError (ErrText "failed to parse ip") "failed to parse ip")
      else
        let local4 := if bool_decide (local4 = None) && Is4 ip then Some ip else local4 in
        let local6 := if bool_decide (local6 = None) && Is6 ip then Some ip else local6 in
        pick_locals l' local4 local6
  end.

Section server.
Context {K : Type} {NL : Netlink K}.
Context (lib : CniLib).

(** Go's map order, for annotations and for routes. *)
Context (range : gmap string string → list (string * string)).
Context (range_routes : gmap Prefix Route → list (Prefix * Route)).

(** The namespace library: opening a path, and entering what was opened. *)
Context (GetNS : string → result unit) (ns_enter : string → option goerror).
Context (args_text : gmap string string → string).

(** One egress set up in the pod's namespace. *)
Definition setup_egress (s : server) (ft : FouTunnelController) (nt : natClient) (egName : NamespacedName)
    : M K unit :=
  match collectDestinationsForEgress s egName with
  | Err err => throw (newInternalError err "failed to collect destinations for egress")
  | Ok (g, ds) =>
      link ← wrap (λ err, newInternalError err ("failed to add peer for " +:+ Addr_String g))
               (FouTunnel.AddPeer ft g);
      wrap (λ err, newInternalError err "failed to update routes") (UpdateRoutes range_routes nt link ds)
  end.

(** The closure run in the pod's namespace. *)
Definition setup_pod (s : server) (local4 local6 : option Addr) (egNames : list NamespacedName) : M K unit :=
  match NewFoUTunnelController (egressPort s) local4 local6 with
  | Err err => throw (newInternalError err "failed to create FoUTunnelController")
  | Ok ft =>
      wrap (λ err, newInternalError err "failed to initialize FoUTunnel") (FouTunnel.Init ft);;
      match NewNatClient (bool_decide (local4 ≠ None)) (bool_decide (local6 ≠ None)) with
      | Err err => throw (newInternalError err "failed to create Nat client")
      | Ok nt =>
          wrap (λ err, newInternalError err "failed to initialize Nat client") (NatClient.Init nt);;
          forM_ egNames (setup_egress s ft nt)
      end
  end.

Definition Add (s : server) (args : CNIArgs) : M K (list Z) :=
  let podName := default "" (rpc_Args args !! PodNameKey) in
  let podNS := default "" (rpc_Args args !! PodNamespaceKey) in
  if decide (podName = "" ∨ podNS = "") then
    throw (ErrText ("missing pod name or namespace, args: " +:+ args_text (rpc_Args args)))
  else
    match GetPod (apiReader s) (mkNamespacedName podNS podName) with
    | Err err =>
        if IsNotFound err
        then throw (newError codes_NotFound ErrorCode_UNKNOWN_CONTAINER "pod not found" (Error err))
        else throw (newInternalError err "failed to get pod")
    | Ok pod =>
        match GetPrevResult lib args with
        | Err err => throw (newInternalError err "failed to get previous result")
        | Ok p =>
            match Marshal lib p with
            | Err err => throw (newInternalError err "failed to marshal result")
            | Ok b =>
                match listEgress range pod with
                | Err err => throw (newInternalError err "failed to list eggress from annotations")
                | Ok [] => mret b
                | Ok egNames =>
                    match pick_locals (IPs p) None None with
                    | Err err => throw err
                    | Ok (local4, local6) =>
                        match GetNS (rpc_Netns args) with
                        | Err err => throw (Errorf ("failed to open netns path " +:+ rpc_Netns args +:+ ": ") err)
                        | Ok _ =>
                            match ns_enter (rpc_Netns args) with
                            | Some err => throw err
                            | None => setup_pod s local4 local6 egNames;; mret b
                            end
                        end
                    end
                end
            end
        end
    end.

Definition Del (s : server) (args : CNIArgs) : result unit := Ok tt.
Definition Check_ (s : server) (args : CNIArgs) : result unit := Ok tt.
End server.

(** ** Annotations, seen from both ends *)

Lemma egress_names_elem k v ns name :
  mkNamespacedName ns name ∈ egress_names (k, v) ↔
    k = EgressAnnotationPrefix +:+ ns ∧ name ∈ Split v comma.
Proof.
  unfold egress_names. split.
  - destruct (HasPrefix k EgressAnnotationPrefix) eqn:Hp; cbn [negb]; [|by intros ?%elem_of_nil].
    intros (x & [= -> ->] & Hx)%list_elem_of_fmap. split; [|done]. by apply HasPrefix_split.
  - intros [-> Hn]. destruct (HasPrefix_app EgressAnnotationPrefix ns) as [-> ->]. cbn [negb].
    apply list_elem_of_fmap. eauto.
Qed.

Lemma listEgress_elem range pod ns name l :
  (∀ m, range m ≡ₚ map_to_list m) → HostNetwork pod = false → listEgress range pod = Ok l →
  mkNamespacedName ns name ∈ l ↔
    ∃ v, pod_Annotations pod !! (EgressAnnotationPrefix +:+ ns) = Some v ∧ name ∈ Split v comma.
Proof.
  intros Hr Hh. unfold listEgress. rewrite Hh. intros [= <-]. rewrite list_elem_of_bind. split.
  - intros ([k v] & [-> Hn]%egress_names_elem & Hin). exists v.
    by rewrite Hr, elem_of_map_to_list in Hin.
  - intros (v & Hv & Hn). exists (EgressAnnotationPrefix +:+ ns, v).
    split; [by apply egress_names_elem|]. by rewrite Hr, elem_of_map_to_list.
Qed.

(** C22: the egresses ponad connects a pod to are, in whatever order Go visits
    the annotations, exactly the names its annotations list, by namespace; a
    pod in the host network has none. *)
Theorem ponad_listEgress_spec (range : gmap string string → list (string * string)) (pod : Pod)
    (ns name : string) :
  (∀ m, range m ≡ₚ map_to_list m) →
  ∃ l, listEgress range pod = Ok l ∧
    (mkNamespacedName ns name ∈ l ↔ HostNetwork pod = false ∧
      ∃ v, pod_Annotations pod !! (EgressAnnotationPrefix +:+ ns) = Some v ∧ name ∈ Split v comma).
Proof.
  intros Hr. destruct (HostNetwork pod) eqn:Hh.
  - exists []. unfold listEgress. rewrite Hh. split; [done|]. rewrite elem_of_nil. naive_solver.
  - eexists. split; [unfold listEgress; by rewrite Hh|].
    rewrite (listEgress_elem range pod ns name) by (try done; unfold listEgress; by rewrite Hh).
    naive_solver.
Qed.

(** C25: the two ends agree on a pod that names one egress in a namespace: if
    the annotation has no comma and is not the namespace's own name, ponad
    connects the pod to an egress exactly when that egress's watcher accepts
    the pod. *)
Theorem ponad_watcher_agree (range range2 : gmap string string → list (string * string)) (pod : Pod)
    (ns name v : string) (l : list NamespacedName) :
  (∀ m, range m ≡ₚ map_to_list m) → (∀ m, range2 m ≡ₚ map_to_list m) →
  pod_Annotations pod !! (EgressAnnotationPrefix +:+ ns) = Some v → contains_byte comma v = false → v ≠ ns →
  listEgress range pod = Ok l →
  mkNamespacedName ns name ∈ l ↔ shouldHandle range2 (mkPodWatcher name ns) pod = true.
Proof.
  intros Hr Hr2 Hv Hc Hns Hl. unfold shouldHandle. destruct (HostNetwork pod) eqn:Hh.
  - unfold listEgress in Hl. rewrite Hh in Hl. injection Hl as <-. rewrite elem_of_nil. done.
  - rewrite (listEgress_elem range pod ns name l Hr Hh Hl), Hv.
    unfold hasEgressAnnotation. rewrite existsb_exists. setoid_rewrite <- list_elem_of_In. split.
    + intros (v' & [= <-] & Hn). exists (annotation_key (mkPodWatcher name ns), v).
      rewrite Hr2, elem_of_map_to_list. split; [done|]. apply annotation_matches_spec. split; [done|]. left.
      rewrite Split_no_sep in Hn by done. by apply list_elem_of_singleton in Hn.
    + intros ([k v'] & Hin & [-> Hn]%annotation_matches_spec). rewrite Hr2, elem_of_map_to_list in Hin.
      unfold annotation_key in Hin. simpl in Hin. assert (v' = v) as -> by congruence.
      exists v. split; [done|]. rewrite Split_no_sep by done. apply list_elem_of_singleton.
      destruct Hn as [Hn|Hn]; simpl in Hn; [done|].
      rewrite Split_no_sep in Hn by done. apply list_elem_of_singleton in Hn. congruence.
Qed.

(** C28: the two ends disagree on a list: a pod that names several egresses of
    a namespace is connected by ponad to each of them, but unless the
    namespace's own name is in the list none of their watchers accepts the
    pod, so no tunnel leads back. *)
Theorem ponad_watcher_disagree (range range2 : gmap string string → list (string * string)) (pod : Pod)
    (ns name v : string) (l : list NamespacedName) :
  (∀ m, range m ≡ₚ map_to_list m) → (∀ m, range2 m ≡ₚ map_to_list m) → HostNetwork pod = false →
  pod_Annotations pod !! (EgressAnnotationPrefix +:+ ns) = Some v → contains_byte comma v = true →
  name ∈ Split v comma → ns ∉ Split v comma → listEgress range pod = Ok l →
  mkNamespacedName ns name ∈ l ∧ shouldHandle range2 (mkPodWatcher name ns) pod = false.
Proof.
  intros Hr Hr2 Hh Hv Hc Hn Hns Hl. split.
  - apply (listEgress_elem range pod ns name l Hr Hh Hl). eauto.
  - unfold shouldHandle. rewrite Hh. apply not_true_iff_false. unfold hasEgressAnnotation.
    rewrite existsb_exists. intros ([k v'] & Hin%list_elem_of_In & [-> Hm]%annotation_matches_spec).
    rewrite Hr2, elem_of_map_to_list in Hin. unfold annotation_key in Hin. simpl in Hin.
    assert (v' = v) as -> by congruence. destruct Hm as [Hm|Hm]; simpl in Hm; [|done]. subst v.
    pose proof (Split_Forall_no_sep name comma) as Hf. rewrite Forall_forall in Hf. specialize (Hf _ Hn). congruence.
Qed.

(** ** Destinations *)

Lemma parse_destinations_ok keep text l ds :
  parse_destinations keep text l = Ok ds ↔
    ∃ ps, mapR ParsePrefix l = Ok ps ∧ ds = filter (λ p, keep (p_ip p) = true) ps.
Proof.
  revert ds. induction l as [|sn l IH]; intros ds; simpl.
  - split; [intros [= <-]; by exists []|by intros (? & [= <-] & ->)].
  - unfold mbind, result_bind. destruct (ParsePrefix sn) as [p|]; [|split; [done|by intros (? & ? & _)]].
    destruct (parse_destinations keep text l) as [ps|e] eqn:Hp.
    + destruct (proj1 (IH ps) eq_refl) as (qs & Hq & ->). rewrite Hq. split.
      * intros [= <-]. exists (p :: qs). split; [done|]. destruct (keep (p_ip p)) eqn:Hk.
        -- by rewrite filter_cons_True.
        -- rewrite filter_cons_False; [done|congruence].
      * intros (? & [= <-] & ->). f_equal. destruct (keep (p_ip p)) eqn:Hk.
        -- by rewrite filter_cons_True.
        -- rewrite filter_cons_False; [done|congruence].
    + split; [done|]. destruct (mapR ParsePrefix l) as [qs|] eqn:Hq; [|by intros (? & ? & _)].
      specialize (IH (filter (λ p, keep (p_ip p) = true) qs)). destruct IH as [_ IH].
      discriminate IH. by exists qs.
Qed.

Lemma family_filter (keep : Addr → bool) g (ps : list Prefix) :
  (∀ a, keep a = IsFamilyMatched a g) →
  filter (λ p, keep (p_ip p) = true) ps = filter (λ p, IsFamilyMatched (p_ip p) g = true) ps.
Proof. intros Hk. apply list_filter_iff. intros p. by rewrite Hk. Qed.

Lemma Is4_matched v a : Is4 a = IsFamilyMatched a (AddrV4 v).
Proof. by destruct a. Qed.
Lemma Is6_matched v z a : Is6 a = IsFamilyMatched a (AddrV6 v z).
Proof. by destruct a. Qed.

(** The gateway and destinations of an egress: the gateway is the cluster
    IP of its service, and the destinations are those of its specification
    that have the gateway's address family, in the order given; the call
    succeeds exactly when both objects exist, the cluster IP is an address and
    EVERY destination parses, those of the other family included. *)
Theorem ponad_destinations_spec (s : server) (n : NamespacedName) (g : Addr) (ds : list Prefix) :
  collectDestinationsForEgress s n = Ok (g, ds) ↔
    ∃ eg svc ps, GetEgress (apiReader s) n = Ok eg ∧ GetService (apiReader s) n = Ok svc ∧
      ParseAddr (ClusterIP svc) = Ok g ∧ mapR ParsePrefix (Destinations (eg_Spec eg)) = Ok ps ∧
      g ≠ AddrInvalid ∧ ds = filter (λ p, IsFamilyMatched (p_ip p) g = true) ps.
Proof.
  unfold collectDestinationsForEgress. split.
  - destruct (GetEgress (apiReader s) n) as [eg|]; [|done].
    destruct (GetService (apiReader s) n) as [svc|]; [|done].
    destruct (ParseAddr (ClusterIP svc)) as [a|] eqn:Ha; [|done].
    destruct a as [|v|v z]; cbn [Is4 Is6]; [done|..]; unfold mbind, result_bind;
      destruct (parse_destinations _ _ _) as [ps|] eqn:Hp; try done; intros [= <- <-];
      apply parse_destinations_ok in Hp as (qs & Hq & ->); exists eg, svc, qs; split_and!; try done.
    + apply family_filter, Is4_matched.
    + apply family_filter, Is6_matched.
  - intros (eg & svc & ps & -> & -> & -> & Hps & Hne & ->).
    destruct g as [|v|v z]; cbn [Is4 Is6]; [done|..]; unfold mbind, result_bind.
    + rewrite (proj2 (parse_destinations_ok Is4 _ _ (filter (λ p, Is4 (p_ip p) = true) ps))) by (by exists ps).
      by rewrite (family_filter Is4 (AddrV4 v)) by apply Is4_matched.
    + rewrite (proj2 (parse_destinations_ok Is6 _ _ (filter (λ p, Is6 (p_ip p) = true) ps))) by (by exists ps).
      by rewrite (family_filter Is6 (AddrV6 v z)) by apply Is6_matched.
Qed.

(** ** Setting a pod up *)

Section setup.
Context {K : Type} {NL : Netlink K} {L : NetlinkLaws K} {H : HostLaws K}.
Context (listed_dst : ∀ (k : K) f r, r ∈ routes k f → rt_Dst r ≠ None).
Context (range_routes : gmap Prefix Route → list (Prefix * Route)).
Context (range_perm : ∀ m, range_routes m ≡ₚ map_to_list m).

Abbreviation client_table k f := (filter (λ r, rt_Table r = ncTableID) (routes k f)).

(** A namespace that no tunnel and no route of the client's table is in. *)
Definition fresh_pod (k : K) : Prop :=
  (∀ a n l, fouName a = Ok n → LinkByName n k ≠ Ok l) ∧ ∀ f, client_table k f = [].

Lemma fou_Init_routing t k k' : FouTunnel.Init t k = (Ok tt, k') → rules k' = rules k ∧ routes k' = routes k.
Proof.
  intros HI.
  destruct (Init_cases t k) as [(l & _ & Hk)|[(e & e0 & _ & Hk & _)|(e0 & l & k1 & k2 & _ & (_ & Hr & Ht) & Ha & Hk)]];
    rewrite HI in Hk; [by injection Hk as ->|done|]. injection Hk as ->.
  apply LinkAdd_ok in Ha as (_ & _ & _ & _ & Hr2 & Ht2). split; congruence.
Qed.

Lemma fou_Init_fresh t k k' : FouTunnel.Init t k = (Ok tt, k') → fresh_pod k → fresh_pod k'.
Proof.
  intros HI [Hl Hr].
  destruct (Init_cases t k) as [(l & _ & Hk)|[(e & e0 & _ & Hk & _)|(e0 & l & k1 & k2 & _ & Hn & Ha & Hk)]];
    rewrite HI in Hk; [by injection Hk as ->|done|]. injection Hk as ->.
  destruct Hn as (Hn & _ & Ht). pose proof (LinkAdd_ok _ _ _ _ Ha) as (_ & _ & _ & _ & _ & Ht2). split.
  - intros a n l0 Hf. rewrite (LinkAdd_reserved _ _ _ _ a n Ha Hf (proj1 markers_reserved)), Hn. by eapply Hl.
  - intros f. by rewrite Ht2, Ht.
Qed.

Lemma nat_Init_fresh c k k' : NatClient.Init c k = (Ok tt, k') → fresh_pod k → fresh_pod k'.
Proof.
  intros [Hf Hn]%Init_ok [Hl Hr]. split.
  - intros a n l Hfn. rewrite Hn. by eapply Hl.
  - intros f. specialize (Hf f). destruct (uses c f).
    + by destruct Hf as [(r & _ & _ & ?) _].
    + destruct Hf as [_ ->]. apply Hr.
Qed.

(** [AddPeer] leaves the client's table alone. *)
Lemma AddPeer_table t a k f : client_table (FouTunnel.AddPeer t a k).2 f = client_table k f.
Proof. apply (fou_AddPeer_net t a k). unfold ncTableID, kernel_tables. set_solver. Qed.

Lemma AddPeer_rules t a k : rules (FouTunnel.AddPeer t a k).2 = rules k.
Proof. apply (fou_AddPeer_net t a k). Qed.

Lemma AddPeer_fresh t a k l k' :
  fresh_pod k → FouTunnel.AddPeer t a k = (Ok l, k') →
  ((lindex l) ∉ throw_indexes) ∧ (∀ f, client_table k' f = []) ∧ rules k' = rules k ∧
  ∃ n l2, fouName a = Ok n ∧ LinkByName n k' = Ok l2 ∧ lindex l2 = lindex l.
Proof.
  intros [Hl Hr] HA. pose proof (AddPeer_table t a k) as Ht. pose proof (AddPeer_rules t a k) as Hru.
  rewrite HA in Ht, Hru. destruct (fou_invalid a) as [Hi|[n Hn]]; [by destruct a|]. split_and!.
  - pose proof (AddPeer_run t a n k Hn) as Hrun. rewrite HA in Hrun.
    inversion Hrun as [|lc l0 _ Hl0| | | |lc e l0 k1 k2 _ _ _ Ha]; subst; [by destruct (Hl a n l)|].
    by eapply LinkAdd_index.
  - intros f. simpl in Ht. by rewrite Ht.
  - done.
  - destruct (fou_AddPeer_link t a n k l k' Hn HA) as (l2 & ? & ? & _). by exists n, l2.
Qed.

Lemma link_dsts_empty k i : (∀ f, client_table k f = []) → link_dsts k i = [].
Proof. intros Ht. unfold link_dsts, all_routes. by rewrite filter_app, !Ht. Qed.

(** Destinations the kernel can hold. *)
Definition kernel_destinations (s : server) : Prop :=
  ∀ n g ds, collectDestinationsForEgress s n = Ok (g, ds) → Forall kernel_prefix ds.

(** One egress set up in a fresh pod. *)
Lemma setup_egress_ok s ft nt n k k' :
  kernel_destinations s → fresh_pod k → setup_egress range_routes s ft nt n k = (Ok tt, k') →
  ∃ g ds name link, collectDestinationsForEgress s n = Ok (g, ds) ∧ fouName g = Ok name ∧
    LinkByName name k' = Ok link ∧ (∀ p, Some p ∈ link_dsts k' (lindex link) ↔ p ∈ ds) ∧
    (∀ v, v ∈ throw_list → has_throw k' v) ∧ rules k' = rules k.
Proof.
  intros Hk Hfr. unfold setup_egress.
  destruct (collectDestinationsForEgress s n) as [[g ds]|e] eqn:Hc; [|done].
  intros (link & k1 & Ha%wrap_ok & Hu%wrap_ok)%bind_ok.
  destruct (AddPeer_fresh _ _ _ _ _ Hfr Ha) as (Hidx & Ht & Hr & name & l2 & Hname & Hl2 & Hi2).
  pose proof (UpdateRoutes_links range_routes range_perm _ _ _ _ _ name Hu) as Hlk.
  assert (NoDup (link_dsts k1 (lindex link))) as Hnd by (rewrite link_dsts_empty by done; constructor).
  destruct (UpdateRoutes_ok listed_dst range_routes range_perm _ _ _ _ _ (Hk _ _ _ Hc) Hidx Hnd Hu)
    as (Hd & Hth & _ & Hru).
  exists g, ds, name, l2. split_and!; [done|done|by rewrite Hlk|by rewrite Hi2|done|congruence].
Qed.

Lemma setup_pod_ok s l4 l6 names k k' :
  setup_pod range_routes s l4 l6 names k = (Ok tt, k') → fresh_pod k →
  ∃ ft nt k1 k2, NewFoUTunnelController (egressPort s) l4 l6 = Ok ft ∧
    nt = mkNatClient (bool_decide (l4 ≠ None)) (bool_decide (l6 ≠ None)) ∧
    NatClient.Init nt k1 = (Ok tt, k2) ∧ fresh_pod k2 ∧
    forM_ names (setup_egress range_routes s ft nt) k2 = (Ok tt, k') ∧ rules k1 = rules k.
Proof.
  unfold setup_pod. destruct (NewFoUTunnelController _ _ _) as [ft|]; [|done].
  intros ([] & k1 & Hi%wrap_ok & Hrun)%bind_ok Hfr. simpl in Hrun.
  apply bind_ok in Hrun as ([] & k2 & Hn%wrap_ok & Hrun).
  eexists ft, _, k1, k2. split_and!; [done..| |done|by apply fou_Init_routing in Hi as [? _]].
  eapply nat_Init_fresh; [done|]. by eapply fou_Init_fresh.
Qed.

(** C14: a pod that names one egress, set up in a fresh namespace: the tunnel
    device to the egress's cluster IP exists, the client's table sends exactly
    the egress's destinations of that family through it and throws private and
    link-local destinations back, and every address family of the pod has its
    one rule to that table. *)
Theorem ponad_setup_one (s : server) (l4 l6 : option Addr) (n : NamespacedName) (k k' : K) :
  kernel_destinations s → fresh_pod k → setup_pod range_routes s l4 l6 [n] k = (Ok tt, k') →
  ∃ g ds name link, collectDestinationsForEgress s n = Ok (g, ds) ∧ fouName g = Ok name ∧
    LinkByName name k' = Ok link ∧ (∀ p, Some p ∈ link_dsts k' (lindex link) ↔ p ∈ ds) ∧
    (∀ v, v ∈ throw_list → has_throw k' v) ∧
    ∀ f, (match f with FAMILY_V4 => l4 | FAMILY_V6 => l6 end ≠ None) →
      ∃ r, filter (λ r, ru_Priority r = ncPrio) (rules k' f) = [r] ∧ ru_Table r = ncTableID.
Proof.
  intros Hk Hfr Hrun. destruct (setup_pod_ok _ _ _ _ _ _ Hrun Hfr) as (ft & nt & k1 & k2 & _ & Hnt & HI & Hfr2 & Hs & _).
  simpl in Hs. apply bind_ok in Hs as ([] & k3 & Hs & [= <-]).
  destruct (setup_egress_ok _ _ _ _ _ _ Hk Hfr2 Hs) as (g & ds & name & link & H1 & H2 & H3 & H4 & H5 & H6).
  exists g, ds, name, link. split_and!; try done. intros f Hf. rewrite H6.
  destruct (Init_ok _ _ _ HI) as [HI' _]. specialize (HI' f). rewrite Hnt in HI'.
  assert (uses (mkNatClient (bool_decide (l4 ≠ None)) (bool_decide (l6 ≠ None))) f = true) as Hu.
  { destruct f; simpl; by apply bool_decide_eq_true. }
  rewrite Hu in HI'. destruct HI' as [(r & Hr & (Ht & _) & _) _]. by exists r.
Qed.

(** C31: a pod that names two or more egresses can never be set up, in a fresh
    namespace and with destinations the kernel can hold: adding the routes of
    the second one fails, since the throw routes are there already. *)
Theorem ponad_setup_two_fails (s : server) (l4 l6 : option Addr) (n1 n2 : NamespacedName)
    (rest : list NamespacedName) (k : K) :
  kernel_destinations s → fresh_pod k →
  is_ok (setup_pod range_routes s l4 l6 (n1 :: n2 :: rest) k).1 = false.
Proof.
  intros Hk Hfr. destruct (setup_pod _ _ _ _ _ k) as [[[]|e] k'] eqn:Hrun; [exfalso|done].
  destruct (setup_pod_ok _ _ _ _ _ _ Hrun Hfr) as (ft & nt & k1 & k2 & _ & _ & _ & Hfr2 & Hs & _).
  cbn [forM_] in Hs. apply bind_ok in Hs as ([] & k3 & Hs1 & Hs).
  destruct (setup_egress_ok _ _ _ _ _ _ Hk Hfr2 Hs1) as (_ & _ & _ & _ & _ & _ & _ & _ & Hth & _).
  apply bind_ok in Hs as ([] & k4 & Hs2 & _). unfold setup_egress in Hs2.
  destruct (collectDestinationsForEgress s n2) as [[g ds]|]; [|done].
  apply bind_ok in Hs2 as (link & k5 & Ha%wrap_ok & Hu%wrap_ok).
  destruct (UpdateRoutes_again listed_dst range_routes nt link ds k5) as (e & k6 & He & _); [|congruence].
  intros v Hv. destruct (Hth v Hv) as (r & Hr & Ht & Hrest). exists r. split; [|done].
  pose proof (AddPeer_table ft g k3) as Htab. rewrite Ha in Htab. simpl in Htab.
  assert (∃ f, r ∈ client_table k3 f) as [f Hf].
  { unfold all_routes in Hr. apply elem_of_app in Hr as [?|?];
      [exists FAMILY_V4|exists FAMILY_V6]; by apply list_elem_of_filter. }
  rewrite <- Htab in Hf. apply list_elem_of_filter in Hf as [_ Hf]. by eapply all_routes_elem.
Qed.
End setup.

(** ** The whole of [Add] *)

Section add.
Context {K : Type} {NL : Netlink K} (lib : CniLib).
Context (range : gmap string string → list (string * string)).
Context (range_routes : gmap Prefix Route → list (Prefix * Route)).
Context (GetNS : string → result unit) (ns_enter : string → option goerror).
Context (args_text : gmap string string → string).

(** The addresses of a previous result, all of them convertible. *)
Definition result_addrs (l : list IPNet) : result (list Addr) :=
  mapR (λ n, let '(a, ok) := ToAddr (ipn_IP n) in
    if ok then Ok a else Err (newInternalError (ErrText "failed to parse ip") "failed to parse ip")) l.

Lemma result_addrs_cons n l :
  result_addrs (n :: l) =
    let '(a, ok) := ToAddr (ipn_IP n) in
    if ok then match result_addrs l with Ok x => Ok (a :: x) | Err e => Err e end
    else Err (newInternalError (ErrText "failed to parse ip") "failed to parse ip").
Proof. unfold result_addrs. cbn [mapR]. by destruct (ToAddr (ipn_IP n)) as [a []]. Qed.

Lemma pick_locals_ok l l4 l6 r4 r6 :
  pick_locals l l4 l6 = Ok (r4, r6) ↔
    ∃ addrs, result_addrs l = Ok addrs ∧
      r4 = (if l4 is Some a then Some a else List.find Is4 addrs) ∧
      r6 = (if l6 is Some a then Some a else List.find Is6 addrs).
Proof.
  revert l4 l6. induction l as [|n l IH]; intros l4 l6.
  - simpl. split; [intros [= <- <-]; exists []; by destruct l4, l6|].
    intros (? & [= <-] & -> & ->). by destruct l4, l6.
  - rewrite result_addrs_cons. cbn [pick_locals].
    destruct (ToAddr (ipn_IP n)) as [a []]; cbn [negb]; [|split; [done|by intros (? & ? & _)]].
    rewrite IH. destruct (result_addrs l) as [addrs|]; [|split; by intros (? & ? & _)].
    split; intros (? & [= <-] & -> & ->).
    + exists (a :: addrs). split; [done|]. simpl. destruct l4, l6, (Is4 a), (Is6 a); done.
    + exists addrs. split; [done|]. simpl. destruct l4, l6, (Is4 a), (Is6 a); done.
Qed.

(** What [Add] does.  When it succeeds it returns the previous result
    unchanged; it then either found no egress and did not touch the pod's
    namespace, or set the pod up for exactly the listed egresses with the
    first IPv4 and the first IPv6 address of the previous result.  When it
    fails, the namespace is untouched unless the set-up itself failed. *)
Lemma ponad_Add_spec (s : server) (args : CNIArgs) (k : K) :
  let key := mkNamespacedName (default "" (rpc_Args args !! PodNamespaceKey))
               (default "" (rpc_Args args !! PodNameKey)) in
  let setup := λ pod p l4 l6 names,
    GetPod (apiReader s) key = Ok pod ∧ GetPrevResult lib args = Ok p ∧ listEgress range pod = Ok names ∧ names ≠ [] ∧
    ∃ addrs, result_addrs (IPs p) = Ok addrs ∧ l4 = List.find Is4 addrs ∧ l6 = List.find Is6 addrs in
  match Add lib range range_routes GetNS ns_enter args_text s args k with
  | (Ok b, k') =>
      ∃ p pod, GetPod (apiReader s) key = Ok pod ∧ GetPrevResult lib args = Ok p ∧ Marshal lib p = Ok b ∧
        ((listEgress range pod = Ok [] ∧ k' = k) ∨
         ∃ l4 l6 names, setup pod p l4 l6 names ∧ setup_pod range_routes s l4 l6 names k = (Ok tt, k'))
  | (Err e, k') =>
      k' = k ∨ ∃ pod p l4 l6 names, setup pod p l4 l6 names ∧
        setup_pod range_routes s l4 l6 names k = (Err e, k')
  end.
Proof.
  intros key setup. unfold Add. fold key. case_decide; [by left|].
  destruct (GetPod _ _) as [pod|err] eqn:Hpod; [|destruct (IsNotFound err); by left].
  destruct (GetPrevResult lib args) as [p|] eqn:Hp; [|by left].
  destruct (Marshal lib p) as [b|] eqn:Hb; [|by left].
  destruct (listEgress range pod) as [[|n names]|] eqn:Hl; [|..|by left].
  { exists p, pod. split_and!; auto. }
  destruct (pick_locals (IPs p) None None) as [[l4 l6]|] eqn:Hloc; [|by left].
  destruct (GetNS _); [|by left]. destruct (ns_enter _); [by left|].
  apply pick_locals_ok in Hloc as (addrs & Ha & -> & ->). simpl.
  assert (setup pod p (List.find Is4 addrs) (List.find Is6 addrs) (n :: names)) as Hset.
  { split_and!; try done. by exists addrs. }
  unfold mbind, M_bind.
  destruct (setup_pod range_routes s _ _ (n :: names) k) as [[[]|e] k'] eqn:Hs.
  - exists p, pod. split_and!; [done..|]. right. eauto 10.
  - right. eauto 10.
Qed.
End add.

(** ** Witnesses *)

Definition ex_pod2 : Pod :=
  mkPod "p" "default" {[ "egress.pona.cybozu.com/internet" := "nat,vpn" ]} false "Running" [] None.

Lemma ponad_listEgress_spec_witness :
  ∃ l, listEgress map_to_list ex_pod2 = Ok l ∧
    (mkNamespacedName "internet" "vpn" ∈ l ↔ HostNetwork ex_pod2 = false ∧
      ∃ v, pod_Annotations ex_pod2 !! (EgressAnnotationPrefix +:+ "internet") = Some v ∧ "vpn" ∈ Split v comma).
Proof. apply (ponad_listEgress_spec map_to_list ex_pod2 "internet" "vpn"). intros m. reflexivity. Defined.

Lemma ponad_watcher_agree_witness :
  mkNamespacedName "internet" "egress-a" ∈ [mkNamespacedName "internet" "egress-a"] ↔
  shouldHandle map_to_list ex_watcher (ex_pod "p" []) = true.
Proof.
  eapply (ponad_watcher_agree map_to_list map_to_list (ex_pod "p" []) "internet" "egress-a" "egress-a");
    try (intros m; reflexivity); [vm_compute; reflexivity..|discriminate|vm_compute; reflexivity].
Defined.

Lemma ponad_watcher_disagree_witness :
  mkNamespacedName "internet" "vpn" ∈ [mkNamespacedName "internet" "nat"; mkNamespacedName "internet" "vpn"] ∧
  shouldHandle map_to_list (mkPodWatcher "vpn" "internet") ex_pod2 = false.
Proof.
  eapply (ponad_watcher_disagree map_to_list map_to_list ex_pod2 "internet" "vpn" "nat,vpn");
    try (intros m; reflexivity); [vm_compute; reflexivity..| | |vm_compute; reflexivity];
    apply (bool_decide_unpack _); vm_compute; exact I.
Defined.

Definition ex_egress : Egress :=
  mkEgress (mkObjectMeta "nat" "internet" ∅ None None [])
    (mkEgressSpec ["1.1.1.0/24"; "2001:db8::/32"] 1 None None "" None None) (mkEgressStatus 0 "").
Definition ex_service : Service :=
  mkService (mkObjectMeta "nat" "internet" ∅ None None []) "ClusterIP" ∅ [] "" None "10.96.0.7".
Definition ex_server : server := mkServer (mkReader (λ _, Ok ex_pod2) (λ _, Ok ex_egress) (λ _, Ok ex_service)) 5555.

Lemma ex_destinations n :
  collectDestinationsForEgress ex_server n = Ok (AddrV4 (be_val [10; 96; 0; 7]), [MustParsePrefix "1.1.1.0/24"]).
Proof. vm_compute. reflexivity. Qed.

Lemma ex_kernel_destinations : kernel_destinations ex_server.
Proof.
  intros n g ds. rewrite ex_destinations. intros [= _ <-]. rewrite Forall_cons, Forall_nil.
  split; [apply MustParsePrefix_kernel; vm_compute; reflexivity|exact I].
Qed.

Lemma ex_fresh : fresh_pod empty_kern.
Proof.
  split; [|by intros []]. intros a n l Hn [Hl Hlo]%sim_LinkByName_ok.
  simpl in Hl. apply lookup_singleton_Some in Hl as [<- _].
  apply (fouName_not_reserved a "lo" Hn). apply (bool_decide_unpack _). vm_compute. exact I.
Qed.

Lemma ponad_setup_one_witness :
  let k' := (setup_pod map_to_list ex_server (Some (AddrV4 167772161)) None
               [mkNamespacedName "internet" "nat"] empty_kern).2 in
  ∃ link, LinkByName "fou4_0a600007" k' = Ok link ∧
    ∀ p, Some p ∈ link_dsts k' (lindex link) ↔ p ∈ [MustParsePrefix "1.1.1.0/24"].
Proof.
  intros k'.
  destruct (ponad_setup_one sim_listed_dst map_to_list (λ m, reflexivity _) ex_server (Some (AddrV4 167772161)) None
    (mkNamespacedName "internet" "nat") empty_kern k' ex_kernel_destinations ex_fresh)
    as (g & ds & name & link & H1 & H2 & H3 & H4 & _); [vm_compute; reflexivity|].
  rewrite ex_destinations in H1. injection H1 as <- <-.
  rewrite fouName_v4 in H2. vm_compute in H2. injection H2 as <-. exists link. split; [exact H3|exact H4].
Defined.

Lemma ponad_setup_two_fails_witness :
  is_ok (setup_pod map_to_list ex_server (Some (AddrV4 167772161)) None
    [mkNamespacedName "internet" "nat"; mkNamespacedName "internet" "vpn"] empty_kern).1 = false.
Proof.
  apply (ponad_setup_two_fails sim_listed_dst map_to_list (λ m, reflexivity _));
    [exact ex_kernel_destinations|exact ex_fresh].
Defined.
