(* ===== verification/CniChain.v ===== *)
(** * From the container runtime to the pod's namespace

    The generated RPC stubs of pkg/cnirpc/cni_grpc.pb.go, and what cmd/pona
    and ponad do together: the plugin's ADD goes through the client stub, gRPC
    and the server's handler to [Add] of ponad, and the answer comes back.
    gRPC is a parameter ([Grpc]). *)
From Stdlib Require Import Ascii String.
From S2P Require Import Prelude GoStrings NetAddr NetParse NetIPUtil Netlink SimKernel Tunnel.
From S2P Require Import FouTunnel NatClient PodWatcher EgressAPI CniPlugin Ponad.

Local Open Scope Z_scope.

(** ** The stubs *)

Definition CNI_Add_FullMethodName : string := "/pkg.cnirpc.CNI/Add".
Definition CNI_Del_FullMethodName : string := "/pkg.cnirpc.CNI/Del".
Definition CNI_Check_FullMethodName : string := "/pkg.cnirpc.CNI/Check".

Definition codes_Unimplemented : Z := 12.

Section stubs.
Context {K : Type}.

(** What a handler sends back: [AddResponse], or [emptypb.Empty]. *)
Inductive Reply := AddResponse (b : list Z) | Empty.

Record CNIServer := mkCNIServer {
  srv_Add : CNIArgs → M K Reply; srv_Del : CNIArgs → M K Reply; srv_Check : CNIArgs → M K Reply }.

Definition UnimplementedCNIServer : CNIServer := mkCNIServer
  (λ _, throw (ErrStatus codes_Unimplemented "method Add not implemented" []))
  (λ _, throw (ErrStatus codes_Unimplemented "method Del not implemented" []))
  (λ _, throw (ErrStatus codes_Unimplemented "method Check not implemented" [])).

(** An interceptor gets the request, the name of the method and the handler. *)
Definition UnaryServerInterceptor : Type := CNIArgs → string → (CNIArgs → M K Reply) → M K Reply.

(** [dec] is the decoded request. *)
Definition Handler : Type := CNIServer → result CNIArgs → option UnaryServerInterceptor → M K Reply.

Definition CNI_Add_Handler : Handler := λ srv dec interceptor,
  i ← lift dec;
  match interceptor with
  | None => srv_Add srv i
  | Some f => f i CNI_Add_FullMethodName (srv_Add srv)
  end.

Definition CNI_Del_Handler : Handler := λ srv dec interceptor,
  i ← lift dec;
  match interceptor with
  | None => srv_Del srv i
  | Some f => f i CNI_Del_FullMethodName (srv_Del srv)
  end.

Definition CNI_Check_Handler : Handler := λ srv dec interceptor,
  i ← lift dec;
  match interceptor with
  | None => srv_Check srv i
  | Some f => f i CNI_Check_FullMethodName (srv_Check srv)
  end.

Record ServiceDesc := mkServiceDesc { ServiceName : string; Methods : list (string * Handler) }.

Definition CNI_ServiceDesc : ServiceDesc :=
  mkServiceDesc "pkg.cnirpc.CNI"
    [("Add", CNI_Add_Handler); ("Del", CNI_Del_Handler); ("Check", CNI_Check_Handler)].

(** A gRPC server with a registered service. *)
Record GrpcServer := mkGrpcServer { gs_desc : ServiceDesc; gs_srv : CNIServer; gs_interceptor : option UnaryServerInterceptor }.

Definition RegisterCNIServer (interceptor : option UnaryServerInterceptor) (srv : CNIServer) : GrpcServer :=
  mkGrpcServer CNI_ServiceDesc srv interceptor.

(** gRPC: [Invoke] is a call as the client makes it, to a server that may or
    may not answer; [status_of] is what the client sees of a handler's error;
    [status_Convert] is in [CniLib]. *)
Class Grpc := {
  Invoke : GrpcServer → string → CNIArgs → M K Reply;
  status_of : goerror → goerror;
}.

(** No gRPC status anywhere in the chain of an error. *)
Fixpoint plain (e : goerror) : bool :=
  match e with ErrStatus _ _ _ => false | ErrWrap _ e' _ => plain e' | _ => true end.

(** The handler registered for the method answers, or the call fails on its
    way there or back, with a status that has no details.  A status the
    handler returns reaches the client as it is, any other error as one of
    code Unknown. *)
Class GrpcLaws `{G : Grpc} := {
  Invoke_cases srv m h args k :
    NoDup (Methods (gs_desc srv)).*1 → (m, h) ∈ Methods (gs_desc srv) →
    let '(r, k') := h (gs_srv srv) (Ok args) (gs_interceptor srv) k in
    let name := "/" +:+ ServiceName (gs_desc srv) +:+ "/" +:+ m in
    Invoke srv name args k = (match r with Ok x => Ok x | Err e => Err (status_of e) end, k') ∨
    ∃ c msg k2, c ≠ 0 ∧ (k2 = k ∨ k2 = k') ∧ Invoke srv name args k = (Err (ErrStatus c msg []), k2);
  status_of_status c m d : c ≠ 0 → status_of (ErrStatus c m d) = ErrStatus c m d;
  status_of_plain e : plain e = true → status_of e = ErrStatus codes_Unknown (Error e) [];
}.

Context {G : Grpc}.

Definition cNIClient_Add (srv : GrpcServer) (i : CNIArgs) : M K (list Z) :=
  out ← Invoke srv CNI_Add_FullMethodName i;
  match out with AddResponse b => mret b | Empty => mret [] end.

Definition cNIClient_Del (srv : GrpcServer) (i : CNIArgs) : M K unit := Invoke srv CNI_Del_FullMethodName i;; mret tt.

Definition cNIClient_Check (srv : GrpcServer) (i : CNIArgs) : M K unit := Invoke srv CNI_Check_FullMethodName i;; mret tt.
End stubs.
Arguments CNIServer : clear implicits.
Arguments GrpcServer : clear implicits.
Arguments Grpc : clear implicits.
Arguments GrpcLaws K {G}.
Arguments UnaryServerInterceptor : clear implicits.

(** ** ponad behind its socket *)

Section chain.
Context {K : Type} {NL : Netlink K} {G : Grpc K}.
Context (lib : CniLib).
Context (range : gmap string string → list (string * string)).
Context (range_routes : gmap Prefix Route → list (Prefix * Route)).
Context (GetNS : string → result unit) (ns_enter : string → option goerror).
Context (args_text : gmap string string → string).
(** The logging interceptor. *)
Context (log_interceptor : UnaryServerInterceptor K).

Definition ponad_Add := Add lib range range_routes GetNS ns_enter args_text.

(** [server] as the service registers it: [Result: b] in the reply to [Add]. *)
Definition ponad_CNIServer (s : server) : CNIServer K := mkCNIServer
  (λ a, b ← ponad_Add s a; mret (AddResponse b))
  (λ a, lift (Del s a);; mret Empty)
  (λ a, lift (Check_ s a);; mret Empty).

(** [Start], up to [Serve]. *)
Definition server_Start (s : server) : GrpcServer K := RegisterCNIServer (Some log_interceptor) (ponad_CNIServer s).

(** The plugin's ADD with ponad [s] at the other end of the socket. *)
Definition plugin_add (s : server) (args : CmdArgs) : K → outcome (result unit) * K :=
  cmdAdd lib (cNIClient_Add (server_Start s)) args.

(** ** What comes back *)

(** The errors of [Add]: a status with one CNI error in it, or no status. *)
Definition reportable (e : goerror) : Prop :=
  plain e = true ∨ ∃ c m code msg det, c ≠ 0 ∧ 0 ≤ code < 2 ^ 31 ∧ e = ErrStatus c m [DetailCNIError code msg det].

Lemma newError_reportable c code msg det : c ≠ 0 → 0 ≤ code < 2 ^ 31 → reportable (newError c code msg det).
Proof. intros Hc Hr. right. unfold newError. eauto 10. Qed.

Lemma internal_reportable err msg : reportable (newInternalError err msg).
Proof. by apply newError_reportable. Qed.

Definition reports {A} (m : M K A) : Prop := ∀ k e k', m k = (Err e, k') → reportable e.

Lemma reports_bind {A B} (m : M K A) (f : A → M K B) : reports m → (∀ a, reports (f a)) → reports (m ≫= f).
Proof. intros Hm Hf k e k' [H|(a & k1 & _ & H)]%bind_err; [by eapply Hm|by eapply Hf]. Qed.

Lemma reports_wrap {A} (f : goerror → goerror) (m : M K A) : (∀ e, reportable (f e)) → reports (wrap f m).
Proof. intros Hf k e k' (e0 & _ & ->)%wrap_err. apply Hf. Qed.

Lemma reports_throw {A} e : reportable e → reports (throw (A:=A) e).
Proof. by intros He k e' k' [= <- _]. Qed.

Lemma reports_ret {A} (a : A) : reports (mret a).
Proof. by intros k e k' [=]. Qed.

Lemma reports_forM {A} (l : list A) (f : A → M K unit) : (∀ a, reports (f a)) → reports (forM_ l f).
Proof. intros Hf. induction l as [|x l IH]; [apply reports_ret|]. by apply reports_bind. Qed.

Create HintDb reports.
#[local] Hint Resolve newError_reportable internal_reportable reports_bind reports_wrap reports_throw reports_ret
  reports_forM : reports.

Lemma setup_egress_reports s ft nt n : reports (setup_egress (NL:=NL) range_routes s ft nt n).
Proof.
  unfold setup_egress. destruct (collectDestinationsForEgress s n) as [[g ds]|]; eauto 6 with reports.
Qed.

Lemma setup_pod_reports s l4 l6 names : reports (setup_pod (NL:=NL) range_routes s l4 l6 names).
Proof.
  unfold setup_pod. destruct (NewFoUTunnelController _ _ _); [|auto with reports].
  apply reports_bind; [auto with reports|]. intros _. simpl.
  apply reports_bind; [auto with reports|]. intros _. apply reports_forM. intros n. apply setup_egress_reports.
Qed.

Lemma pick_locals_reports l l4 l6 e : pick_locals l l4 l6 = Err e → reportable e.
Proof.
  revert l4 l6. induction l as [|n l IH]; intros l4 l6; cbn [pick_locals]; [done|].
  destruct (ToAddr (ipn_IP n)) as [a []]; cbn [negb]; [apply IH|]. intros [= <-]. apply internal_reportable.
Qed.

(** The namespace library's errors are not gRPC's. *)
Context (GetNS_plain : ∀ path e, GetNS path = Err e → plain e = true).
Context (ns_enter_plain : ∀ path e, ns_enter path = Some e → plain e = true).

Lemma Add_reports s args : reports (ponad_Add s args).
Proof.
  unfold ponad_Add, Add. case_decide; [apply reports_throw; by left|].
  destruct (GetPod _ _) as [pod|err]; [|destruct (IsNotFound err); auto with reports; by apply reports_throw, newError_reportable].
  destruct (GetPrevResult lib args) as [p|]; [|auto with reports].
  destruct (Marshal lib p) as [b|]; [|auto with reports].
  destruct (listEgress range pod) as [[|n names]|]; [auto with reports| |auto with reports].
  destruct (pick_locals (IPs p) None None) as [[l4 l6]|e] eqn:Hl; [|by apply reports_throw; eapply pick_locals_reports].
  destruct (GetNS _) as [[]|e] eqn:Hn; [|apply reports_throw; left; simpl; by eapply GetNS_plain].
  destruct (ns_enter _) as [e|] eqn:He; [apply reports_throw; left; by eapply ns_enter_plain|].
  apply reports_bind; [apply setup_pod_reports|auto with reports].
Qed.

(** ** The whole way *)

Context {GL : GrpcLaws K}.
Context (status_Convert_status : ∀ c m d, c ≠ 0 → status_Convert lib (ErrStatus c m d) = (c, m, d)).
(** The JSON of a result is read back as that result. *)
Context (NewResult_Marshal : ∀ p b, Marshal lib p = Ok b → NewResult lib b = Ok p).
(** The interceptor only logs. *)
Context (log_transparent : ∀ i m f (k : K), log_interceptor i m f k = f i k).

Lemma convert_reportable e : reportable e → ∃ code msg det,
  convertError lib (status_of e) = Returns (ErrCNI code msg det) ∧ 0 ≤ code < 2 ^ 31.
Proof.
  unfold convertError. intros [Hp|(c & m & code & msg & det & Hc & Hr & ->)].
  - rewrite status_of_plain, status_Convert_status by done. by eexists _, _, _.
  - rewrite status_of_status, status_Convert_status by done. eexists _, _, _. split; [done|].
    unfold to_uint. rewrite Z.mod_small; lia.
Qed.

(** A call of the client stub: ponad's answer, or a failure of gRPC before or
    after ponad ran. *)
Lemma client_Add_cases s a k :
  let '(r, k') := ponad_Add s a k in
  cNIClient_Add (server_Start s) a k = (match r with Ok b => Ok b | Err e => Err (status_of e) end, k') ∨
  ∃ c m k2, c ≠ 0 ∧ (k2 = k ∨ k2 = k') ∧ cNIClient_Add (server_Start s) a k = (Err (ErrStatus c m []), k2).
Proof.
  assert (NoDup (Methods (K:=K) CNI_ServiceDesc).*1) as Hnd by (by apply (bool_decide_unpack _)).
  pose proof (Invoke_cases (server_Start s) "Add" CNI_Add_Handler a k Hnd (list_elem_of_here _ _)) as HI.
  change ("/" +:+ _ +:+ "/" +:+ "Add") with CNI_Add_FullMethodName in HI.
  unfold cNIClient_Add. unfold CNI_Add_Handler in HI. simpl in HI.
  rewrite (run_bind_ok (lift (Ok a)) _ k a k eq_refl), log_transparent in HI.
  destruct (ponad_Add s a k) as [[b|e] k'] eqn:HA.
  - rewrite (run_bind_ok _ _ _ _ _ HA) in HI. destruct HI as [HI|(c & m & k2 & Hc & Hk & HI)].
    + left. by rewrite (run_bind_ok _ _ _ _ _ HI).
    + right. exists c, m, k2. split_and!; [done..|]. by apply run_bind_err.
  - rewrite (run_bind_err _ _ _ _ _ HA) in HI. destruct HI as [HI|(c & m & k2 & Hc & Hk & HI)].
    + left. by apply run_bind_err.
    + right. exists c, m, k2. split_and!; [done..|]. by apply run_bind_err.
Qed.

(** ponad set the pod up for the egresses its annotations list, with the first
    addresses of the previous result, and [r] came out of it. *)
Definition pod_set_up (s : server) (key : NamespacedName) (p : Result) (k : K) (r : result unit) (k' : K) : Prop :=
  ∃ pod names addrs, GetPod (apiReader s) key = Ok pod ∧ listEgress range pod = Ok names ∧ names ≠ [] ∧
    result_addrs (IPs p) = Ok addrs ∧
    setup_pod range_routes s (List.find Is4 addrs) (List.find Is6 addrs) names k = (r, k').

Lemma Add_cases s a k :
  let key := mkNamespacedName (default "" (rpc_Args a !! PodNamespaceKey)) (default "" (rpc_Args a !! PodNameKey)) in
  match ponad_Add s a k with
  | (Ok b, k') => ∃ p pod, GetPod (apiReader s) key = Ok pod ∧ GetPrevResult lib a = Ok p ∧ NewResult lib b = Ok p ∧
      ((listEgress range pod = Ok [] ∧ k' = k) ∨ pod_set_up s key p k (Ok tt) k')
  | (Err e, k') => k' = k ∨ ∃ p, GetPrevResult lib a = Ok p ∧ pod_set_up s key p k (Err e) k'
  end.
Proof.
  intros key. pose proof (ponad_Add_spec lib range range_routes GetNS ns_enter args_text s a k) as HS.
  fold key in HS. unfold ponad_Add. destruct (Add _ _ _ _ _ _ s a k) as [[b|e] k'].
  - destruct HS as (p & pod & Hpod & Hp & Hb & Hcase). exists p, pod. split_and!; [done..|by apply NewResult_Marshal|].
    destruct Hcase as [?|(l4 & l6 & names & (_ & _ & Hl & Hne & addrs & Ha & -> & ->) & Hs)]; [by left|right].
    exists pod, names, addrs. done.
  - destruct HS as [->|(pod & p & l4 & l6 & names & (Hpod & Hp & Hl & Hne & addrs & Ha & -> & ->) & Hs)]; [by left|right].
    exists p. split; [done|]. exists pod, names, addrs. done.
Qed.

Lemma prev_result args conf ns name c p :
  ParseConfig lib (StdinData args) = Ok conf →
  GetPrevResult lib (mkCNIArgs (ContainerID args) (Netns args) (IfName args) (PluginEnvArgs_Map (ns, name, c))
    (Path args) (StdinData args)) = Ok p → GetResult lib (PrevResult conf) = Ok p.
Proof.
  intros Hc. unfold GetPrevResult. cbn [rpc_StdinData]. rewrite Hc. destruct (GetResult lib _); [done|]. done.
Qed.

(** An error of the plugin's own, before the call. *)
Ltac own_error := split; [left; by eexists _, _, _|by left].

(** How an ADD can end. *)
Lemma plugin_add_cases (s : server) (args : CmdArgs) (k : K) :
  let '(r, k') := plugin_add s args k in
  let key := λ ns name c, LoadArgs lib (Args args) = Ok (ns, name, c) in
  match r with
  | Panics => False
  | Returns (Ok _) =>
      ∃ conf p ns name c pod, ParseConfig lib (StdinData args) = Ok conf ∧ GetResult lib (PrevResult conf) = Ok p ∧
        PrintResult lib p (CNIVersion conf) = Ok tt ∧ key ns name c ∧
        GetPod (apiReader s) (mkNamespacedName ns name) = Ok pod ∧
        ((listEgress range pod = Ok [] ∧ k' = k) ∨ pod_set_up s (mkNamespacedName ns name) p k (Ok tt) k')
  | Returns (Err e) =>
      ((∃ code msg det, e = ErrCNI code msg det ∧ 0 ≤ code < 2 ^ 31) ∨ ∃ p v, PrintResult lib p v = Err e) ∧
      (k' = k ∨ ∃ ns name c p r', key ns name c ∧ pod_set_up s (mkNamespacedName ns name) p k r' k')
  end.
Proof.
  unfold plugin_add, cmdAdd. destruct (ParseConfig lib (StdinData args)) as [conf|] eqn:Hconf; [|own_error].
  case_bool_decide; [|own_error]. unfold makeCNIArgs.
  destruct (LoadArgs lib (Args args)) as [[[ns name] c]|] eqn:Hargs; [|own_error].
  destruct (connect lib (Socket conf)) as [[]|]; [|own_error].
  cbn beta iota. set (a := mkCNIArgs _ _ _ _ _ _). pose proof (client_Add_cases s a k) as HC. pose proof (Add_cases s a k) as HA.
  pose proof (Add_reports s a k) as HR.
  assert (mkNamespacedName (default "" (rpc_Args a !! PodNamespaceKey)) (default "" (rpc_Args a !! PodNameKey)) =
    mkNamespacedName ns name) as Hkey by done. cbv zeta in HA. rewrite Hkey in HA.
  destruct (ponad_Add s a k) as [[b|e] k1].
  - destruct HA as (p & pod & Hpod & Hp & Hn & Hcase). apply (prev_result args conf) in Hp; [|done].
    destruct HC as [-> |(c0 & m & k2 & Hc & Hk & ->)].
    + rewrite Hn. destruct (PrintResult lib p (CNIVersion conf)) as [[]|e] eqn:Hpr; [eauto 15|].
      split; [eauto|]. destruct Hcase as [[_ ->]|Hs]; [by left|right]. eauto 10.
    + unfold convertError. rewrite status_Convert_status by done.
      split; [left; by eexists _, _, _|].
      destruct Hk as [-> | ->]; [by left|]. destruct Hcase as [[_ ->]|Hs]; [by left|right]. eauto 10.
  - assert (k1 = k ∨ ∃ ns' name' c' p r', Ok (ns, name, c) = Ok (ns', name', c') ∧
      pod_set_up s (mkNamespacedName ns' name') p k r' k1) as Hst
      by (destruct HA as [->|(p & _ & Hs)]; [by left|right; eauto 10]).
    destruct HC as [-> |(c0 & m & k2 & Hc & Hk & ->)].
    + destruct (convert_reportable e) as (code & msg & det & -> & Hb); [by eapply HR|]. eauto 10.
    + unfold convertError. rewrite status_Convert_status by done.
      split; [left; by eexists _, _, _|]. destruct Hk as [-> | ->]; [by left|done].
Qed.

(** C7: an ADD from the container runtime to the pod's namespace and back.
    The plugin never crashes on what ponad or gRPC answer.  When it succeeds,
    it prints the result of the plugins before it, and the pod named in the
    CNI arguments either lists no egress and its namespace is as it was, or
    has been set up for exactly the egresses it lists.  When it fails, it
    fails with a CNI error (or with the error of printing), and the namespace
    is as it was unless ponad got as far as setting the pod up. *)
Theorem cni_add_end_to_end (s : server) (args : CmdArgs) (k : K) :
  let '(r, k') := plugin_add s args k in
  let key := λ ns name c, LoadArgs lib (Args args) = Ok (ns, name, c) in
  match r with
  | Panics => False
  | Returns (Ok _) =>
      ∃ conf p ns name c pod, ParseConfig lib (StdinData args) = Ok conf ∧ GetResult lib (PrevResult conf) = Ok p ∧
        PrintResult lib p (CNIVersion conf) = Ok tt ∧ key ns name c ∧
        GetPod (apiReader s) (mkNamespacedName ns name) = Ok pod ∧
        ((listEgress range pod = Ok [] ∧ k' = k) ∨ pod_set_up s (mkNamespacedName ns name) p k (Ok tt) k')
  | Returns (Err e) =>
      ((∃ code msg det, e = ErrCNI code msg det ∧ 0 ≤ code < 2 ^ 31) ∨ ∃ p v, PrintResult lib p v = Err e) ∧
      (k' = k ∨ ∃ ns name c p r', key ns name c ∧ pod_set_up s (mkNamespacedName ns name) p k r' k')
  end.
Proof. apply plugin_add_cases. Qed.
End chain.

(** ** Witness *)

(** gRPC that always delivers. *)
Section delivering.
Context {K : Type}.

Definition full_name (srv : GrpcServer K) (m : string) : string := "/" +:+ ServiceName (gs_desc srv) +:+ "/" +:+ m.

Definition plain_status (e : goerror) : goerror :=
  match e with
  | ErrStatus c m d => ErrStatus c m d
  | _ => ErrStatus codes_Unknown (Error e) []
  end.

Definition call_method (srv : GrpcServer K) (name : string) (args : CNIArgs) : M K Reply := λ k,
  match List.find (λ mh, bool_decide (full_name srv mh.1 = name)) (Methods (gs_desc srv)) with
  | Some (_, h) =>
      let '(r, k') := h (gs_srv srv) (Ok args) (gs_interceptor srv) k in
      (match r with Ok x => Ok x | Err e => Err (plain_status e) end, k')
  | None => (Err (ErrStatus codes_Unimplemented "unknown method" []), k)
  end.

#[export] Instance delivering : Grpc K := {| Invoke := call_method; status_of := plain_status |}.

#[export] Instance delivering_laws : GrpcLaws K.
Proof.
  constructor.
  - intros srv m h args k Hnd Hin. destruct (h _ _ _ k) as [r k'] eqn:Hh. left.
    change (call_method srv (full_name srv m) args k = (match r with Ok x => Ok x | Err e => Err (plain_status e) end, k')).
    unfold call_method.
    assert (List.find (λ mh, bool_decide (full_name srv mh.1 = full_name srv m)) (Methods (gs_desc srv)) = Some (m, h)) as ->.
    { revert Hnd Hin. induction (Methods (gs_desc srv)) as [|[m' h'] l IH]; intros Hnd Hin; [by apply not_elem_of_nil in Hin|].
      cbn. inversion Hnd as [|? ? Hm' Hnd']; subst. case_bool_decide as Hname.
      - unfold full_name in Hname. apply (inj (String.app "/")), (inj (String.app _)), (inj (String.app "/")) in Hname. subst.
        apply elem_of_cons in Hin as [[= ->]|Hin]; [done|]. destruct Hm'. by apply (list_elem_of_fmap_2 fst _ (m, h)).
      - apply elem_of_cons in Hin as [[= -> ->]|Hin]; [done|]. by apply IH. }
    by rewrite Hh.
  - done.
  - intros e He. by destruct e.
Qed.
End delivering.

Definition ex_result : Result := mkResult [mkIPNet [10; 0; 0; 5] [255; 255; 255; 255]] "eth0".

(** A library that knows one network configuration and one result. *)
Definition ex_chain_lib : CniLib := mkCniLib unit
  (λ _, Ok (mkPluginConf "1.1.0" (Some tt) "/run/ponad.sock")) Ok (λ _, Ok ex_result)
  (λ b, if decide (b = [1]) then Ok ex_result else Err (ErrText "unexpected JSON")) (λ _ _, Ok tt)
  (λ p, if decide (IPs p = IPs ex_result ∧ res_other p = res_other ex_result) then Ok [1] else Err (ErrText "unsupported"))
  (λ _, Ok ("default", "p", "abc")) (λ _, Ok tt)
  (λ e, match e with ErrStatus c m d => (c, m, d) | _ => (2, Error e, []) end).

Definition ex_chain_server : server :=
  mkServer (mkReader (λ _, Ok (mkPod "p" "default" {[ "egress.pona.cybozu.com/internet" := "nat" ]} false "Running" [] None))
    (λ _, Ok ex_egress) (λ _, Ok ex_service)) 5555.

Definition ex_cmd : CmdArgs := mkCmdArgs "abc" "/var/run/netns/x" "eth0" "K8S_POD_NAME=p;K8S_POD_NAMESPACE=default" "" [].

Definition ex_add : outcome (result unit) * Kern :=
  plugin_add ex_chain_lib map_to_list map_to_list (λ _, Ok tt) (λ _, None) (λ _, "") (λ i _ f, f i)
    ex_chain_server ex_cmd empty_kern.

Lemma cni_add_end_to_end_witness :
  ex_add.1 = Returns (Ok tt) ∧
  ∃ conf p ns name c pod, ParseConfig ex_chain_lib (StdinData ex_cmd) = Ok conf ∧
    GetResult ex_chain_lib (PrevResult conf) = Ok p ∧ PrintResult ex_chain_lib p (CNIVersion conf) = Ok tt ∧
    LoadArgs ex_chain_lib (Args ex_cmd) = Ok (ns, name, c) ∧
    GetPod (apiReader ex_chain_server) (mkNamespacedName ns name) = Ok pod ∧
    ((listEgress map_to_list pod = Ok [] ∧ ex_add.2 = empty_kern) ∨
     pod_set_up map_to_list map_to_list ex_chain_server (mkNamespacedName ns name) p empty_kern (Ok tt) ex_add.2).
Proof.
  assert (ex_add.1 = Returns (Ok tt)) as E by (vm_compute; reflexivity). split; [exact E|].
  assert (∀ p b, Marshal ex_chain_lib p = Ok b → NewResult ex_chain_lib b = Ok p) as Hjson.
  { intros [ips o] b. cbn -[decide]. case_decide as Hd; [|discriminate]. intros [= <-]. destruct Hd as [-> ->]. reflexivity. }
  pose proof (cni_add_end_to_end ex_chain_lib map_to_list map_to_list (λ _, Ok tt) (λ _, None) (λ _, "") (λ i _ f, f i)
    ltac:(discriminate) ltac:(discriminate) (λ c m d _, eq_refl) Hjson (λ i m f k, eq_refl)
    ex_chain_server ex_cmd empty_kern) as H.
  change (plugin_add _ _ _ _ _ _ _ _ _ _) with ex_add in H. destruct ex_add as [r k']. simpl in E. subst r. exact H.
Defined.
