(* ===== verification/ClientPath.v ===== *)
(** * Where the packets of a client pod go

    ponad's set-up of a pod, seen from the pod's data plane: which packets
    enter the tunnel to the NAT gateway, by the routing specification of
    [Routing], and which keep the route they had. *)
From Stdlib Require Import Ascii String.
From S2P Require Import Prelude GoStrings NetAddr NetParse NetIPUtil Netlink SimKernel Routing Tunnel FouTunnel.
From S2P Require Import NatClient PodWatcher CniPlugin EgressAPI Ponad CniChain.

Local Open Scope Z_scope.

(** The longest destination that has the address is at least as long as every
    prefix in [vs] that has it. *)
Definition more_specific (ds vs : list Prefix) (a : Addr) : bool :=
  existsb (λ p, contains p a &&
    forallb (λ v, implb (contains v a) (Prefix_Bits v <=? Prefix_Bits p)) vs) ds.

(** The addresses a pod reaches through its egress. *)
Definition egress_bound (ds : list Prefix) (a : Addr) : bool := more_specific ds throw_list a.

Lemma more_specific_spec ds vs a :
  more_specific ds vs a = true ↔
    ∃ p, p ∈ ds ∧ contains p a = true ∧ ∀ v, v ∈ vs → contains v a = true → Prefix_Bits v ≤ Prefix_Bits p.
Proof.
  unfold more_specific. rewrite existsb_exists. split.
  - intros (p & Hp%list_elem_of_In & [Hc Hv]%andb_true_iff). rewrite forallb_forall in Hv.
    exists p. split_and!; [done..|]. intros v Hin%list_elem_of_In Hcv. specialize (Hv v Hin).
    rewrite Hcv in Hv. simpl in Hv. by apply Z.leb_le.
  - intros (p & Hp & Hc & Hv). exists p. split; [by apply list_elem_of_In|]. apply andb_true_iff.
    split; [done|]. apply forallb_forall. intros v Hin%list_elem_of_In.
    destruct (contains v a) eqn:Hcv; [|done]. simpl. apply Z.leb_le. auto.
Qed.

Lemma route_covers_prefix r p a : dst_prefix r = Some p → route_covers a r = contains p a.
Proof.
  intros Hp. unfold route_covers. rewrite Hp. unfold dst_prefix in Hp. by destruct (rt_Dst r).
Qed.

Lemma route_bits_prefix r p : dst_prefix r = Some p → route_bits r = Prefix_Bits p.
Proof. intros Hp. unfold route_bits. by rewrite Hp. Qed.

(** ** The client's table *)

Section table.
Context (idx : Z).

Abbreviation to_link := (added (λ n, mkRoute ncTableID (Some (ToIPNet n)) idx ncProtocolID routeMetric RTN_UNSPEC)).
Abbreviation to_throw := (added (λ n, mkRoute ncTableID (Some (ToIPNet n)) 0 ncProtocolID throwMetric RTN_THROW)).

Lemma to_link_attrs n r :
  to_link n r → rt_LinkIndex r = idx ∧ rt_Priority r = routeMetric ∧ rt_Type r ≠ RTN_THROW ∧ dst_prefix r = Some n.
Proof.
  intros [(_ & Hp & Hi & Ht & _) Hd]. rewrite decide_False in Hi by done. split_and!; [done|by apply Hp| |done].
  intros Hx. by apply Ht in Hx.
Qed.

Lemma to_throw_attrs n r : to_throw n r → rt_Priority r = throwMetric ∧ rt_Type r = RTN_THROW ∧ dst_prefix r = Some n.
Proof. intros [(_ & Hp & _ & Ht & _) Hd]. split_and!; [by apply Hp|by apply Ht|done]. Qed.

(** A table of routes through one link and throw routes sends an address
    through the link when its most specific entry, the link's first among
    equals, is one of the link. *)
Lemma client_table_lookup (l rs ts : list Route) (ds vs : list Prefix) (a : Addr) :
  (∀ r, r ∈ l → r ∈ rs ++ ts) → (∀ r, r ∈ rs ++ ts → route_covers a r = true → r ∈ l) →
  Forall2 to_link ds rs → Forall2 to_throw vs ts →
  match fib_lookup l a with
  | Some r => if decide (rt_Type r = RTN_THROW) then more_specific ds vs a = false
              else more_specific ds vs a = true ∧ rt_LinkIndex r = idx
  | None => more_specific ds vs a = false
  end.
Proof.
  intros Hl Hl2 Hds Hvs.
  assert (∀ r, r ∈ rs → ∃ p, p ∈ ds ∧ to_link p r) as Hrs by (intros r Hr; by eapply Forall2_elem_of_r).
  assert (∀ r, r ∈ ts → ∃ p, p ∈ vs ∧ to_throw p r) as Hts by (intros r Hr; by eapply Forall2_elem_of_r).
  assert (∀ p, p ∈ ds → contains p a = true → ∃ r, r ∈ l ∧ route_covers a r = true ∧ to_link p r) as Hin.
  { intros p Hp Hc. destruct (Forall2_elem_of_l _ _ _ _ Hds Hp) as (r & Hr & Hto).
    assert (route_covers a r = true) as Hcr by (by rewrite (route_covers_prefix r p) by apply Hto).
    exists r. split_and!; [|done..]. apply Hl2; [|done]. apply elem_of_app. by left. }
  assert (∀ v, v ∈ vs → contains v a = true → ∃ r, r ∈ l ∧ route_covers a r = true ∧ to_throw v r) as Hvin.
  { intros p Hp Hc. destruct (Forall2_elem_of_l _ _ _ _ Hvs Hp) as (r & Hr & Hto).
    assert (route_covers a r = true) as Hcr by (by rewrite (route_covers_prefix r p) by apply Hto).
    exists r. split_and!; [|done..]. apply Hl2; [|done]. apply elem_of_app. by right. }
  destruct (fib_lookup l a) as [b|] eqn:Hf.
  - apply fib_lookup_Some in Hf as (Hb & Hcb & Hbest). apply Hl, elem_of_app in Hb as [Hb|Hb].
    + apply Hrs in Hb as (p & Hp & Hto). pose proof (to_link_attrs _ _ Hto) as (Hi & _ & Hty & Hd).
      rewrite decide_False by done. split; [|done]. apply more_specific_spec. exists p.
      rewrite (route_covers_prefix b p) in Hcb by done. split_and!; [done..|]. intros v Hv Hcv.
      destruct (Hvin v Hv Hcv) as (r & Hr & Hcr & (_ & _ & Hdv)%to_throw_attrs).
      specialize (Hbest r Hr Hcr). unfold better in Hbest.
      rewrite (route_bits_prefix b p), (route_bits_prefix r v) in Hbest by done. lia.
    + apply Hts in Hb as (v & Hv & (Hpr & Hty & Hd)%to_throw_attrs). rewrite decide_True by done.
      apply not_true_iff_false. intros (p & Hp & Hc & Hmax)%more_specific_spec.
      rewrite (route_covers_prefix b v) in Hcb by done. specialize (Hmax v Hv Hcb).
      destruct (Hin p Hp Hc) as (r & Hr & Hcr & (_ & Hprr & _ & Hdr)%to_link_attrs).
      specialize (Hbest r Hr Hcr). unfold better in Hbest.
      rewrite (route_bits_prefix b v), (route_bits_prefix r p), Hpr, Hprr in Hbest by done.
      unfold throwMetric, routeMetric in Hbest. lia.
  - apply not_true_iff_false. intros (p & Hp & Hc & _)%more_specific_spec.
    destruct (Hin p Hp Hc) as (r & Hr & Hcr & _). apply (proj1 (fib_lookup_None l a)) with (r := r) in Hf; congruence.
Qed.
End table.

Section client_path.
Context {K : Type} {NL : Netlink K} {L : NetlinkLaws K} {H : HostLaws K}.
Context (listed_dst : ∀ (k : K) f r, r ∈ routes k f → rt_Dst r ≠ None).
Context (range_routes : gmap Prefix Route → list (Prefix * Route)).
Context (range_perm : ∀ m, range_routes m ≡ₚ map_to_list m).
Context (selector : string * Z → Packet → bool).

(** A route that has a packet's destination is listed in its family. *)
Lemma covering_family k r p a :
  r ∈ all_routes k → dst_prefix r = Some p → p_ip p ≠ AddrInvalid → contains p a = true →
  r ∈ routes k (addr_family a).
Proof.
  intros Hr Hp Hne Hc. destruct (all_routes_dst listed_dst _ _ Hr) as (d & q & Hd & Hf & Hq & Hin).
  assert (q = p) as -> by congruence. rewrite (FromIPNet_family _ _ Hf) in Hin.
  unfold contains in Hc. apply andb_true_iff in Hc as [Hb%bool_decide_eq_true _].
  unfold addr_family. by destruct (p_ip p), a.
Qed.

Lemma route_member (rs ts : list Route) k a :
  filter (λ r, rt_Table r = ncTableID) (all_routes k) ≡ₚ rs ++ ts →
  (∀ r, r ∈ rs ++ ts → ∃ p, dst_prefix r = Some p ∧ kernel_prefix p) →
  (∀ r, r ∈ table k (addr_family a) ncTableID → r ∈ rs ++ ts) ∧
  (∀ r, r ∈ rs ++ ts → route_covers a r = true → r ∈ table k (addr_family a) ncTableID).
Proof.
  intros Hall Hk. split.
  - intros r [Ht Hr]%list_elem_of_filter. rewrite <- Hall. apply list_elem_of_filter.
    split; [done|]. by eapply all_routes_elem.
  - intros r Hr Hc. destruct (Hk r Hr) as (p & Hp & (_ & Hne & _) & _).
    rewrite (route_covers_prefix r p) in Hc by done.
    rewrite <- Hall in Hr. apply list_elem_of_filter in Hr as [Ht Hr]. apply list_elem_of_filter.
    split; [done|]. by eapply covering_family.
Qed.

(** What [setup_egress] leaves in the client's table of a fresh pod. *)
Lemma setup_egress_table s ft nt n k k' :
  kernel_destinations s → fresh_pod k → setup_egress range_routes s ft nt n k = (Ok tt, k') →
  ∃ g ds name link rs ts, collectDestinationsForEgress s n = Ok (g, ds) ∧ fouName g = Ok name ∧
    LinkByName name k' = Ok link ∧ filter (λ r, rt_Table r = ncTableID) (all_routes k') ≡ₚ rs ++ ts ∧
    Forall2 (added (λ n, mkRoute ncTableID (Some (ToIPNet n)) (lindex link) ncProtocolID routeMetric RTN_UNSPEC)) ds rs ∧
    Forall2 (added (λ n, mkRoute ncTableID (Some (ToIPNet n)) 0 ncProtocolID throwMetric RTN_THROW)) throw_list ts ∧
    rules k' = rules k ∧ ((∀ x, local4 ft = Some x → Is4 x = true) → Is4 g = true → joins ft g link).
Proof.
  intros Hk Hfr Hrun.
  destruct (setup_egress_ok listed_dst _ range_perm _ _ _ _ _ _ Hk Hfr Hrun)
    as (_ & _ & _ & _ & _ & _ & _ & _ & _ & Hru).
  unfold setup_egress in Hrun. destruct (collectDestinationsForEgress s n) as [[g ds]|e] eqn:Hc; [|done].
  apply bind_ok in Hrun as (link & k1 & Ha%wrap_ok & Hu%wrap_ok).
  destruct (AddPeer_fresh listed_dst range_routes range_perm _ _ _ _ _ Hfr Ha) as (Hidx & Ht & Hr & name & l2 & Hname & Hl2 & Hi2).
  destruct (UpdateRoutes_fresh listed_dst range_routes range_perm _ _ _ _ _ (Hk _ _ _ Hc) Ht Hu)
    as (rs & ts & Hall & Hrs & Hts).
  exists g, ds, name, l2, rs, ts. rewrite Hi2. split_and!; try done.
  - by rewrite (UpdateRoutes_links range_routes range_perm _ _ _ _ _ name Hu).
  - intros Hfam H4. destruct (LinkByName name k) as [l0|e] eqn:He; [by destruct (proj1 Hfr g name l0)|].
    eapply fou_AddPeer_joins; [done..|]. by rewrite Ha.
Qed.

(** What that table does with an address. *)
Lemma client_lookup k a ds idx rs ts :
  Forall kernel_prefix ds →
  filter (λ r, rt_Table r = ncTableID) (all_routes k) ≡ₚ rs ++ ts →
  Forall2 (added (λ n, mkRoute ncTableID (Some (ToIPNet n)) idx ncProtocolID routeMetric RTN_UNSPEC)) ds rs →
  Forall2 (added (λ n, mkRoute ncTableID (Some (ToIPNet n)) 0 ncProtocolID throwMetric RTN_THROW)) throw_list ts →
  match fib_lookup (table k (addr_family a) ncTableID) a with
  | Some r => if decide (rt_Type r = RTN_THROW) then egress_bound ds a = false
              else egress_bound ds a = true ∧ rt_LinkIndex r = idx
  | None => egress_bound ds a = false
  end.
Proof.
  intros Hk Hall Hrs Hts. destruct (route_member rs ts k a Hall) as [Hm1 Hm2].
  { intros x [Hin|Hin]%elem_of_app.
    - destruct (Forall2_elem_of_r _ _ _ _ Hrs Hin) as (p & Hp & _ & Hdp). exists p. split; [done|].
      rewrite Forall_forall in Hk. by apply Hk.
    - destruct (Forall2_elem_of_r _ _ _ _ Hts Hin) as (p & Hp & _ & Hdp). exists p. split; [done|].
      pose proof throw_list_kernel as Hth. rewrite Forall_forall in Hth. by apply Hth. }
  exact (client_table_lookup idx _ rs ts ds throw_list a Hm1 Hm2 Hrs Hts).
Qed.

(** The client's rule on that table, and any other rule on it. *)
Lemma client_rule_route k pkt r ds idx rs ts :
  client_rule r → Forall kernel_prefix ds →
  filter (λ r, rt_Table r = ncTableID) (all_routes k) ≡ₚ rs ++ ts →
  Forall2 (added (λ n, mkRoute ncTableID (Some (ToIPNet n)) idx ncProtocolID routeMetric RTN_UNSPEC)) ds rs →
  Forall2 (added (λ n, mkRoute ncTableID (Some (ToIPNet n)) 0 ncProtocolID throwMetric RTN_THROW)) throw_list ts →
  rt_LinkIndex <$> rule_route selector k pkt r = (if egress_bound ds (pkt_dst pkt) then Some idx else None) ∧
  (egress_bound ds (pkt_dst pkt) = false → ∀ q, ru_Table q = ncTableID → rule_route selector k pkt q = None).
Proof.
  intros (Ht & Hi & Hd & Hx) Hk Hall Hrs Hts.
  pose proof (client_lookup k (pkt_dst pkt) ds idx rs ts Hk Hall Hrs Hts) as Hl. split.
  - unfold rule_route. rewrite plain_rule_selects, Ht by done.
    rewrite bool_decide_eq_true_2 by (by left). destruct (fib_lookup _ _) as [b|]; [|by rewrite Hl].
    case_decide; [by rewrite Hl|]. destruct Hl as [-> <-]. done.
  - intros Hb q Hq. unfold rule_route. rewrite Hq. destruct (rule_selects _ q pkt); [|done].
    destruct (fib_lookup _ _) as [b|]; [|done]. case_decide; [done|]. by destruct Hl as [? _]; congruence.
Qed.

(** ** What the set-up leaves alone *)

Lemma setup_pod_frame s l4 l6 names k k' :
  setup_pod range_routes s l4 l6 names k = (Ok tt, k') → client_frame k k'.
Proof.
  unfold setup_pod. destruct (NewFoUTunnelController _ _ _) as [ft|]; [|done].
  intros ([] & k1 & HI%wrap_ok & Hrun)%bind_ok. simpl in Hrun.
  apply bind_ok in Hrun as ([] & k2 & HN%wrap_ok & Hrun). transitivity k1; [|transitivity k2].
  - apply fou_Init_routing in HI as [Hr Ht]. split; intros; by rewrite ?Hr, ?Ht.
  - pose proof (frame_Init (mkNatClient (bool_decide (l4 ≠ None)) (bool_decide (l6 ≠ None))) k1) as Hf. by rewrite HN in Hf.
  - assert (preserves client_frame (forM_ names (setup_egress range_routes s ft
      (mkNatClient (bool_decide (l4 ≠ None)) (bool_decide (l6 ≠ None)))))) as Hf.
    { apply preserves_forM; [apply _|]. intros n _ k0. unfold setup_egress.
      destruct (collectDestinationsForEgress s n) as [[g ds]|e]; [|done]. revert k0.
      apply preserves_bind; [apply _| |].
      - apply preserves_wrap. intros k0. destruct (fou_AddPeer_net ft g k0) as (Hr & Ht & _). split.
        + intros f. by rewrite Hr.
        + intros f t _. apply Ht.
      - intros link. by apply preserves_wrap, frame_UpdateRoutes. }
    specialize (Hf k2). by rewrite Hrun in Hf.
Qed.

(** The kernel's own tables give for a packet what they gave: bringing a
    device up may make the kernel write link-local routes there. *)
Definition kernel_agrees (k k' : K) (pkt : Packet) : Prop :=
  ∀ t, t ∈ kernel_tables →
    fib_lookup (table k' (addr_family (pkt_dst pkt)) t) (pkt_dst pkt) =
    fib_lookup (table k (addr_family (pkt_dst pkt)) t) (pkt_dst pkt).

(** The rules that are not the client's do with a packet that is not for the
    egress what they did. *)
Lemma others_agree_pod k k' pkt :
  fresh_pod k → client_frame k k' → kernel_agrees k k' pkt →
  (∀ q, ru_Table q = ncTableID → rule_route selector k' pkt q = None) →
  others_agree selector ncPrio k k' pkt.
Proof.
  intros [_ Hempty] [Hru Hrt] Hkern Hnone. split; [apply Hru|]. intros r _ _.
  destruct (decide (ru_Table r = ncTableID)) as [Ht|Ht].
  - rewrite Hnone by done. unfold rule_route, table. rewrite Ht, Hempty. by destruct (rule_selects _ r pkt).
  - apply rule_route_lookup. destruct (decide (ru_Table r ∈ kernel_tables)) as [Hk|Hk]; [by apply Hkern|].
    unfold table. by rewrite Hrt.
Qed.

(** The data plane of a pod that names one egress, once ponad has set it up. *)
Lemma pod_routing (s : server) (l4 l6 : option Addr) (n : NamespacedName) (k k' : K) :
  kernel_destinations s → fresh_pod k → setup_pod range_routes s l4 l6 [n] k = (Ok tt, k') →
  ∃ g ds name link, collectDestinationsForEgress s n = Ok (g, ds) ∧ fouName g = Ok name ∧
    LinkByName name k' = Ok link ∧
    (Is4 g = true → ∃ lc, l4 = Some lc ∧ fou_ends link = Some (peer_ends (egressPort s) g lc)) ∧
    (∀ pkt, match addr_family (pkt_dst pkt) with FAMILY_V4 => l4 | FAMILY_V6 => l6 end ≠ None →
      rt_LinkIndex <$> route_of selector k' pkt =
        match route_before selector ncPrio k' pkt with
        | Some r => Some (rt_LinkIndex r)
        | None => if egress_bound ds (pkt_dst pkt) then Some (lindex link)
                  else rt_LinkIndex <$> route_after selector ncPrio k' pkt
        end) ∧
    ∀ pkt, filter (λ r, ru_Priority r = ncPrio) (rules k (addr_family (pkt_dst pkt))) = [] →
      kernel_agrees k k' pkt → egress_bound ds (pkt_dst pkt) = false → route_of selector k' pkt = route_of selector k pkt.
Proof.
  intros Hk Hfr Hrun. pose proof (setup_pod_frame _ _ _ _ _ _ Hrun) as Hframe. destruct (setup_pod_ok _ _ _ _ _ _ _ Hrun Hfr) as (ft & nt & k1 & k2 & Hft & Hnt & HI & Hfr2 & Hs & Hk1).
  simpl in Hs. apply bind_ok in Hs as ([] & k3 & Hs & [= <-]).
  destruct (setup_egress_table _ _ _ _ _ _ Hk Hfr2 Hs)
    as (g & ds & name & link & rs & ts & Hc & Hn & Hl & Hall & Hrs & Hts & Hru & Hj).
  apply NewFoUTunnelController_families in Hft as (-> & Hfam & _).
  pose proof (λ pkt r Hrule, client_rule_route k3 pkt r ds (lindex link) rs ts Hrule (Hk _ _ _ Hc) Hall Hrs Hts) as Hcr.
  destruct (Init_ok _ _ _ HI) as [HI' _].
  exists g, ds, name, link. split_and!; [done..|by apply Hj| |].
  - intros pkt Hf. specialize (HI' (addr_family (pkt_dst pkt))). rewrite Hnt in HI'.
    assert (uses (mkNatClient (bool_decide (l4 ≠ None)) (bool_decide (l6 ≠ None))) (addr_family (pkt_dst pkt)) = true) as Hu.
    { destruct (addr_family (pkt_dst pkt)); simpl; by apply bool_decide_eq_true. }
    rewrite Hu in HI'. destruct HI' as [(r & Hr & Hrule & _) _].
    rewrite (route_of_one _ ncPrio r) by (by rewrite Hru).
    destruct (route_before _ _ _ _); [done|]. simpl. destruct (Hcr pkt r Hrule) as [Hc1 _].
    destruct (egress_bound ds (pkt_dst pkt)); destruct (rule_route _ _ _ r); simpl in *; congruence.
  - intros pkt Hno Hkern Hb. specialize (HI' (addr_family (pkt_dst pkt))).
    assert (∀ q, ru_Table q = ncTableID → rule_route selector k3 pkt q = None) as Hnone.
    { apply (Hcr pkt (mkRule None ncTableID 0 "" None [])); done. }
    destruct (sides_agree _ _ _ _ _ (others_agree_pod k k3 pkt Hfr Hframe Hkern Hnone)) as [E1 E2].
    rewrite (route_of_none _ ncPrio k) by done. rewrite <- E1, <- E2.
    destruct (uses nt (addr_family (pkt_dst pkt))).
    + destruct HI' as [(r & Hr & (Htb & _) & _) _]. rewrite (route_of_one _ ncPrio r) by (by rewrite Hru).
      by rewrite (Hnone r Htb).
    + apply route_of_none. rewrite Hru. destruct HI' as [-> _]. by rewrite Hk1.
Qed.

(** C30: nothing keeps the gateway itself out of its tunnel.  When the
    destinations of the egress have the egress's cluster IP, at least as
    specifically as the private and link-local networks do, the tunnel's own
    packets, which are for that address, are routed into the tunnel again. *)
Theorem ponad_tunnel_loop (s : server) (l4 l6 : option Addr) (n : NamespacedName) (k k' : K) (iif : string)
    (g : Addr) (ds : list Prefix) :
  kernel_destinations s → fresh_pod k → setup_pod range_routes s l4 l6 [n] k = (Ok tt, k') →
  collectDestinationsForEgress s n = Ok (g, ds) → egress_bound ds g = true →
  match addr_family g with FAMILY_V4 => l4 | FAMILY_V6 => l6 end ≠ None →
  route_before selector ncPrio k' (mkPacket g iif) = None →
  ∃ name link, fouName g = Ok name ∧ LinkByName name k' = Ok link ∧
    rt_LinkIndex <$> route_of selector k' (mkPacket g iif) = Some (lindex link).
Proof.
  intros Hk Hfr Hrun Hc Hb Hf Hbefore.
  destruct (pod_routing s l4 l6 n k k' Hk Hfr Hrun) as (g' & ds' & name & link & Hc' & Hn & Hl & _ & Hr & _).
  assert (g' = g ∧ ds' = ds) as [-> ->] by (split; congruence).
  exists name, link. split_and!; [done..|]. rewrite (Hr (mkPacket g iif) Hf), Hbefore. simpl. by rewrite Hb.
Qed.

(** ** From the container runtime's ADD *)

Context {G : Grpc K} {GL : GrpcLaws K}.
Context (lib : CniLib).
Context (range : gmap string string → list (string * string)).
Context (GetNS : string → result unit) (ns_enter : string → option goerror).
Context (args_text : gmap string string → string) (log_interceptor : UnaryServerInterceptor K).
Context (GetNS_plain : ∀ path e, GetNS path = Err e → plain e = true).
Context (ns_enter_plain : ∀ path e, ns_enter path = Some e → plain e = true).
Context (status_Convert_status : ∀ c m d, c ≠ 0 → status_Convert lib (ErrStatus c m d) = (c, m, d)).
Context (NewResult_Marshal : ∀ p b, Marshal lib p = Ok b → NewResult lib b = Ok p).
Context (log_transparent : ∀ i m f (k : K), log_interceptor i m f k = f i k).

(** The namespace of a pod that names one egress, after its ADD. *)
Lemma added_pod (s : server) (args : CmdArgs) (k k' : K) conf p ns name c pod n :
  kernel_destinations s → fresh_pod k →
  plugin_add lib range range_routes GetNS ns_enter args_text log_interceptor s args k = (Returns (Ok tt), k') →
  ParseConfig lib (StdinData args) = Ok conf → GetResult lib (PrevResult conf) = Ok p →
  LoadArgs lib (Args args) = Ok (ns, name, c) → GetPod (apiReader s) (mkNamespacedName ns name) = Ok pod →
  listEgress range pod = Ok [n] →
  ∃ addrs g ds dev link, result_addrs (IPs p) = Ok addrs ∧ collectDestinationsForEgress s n = Ok (g, ds) ∧
    fouName g = Ok dev ∧ LinkByName dev k' = Ok link ∧
    (Is4 g = true → ∃ lc, List.find Is4 addrs = Some lc ∧
       fou_ends link = Some (peer_ends (egressPort s) g lc)) ∧
    (∀ pkt, match addr_family (pkt_dst pkt) with
            | FAMILY_V4 => List.find Is4 addrs | FAMILY_V6 => List.find Is6 addrs end ≠ None →
      rt_LinkIndex <$> route_of selector k' pkt =
        match route_before selector ncPrio k' pkt with
        | Some r => Some (rt_LinkIndex r)
        | None => if egress_bound ds (pkt_dst pkt) then Some (lindex link)
                  else rt_LinkIndex <$> route_after selector ncPrio k' pkt
        end) ∧
    client_frame k k' ∧
    ∀ pkt, filter (λ r, ru_Priority r = ncPrio) (rules k (addr_family (pkt_dst pkt))) = [] →
      kernel_agrees k k' pkt → egress_bound ds (pkt_dst pkt) = false →
      route_of selector k' pkt = route_of selector k pkt.
Proof.
  intros Hk Hfr Hrun Hconf Hp Hargs Hpod Hl.
  pose proof (plugin_add_cases lib range range_routes GetNS ns_enter args_text log_interceptor GetNS_plain
    ns_enter_plain status_Convert_status NewResult_Marshal log_transparent s args k) as HC.
  rewrite Hrun in HC. destruct HC as (conf' & p' & ns' & name' & c' & pod' & Hconf' & Hp' & _ & Hargs' & Hpod' & Hcase).
  assert (conf' = conf) as -> by congruence. assert (p' = p) as -> by congruence.
  rewrite Hargs in Hargs'. injection Hargs' as <- <- <-. assert (pod' = pod) as -> by congruence.
  destruct Hcase as [[Hl' _]|(pod2 & names & addrs & Hpod2 & Hl' & _ & Ha & Hs)]; [congruence|].
  assert (pod2 = pod) as -> by congruence. assert (names = [n]) as -> by congruence.
  destruct (pod_routing s _ _ n k k' Hk Hfr Hs) as (g & ds & dev & link & Hc & Hn & Hlk & Hj & Hr & Hk').
  exists addrs, g, ds, dev, link. split_and!; try done. by eapply setup_pod_frame.
Qed.

End client_path.

(** ** Witnesses *)

(** An egress for everything outside, and for one private network. *)
Definition wide_egress : Egress :=
  mkEgress (mkObjectMeta "nat" "internet" ∅ None None [])
    (mkEgressSpec ["0.0.0.0/0"; "10.1.0.0/16"] 1 None None "" None None) (mkEgressStatus 0 "").
Definition one_egress_pod : Pod :=
  mkPod "p" "default" {[ "egress.pona.cybozu.com/internet" := "nat" ]} false "Running" [] None.
Definition wide_server : server :=
  mkServer (mkReader (λ _, Ok one_egress_pod) (λ _, Ok wide_egress) (λ _, Ok ex_service)) 5555.

(** A pod with an interface, and a default route through it. *)
Definition pod_kern : Kern :=
  mkKern {[ "lo" := OtherLink "device" (mkLinkAttrs "lo" 1 1000); "eth0" := sim_eth ]} 3
    [mkRule (Some FAMILY_V4) 254 32766 "" None []]
    [mkRoute 254 (Some (ToIPNet v4DefaultGW)) 2 3 0 1] [] [] ∅ [].

Lemma wide_destinations n :
  collectDestinationsForEgress wide_server n =
    Ok (AddrV4 (be_val [10; 96; 0; 7]), [v4DefaultGW; MustParsePrefix "10.1.0.0/16"]).
Proof. vm_compute. reflexivity. Qed.

Lemma wide_kernel_destinations : kernel_destinations wide_server.
Proof.
  intros n g ds. rewrite wide_destinations. intros [= _ <-]. rewrite !Forall_cons, Forall_nil.
  split_and!; [apply MustParsePrefix_kernel; vm_compute; reflexivity..|exact I].
Qed.

Lemma pod_kern_fresh : fresh_pod pod_kern.
Proof.
  split; [|by intros []]. intros a n l Hn [Hl Hlo]%sim_LinkByName_ok. simpl in Hl.
  assert (n ∈ ["lo"; "eth0"]) as Hr.
  { apply lookup_insert_Some in Hl as [[<- _]|[_ [<- _]%lookup_singleton_Some]]; set_solver. }
  apply (fouName_not_reserved a n Hn). unfold reserved_names. set_solver.
Qed.

Definition packet_to (b : list Z) : Packet := mkPacket (AddrV4 (be_val b)) "".

(** The pod's ADD, with ponad at the other end of the socket. *)
Definition wide_add : outcome (result unit) * Kern :=
  plugin_add ex_chain_lib map_to_list map_to_list (λ _, Ok tt) (λ _, None) (λ _, "") (λ i _ f, f i)
    wide_server ex_cmd pod_kern.


(** An egress for the network of the cluster's services. *)
Definition loop_egress : Egress :=
  mkEgress (mkObjectMeta "nat" "internet" ∅ None None [])
    (mkEgressSpec ["10.0.0.0/8"] 1 None None "" None None) (mkEgressStatus 0 "").
Definition loop_server : server :=
  mkServer (mkReader (λ _, Ok ex_pod2) (λ _, Ok loop_egress) (λ _, Ok ex_service)) 5555.
Definition loop_kern : Kern :=
  (setup_pod map_to_list loop_server (Some (AddrV4 167772161)) None [mkNamespacedName "internet" "nat"] pod_kern).2.

Lemma loop_destinations n :
  collectDestinationsForEgress loop_server n = Ok (AddrV4 (be_val [10; 96; 0; 7]), [MustParsePrefix "10.0.0.0/8"]).
Proof. vm_compute. reflexivity. Qed.

Lemma ponad_tunnel_loop_witness :
  ∃ name link, fouName (AddrV4 (be_val [10; 96; 0; 7])) = Ok name ∧ LinkByName name loop_kern = Ok link ∧
    rt_LinkIndex <$> route_of (λ _ _, true) loop_kern (packet_to [10; 96; 0; 7]) = Some (lindex link).
Proof.
  eapply (ponad_tunnel_loop sim_listed_dst map_to_list (λ m, reflexivity _) (λ _ _, true) loop_server
    (Some (AddrV4 167772161)) None (mkNamespacedName "internet" "nat") pod_kern loop_kern "");
    [|exact pod_kern_fresh|vm_compute; reflexivity|apply loop_destinations|vm_compute; reflexivity|discriminate|
     vm_compute; reflexivity].
  intros n g ds. rewrite loop_destinations. intros [= _ <-]. rewrite Forall_cons, Forall_nil.
  split; [apply MustParsePrefix_kernel; vm_compute; reflexivity|exact I].
Defined.
