(* ===== verification/EgressController.v ===== *)
(** * internal/controller/egress_controller.go

    The controller that turns an Egress into a service account, a cluster
    role, a cluster role binding, a deployment, a service and a disruption
    budget.  The API server and controller-runtime are a parameter ([API]);
    the functions passed to [CreateOrUpdate] are definitions of their own
    ([mutate_deployment], [mutate_service], [mutate_pdb]). *)
From Stdlib Require Import Ascii String.
From stdpp Require Import sorting.
From S2P Require Import Prelude GoStrings PodWatcher EgressAPI.

Local Open Scope Z_scope.

Definition labelAppName : string := "app.kubernetes.io/name".
Definition labelAppInstance : string := "app.kubernetes.io/instance".
Definition labelAppComponent : string := "app.kubernetes.io/component".

Definition egressDefaultCpuRequest : string := "100m".
Definition egressDefaultMemRequest : string := "200Mi".
Definition egressServiceAccountName : string := "egress".
Definition egressCRBName : string := "egress".
Definition egressCRName : string := "egress".

Definition EnvAddresses : string := "PONA_POD_ADDRESSES".
Definition EnvPodNamespace : string := "PONA_POD_NAMESPACE".
Definition EnvEgressName : string := "PONA_EGRESS_NAME".

Record EgressReconciler := mkEgressReconciler { Port : Z; DefaultImage : string }.

Definition appLabels (name : string) : gmap string string :=
  <[labelAppName := "pona"]> (<[labelAppInstance := name]> {[labelAppComponent := "egress"]}).

(** [for k, v := range src { dst[k] = v }]. *)
Definition map_copy (dst src : gmap string string) : gmap string string := src ∪ dst.

(** ** Volumes *)

Definition addVolumes (vols : list Volume) : list Volume :=
  let noRun := negb (existsb (λ vol, bool_decide (vol_Name vol = "run")) vols) in
  (if noRun then vols ++ [mkVolume "run" EmptyDir] else vols) ++ [mkVolume "modules" (HostPath "/lib/modules")].

Definition addVolumeMounts (mounts : list VolumeMount) : list VolumeMount :=
  let noRun := negb (existsb (λ m, bool_decide (vm_Name m = "run")) mounts) in
  (if noRun then mounts ++ [mkVolumeMount "/run" "run" false] else mounts)
    ++ [mkVolumeMount "/lib/modules" "modules" true].

(** ** The pod template *)

(** The loops that keep a pointer to the last container that passes a test. *)
Fixpoint last_index {A} (f : A → bool) (l : list A) (i : nat) (found : option nat) : option nat :=
  match l with
  | [] => found
  | x :: l' => last_index f l' (S i) (if f x then Some i else found)
  end.

Definition is_egress (c : Container) : bool := bool_decide (c_Name c = "egress").

(** The container that is going to be the egress container, as an index into
    the containers, which may have got a new first one. *)
Definition choose_container (cs : list Container) : list Container * nat :=
  let '(cs, egressContainer) :=
    match last_index is_egress cs 0 None with
    | None => (Container_zero :: cs, 0%nat)
    | Some i => (cs, i)
    end in
  (cs, default egressContainer (last_index (λ c, negb (is_egress c)) cs 0 None)).

Definition default_request (name quantity : string) (requests : gmap string string) : gmap string string :=
  match requests !! name with Some _ => requests | None => <[name := quantity]> requests end.

(** What is done to the chosen container. *)
Definition setup_container (r : EgressReconciler) (eg : Egress) (c : Container) : Container :=
  mkContainer "egress"
    (if decide (c_Image c = "") then DefaultImage r else c_Image c)
    (c_Env c ++ [mkEnvVar EnvPodNamespace (Value (m_Namespace (eg_meta eg)));
                 mkEnvVar EnvEgressName (Value (m_Name (eg_meta eg)));
                 mkEnvVar EnvAddresses (FieldRef "status.podIPs")])
    (addVolumeMounts (c_VolumeMounts c))
    (Some (mkSecurityContext (Some true) (Some true) ["NET_ADMIN"] ""))
    (Some (default_request "memory" egressDefaultMemRequest
             (default_request "cpu" egressDefaultCpuRequest (default ∅ (c_Requests c)))))
    [mkContainerPort "metrics" 8080 "TCP"; mkContainerPort "health" 8081 "TCP"]
    (Some (mkProbe "/livez" (StrVal "livez") "HTTP"))
    (Some (mkProbe "/readyz" (StrVal "health") "HTTP"))
    (c_Args c) (c_other c).

Definition egress_pod_spec (r : EgressReconciler) (eg : Egress) (podSpec : PodSpec) : PodSpec :=
  let '(cs, i) := choose_container (Containers podSpec) in
  mkPodSpec egressServiceAccountName (addVolumes (Volumes podSpec))
    (alter (setup_container r eg) i cs) (ps_other podSpec).

Definition reconcilePodTemplate (r : EgressReconciler) (eg : Egress) (target : PodTemplateSpec)
    : PodTemplateSpec :=
  let annotations := default ∅ (t_Annotations target) in
  match Template (eg_Spec eg) with
  | Some desired =>
      mkPodTemplateSpec (map_copy (map_copy ∅ (et_Labels desired)) (appLabels (m_Name (eg_meta eg))))
        (Some (map_copy annotations (et_Annotations desired))) (egress_pod_spec r eg (et_Spec desired))
  | None =>
      mkPodTemplateSpec (map_copy ∅ (appLabels (m_Name (eg_meta eg)))) (Some annotations)
        (egress_pod_spec r eg PodSpec_zero)
  end.

(** ** The owned objects *)

Definition with_labels (m : ObjectMeta) (l : gmap string string) : ObjectMeta :=
  mkObjectMeta (m_Name m) (m_Namespace m) l (m_DeletionTimestamp m) (m_CreationTimestamp m) (m_OwnerReferences m).

Definition meta_named (name namespace : string) : ObjectMeta := mkObjectMeta name namespace ∅ None None [].

Section mutate.
(** controller-runtime's [SetControllerReference]. *)
Context (SetControllerReference : Egress → ObjectMeta → result ObjectMeta).

(** Labels, and the owner reference of a new object. *)
Definition mutate_meta (eg : Egress) (m : ObjectMeta) : result ObjectMeta :=
  let m := with_labels m (map_copy (m_Labels m) (appLabels (m_Name (eg_meta eg)))) in
  match m_CreationTimestamp m with
  | None => SetControllerReference eg m
  | Some _ => Ok m
  end.

Definition mutate_deployment (r : EgressReconciler) (eg : Egress) (dep : Deployment) : result Deployment :=
  match m_DeletionTimestamp (dep_meta dep) with
  | Some _ => Ok dep
  | None =>
      m ← mutate_meta eg (dep_meta dep);
      let selector :=
        match m_CreationTimestamp (dep_meta dep) with
        | None => Some (appLabels (m_Name (eg_meta eg)))
        | Some _ => dep_Selector dep
        end in
      Ok (mkDeployment m selector (Some (Replicas (eg_Spec eg)))
            (match Strategy (eg_Spec eg) with Some st => st | None => dep_Strategy dep end)
            (reconcilePodTemplate r eg (dep_Template dep)) (dep_AvailableReplicas dep))
  end.

Definition mutate_service (r : EgressReconciler) (eg : Egress) (svc : Service) : result Service :=
  match m_DeletionTimestamp (svc_meta svc) with
  | Some _ => Ok svc
  | None =>
      m ← mutate_meta eg (svc_meta svc);
      Ok (mkService m "ClusterIP" (appLabels (m_Name (eg_meta eg)))
            [mkServicePort (Port r) (IntVal (Port r)) "UDP"] (SessionAffinity (eg_Spec eg))
            (match SessionAffinityConfig (eg_Spec eg) with
             | Some sac => Some sac
             | None => svc_SessionAffinityConfig svc
             end) (ClusterIP svc))
  end.

Definition mutate_pdb (eg : Egress) (spec : EgressPDBSpec) (pdb : PDB) : result PDB :=
  match m_DeletionTimestamp (pdb_meta pdb) with
  | Some _ => Ok pdb
  | None =>
      m ← mutate_meta eg (pdb_meta pdb);
      Ok (mkPDB m
            (match MinAvailable spec with Some x => Some x | None => pdb_MinAvailable pdb end)
            (match MaxUnavailable spec with Some x => Some x | None => pdb_MaxUnavailable pdb end)
            (Some (appLabels (m_Name (eg_meta eg)))))
  end.
End mutate.

(** ** The reconciler *)

(** The API server and controller-runtime over a cluster state [A]. *)
Class API (A : Type) := {
  api_GetEgress : NamespacedName → A → result Egress;
  api_ListEgress : A → result (list Egress);
  api_StatusUpdate : Egress → M A unit;
  api_GetSA : NamespacedName → A → result ServiceAccount;
  api_CreateSA : ServiceAccount → M A unit;
  api_GetCR : string → A → result ClusterRole;
  api_CreateCR : ClusterRole → M A unit;
  api_GetCRB : string → A → result CRB;
  (** [Create] fills its argument in from the answer. *)
  api_CreateCRB : CRB → M A CRB;
  (** A merge patch, from the first to the second. *)
  api_PatchCRB : CRB → CRB → M A unit;
  api_GetDeployment : NamespacedName → A → result Deployment;
  CreateOrUpdate_Deployment : NamespacedName → (Deployment → result Deployment) → M A unit;
  CreateOrUpdate_Service : NamespacedName → (Service → result Service) → M A unit;
  CreateOrUpdate_PDB : NamespacedName → (PDB → result PDB) → M A unit;
  SetControllerReference : Egress → ObjectMeta → result ObjectMeta;
  LabelSelectorAsSelector : option (gmap string string) → result string;
}.

(** [sort.Strings]. *)
Definition string_le (a b : string) : Prop := String.leb a b = true.
#[export] Instance string_le_dec a b : Decision (string_le a b).
Proof. unfold string_le. apply _. Defined.
Definition sort_Strings (l : list string) : list string := merge_sort string_le l.

(** [range_ns] is the order in which Go visits the set of namespaces. *)
Definition getNamespaces (range_ns : gset string → list string) (egresses : list Egress) : list string :=
  let nsMap := foldl (λ (s : gset string) eg, {[m_Namespace (eg_meta eg)]} ∪ s) ∅ egresses in
  sort_Strings (range_ns nsMap).

Section reconcile.
Context {A : Type} `{!API A} (range_ns : gset string → list string).

Definition reconcileServiceAccount (eg : Egress) : M A unit :=
  let name := egressServiceAccountName in
  let namespace := m_Namespace (eg_meta eg) in
  res ← try (ask (api_GetSA (mkNamespacedName namespace name)));
  match res with
  | Ok _ => mret tt
  | Err err => if IsNotFound err then api_CreateSA (mkServiceAccount name namespace) else throw err
  end.

Definition reconcileCR : M A unit :=
  let name := egressCRName in
  res ← try (ask (api_GetCR name));
  match res with
  | Ok _ => mret tt
  | Err err =>
      if IsNotFound err
      then api_CreateCR (mkClusterRole name [mkPolicyRule [""] ["pods"] ["get"; "list"; "watch"]])
      else throw err
  end.

Definition crb_subjects (namespaces : list string) : list Subject :=
  (λ n, mkSubject "ServiceAccount" egressServiceAccountName n) <$> namespaces.

Definition reconcileCRB : M A unit :=
  res ← try (ask (api_GetCRB egressCRBName));
  crb ← match res with
        | Ok crb => mret crb
        | Err err =>
            if IsNotFound err then
              wrap (Errorf "failed to create CRB resource: ")
                (api_CreateCRB (mkCRB egressCRBName
                   (mkRoleRef "rbac.authorization.k8s.io" "ClusterRole" egressCRName) []))
            else throw (Errorf "unable to get CRB: " err)
        end;
  egresses ← wrap (Errorf "unable to list Egress: ") (ask api_ListEgress);
  let newCrb := mkCRB (crb_Name crb) (crb_RoleRef crb) (crb_subjects (getNamespaces range_ns egresses)) in
  wrap (Errorf "failed to patch crb: ") (api_PatchCRB crb newCrb).

Definition reconcileDeployment (r : EgressReconciler) (eg : Egress) : M A unit :=
  wrap (Errorf "failed to create or update deployment: ")
    (CreateOrUpdate_Deployment (eg_key eg) (mutate_deployment SetControllerReference r eg)).

Definition reconcileService (r : EgressReconciler) (eg : Egress) : M A unit :=
  CreateOrUpdate_Service (eg_key eg) (mutate_service SetControllerReference r eg).

Definition reconcilePDB (eg : Egress) : M A unit :=
  match PodDisruptionBudget (eg_Spec eg) with
  | None => mret tt
  | Some spec =>
      wrap (Errorf "failed to create or update PDB: ")
        (CreateOrUpdate_PDB (eg_key eg) (mutate_pdb SetControllerReference eg spec))
  end.

Definition updateStatus (eg : Egress) : M A unit :=
  dep ← wrap (Errorf "failed to get deployment for updateStatus: ") (ask (api_GetDeployment (eg_key eg)));
  selString ← wrap (Errorf "failed to convert labelSelector: ") (lift (LabelSelectorAsSelector (dep_Selector dep)));
  if decide (st_Selector (eg_Status eg) = selString ∧ st_Replicas (eg_Status eg) = dep_AvailableReplicas dep)
  then mret tt
  else api_StatusUpdate (mkEgress (eg_meta eg) (eg_Spec eg) (mkEgressStatus (dep_AvailableReplicas dep) selString)).

(** [defer]: the status is updated after the body, whatever it returned; an
    error of it is only logged. *)
Definition with_deferred (body deferred : M A unit) : M A unit := λ a,
  let '(res, a1) := body a in let '(_, a2) := deferred a1 in (res, a2).

Definition EgressReconcile (r : EgressReconciler) (req : NamespacedName) : M A unit :=
  res ← try (ask (api_GetEgress req));
  match res with
  | Err err => if IsNotFound err then mret tt else throw err
  | Ok eg =>
      if decide (m_DeletionTimestamp (eg_meta eg) ≠ None) then mret tt
      else
        with_deferred
          (reconcileServiceAccount eg;;
           reconcileCR;;
           reconcileCRB;;
           reconcileDeployment r eg;;
           reconcileService r eg;;
           reconcilePDB eg)
          (updateStatus eg)
  end.
End reconcile.

(** ** Sorted namespaces *)

Lemma ascii_compare_trans a b c :
  Ascii.compare a b ≠ Gt → Ascii.compare b c ≠ Gt →
  Ascii.compare a c ≠ Gt ∧ (Ascii.compare a c = Eq → Ascii.compare a b = Eq ∧ Ascii.compare b c = Eq).
Proof. unfold Ascii.compare. rewrite !N.compare_ngt_iff, !N.compare_eq_iff. lia. Qed.

Lemma string_compare_trans a b c :
  String.compare a b ≠ Gt → String.compare b c ≠ Gt → String.compare a c ≠ Gt.
Proof.
  revert b c. induction a as [|x a IH]; intros [|y b] [|z c]; simpl; try done.
  intros H1 H2.
  assert (Ascii.compare x y ≠ Gt) as H1' by (by destruct (Ascii.compare x y)).
  assert (Ascii.compare y z ≠ Gt) as H2' by (by destruct (Ascii.compare y z)).
  destruct (ascii_compare_trans x y z H1' H2') as [H3 H4].
  destruct (Ascii.compare x z); [|done|done]. destruct (H4 eq_refl) as [E1 E2]. rewrite E1 in H1. rewrite E2 in H2.
  by eapply IH.
Qed.

Lemma string_le_iff a b : string_le a b ↔ String.compare a b ≠ Gt.
Proof. unfold string_le, String.leb. by destruct (String.compare a b). Qed.

#[export] Instance string_le_trans : Transitive string_le.
Proof. intros a b c. rewrite !string_le_iff. apply string_compare_trans. Qed.
#[export] Instance string_le_total : Total string_le.
Proof. intros a b. apply String.leb_total. Qed.
#[export] Instance string_le_antisymm : AntiSymm (=) string_le.
Proof. intros a b. apply String.leb_antisym. Qed.

Lemma namespaces_elem (l : list Egress) n :
  n ∈ foldl (λ (s : gset string) eg, {[m_Namespace (eg_meta eg)]} ∪ s) ∅ l ↔
    ∃ eg, eg ∈ l ∧ m_Namespace (eg_meta eg) = n.
Proof.
  enough (∀ s : gset string, n ∈ foldl (λ (s : gset string) eg, {[m_Namespace (eg_meta eg)]} ∪ s) s l ↔
    n ∈ s ∨ ∃ eg, eg ∈ l ∧ m_Namespace (eg_meta eg) = n) as Hs by (rewrite Hs; set_solver).
  induction l as [|x l IH]; intros s; simpl; [set_solver|]. rewrite IH. set_solver.
Qed.

Section properties.
Context (range_ns : gset string → list string) (range_perm : ∀ s, range_ns s ≡ₚ elements s).

Lemma getNamespaces_elem l n :
  n ∈ getNamespaces range_ns l ↔ ∃ eg, eg ∈ l ∧ m_Namespace (eg_meta eg) = n.
Proof.
  unfold getNamespaces, sort_Strings. rewrite merge_sort_Permutation, range_perm, elem_of_elements.
  apply namespaces_elem.
Qed.

Lemma getNamespaces_NoDup l : NoDup (getNamespaces range_ns l).
Proof. unfold getNamespaces, sort_Strings. rewrite merge_sort_Permutation, range_perm. apply NoDup_elements. Qed.

(** The namespaces of a list of egresses come out sorted, without
    duplicates, each exactly when an egress is in it, and in one way only:
    neither the order of the list, nor repetitions in it, nor Go's map order
    matters, so that the subjects of the role binding are stable. *)
Theorem egress_namespaces_spec (range2 : gset string → list string) (l l2 : list Egress) :
  (∀ s, range2 s ≡ₚ elements s) →
  (∀ n, (∃ eg, eg ∈ l ∧ m_Namespace (eg_meta eg) = n) ↔ (∃ eg, eg ∈ l2 ∧ m_Namespace (eg_meta eg) = n)) →
  StronglySorted string_le (getNamespaces range_ns l) ∧ NoDup (getNamespaces range_ns l) ∧
  (∀ n, n ∈ getNamespaces range_ns l ↔ ∃ eg, eg ∈ l ∧ m_Namespace (eg_meta eg) = n) ∧
  getNamespaces range2 l2 = getNamespaces range_ns l.
Proof.
  intros H2 Hsame. split_and!.
  - apply StronglySorted_merge_sort; apply _.
  - apply getNamespaces_NoDup.
  - intros n. apply getNamespaces_elem.
  - apply (Sorted_unique string_le); [apply Sorted_merge_sort, _..|].
    unfold getNamespaces, sort_Strings. rewrite !merge_sort_Permutation, H2, range_perm.
    apply elements_proper. apply set_equiv. intros n. rewrite !namespaces_elem. symmetry. apply Hsame.
Qed.

(** A successful reconciliation of the role binding has replaced its
    subjects by the egress service accounts of exactly the namespaces that
    hold an egress, one per namespace, keeping its name and role. *)
Theorem egress_crb_subjects {A : Type} `{!API A} (a a' : A) :
  reconcileCRB range_ns a = (Ok tt, a') →
  ∃ crb newCrb egs a1, api_ListEgress a1 = Ok egs ∧ api_PatchCRB crb newCrb a1 = (Ok tt, a') ∧
    crb_Name newCrb = crb_Name crb ∧ crb_RoleRef newCrb = crb_RoleRef crb ∧ NoDup (crb_Subjects newCrb) ∧
    ∀ s, s ∈ crb_Subjects newCrb ↔ ∃ eg, eg ∈ egs ∧ s = mkSubject "ServiceAccount" "egress" (m_Namespace (eg_meta eg)).
Proof.
  unfold reconcileCRB. intros (res & a0 & _ & Hrun)%bind_ok. apply bind_ok in Hrun as (crb & a1 & _ & Hrun).
  apply bind_ok in Hrun as (egs & a2 & Hl & Hp). apply wrap_ok, ask_ok in Hl as [Hl ->]. apply wrap_ok in Hp.
  eexists crb, _, egs, a1. split_and!; [done|exact Hp|done|done|..]; simpl; unfold crb_subjects.
  - apply NoDup_fmap_2; [by intros x y [=]|].
    apply getNamespaces_NoDup.
  - intros s. rewrite list_elem_of_fmap. setoid_rewrite getNamespaces_elem. split.
    + intros (n & -> & eg & Heg & <-). eauto.
    + intros (eg & Heg & ->). eauto.
Qed.
End properties.

(** ** The chosen container *)

Lemma last_index_spec {A} (f : A → bool) l i found :
  match last_index f l i found with
  | Some j => (∃ m x, j = (i + m)%nat ∧ l !! m = Some x ∧ f x = true ∧ Forall (λ x, f x = false) (drop (S m) l)) ∨
      (found = Some j ∧ Forall (λ x, f x = false) l)
  | None => found = None ∧ Forall (λ x, f x = false) l
  end.
Proof.
  revert i found. induction l as [|x l IH]; intros i found; simpl.
  - destruct found; [right|]; done.
  - specialize (IH (S i) (if f x then Some i else found)). destruct (last_index f l (S i) _) as [j|].
    + destruct IH as [(m & y & -> & Hm & Hy & Hd)|[Hfx Hl]].
      * left. exists (S m), y. split; [lia|done].
      * destruct (f x) eqn:Hx; [|by right; auto]. injection Hfx as <-. left. exists 0%nat, x.
        split_and!; [lia|done|done|by rewrite drop_0].
    + destruct IH as [Hfx Hl]. destruct (f x) eqn:Hx; [done|]. auto.
Qed.

(** With a container that is not the egress container, the last such is chosen. *)
Lemma choose_other cs :
  Exists (λ c, is_egress c = false) cs →
  ∃ i c, (choose_container cs).2 = i ∧ (choose_container cs).1 !! i = Some c ∧ is_egress c = false ∧
    Forall (λ c, is_egress c = true) (drop (S i) (choose_container cs).1) ∧
    ((choose_container cs).1 = cs ∧ Exists (λ c, is_egress c = true) cs ∨
     (choose_container cs).1 = Container_zero :: cs ∧ Forall (λ c, is_egress c = false) cs).
Proof.
  intros Hex. unfold choose_container.
  assert (∀ cs' d, Exists (λ c, is_egress c = false) cs' →
    ∃ i c, default d (last_index (λ c, negb (is_egress c)) cs' 0 None) = i ∧ cs' !! i = Some c ∧ is_egress c = false ∧
      Forall (λ c, is_egress c = true) (drop (S i) cs')) as Hlast.
  { intros cs' d He. pose proof (last_index_spec (λ c, negb (is_egress c)) cs' 0 None) as Hs.
    destruct (last_index _ cs' 0 None) as [j|].
    - destruct Hs as [(m & x & -> & Hm & Hx & Hd)|[? _]]; [|done]. exists m, x.
      split_and!; [done|done|by destruct (is_egress x)|].
      eapply Forall_impl; [exact Hd|]. intros c Hc. by apply negb_false_iff in Hc.
    - destruct Hs as [_ Hf]. exfalso. apply Exists_exists in He as (c & Hc & Hne).
      rewrite Forall_forall in Hf. specialize (Hf c Hc). by rewrite Hne in Hf. }
  pose proof (last_index_spec is_egress cs 0 None) as H1. destruct (last_index is_egress cs 0 None) as [j|].
  - destruct H1 as [(m & x & _ & Hm & Hx & _)|[? _]]; [|done].
    destruct (Hlast cs j Hex) as (i & c & Hi & Hc & Hce & Hd). exists i, c. split_and!; [done..|]. left. split; [done|].
    apply Exists_exists. exists x. split; [by eapply list_elem_of_lookup_2|done].
  - destruct H1 as [_ Hf]. destruct (Hlast (Container_zero :: cs) 0%nat) as (i & c & Hi & Hc & Hce & Hd); [by left|].
    exists i, c. split_and!; [done..|]. by right.
Qed.

Lemma lookup_other {A} (f : A → A) (l : list A) i j x :
  i ≠ j → l !! j = Some x → alter f i l !! j = Some x.
Proof. intros Hne Hx. by rewrite list_lookup_alter_ne. Qed.

(** A template without containers, or with just a container named egress,
    gives a pod of exactly one container, called egress, which is privileged
    with NET_ADMIN, has the image the template gives it or the default one,
    and is told its namespace, its egress and its addresses. *)
Theorem egress_template_plain (r : EgressReconciler) (eg : Egress) (spec : PodSpec) :
  (Containers spec = [] ∨ ∃ c, Containers spec = [c] ∧ c_Name c = "egress") →
  ∃ c0 c, Containers (egress_pod_spec r eg spec) = [c] ∧ (c0 = Container_zero ∨ Containers spec = [c0]) ∧
    c_Name c = "egress" ∧ c_Image c = (if decide (c_Image c0 = "") then DefaultImage r else c_Image c0) ∧
    c_SecurityContext c = Some (mkSecurityContext (Some true) (Some true) ["NET_ADMIN"] "") ∧
    c_Args c = c_Args c0 ∧
    c_Env c = c_Env c0 ++ [mkEnvVar EnvPodNamespace (Value (m_Namespace (eg_meta eg)));
      mkEnvVar EnvEgressName (Value (m_Name (eg_meta eg))); mkEnvVar EnvAddresses (FieldRef "status.podIPs")].
Proof.
  intros [Hc|(c & Hc & Hn)]; unfold egress_pod_spec; rewrite Hc.
  - simpl. exists Container_zero. eexists. split_and!; first [done|by left].
  - assert (is_egress c = true) as He by (by apply bool_decide_eq_true).
    unfold choose_container. simpl. rewrite He. simpl. rewrite He. simpl.
    exists c, (setup_container r eg c). split_and!; first [done|by right].
Qed.

(** C37: a template with any container that is not named egress gives an
    invalid pod: the controller turns that container into the egress
    container, so that the pod has a container without a name or two
    containers of the same name. *)
Theorem egress_template_sidecar (r : EgressReconciler) (eg : Egress) (spec : PodSpec) :
  Exists (λ c, c_Name c ≠ "egress") (Containers spec) →
  let names := c_Name <$> Containers (egress_pod_spec r eg spec) in
  "" ∈ names ∨ ¬ NoDup names.
Proof.
  intros Hex names.
  assert (Exists (λ c, is_egress c = false) (Containers spec)) as Hex'.
  { eapply Exists_impl; [exact Hex|]. intros c Hc. by apply bool_decide_eq_false. }
  destruct (choose_other _ Hex') as (i & c & Hi & Hl & Hc & Hdrop & Hcase).
  unfold names, egress_pod_spec. destruct (choose_container (Containers spec)) as [cs j]. simpl in *. subst j.
  assert (alter (setup_container r eg) i cs !! i = Some (setup_container r eg c)) as Hnew
    by (by rewrite list_lookup_alter_eq, Hl).
  assert (∀ j x, i ≠ j → cs !! j = Some x → (c_Name <$> alter (setup_container r eg) i cs) !! j = Some (c_Name x)) as Hold.
  { intros j x Hne Hx. rewrite list_lookup_fmap, (lookup_other _ _ _ _ x) by done. done. }
  destruct Hcase as [[-> He]|[-> Hf]].
  - right. intros Hnd. apply Exists_exists in He as (x & [j Hj]%list_elem_of_lookup_1 & Hx).
    assert (i ≠ j) as Hij by (intros ->; congruence).
    apply Hij. eapply (NoDup_lookup _ _ _ "egress" Hnd); [by rewrite list_lookup_fmap, Hnew|].
    rewrite (Hold j x Hij Hj). f_equal. by apply bool_decide_eq_true in Hx.
  - destruct i as [|i].
    + exfalso. simpl in Hdrop. rewrite drop_0 in Hdrop. apply Exists_exists in Hex' as (x & Hx & Hxf).
      rewrite Forall_forall in Hdrop. specialize (Hdrop x Hx). congruence.
    + left. apply (list_elem_of_lookup_2 _ 0%nat). by rewrite (Hold 0%nat Container_zero).
Qed.

(** ** The owned objects *)

Lemma map_copy_sub dst src : src ⊆ map_copy dst src.
Proof. apply map_union_subseteq_l. Qed.

Lemma map_copy_idemp dst src : map_copy (map_copy dst src) src = map_copy dst src.
Proof.
  apply map_eq. intros k. unfold map_copy. rewrite !lookup_union. destruct (src !! k) as [v|]; simpl.
  - by destruct (dst !! k).
  - by destruct (dst !! k).
Qed.

Lemma template_labels r eg t : appLabels (m_Name (eg_meta eg)) ⊆ t_Labels (reconcilePodTemplate r eg t).
Proof. unfold reconcilePodTemplate. destruct (Template (eg_Spec eg)); apply map_copy_sub. Qed.

Lemma template_idemp r eg t :
  reconcilePodTemplate r eg (reconcilePodTemplate r eg t) = reconcilePodTemplate r eg t.
Proof.
  unfold reconcilePodTemplate. destruct (Template (eg_Spec eg)) as [d|]; simpl; [|done].
  by rewrite map_copy_idemp.
Qed.

Section owned.
Context (SetControllerReference : Egress → ObjectMeta → result ObjectMeta).

Lemma mutate_meta_idemp eg m m' :
  m_CreationTimestamp m ≠ None → mutate_meta SetControllerReference eg m = Ok m' →
  mutate_meta SetControllerReference eg m' = Ok m' ∧ m_CreationTimestamp m' = m_CreationTimestamp m ∧
  m_DeletionTimestamp m' = m_DeletionTimestamp m.
Proof.
  intros Hc. unfold mutate_meta. simpl. destruct (m_CreationTimestamp m) as [t|] eqn:Ht; [|done].
  intros [= <-]. unfold with_labels. simpl. rewrite Ht, map_copy_idemp. done.
Qed.

(** The service and the deployment of an egress belong together: whatever
    the two objects were before, and whatever labels the template asks for,
    the selector of the service, and the one a new deployment gets, select the
    pods of the deployment; the service forwards the tunnel's UDP port; the
    deployment has the replicas of the egress. *)
Theorem egress_objects_match (r : EgressReconciler) (eg : Egress) (dep dep' : Deployment) (svc svc' : Service) :
  m_DeletionTimestamp (dep_meta dep) = None → m_DeletionTimestamp (svc_meta svc) = None →
  mutate_deployment SetControllerReference r eg dep = Ok dep' →
  mutate_service SetControllerReference r eg svc = Ok svc' →
  svc_Selector svc' ⊆ t_Labels (dep_Template dep') ∧
  (m_CreationTimestamp (dep_meta dep) = None →
     ∃ sel, dep_Selector dep' = Some sel ∧ sel ⊆ t_Labels (dep_Template dep')) ∧
  (m_CreationTimestamp (dep_meta dep) ≠ None → dep_Selector dep' = dep_Selector dep) ∧
  dep_Replicas dep' = Some (Replicas (eg_Spec eg)) ∧
  svc_Ports svc' = [mkServicePort (Port r) (IntVal (Port r)) "UDP"] ∧ ClusterIP svc' = ClusterIP svc.
Proof.
  intros Hd Hs. unfold mutate_deployment, mutate_service. rewrite Hd, Hs. unfold mbind, result_bind.
  destruct (mutate_meta _ eg (dep_meta dep)) as [m1|]; [|done]. intros [= <-].
  destruct (mutate_meta _ eg (svc_meta svc)) as [m2|]; [|done]. intros [= <-]. cbn -[appLabels reconcilePodTemplate].
  split_and!; try done.
  - apply template_labels.
  - intros ->. eexists. split; [done|]. apply template_labels.
  - by destruct (m_CreationTimestamp (dep_meta dep)).
Qed.

(** Reconciling is stable: applied to an object that exists and that it
    has already brought into shape, each of the three functions changes
    nothing, so that a reconciliation without news does not write. *)
Theorem egress_mutate_stable (r : EgressReconciler) (eg : Egress) (spec : EgressPDBSpec)
    (dep dep' : Deployment) (svc svc' : Service) (pdb pdb' : PDB) :
  m_CreationTimestamp (dep_meta dep) ≠ None → m_CreationTimestamp (svc_meta svc) ≠ None →
  m_CreationTimestamp (pdb_meta pdb) ≠ None →
  mutate_deployment SetControllerReference r eg dep = Ok dep' →
  mutate_service SetControllerReference r eg svc = Ok svc' →
  mutate_pdb SetControllerReference eg spec pdb = Ok pdb' →
  mutate_deployment SetControllerReference r eg dep' = Ok dep' ∧
  mutate_service SetControllerReference r eg svc' = Ok svc' ∧
  mutate_pdb SetControllerReference eg spec pdb' = Ok pdb'.
Proof.
  intros Hc1 Hc2 Hc3 H1 H2 H3. split_and!.
  - unfold mutate_deployment in *. destruct (m_DeletionTimestamp (dep_meta dep)) eqn:Hd.
    { injection H1 as <-. by rewrite Hd. }
    destruct (mutate_meta _ eg (dep_meta dep)) as [m|] eqn:Hm; [|done]. injection H1 as <-.
    destruct (mutate_meta_idemp _ _ _ Hc1 Hm) as (Hi & Hct & Hdt). cbn [dep_meta]. rewrite Hdt, Hd, Hi.
    unfold mbind, result_bind. cbn [dep_Selector dep_Strategy dep_Template dep_AvailableReplicas].
    rewrite template_idemp, Hct. destruct (m_CreationTimestamp (dep_meta dep)); [|done].
    by destruct (Strategy (eg_Spec eg)).
  - unfold mutate_service in *. destruct (m_DeletionTimestamp (svc_meta svc)) eqn:Hd.
    { injection H2 as <-. by rewrite Hd. }
    destruct (mutate_meta _ eg (svc_meta svc)) as [m|] eqn:Hm; [|done]. injection H2 as <-.
    destruct (mutate_meta_idemp _ _ _ Hc2 Hm) as (Hi & Hct & Hdt). cbn [svc_meta]. rewrite Hdt, Hd, Hi.
    unfold mbind, result_bind. simpl. by destruct (SessionAffinityConfig (eg_Spec eg)).
  - unfold mutate_pdb in *. destruct (m_DeletionTimestamp (pdb_meta pdb)) eqn:Hd.
    { injection H3 as <-. by rewrite Hd. }
    destruct (mutate_meta _ eg (pdb_meta pdb)) as [m|] eqn:Hm; [|done]. injection H3 as <-.
    destruct (mutate_meta_idemp _ _ _ Hc3 Hm) as (Hi & Hct & Hdt). cbn [pdb_meta]. rewrite Hdt, Hd, Hi.
    unfold mbind, result_bind. simpl. by destruct (MinAvailable spec), (MaxUnavailable spec).
Qed.

(** Settings that are mutually exclusive are not cleared.  An egress whose
    budget is changed from a minimum to a maximum gets a disruption budget
    with both, which Kubernetes refuses, and one whose session affinity
    configuration is removed keeps the old one on its service. *)
Theorem egress_stale_settings (r : EgressReconciler) (eg : Egress) (spec : EgressPDBSpec)
    (pdb pdb' : PDB) (svc svc' : Service) (mn mx : IntOrString) (cfg : string) :
  m_DeletionTimestamp (pdb_meta pdb) = None → m_DeletionTimestamp (svc_meta svc) = None →
  pdb_MinAvailable pdb = Some mn → MinAvailable spec = None → MaxUnavailable spec = Some mx →
  svc_SessionAffinityConfig svc = Some cfg → SessionAffinityConfig (eg_Spec eg) = None →
  mutate_pdb SetControllerReference eg spec pdb = Ok pdb' →
  mutate_service SetControllerReference r eg svc = Ok svc' →
  pdb_MinAvailable pdb' = Some mn ∧ pdb_MaxUnavailable pdb' = Some mx ∧
  svc_SessionAffinity svc' = SessionAffinity (eg_Spec eg) ∧ svc_SessionAffinityConfig svc' = Some cfg.
Proof.
  intros Hd1 Hd2 Hmn Hs1 Hs2 Hcfg Hc. unfold mutate_pdb, mutate_service. rewrite Hd1, Hd2, Hmn, Hs1, Hs2, Hcfg, Hc.
  unfold mbind, result_bind. destruct (mutate_meta _ eg (pdb_meta pdb)); [|done]. intros [= <-].
  destruct (mutate_meta _ eg (svc_meta svc)); [|done]. by intros [= <-].
Qed.
End owned.

Lemma EgressReconcile_eq {A : Type} `{!API A} range_ns r req (a : A) :
  EgressReconcile range_ns r req a =
    match api_GetEgress req a with
    | Err e => (if IsNotFound e then Ok tt else Err e, a)
    | Ok eg =>
        if decide (m_DeletionTimestamp (eg_meta eg) ≠ None) then (Ok tt, a)
        else with_deferred
          (reconcileServiceAccount eg;; reconcileCR;; reconcileCRB range_ns;; reconcileDeployment r eg;;
           reconcileService r eg;; reconcilePDB eg) (updateStatus eg) a
    end.
Proof.
  unfold EgressReconcile. unfold mbind at 1, M_bind at 1, try, ask.
  destruct (api_GetEgress req a) as [eg|e]; [by case_decide|by destruct (IsNotFound e)].
Qed.

(** An egress that is gone or being deleted is left alone, and in every
    other case the outcome is that of the first of the six steps that fails,
    with the later steps not run and the status updated all the same; a
    failing update of the status does not show. *)
Theorem egress_reconcile_order {A : Type} `{!API A} (range_ns : gset string → list string)
    (r : EgressReconciler) (req : NamespacedName) (a : A) :
  match api_GetEgress req a with
  | Err e => EgressReconcile range_ns r req a = (if IsNotFound e then Ok tt else Err e, a)
  | Ok eg =>
      if decide (m_DeletionTimestamp (eg_meta eg) ≠ None) then EgressReconcile range_ns r req a = (Ok tt, a)
      else ∃ done_ rest a1,
        done_ ++ rest = [reconcileServiceAccount eg; reconcileCR; reconcileCRB range_ns; reconcileDeployment r eg;
                         reconcileService r eg; reconcilePDB eg] ∧
        forM_ done_ id a = (Ok tt, a1) ∧
        ((rest = [] ∧ EgressReconcile range_ns r req a = (Ok tt, (updateStatus eg a1).2)) ∨
         ∃ step rest' e a2, rest = step :: rest' ∧ step a1 = (Err e, a2) ∧
           EgressReconcile range_ns r req a = (Err e, (updateStatus eg a2).2))
  end.
Proof.
  rewrite !EgressReconcile_eq. destruct (api_GetEgress req a) as [eg|e]; [|done]. case_decide; [done|].
  set (steps := [reconcileServiceAccount eg; reconcileCR; reconcileCRB range_ns; reconcileDeployment r eg;
                 reconcileService r eg; reconcilePDB eg]).
  assert (∀ l (x : A), ∃ done_ rest a1, done_ ++ rest = l ∧ forM_ done_ id x = (Ok tt, a1) ∧
    ((rest = [] ∧ forM_ l id x = (Ok tt, a1)) ∨
     ∃ step rest' e a2, rest = step :: rest' ∧ step a1 = (Err e, a2) ∧ forM_ l id x = (Err e, a2))) as Hsplit.
  { induction l as [|m l IH]; intros x; [exists [], [], x; split_and!; try done; by left|].
    destruct (m x) as [[[]|e] x1] eqn:Hm.
    - destruct (IH x1) as (d & rest & a1 & <- & Hd & Hcase). exists (m :: d), rest, a1.
      rewrite (forM_cons_ok m d id x x1 Hm). split_and!; [done|done|].
      change ((m :: d) ++ rest) with (m :: (d ++ rest)). by rewrite (forM_cons_ok m (d ++ rest) id x x1 Hm).
    - exists [], (m :: l), x. split_and!; [done..|]. right. exists m, l, e, x1. split_and!; [done..|].
      simpl. by apply run_bind_err. }
  assert ((reconcileServiceAccount eg;; reconcileCR;; reconcileCRB range_ns;; reconcileDeployment r eg;;
           reconcileService r eg;; reconcilePDB eg) a = forM_ steps id a) as Hbody.
  { unfold steps. cbn [forM_ id]. unfold mbind, M_bind, mret, M_ret.
    repeat (match goal with |- context [match ?m with _ => _ end] => destruct m as [[[]|?] ?]; try done end). }
  destruct (Hsplit steps a) as (d & rest & a1 & Hl & Hd & Hcase). exists d, rest, a1. split; [done|]. split; [done|].
  unfold with_deferred. rewrite Hbody.
  destruct Hcase as [[-> ->]|(step & rest' & e & a2 & -> & Hs & ->)].
  - left. split; [done|]. by destruct (updateStatus eg a1).
  - right. exists step, rest', e, a2. split_and!; [done..|]. by destruct (updateStatus eg a2).
Qed.

(** The liveness probe of the egress container asks for a port the
    container does not declare; the readiness probe's port is declared. *)
Theorem egress_probe_ports (r : EgressReconciler) (eg : Egress) (c : Container) :
  let declared := λ p, ∃ q, q ∈ c_Ports (setup_container r eg c) ∧ pr_Port p = StrVal (cp_Name q) in
  (∃ p, c_LivenessProbe (setup_container r eg c) = Some p ∧ ¬ declared p) ∧
  (∃ p, c_ReadinessProbe (setup_container r eg c) = Some p ∧ declared p).
Proof.
  split.
  - eexists. split; [reflexivity|]. intros (q & Hq & Hp). simpl in Hq, Hp.
    rewrite !elem_of_cons, elem_of_nil in Hq. destruct Hq as [->|[->|[]]]; done.
  - eexists. split; [reflexivity|]. exists (mkContainerPort "health" 8081 "TCP"). split; [|done].
    simpl. rewrite !elem_of_cons. auto.
Qed.

(** ** Witnesses *)

Definition ex_eg (name namespace : string) (spec : EgressSpec) : Egress :=
  mkEgress (mkObjectMeta name namespace ∅ None (Some 1) []) spec (mkEgressStatus 0 "").
Definition ex_spec : EgressSpec := mkEgressSpec ["0.0.0.0/0"] 2 None None "None" None None.
Definition ex_r : EgressReconciler := mkEgressReconciler 5555 "ghcr.io/cybozu-go/pona:dev".
Definition ex_ref (eg : Egress) (m : ObjectMeta) : result ObjectMeta :=
  Ok (mkObjectMeta (m_Name m) (m_Namespace m) (m_Labels m) (m_DeletionTimestamp m) (m_CreationTimestamp m)
        (m_Name (eg_meta eg) :: m_OwnerReferences m)).

(** A cluster that holds egresses and a role binding. *)
Definition not_found : goerror := ErrAPINotFound "not found".
#[local] Instance ex_api : API (list Egress * option CRB) := {|
  api_GetEgress n a := match List.find (λ eg, bool_decide (eg_key eg = n)) a.1 with Some eg => Ok eg | None => Err not_found end;
  api_ListEgress a := Ok a.1;
  api_StatusUpdate _ := mret tt;
  api_GetSA _ _ := Err not_found;
  api_CreateSA _ := mret tt;
  api_GetCR _ _ := Err not_found;
  api_CreateCR _ := mret tt;
  api_GetCRB _ a := match a.2 with Some c => Ok c | None => Err not_found end;
  api_CreateCRB c a := (Ok c, (a.1, Some c));
  api_PatchCRB _ c a := (Ok tt, (a.1, Some c));
  api_GetDeployment _ _ := Err not_found;
  CreateOrUpdate_Deployment _ _ := mret tt;
  CreateOrUpdate_Service _ _ := mret tt;
  CreateOrUpdate_PDB _ _ := mret tt;
  SetControllerReference := ex_ref;
  LabelSelectorAsSelector _ := Ok "";
|}.

Definition ex_cluster : list Egress * option CRB :=
  ([ex_eg "a" "zoo" ex_spec; ex_eg "b" "internet" ex_spec; ex_eg "c" "zoo" ex_spec], None).

Lemma egress_namespaces_spec_witness :
  getNamespaces elements (rev (fst ex_cluster)) = getNamespaces elements (fst ex_cluster) ∧
  getNamespaces elements (fst ex_cluster) = ["internet"; "zoo"].
Proof.
  split; [|vm_compute; reflexivity].
  apply (egress_namespaces_spec elements (λ s, reflexivity _) elements (fst ex_cluster) (rev (fst ex_cluster))).
  - intros s. reflexivity.
  - intros n. setoid_rewrite list_elem_of_In. setoid_rewrite <- in_rev. reflexivity.
Defined.

Lemma egress_crb_subjects_witness :
  ∃ crb, (reconcileCRB elements ex_cluster).2 = (fst ex_cluster, Some crb) ∧ NoDup (crb_Subjects crb) ∧
    ∀ s, s ∈ crb_Subjects crb ↔
      ∃ eg, eg ∈ fst ex_cluster ∧ s = mkSubject "ServiceAccount" "egress" (m_Namespace (eg_meta eg)).
Proof.
  destruct (egress_crb_subjects elements (λ s, reflexivity _) ex_cluster (reconcileCRB elements ex_cluster).2)
    as (crb & newCrb & egs & a1 & Hl & Hp & _ & _ & H1 & H2); [vm_compute; reflexivity|].
  assert (fst (reconcileCRB elements ex_cluster).2 = fst ex_cluster) as Hegs by (vm_compute; reflexivity).
  injection Hl as <-. apply (f_equal snd) in Hp.
  change ((a1.1, Some newCrb) = (reconcileCRB elements ex_cluster).2) in Hp. rewrite <- Hp in Hegs |- *. change (a1.1 = fst ex_cluster) in Hegs. rewrite <- Hegs.
  exists newCrb. split; [reflexivity|]. split; [exact H1|exact H2].
Defined.

Definition named (n : string) : Container := mkContainer n "" [] [] None None [] None None [] "".

Lemma egress_template_plain_witness :
  ∃ c, Containers (egress_pod_spec ex_r (ex_eg "a" "zoo" ex_spec) PodSpec_zero) = [c] ∧ c_Name c = "egress".
Proof.
  destruct (egress_template_plain ex_r (ex_eg "a" "zoo" ex_spec) PodSpec_zero) as (c0 & c & H1 & _ & H2 & _);
    [left; reflexivity|].
  exists c. split; [exact H1|exact H2].
Defined.

Lemma egress_template_sidecar_witness :
  let names := c_Name <$> Containers (egress_pod_spec ex_r (ex_eg "a" "zoo" ex_spec)
                 (mkPodSpec "" [] [named "egress"; named "sidecar"] "")) in
  names = ["egress"; "egress"] ∧ ("" ∈ names ∨ ¬ NoDup names).
Proof.
  intros names. split; [vm_compute; reflexivity|].
  apply (egress_template_sidecar ex_r (ex_eg "a" "zoo" ex_spec) (mkPodSpec "" [] [named "egress"; named "sidecar"] "")).
  right. left. discriminate.
Defined.

Definition ex_meta (created : option Z) : ObjectMeta := mkObjectMeta "a" "zoo" {[ "keep" := "me" ]} None created [].
Definition ex_dep (created : option Z) : Deployment :=
  mkDeployment (ex_meta created) None None "" (mkPodTemplateSpec ∅ None PodSpec_zero) 0.
Definition ex_svc (created : option Z) : Service :=
  mkService (ex_meta created) "" ∅ [] "ClientIP" (Some "timeout=60") "10.96.0.7".
Definition ex_pdb : PDB := mkPDB (ex_meta (Some 1)) (Some (IntVal 1)) None None.

Lemma egress_objects_match_witness :
  ∃ dep' svc', mutate_deployment ex_ref ex_r (ex_eg "a" "zoo" ex_spec) (ex_dep None) = Ok dep' ∧
    mutate_service ex_ref ex_r (ex_eg "a" "zoo" ex_spec) (ex_svc None) = Ok svc' ∧
    svc_Selector svc' ⊆ t_Labels (dep_Template dep').
Proof.
  eexists _, _. split; [reflexivity|]. split; [reflexivity|].
  eapply (egress_objects_match ex_ref ex_r (ex_eg "a" "zoo" ex_spec) (ex_dep None) _ (ex_svc None)); reflexivity.
Defined.

Lemma egress_mutate_stable_witness :
  ∃ dep', mutate_deployment ex_ref ex_r (ex_eg "a" "zoo" ex_spec) (ex_dep (Some 1)) = Ok dep' ∧
    mutate_deployment ex_ref ex_r (ex_eg "a" "zoo" ex_spec) dep' = Ok dep'.
Proof.
  eexists. split; [reflexivity|].
  eapply (egress_mutate_stable ex_ref ex_r (ex_eg "a" "zoo" ex_spec) (mkEgressPDBSpec None None)
    (ex_dep (Some 1)) _ (ex_svc (Some 1)) _ ex_pdb); first [discriminate|reflexivity].
Defined.

Lemma egress_stale_settings_witness :
  ∃ pdb', mutate_pdb ex_ref (ex_eg "a" "zoo" ex_spec) (mkEgressPDBSpec None (Some (IntVal 1))) ex_pdb = Ok pdb' ∧
    pdb_MinAvailable pdb' = Some (IntVal 1) ∧ pdb_MaxUnavailable pdb' = Some (IntVal 1).
Proof.
  eexists. split; [reflexivity|].
  destruct (egress_stale_settings ex_ref ex_r (ex_eg "a" "zoo" ex_spec) (mkEgressPDBSpec None (Some (IntVal 1)))
    ex_pdb _ (ex_svc (Some 1)) _ (IntVal 1) (IntVal 1) "timeout=60" eq_refl eq_refl eq_refl eq_refl eq_refl eq_refl
    eq_refl eq_refl eq_refl) as (H1 & H2 & _).
  split; [exact H1|exact H2].
Defined.
