(* ===== verification/EgressCluster.v ===== *)
(** * The egress controller against an API server with a store

    [EgressController] leaves the API server abstract.  Here its documented
    behaviour is stated over a [view] of the server's store ([APILaws]), and
    the contract of the controller as a predicate on the store ([realised]):
    the reconciler is shown to establish it, to leave everything else alone,
    and to have nothing left to do afterwards.  [Store] is a server with those
    laws. *)
From Stdlib Require Import Ascii String.
From S2P Require Import Prelude GoStrings PodWatcher EgressAPI EgressController.

Local Open Scope Z_scope.

(** ** The store *)

Record Cluster := mkCluster {
  cl_egress : gmap NamespacedName Egress;
  cl_sa : gmap NamespacedName ServiceAccount;
  cl_cr : gmap string ClusterRole;
  cl_crb : gmap string CRB;
  cl_dep : gmap NamespacedName Deployment;
  cl_svc : gmap NamespacedName Service;
  cl_pdb : gmap NamespacedName PDB }.

Definition put_egress n x (c : Cluster) : Cluster :=
  mkCluster (<[n := x]> (cl_egress c)) (cl_sa c) (cl_cr c) (cl_crb c) (cl_dep c) (cl_svc c) (cl_pdb c).
Definition put_sa n x (c : Cluster) : Cluster :=
  mkCluster (cl_egress c) (<[n := x]> (cl_sa c)) (cl_cr c) (cl_crb c) (cl_dep c) (cl_svc c) (cl_pdb c).
Definition put_cr n x (c : Cluster) : Cluster :=
  mkCluster (cl_egress c) (cl_sa c) (<[n := x]> (cl_cr c)) (cl_crb c) (cl_dep c) (cl_svc c) (cl_pdb c).
Definition put_crb n x (c : Cluster) : Cluster :=
  mkCluster (cl_egress c) (cl_sa c) (cl_cr c) (<[n := x]> (cl_crb c)) (cl_dep c) (cl_svc c) (cl_pdb c).
Definition put_dep n x (c : Cluster) : Cluster :=
  mkCluster (cl_egress c) (cl_sa c) (cl_cr c) (cl_crb c) (<[n := x]> (cl_dep c)) (cl_svc c) (cl_pdb c).
Definition put_svc n x (c : Cluster) : Cluster :=
  mkCluster (cl_egress c) (cl_sa c) (cl_cr c) (cl_crb c) (cl_dep c) (<[n := x]> (cl_svc c)) (cl_pdb c).
Definition put_pdb n x (c : Cluster) : Cluster :=
  mkCluster (cl_egress c) (cl_sa c) (cl_cr c) (cl_crb c) (cl_dep c) (cl_svc c) (<[n := x]> (cl_pdb c)).

(** The objects handed to [CreateOrUpdate] when there is none yet: name and
    namespace, and Go's zero values. *)
Definition new_dep (n : NamespacedName) : Deployment :=
  mkDeployment (meta_named (nn_Name n) (nn_Namespace n)) None None "" (mkPodTemplateSpec ∅ None PodSpec_zero) 0.
Definition new_svc (n : NamespacedName) : Service :=
  mkService (meta_named (nn_Name n) (nn_Namespace n)) "" ∅ [] "" None "".
Definition new_pdb (n : NamespacedName) : PDB := mkPDB (meta_named (nn_Name n) (nn_Namespace n)) None None None.

(** ** What the server does to an object it is sent

    It fills unset fields in: of a deployment, the strategy and the pod
    specification; of a service, the session affinity.  A new object gets a
    creation timestamp, a new service an address.  And it validates: an object
    is accepted or refused, an update knowing the object it replaces.  Of the
    rules it does that by only two are needed: an update that changes nothing
    is accepted, and a disruption budget has one limit at most. *)
Class Admission := {
  default_strategy : string → string;
  default_podspec : PodSpec → PodSpec;
  default_affinity : string → option string → string * option string;
  default_podspec_idemp s : default_podspec (default_podspec s) = default_podspec s;
  default_strategy_idemp s : default_strategy (default_strategy s) = default_strategy s;
  default_affinity_idemp s c :
    default_affinity s (default_affinity s c).2 = default_affinity s c;
  default_affinity_same s c :
    default_affinity (default_affinity s c).1 (default_affinity s c).2 = default_affinity s c;
  accepts_sa : ServiceAccount → Prop;
  accepts_cr : ClusterRole → Prop;
  accepts_crb : option CRB → CRB → Prop;
  accepts_dep : option Deployment → Deployment → Prop;
  accepts_svc : option Service → Service → Prop;
  accepts_pdb : option PDB → PDB → Prop;
  accepts_crb_same x : accepts_crb (Some x) x;
  accepts_dep_same x : accepts_dep (Some x) x;
  accepts_svc_same x : accepts_svc (Some x) x;
  accepts_pdb_same x : accepts_pdb (Some x) x;
  accepts_pdb_limits old x :
    accepts_pdb old x → is_Some (pdb_MinAvailable x) → is_Some (pdb_MaxUnavailable x) → old = Some x;
}.

Section settle.
Context `{!Admission}.

Definition admit_template (t : PodTemplateSpec) : PodTemplateSpec :=
  mkPodTemplateSpec (t_Labels t) (t_Annotations t) (default_podspec (t_Spec t)).

Definition admit_dep (d : Deployment) : Deployment :=
  mkDeployment (dep_meta d) (dep_Selector d) (dep_Replicas d) (default_strategy (dep_Strategy d))
    (admit_template (dep_Template d)) (dep_AvailableReplicas d).

Definition admit_svc (s : Service) : Service :=
  let '(aff, cfg) := default_affinity (svc_SessionAffinity s) (svc_SessionAffinityConfig s) in
  mkService (svc_meta s) (svc_Type s) (svc_Selector s) (svc_Ports s) aff cfg (ClusterIP s).

Definition stamp (t : Z) (m : ObjectMeta) : ObjectMeta :=
  mkObjectMeta (m_Name m) (m_Namespace m) (m_Labels m) (m_DeletionTimestamp m) (Some t) (m_OwnerReferences m).

Definition created_dep (t : Z) (d : Deployment) : Deployment :=
  mkDeployment (stamp t (dep_meta d)) (dep_Selector d) (dep_Replicas d) (dep_Strategy d) (dep_Template d)
    (dep_AvailableReplicas d).
Definition created_svc (t : Z) (ip : string) (s : Service) : Service :=
  mkService (stamp t (svc_meta s)) (svc_Type s) (svc_Selector s) (svc_Ports s) (svc_SessionAffinity s)
    (svc_SessionAffinityConfig s) ip.
Definition created_pdb (t : Z) (p : PDB) : PDB :=
  mkPDB (stamp t (pdb_meta p)) (pdb_MinAvailable p) (pdb_MaxUnavailable p) (pdb_Selector p).

(** controller-runtime's [CreateOrUpdate] at one object: [old] is what the
    store had, [x] what it has afterwards. *)
Definition create_or_update {X} (new : X) (settle : X → X) (accepts : option X → X → Prop)
    (created : X → X → Prop) (f : X → result X) (old : option X) (x : X) : Prop :=
  match old with
  | None => ∃ y, f new = Ok y ∧ accepts None (settle y) ∧ created (settle y) x
  | Some o => ∃ y, f o = Ok y ∧ (y = o ∧ x = o ∨ y ≠ o ∧ accepts (Some o) (settle y) ∧ x = settle y)
  end.
End settle.

(** ** The API server's behaviour

    A read is of the store as it is.  The program passes the client of its
    manager, which reads from a cache that follows the store: what is shown
    here holds of reconciliations that find the cache up to date. *)
Class APILaws (A : Type) `{!API A, !Admission} := {
  view : A → Cluster;

  (* reads: what is found is in the store, what is not found is not *)
  GetEgress_view n a : match api_GetEgress n a with
    | Ok x => cl_egress (view a) !! n = Some x
    | Err e => IsNotFound e = true → cl_egress (view a) !! n = None end;
  GetSA_view n a : match api_GetSA n a with
    | Ok x => cl_sa (view a) !! n = Some x
    | Err e => IsNotFound e = true → cl_sa (view a) !! n = None end;
  GetCR_view n a : match api_GetCR n a with
    | Ok x => cl_cr (view a) !! n = Some x
    | Err e => IsNotFound e = true → cl_cr (view a) !! n = None end;
  GetCRB_view n a : match api_GetCRB n a with
    | Ok x => cl_crb (view a) !! n = Some x
    | Err e => IsNotFound e = true → cl_crb (view a) !! n = None end;
  GetDeployment_view n a d : api_GetDeployment n a = Ok d → cl_dep (view a) !! n = Some d;
  ListEgress_view a l : api_ListEgress a = Ok l →
    ∀ eg, eg ∈ l ↔ ∃ n, cl_egress (view a) !! n = Some eg;

  (* writes that succeed: what is written was accepted *)
  CreateSA_view x a a' : api_CreateSA x a = (Ok tt, a') →
    view a' = put_sa (mkNamespacedName (sa_Namespace x) (sa_Name x)) x (view a);
  CreateCR_view x a a' : api_CreateCR x a = (Ok tt, a') → view a' = put_cr (cr_Name x) x (view a);
  CreateCRB_view x a y a' : api_CreateCRB x a = (Ok y, a') → y = x ∧ view a' = put_crb (crb_Name x) x (view a);
  PatchCRB_view old new a a' : api_PatchCRB old new a = (Ok tt, a') → crb_Name new = crb_Name old →
    cl_crb (view a) !! crb_Name old = Some old → view a' = put_crb (crb_Name old) new (view a);
  CreateOrUpdate_Deployment_view n f a a' : CreateOrUpdate_Deployment n f a = (Ok tt, a') →
    ∃ x, view a' = put_dep n x (view a) ∧
      create_or_update (new_dep n) admit_dep accepts_dep (λ y x, ∃ t, x = created_dep t y) f (cl_dep (view a) !! n) x;
  CreateOrUpdate_Service_view n f a a' : CreateOrUpdate_Service n f a = (Ok tt, a') →
    ∃ x, view a' = put_svc n x (view a) ∧
      create_or_update (new_svc n) admit_svc accepts_svc (λ y x, ∃ t ip, x = created_svc t ip y) f (cl_svc (view a) !! n) x;
  CreateOrUpdate_PDB_view n f a a' : CreateOrUpdate_PDB n f a = (Ok tt, a') →
    ∃ x, view a' = put_pdb n x (view a) ∧
      create_or_update (new_pdb n) id accepts_pdb (λ y x, ∃ t, x = created_pdb t y) f (cl_pdb (view a) !! n) x;

  (* a status update changes the status only, and may be lost *)
  StatusUpdate_view eg a old : cl_egress (view a) !! eg_key eg = Some old →
    let a' := (api_StatusUpdate eg a).2 in
    view a' = view a ∨
    view a' = put_egress (eg_key eg) (mkEgress (eg_meta old) (eg_Spec old) (eg_Status eg)) (view a);

  (* an owner reference is all that is added *)
  SetControllerReference_meta eg m m' : SetControllerReference eg m = Ok m' →
    m_Name m' = m_Name m ∧ m_Namespace m' = m_Namespace m ∧ m_Labels m' = m_Labels m ∧
    m_DeletionTimestamp m' = m_DeletionTimestamp m ∧ m_CreationTimestamp m' = m_CreationTimestamp m;
}.

(** A server that answers: a read fails for what is not there, and a write
    when there is an object of the name already, or the object is not
    accepted. *)
Class APIUp (A : Type) `{!API A, !Admission, !APILaws A} := {
  up_GetEgress n a e : api_GetEgress n a = Err e → IsNotFound e = true;
  up_GetSA n a e : api_GetSA n a = Err e → IsNotFound e = true;
  up_GetCR n a e : api_GetCR n a = Err e → IsNotFound e = true;
  up_GetCRB n a e : api_GetCRB n a = Err e → IsNotFound e = true;
  up_ListEgress a : is_ok (api_ListEgress a) = true;
  up_CreateSA x a : accepts_sa x → cl_sa (view a) !! mkNamespacedName (sa_Namespace x) (sa_Name x) = None →
    is_ok (api_CreateSA x a).1 = true;
  up_CreateCR x a : accepts_cr x → cl_cr (view a) !! cr_Name x = None → is_ok (api_CreateCR x a).1 = true;
  up_CreateCRB x a : accepts_crb None x → cl_crb (view a) !! crb_Name x = None → is_ok (api_CreateCRB x a).1 = true;
  up_PatchCRB old new a : crb_Name new = crb_Name old → cl_crb (view a) !! crb_Name old = Some old →
    accepts_crb (Some old) new → is_ok (api_PatchCRB old new a).1 = true;
  up_Deployment n f a y :
    f (default (new_dep n) (cl_dep (view a) !! n)) = Ok y →
    cl_dep (view a) !! n = Some y ∨ accepts_dep (cl_dep (view a) !! n) (admit_dep y) →
    is_ok (CreateOrUpdate_Deployment n f a).1 = true;
  up_Service n f a y :
    f (default (new_svc n) (cl_svc (view a) !! n)) = Ok y →
    cl_svc (view a) !! n = Some y ∨ accepts_svc (cl_svc (view a) !! n) (admit_svc y) →
    is_ok (CreateOrUpdate_Service n f a).1 = true;
  up_PDB n f a y :
    f (default (new_pdb n) (cl_pdb (view a) !! n)) = Ok y →
    cl_pdb (view a) !! n = Some y ∨ accepts_pdb (cl_pdb (view a) !! n) y →
    is_ok (CreateOrUpdate_PDB n f a).1 = true;
  (* refused to an object of another namespace, or one that has an owner *)
  up_SetControllerReference eg m : m_Namespace m = m_Namespace (eg_meta eg) → m_OwnerReferences m = [] →
    is_ok (SetControllerReference eg m) = true;
}.

(** ** The contract *)

Definition egress_ns (c : Cluster) (ns : string) : Prop :=
  ∃ n eg, cl_egress c !! n = Some eg ∧ nn_Namespace n = ns.

Definition sa_key (eg : Egress) : NamespacedName := mkNamespacedName (m_Namespace (eg_meta eg)) egressServiceAccountName.

Definition wanted_spec (eg : Egress) : PodSpec :=
  match Template (eg_Spec eg) with Some t => et_Spec t | None => PodSpec_zero end.

Definition wanted_labels (eg : Egress) : gmap string string :=
  appLabels (m_Name (eg_meta eg)) ∪ match Template (eg_Spec eg) with Some t => et_Labels t | None => ∅ end.

Definition wanted_annotations (eg : Egress) : gmap string string :=
  match Template (eg_Spec eg) with Some t => et_Annotations t | None => ∅ end.

(** The objects of an egress are in the store, as the egress wants them. *)
Record realised `{!Admission} (r : EgressReconciler) (eg : Egress) (c : Cluster) : Prop := mkRealised {
  re_sa : is_Some (cl_sa c !! sa_key eg);
  re_cr : is_Some (cl_cr c !! egressCRName);
  re_crb : ∃ crb, cl_crb c !! egressCRBName = Some crb ∧ NoDup (crb_Subjects crb) ∧
    ∀ s, s ∈ crb_Subjects crb ↔ ∃ ns, egress_ns c ns ∧ s = mkSubject "ServiceAccount" egressServiceAccountName ns;
  re_dep : ∃ d, cl_dep c !! eg_key eg = Some d ∧ dep_Replicas d = Some (Replicas (eg_Spec eg)) ∧
    appLabels (m_Name (eg_meta eg)) ⊆ m_Labels (dep_meta d) ∧
    appLabels (m_Name (eg_meta eg)) ⊆ t_Labels (dep_Template d) ∧
    t_Spec (dep_Template d) = default_podspec (egress_pod_spec r eg (wanted_spec eg)) ∧
    (∀ st, Strategy (eg_Spec eg) = Some st → dep_Strategy d = default_strategy st) ∧
    t_Labels (dep_Template d) = wanted_labels eg ∧ wanted_annotations eg ⊆ default ∅ (t_Annotations (dep_Template d));
  re_svc : ∃ s, cl_svc c !! eg_key eg = Some s ∧ svc_Selector s = appLabels (m_Name (eg_meta eg)) ∧
    svc_Type s = "ClusterIP" ∧ svc_Ports s = [mkServicePort (Port r) (IntVal (Port r)) "UDP"] ∧
    ∃ cfg, (svc_SessionAffinity s, svc_SessionAffinityConfig s) = default_affinity (SessionAffinity (eg_Spec eg)) cfg ∧
      (is_Some (SessionAffinityConfig (eg_Spec eg)) → cfg = SessionAffinityConfig (eg_Spec eg));
  re_pdb spec : PodDisruptionBudget (eg_Spec eg) = Some spec →
    ∃ p, cl_pdb c !! eg_key eg = Some p ∧ pdb_Selector p = Some (appLabels (m_Name (eg_meta eg))) ∧
      (is_Some (MinAvailable spec) → pdb_MinAvailable p = MinAvailable spec) ∧
      (is_Some (MaxUnavailable spec) → pdb_MaxUnavailable p = MaxUnavailable spec);
}.

(** The cluster role, and the role binding before it has subjects, as the
    controller makes them. *)
Definition egress_role : ClusterRole :=
  mkClusterRole egressCRName [mkPolicyRule [""] ["pods"] ["get"; "list"; "watch"]].
Definition bare_binding : CRB :=
  mkCRB egressCRBName (mkRoleRef "rbac.authorization.k8s.io" "ClusterRole" egressCRName) [].

(** What was in the store before, where the egress does not say: an object, or
    a setting of one, that was there is kept, a new one is the controller's. *)
Record provided `{!Admission} (eg : Egress) (c c' : Cluster) : Prop := mkProvided {
  pr_sa : cl_sa c' !! sa_key eg =
    Some (default (mkServiceAccount egressServiceAccountName (m_Namespace (eg_meta eg))) (cl_sa c !! sa_key eg));
  pr_cr : cl_cr c' !! egressCRName = Some (default egress_role (cl_cr c !! egressCRName));
  pr_crb : ∃ crb, cl_crb c' !! egressCRBName = Some crb ∧
    crb_RoleRef crb = crb_RoleRef (default bare_binding (cl_crb c !! egressCRBName));
  pr_dep : ∃ d, cl_dep c' !! eg_key eg = Some d ∧
    dep_Selector d = match cl_dep c !! eg_key eg with
                     | Some o => dep_Selector o | None => Some (appLabels (m_Name (eg_meta eg))) end ∧
    (Strategy (eg_Spec eg) = None →
     dep_Strategy d = default_strategy (dep_Strategy (default (new_dep (eg_key eg)) (cl_dep c !! eg_key eg))));
  pr_svc : ∃ s, cl_svc c' !! eg_key eg = Some s ∧ (∀ o, cl_svc c !! eg_key eg = Some o → ClusterIP s = ClusterIP o) ∧
    (SessionAffinityConfig (eg_Spec eg) = None →
     svc_SessionAffinityConfig s = (default_affinity (SessionAffinity (eg_Spec eg))
       (svc_SessionAffinityConfig (default (new_svc (eg_key eg)) (cl_svc c !! eg_key eg)))).2);
  pr_pdb spec : PodDisruptionBudget (eg_Spec eg) = Some spec →
    ∃ p, cl_pdb c' !! eg_key eg = Some p ∧
      (MinAvailable spec = None →
       pdb_MinAvailable p = pdb_MinAvailable (default (new_pdb (eg_key eg)) (cl_pdb c !! eg_key eg))) ∧
      (MaxUnavailable spec = None →
       pdb_MaxUnavailable p = pdb_MaxUnavailable (default (new_pdb (eg_key eg)) (cl_pdb c !! eg_key eg)));
}.

(** Everything that is not the egress's is as before. *)
Record frame_of (eg : Egress) (c c' : Cluster) : Prop := mkFrame {
  fr_sa n : n ≠ sa_key eg → cl_sa c' !! n = cl_sa c !! n;
  fr_cr n : n ≠ egressCRName → cl_cr c' !! n = cl_cr c !! n;
  fr_crb n : n ≠ egressCRBName → cl_crb c' !! n = cl_crb c !! n;
  fr_dep n : n ≠ eg_key eg → cl_dep c' !! n = cl_dep c !! n;
  fr_svc n : n ≠ eg_key eg → cl_svc c' !! n = cl_svc c !! n;
  fr_pdb n : n ≠ eg_key eg ∨ PodDisruptionBudget (eg_Spec eg) = None → cl_pdb c' !! n = cl_pdb c !! n;
  fr_egress : cl_egress c' = cl_egress c ∨
    ∃ st, cl_egress c' = <[eg_key eg := mkEgress (eg_meta eg) (eg_Spec eg) st]> (cl_egress c);
}.

(** What is always true of a store: objects are found under their names, and
    are as the server made them. *)
Record cluster_wf `{!Admission} (c : Cluster) : Prop := mkWf {
  wf_egress n eg : cl_egress c !! n = Some eg → eg_key eg = n;
  wf_crb n x : cl_crb c !! n = Some x → crb_Name x = n;
  wf_dep n d : cl_dep c !! n = Some d → m_CreationTimestamp (dep_meta d) ≠ None ∧ admit_dep d = d;
  wf_svc n s : cl_svc c !! n = Some s → m_CreationTimestamp (svc_meta s) ≠ None ∧ admit_svc s = s;
  wf_pdb n p : cl_pdb c !! n = Some p → m_CreationTimestamp (pdb_meta p) ≠ None;
}.

(** None of the objects named like the egress is being deleted. *)
Definition not_deleting (n : NamespacedName) (c : Cluster) : Prop :=
  (∀ d, cl_dep c !! n = Some d → m_DeletionTimestamp (dep_meta d) = None) ∧
  (∀ s, cl_svc c !! n = Some s → m_DeletionTimestamp (svc_meta s) = None) ∧
  (∀ p, cl_pdb c !! n = Some p → m_DeletionTimestamp (pdb_meta p) = None).

(** ** Objects that have settled

    A stored object has settled when reconciling it again stores the same. *)
Section settled.
Context {A : Type} {AP : API A} {DF : Admission} {AL : APILaws A}.
Local Abbreviation mut_dep := (mutate_deployment SetControllerReference).
Local Abbreviation mut_svc := (mutate_service SetControllerReference).
Local Abbreviation mut_pdb := (mutate_pdb SetControllerReference).

Definition settled {X} (settle : X → X) (f : X → result X) (x : X) : Prop :=
  ∃ y, f x = Ok y ∧ (y = x ∨ settle y = x).

Lemma settled_again {X} new (settle : X → X) accepts created f (x x' : X) :
  settled settle f x → create_or_update new settle accepts created f (Some x) x' → x' = x.
Proof. intros (y & Hy & Hs) (y' & Hy' & Hc). rewrite Hy in Hy'. injection Hy' as <-. naive_solver. Qed.

(** The metadata after the labels and the owner were set. *)
Lemma mutate_meta_ok eg m m' :
  mutate_meta SetControllerReference eg m = Ok m' →
  m_DeletionTimestamp m' = m_DeletionTimestamp m ∧ m_CreationTimestamp m' = m_CreationTimestamp m ∧
  m_Labels m' = map_copy (m_Labels m) (appLabels (m_Name (eg_meta eg))).
Proof.
  unfold mutate_meta. simpl. destruct (m_CreationTimestamp m) as [t|] eqn:Ht.
  - intros [= <-]. done.
  - intros (_ & _ & H1 & H2 & H3)%SetControllerReference_meta. simpl in *. by rewrite H1, H2, H3.
Qed.

(** Nothing is left to do to metadata with the labels and a timestamp. *)
Lemma mutate_meta_done eg m :
  m_CreationTimestamp m ≠ None →
  m_Labels m = map_copy (m_Labels m) (appLabels (m_Name (eg_meta eg))) →
  mutate_meta SetControllerReference eg m = Ok m.
Proof.
  intros Ht Hl. unfold mutate_meta, with_labels. simpl. rewrite <- Hl.
  destruct m; simpl in *. by destruct m_CreationTimestamp.
Qed.

Lemma labels_done l ls : map_copy (map_copy l ls) ls = map_copy l ls.
Proof. apply map_copy_idemp. Qed.

Lemma template_fields r eg t :
  t_Spec (reconcilePodTemplate r eg t) = egress_pod_spec r eg (wanted_spec eg) ∧
  (∀ s, reconcilePodTemplate r eg (mkPodTemplateSpec (t_Labels (reconcilePodTemplate r eg t))
     (t_Annotations (reconcilePodTemplate r eg t)) s) = reconcilePodTemplate r eg t).
Proof.
  unfold reconcilePodTemplate, wanted_spec. destruct (Template (eg_Spec eg)) as [d|]; simpl; [|done].
  split; [done|]. intros _. by rewrite labels_done.
Qed.

Lemma template_wanted r eg t :
  t_Labels (reconcilePodTemplate r eg t) = wanted_labels eg ∧
  wanted_annotations eg ⊆ default ∅ (t_Annotations (reconcilePodTemplate r eg t)).
Proof.
  unfold reconcilePodTemplate, wanted_labels, wanted_annotations, map_copy.
  destruct (Template (eg_Spec eg)) as [d|]; simpl.
  - split; [by rewrite (right_id_L ∅ (∪))|]. apply map_union_subseteq_l.
  - split; [done|]. apply map_empty_subseteq.
Qed.

(** What the mutation of a deployment makes, field by field. *)
Lemma mut_dep_ok r eg d y :
  m_DeletionTimestamp (dep_meta d) = None → mut_dep r eg d = Ok y →
  ∃ m, mutate_meta SetControllerReference eg (dep_meta d) = Ok m ∧ dep_meta y = m ∧
    dep_Replicas y = Some (Replicas (eg_Spec eg)) ∧
    dep_Strategy y = default (dep_Strategy d) (Strategy (eg_Spec eg)) ∧
    dep_Template y = reconcilePodTemplate r eg (dep_Template d) ∧
    dep_AvailableReplicas y = dep_AvailableReplicas d ∧
    dep_Selector y = match m_CreationTimestamp (dep_meta d) with
                     | Some _ => dep_Selector d | None => Some (appLabels (m_Name (eg_meta eg))) end.
Proof.
  intros Hd. unfold mutate_deployment. rewrite Hd. unfold mbind, result_bind.
  destruct (mutate_meta _ eg (dep_meta d)) as [m|]; [|done]. intros [= <-]. exists m. cbn -[reconcilePodTemplate].
  split_and!; done.
Qed.

(** A stored deployment made from [y] by the server has settled. *)
Lemma dep_settled r eg d y z :
  m_DeletionTimestamp (dep_meta d) = None → mut_dep r eg d = Ok y →
  m_CreationTimestamp (dep_meta z) ≠ None → m_DeletionTimestamp (dep_meta z) = None →
  m_Labels (dep_meta z) = m_Labels (dep_meta y) → dep_Selector z = dep_Selector y →
  dep_Replicas z = dep_Replicas y → dep_Strategy z = default_strategy (dep_Strategy y) →
  dep_Template z = admit_template (dep_Template y) → dep_AvailableReplicas z = dep_AvailableReplicas y →
  settled admit_dep (mut_dep r eg) z.
Proof.
  intros Hd Hy Hc Hdel Hl Hsel Hr Hst Ht Ha.
  destruct (mut_dep_ok _ _ _ _ Hd Hy) as (m & Hm & Hmy & Hry & Hsy & Hty & _ & _).
  apply mutate_meta_ok in Hm as (_ & _ & Hlm).
  assert (mutate_meta SetControllerReference eg (dep_meta z) = Ok (dep_meta z)) as Hmz.
  { apply mutate_meta_done; [done|]. by rewrite Hl, Hmy, Hlm, labels_done. }
  unfold settled, mutate_deployment. rewrite Hdel, Hmz. unfold mbind, result_bind. eexists. split; [done|]. right.
  unfold admit_dep. cbn [dep_meta dep_Selector dep_Replicas dep_Strategy dep_Template dep_AvailableReplicas].
  destruct (template_fields r eg (dep_Template d)) as [_ Hfix]. rewrite Hty in Ht.
  rewrite Ht. unfold admit_template at 2. rewrite Hfix, <- Ht.
  destruct z; cbn in *. f_equal; [by destruct (m_CreationTimestamp dep_meta)|congruence|].
  rewrite Hsy in Hst. destruct (Strategy (eg_Spec eg)); simpl in *; [by rewrite Hst|].
  rewrite Hst. apply default_strategy_idemp.
Qed.

Lemma admit_dep_idemp d : admit_dep (admit_dep d) = admit_dep d.
Proof.
  unfold admit_dep, admit_template. cbn. by rewrite default_strategy_idemp, default_podspec_idemp.
Qed.

(** A deployment after [CreateOrUpdate]: settled, well-formed, as wanted. *)
Record dep_written r eg (old : option Deployment) (x : Deployment) : Prop := mkDepWritten {
  dw_settled : settled admit_dep (mut_dep r eg) x;
  dw_live : m_DeletionTimestamp (dep_meta x) = None;
  dw_created : m_CreationTimestamp (dep_meta x) ≠ None;
  dw_admitted : admit_dep x = x;
  dw_replicas : dep_Replicas x = Some (Replicas (eg_Spec eg));
  dw_labels : appLabels (m_Name (eg_meta eg)) ⊆ m_Labels (dep_meta x);
  dw_pod_labels : appLabels (m_Name (eg_meta eg)) ⊆ t_Labels (dep_Template x);
  dw_spec : t_Spec (dep_Template x) = default_podspec (egress_pod_spec r eg (wanted_spec eg));
  dw_strategy : dep_Strategy x =
    default_strategy (default (dep_Strategy (default (new_dep (eg_key eg)) old)) (Strategy (eg_Spec eg)));
  dw_wanted_labels : t_Labels (dep_Template x) = wanted_labels eg;
  dw_wanted_annotations : wanted_annotations eg ⊆ default ∅ (t_Annotations (dep_Template x));
  dw_selector : dep_Selector x =
    match old with Some o => dep_Selector o | None => Some (appLabels (m_Name (eg_meta eg))) end;
}.

Lemma dep_step r eg old x :
  (∀ d, old = Some d → m_DeletionTimestamp (dep_meta d) = None ∧ m_CreationTimestamp (dep_meta d) ≠ None ∧ admit_dep d = d) →
  create_or_update (new_dep (eg_key eg)) admit_dep accepts_dep (λ y x, ∃ t, x = created_dep t y) (mut_dep r eg) old x →
  dep_written r eg old x.
Proof.
  intros Hold Hcu.
  assert (∃ d y, d = default (new_dep (eg_key eg)) old ∧ m_DeletionTimestamp (dep_meta d) = None ∧ mut_dep r eg d = Ok y ∧
    dep_Selector y = match old with Some o => dep_Selector o | None => Some (appLabels (m_Name (eg_meta eg))) end ∧
    ((∃ t, x = created_dep t (admit_dep y)) ∨
     m_CreationTimestamp (dep_meta d) ≠ None ∧ x = admit_dep y)) as (d & y & Hdd & Hd & Hy & Hsel0 & Hx).
  { destruct old as [o|].
    - destruct Hcu as (y & Hy & Hc). destruct (Hold o eq_refl) as (Ho & Hco & Ha). exists o, y.
      destruct (mut_dep_ok _ _ _ _ Ho Hy) as (_ & _ & _ & _ & _ & _ & _ & Hsel).
      split_and!; [done..|by rewrite Hsel; destruct (m_CreationTimestamp (dep_meta o))|]. right. split; [done|]. destruct Hc as [[-> ->]|(_ & _ & ->)]; [by rewrite Ha|done].
    - destruct Hcu as (y & Hy & _ & t & ->). exists (new_dep (eg_key eg)), y. split_and!; [done..| |left; by exists t].
      by destruct (mut_dep_ok r eg (new_dep (eg_key eg)) y eq_refl Hy) as (_ & _ & _ & _ & _ & _ & _ & Hsel). }
  destruct (mut_dep_ok _ _ _ _ Hd Hy) as (m & Hm & Hmy & Hr & Hs & Ht & Ha & Hsel).
  apply mutate_meta_ok in Hm as (Hmd & Hmc & Hml). rewrite Hd in Hmd. subst m.
  destruct (template_fields r eg (dep_Template d)) as [Hspec _].
  pose proof (template_labels r eg (dep_Template d)) as Hlab.
  destruct (template_wanted r eg (dep_Template d)) as [Hwl Hwa]. rewrite <- Ht in Hspec, Hlab, Hwl, Hwa.
  assert (dep_Strategy y = default (dep_Strategy d) (Strategy (eg_Spec eg))) as Hst by exact Hs.
  assert (appLabels (m_Name (eg_meta eg)) ⊆ m_Labels (dep_meta y)) as Hl by (rewrite Hml; apply map_copy_sub).
  destruct Hx as [[t ->]|[Hc ->]].
  - split; try done.
    + by apply (dep_settled r eg d y).
    + unfold admit_dep, admit_template, created_dep. cbn. by rewrite default_strategy_idemp, default_podspec_idemp.
    + cbn. by rewrite Hspec.
    + rewrite <- Hdd. cbn. by rewrite Hst.
  - assert (m_CreationTimestamp (dep_meta (admit_dep y)) ≠ None) as Hcy by (by cbn; rewrite Hmc).
    split; try done.
    + by apply (dep_settled r eg d y).
    + apply admit_dep_idemp.
    + cbn. by rewrite Hspec.
    + rewrite <- Hdd. cbn. by rewrite Hst.
Qed.

(** The same for services. *)
Lemma mut_svc_ok r eg d y :
  m_DeletionTimestamp (svc_meta d) = None → mut_svc r eg d = Ok y →
  m_DeletionTimestamp (svc_meta y) = None ∧ m_CreationTimestamp (svc_meta y) = m_CreationTimestamp (svc_meta d) ∧
  m_Labels (svc_meta y) = map_copy (m_Labels (svc_meta d)) (appLabels (m_Name (eg_meta eg))) ∧
  svc_Type y = "ClusterIP" ∧ svc_Selector y = appLabels (m_Name (eg_meta eg)) ∧
  svc_Ports y = [mkServicePort (Port r) (IntVal (Port r)) "UDP"] ∧
  svc_SessionAffinity y = SessionAffinity (eg_Spec eg) ∧
  svc_SessionAffinityConfig y =
    (match SessionAffinityConfig (eg_Spec eg) with Some c => Some c | None => svc_SessionAffinityConfig d end) ∧
  ClusterIP y = ClusterIP d.
Proof.
  intros Hd. unfold mutate_service. rewrite Hd. unfold mbind, result_bind.
  destruct (mutate_meta _ eg (svc_meta d)) as [m|] eqn:Hm; [|done]. intros [= <-].
  apply mutate_meta_ok in Hm as (H1 & H2 & H3). cbn. rewrite H1. done.
Qed.

Lemma svc_settled r eg z :
  m_DeletionTimestamp (svc_meta z) = None → m_CreationTimestamp (svc_meta z) ≠ None →
  m_Labels (svc_meta z) = map_copy (m_Labels (svc_meta z)) (appLabels (m_Name (eg_meta eg))) →
  svc_Type z = "ClusterIP" → svc_Selector z = appLabels (m_Name (eg_meta eg)) →
  svc_Ports z = [mkServicePort (Port r) (IntVal (Port r)) "UDP"] →
  (∃ cfg, (svc_SessionAffinity z, svc_SessionAffinityConfig z) = default_affinity (SessionAffinity (eg_Spec eg)) cfg ∧
     (is_Some (SessionAffinityConfig (eg_Spec eg)) → cfg = SessionAffinityConfig (eg_Spec eg))) →
  settled admit_svc (mut_svc r eg) z.
Proof.
  intros Hd Hc Hl H1 H2 H3 (cfg & Haff & Hcfg). unfold settled, mutate_service.
  rewrite Hd, (mutate_meta_done eg _ Hc Hl). eexists. split; [done|]. right. unfold admit_svc. cbn.
  assert (default_affinity (SessionAffinity (eg_Spec eg))
    (match SessionAffinityConfig (eg_Spec eg) with Some sac => Some sac | None => svc_SessionAffinityConfig z end) =
    (svc_SessionAffinity z, svc_SessionAffinityConfig z)) as ->.
  { pose proof (default_affinity_idemp (SessionAffinity (eg_Spec eg)) cfg) as Hi. rewrite <- Haff in Hi.
    destruct (SessionAffinityConfig (eg_Spec eg)) as [c|]; [|done]. by rewrite <- Hcfg, Haff by done. }
  destruct z; cbn in *. by f_equal.
Qed.

Lemma admit_svc_fields y :
  (svc_SessionAffinity (admit_svc y), svc_SessionAffinityConfig (admit_svc y)) =
    default_affinity (svc_SessionAffinity y) (svc_SessionAffinityConfig y) ∧
  svc_meta (admit_svc y) = svc_meta y ∧ svc_Type (admit_svc y) = svc_Type y ∧
  svc_Selector (admit_svc y) = svc_Selector y ∧ svc_Ports (admit_svc y) = svc_Ports y ∧
  ClusterIP (admit_svc y) = ClusterIP y.
Proof. unfold admit_svc. by destruct (default_affinity _ _). Qed.

Lemma admit_svc_eq s :
  admit_svc s = s ↔ default_affinity (svc_SessionAffinity s) (svc_SessionAffinityConfig s) =
    (svc_SessionAffinity s, svc_SessionAffinityConfig s).
Proof.
  unfold admit_svc. destruct s as [m t sel ps aff cfg ip]. cbn.
  destruct (default_affinity aff cfg) as [a c]. split; [by intros [= -> ->]|by intros [= -> ->]].
Qed.

Lemma default_affinity_fix s c a b : (a, b) = default_affinity s c → default_affinity a b = (a, b).
Proof. intros Hab. pose proof (default_affinity_same s c) as Hs. rewrite <- Hab in Hs. exact Hs. Qed.

Record svc_written r eg (old : option Service) (x : Service) : Prop := mkSvcWritten {
  sw_settled : settled admit_svc (mut_svc r eg) x;
  sw_live : m_DeletionTimestamp (svc_meta x) = None;
  sw_created : m_CreationTimestamp (svc_meta x) ≠ None;
  sw_admitted : admit_svc x = x;
  sw_selector : svc_Selector x = appLabels (m_Name (eg_meta eg));
  sw_type : svc_Type x = "ClusterIP";
  sw_ports : svc_Ports x = [mkServicePort (Port r) (IntVal (Port r)) "UDP"];
  sw_affinity : (svc_SessionAffinity x, svc_SessionAffinityConfig x) = default_affinity (SessionAffinity (eg_Spec eg))
    (match SessionAffinityConfig (eg_Spec eg) with
     | Some c => Some c | None => svc_SessionAffinityConfig (default (new_svc (eg_key eg)) old) end);
  sw_address o : old = Some o → ClusterIP x = ClusterIP o;
}.

Lemma svc_step r eg old x :
  (∀ d, old = Some d → m_DeletionTimestamp (svc_meta d) = None ∧ m_CreationTimestamp (svc_meta d) ≠ None ∧ admit_svc d = d) →
  create_or_update (new_svc (eg_key eg)) admit_svc accepts_svc (λ y x, ∃ t ip, x = created_svc t ip y) (mut_svc r eg) old x →
  svc_written r eg old x.
Proof.
  intros Hold Hcu.
  assert (∃ d y, d = default (new_svc (eg_key eg)) old ∧ m_DeletionTimestamp (svc_meta d) = None ∧ mut_svc r eg d = Ok y ∧
    m_CreationTimestamp (svc_meta x) ≠ None ∧ m_DeletionTimestamp (svc_meta x) = m_DeletionTimestamp (svc_meta y) ∧
    m_Labels (svc_meta x) = m_Labels (svc_meta y) ∧ svc_Type x = svc_Type y ∧ svc_Selector x = svc_Selector y ∧
    svc_Ports x = svc_Ports y ∧ (svc_SessionAffinity x, svc_SessionAffinityConfig x) =
      default_affinity (svc_SessionAffinity y) (svc_SessionAffinityConfig y) ∧
    (old ≠ None → ClusterIP x = ClusterIP y))
    as (d & y & Hdd & Hd & Hy & Hc & E1 & E2 & E3 & E4 & E5 & E6 & E7).
  { destruct old as [o|].
    - destruct Hcu as (y & Hy & Hc). destruct (Hold o eq_refl) as (Ho & Hco & Had). exists o, y.
      destruct (mut_svc_ok _ _ _ _ Ho Hy) as (_ & Hcy & _).
      destruct (admit_svc_fields y) as (A1 & A2 & A3 & A4 & A5 & A6). apply admit_svc_eq in Had.
      destruct Hc as [[-> ->]|(_ & _ & ->)]; [by split_and!|]. rewrite A2, A1. split_and!; try done; congruence.
    - destruct Hcu as (y & Hy & _ & t & ip & ->). exists (new_svc (eg_key eg)), y.
      destruct (admit_svc_fields y) as (A1 & A2 & A3 & A4 & A5 & A6). split_and!; cbn; rewrite ?A1, ?A2; done. }
  destruct (mut_svc_ok _ _ _ _ Hd Hy) as (H1 & H2 & H3 & H4 & H5 & H6 & H7 & H8 & H9).
  split; rewrite <- ?Hdd; try congruence.
  - apply svc_settled; try congruence; [by rewrite E2, H3, labels_done|].
    exists (svc_SessionAffinityConfig y). rewrite E6, H7. split; [done|]. intros [c Hsc]. by rewrite H8, Hsc.
  - apply admit_svc_eq. by eapply default_affinity_fix.
  - intros o ->. rewrite E7 by done. by rewrite H9, Hdd.
Qed.

Record pdb_written eg spec (old : option PDB) (x : PDB) : Prop := mkPdbWritten {
  pw_settled : settled id (mut_pdb eg spec) x;
  pw_live : m_DeletionTimestamp (pdb_meta x) = None;
  pw_created : m_CreationTimestamp (pdb_meta x) ≠ None;
  pw_selector : pdb_Selector x = Some (appLabels (m_Name (eg_meta eg)));
  pw_min : pdb_MinAvailable x =
    match MinAvailable spec with Some x => Some x | None => pdb_MinAvailable (default (new_pdb (eg_key eg)) old) end;
  pw_max : pdb_MaxUnavailable x =
    match MaxUnavailable spec with Some x => Some x | None => pdb_MaxUnavailable (default (new_pdb (eg_key eg)) old) end;
}.

Lemma pdb_step eg spec old x :
  (∀ d, old = Some d → m_DeletionTimestamp (pdb_meta d) = None ∧ m_CreationTimestamp (pdb_meta d) ≠ None) →
  create_or_update (new_pdb (eg_key eg)) id accepts_pdb (λ y x, ∃ t, x = created_pdb t y) (mut_pdb eg spec) old x →
  pdb_written eg spec old x.
Proof.
  intros Hold Hcu.
  assert (∃ d m, d = default (new_pdb (eg_key eg)) old ∧ m_DeletionTimestamp (pdb_meta d) = None ∧ mutate_meta SetControllerReference eg (pdb_meta d) = Ok m ∧
    m_CreationTimestamp (pdb_meta x) ≠ None ∧ m_DeletionTimestamp (pdb_meta x) = m_DeletionTimestamp m ∧
    m_Labels (pdb_meta x) = m_Labels m ∧ pdb_Selector x = Some (appLabels (m_Name (eg_meta eg))) ∧
    pdb_MinAvailable x = (match MinAvailable spec with Some x => Some x | None => pdb_MinAvailable d end) ∧
    pdb_MaxUnavailable x = (match MaxUnavailable spec with Some x => Some x | None => pdb_MaxUnavailable d end))
    as (d & m & Hdd & Hd & Hm & Hc & Hdel & Hl & Hs & Hmn & Hmx).
  { unfold mutate_pdb in Hcu. destruct old as [o|].
    - destruct (Hold o eq_refl) as (Ho & Hco). destruct Hcu as (y & Hy & Hcase). rewrite Ho in Hy.
      unfold mbind, result_bind in Hy. destruct (mutate_meta _ eg (pdb_meta o)) as [m|] eqn:Hm; [|done].
      exists o, m. pose proof (mutate_meta_ok _ _ _ Hm) as (_ & Hmc & _). injection Hy as <-.
      assert (x = mkPDB m (match MinAvailable spec with Some x => Some x | None => pdb_MinAvailable o end)
        (match MaxUnavailable spec with Some x => Some x | None => pdb_MaxUnavailable o end)
        (Some (appLabels (m_Name (eg_meta eg))))) as -> by (destruct Hcase as [[-> ->]|(_ & _ & ->)]; done).
      cbn. split_and!; try done. by rewrite Hmc.
    - destruct Hcu as (y & Hy & _ & t & ->). cbn [new_pdb pdb_meta meta_named m_DeletionTimestamp] in Hy.
      unfold mbind, result_bind in Hy. destruct (mutate_meta _ eg _) as [m|] eqn:Hm; [|done].
      exists (new_pdb (eg_key eg)), m. injection Hy as <-. done. }
  apply mutate_meta_ok in Hm as (H1 & _ & H3).
  split; rewrite <- ?Hdd; [|congruence|done..].
  unfold settled, mutate_pdb. rewrite Hdel, H1, Hd, (mutate_meta_done eg (pdb_meta x) Hc) by (by rewrite Hl, H3, labels_done).
  eexists. split; [done|]. left. destruct x; cbn in *. subst. f_equal; [by destruct (MinAvailable spec)|by destruct (MaxUnavailable spec)].
Qed.
End settled.

(** ** One step at a time *)

Section reconciling.
Context {A : Type} {AP : API A} {DF : Admission} {AL : APILaws A}.
Context (range_ns : gset string → list string) (range_perm : ∀ s, range_ns s ≡ₚ elements s).

Lemma put_sa_id n x c : cl_sa c !! n = Some x → put_sa n x c = c.
Proof. intros H. unfold put_sa. rewrite insert_id by done. by destruct c. Qed.
Lemma put_cr_id n x c : cl_cr c !! n = Some x → put_cr n x c = c.
Proof. intros H. unfold put_cr. rewrite insert_id by done. by destruct c. Qed.
Lemma put_crb_id n x c : cl_crb c !! n = Some x → put_crb n x c = c.
Proof. intros H. unfold put_crb. rewrite insert_id by done. by destruct c. Qed.
Lemma put_dep_id n x c : cl_dep c !! n = Some x → put_dep n x c = c.
Proof. intros H. unfold put_dep. rewrite insert_id by done. by destruct c. Qed.
Lemma put_svc_id n x c : cl_svc c !! n = Some x → put_svc n x c = c.
Proof. intros H. unfold put_svc. rewrite insert_id by done. by destruct c. Qed.
Lemma put_pdb_id n x c : cl_pdb c !! n = Some x → put_pdb n x c = c.
Proof. intros H. unfold put_pdb. rewrite insert_id by done. by destruct c. Qed.
Lemma put_crb_twice n x y c : put_crb n x (put_crb n y c) = put_crb n x c.
Proof. unfold put_crb. cbn. by rewrite insert_insert_eq. Qed.

Lemma sa_view eg a a' :
  reconcileServiceAccount eg a = (Ok tt, a') →
  view a' = put_sa (sa_key eg) (default (mkServiceAccount egressServiceAccountName (m_Namespace (eg_meta eg)))
    (cl_sa (view a) !! sa_key eg)) (view a).
Proof.
  unfold reconcileServiceAccount. intros H. ok_inv H. unfold ask in Hr. injection Hr as <- ->.
  pose proof (GetSA_view (sa_key eg) s1) as Hv. fold (sa_key eg) in H. destruct (api_GetSA (sa_key eg) s1) as [x|e].
  - injection H as <-. rewrite Hv. by rewrite put_sa_id.
  - destruct (IsNotFound e); [|done]. apply CreateSA_view in H. by rewrite (Hv eq_refl).
Qed.

Lemma cr_view a a' :
  reconcileCR a = (Ok tt, a') →
  view a' = put_cr egressCRName (default egress_role (cl_cr (view a) !! egressCRName)) (view a).
Proof.
  unfold reconcileCR. intros H. ok_inv H. unfold ask in Hr. injection Hr as <- ->.
  pose proof (GetCR_view egressCRName s1) as Hv. destruct (api_GetCR egressCRName s1) as [x|e].
  - injection H as <-. rewrite Hv. by rewrite put_cr_id.
  - destruct (IsNotFound e); [|done]. apply CreateCR_view in H. by rewrite (Hv eq_refl).
Qed.

(** The subjects of the binding are those of the namespaces with an egress. *)
Definition crb_current (c : Cluster) (crb : CRB) : Prop :=
  crb_Name crb = egressCRBName ∧
  ∃ l, (∀ ns, (∃ eg, eg ∈ l ∧ m_Namespace (eg_meta eg) = ns) ↔ egress_ns c ns) ∧
    crb_Subjects crb = crb_subjects (getNamespaces range_ns l).

Lemma list_namespaces a l :
  cluster_wf (view a) → api_ListEgress a = Ok l →
  ∀ ns, (∃ eg, eg ∈ l ∧ m_Namespace (eg_meta eg) = ns) ↔ egress_ns (view a) ns.
Proof.
  intros Hwf Hl ns. pose proof (ListEgress_view a l Hl) as Hv. split.
  - intros (eg & (n & Hn)%Hv & <-). exists n, eg. split; [done|]. by rewrite <- (wf_egress _ Hwf n eg Hn).
  - intros (n & eg & Hn & <-). exists eg. split; [apply Hv; eauto|]. by rewrite <- (wf_egress _ Hwf n eg Hn).
Qed.

Lemma crb_view a a' :
  cluster_wf (view a) → reconcileCRB range_ns a = (Ok tt, a') →
  ∃ crb, view a' = put_crb egressCRBName crb (view a) ∧ crb_current (view a) crb ∧
    crb_RoleRef crb = crb_RoleRef (default bare_binding (cl_crb (view a) !! egressCRBName)).
Proof.
  intros Hwf. unfold reconcileCRB. intros H. ok_inv H. unfold ask in Hr. injection Hr as <- ->.
  assert (crb_Name a1 = egressCRBName ∧ view s0 = put_crb egressCRBName a1 (view s1) ∧
    a1 = default bare_binding (cl_crb (view s1) !! egressCRBName)) as (Hn & Hv1 & Hold).
  { pose proof (GetCRB_view egressCRBName s1) as Hv. destruct (api_GetCRB egressCRBName s1) as [x|e].
    - injection Hr0 as <- <-. rewrite put_crb_id by done. split_and!; [by eapply wf_crb|done|by rewrite Hv].
    - destruct (IsNotFound e); [|done]. apply wrap_ok, CreateCRB_view in Hr0 as [-> Hv1]. split_and!; [done|done|].
      by rewrite (Hv eq_refl). }
  assert (cluster_wf (view s0)) as Hwf1.
  { rewrite Hv1. destruct Hwf. constructor; cbn; try done.
    intros n x [[<- <-]|[_ ?]]%lookup_insert_Some; [done|eauto]. }
  eapply PatchCRB_view in H; [|done|by rewrite Hv1; cbn; rewrite Hn, lookup_insert_eq].
  eexists. split; [by rewrite H, Hv1, Hn, put_crb_twice|]. split.
  - split; [done|]. exists a2. split; [|done]. intros ns. rewrite (list_namespaces _ _ Hwf1 Hr1).
    unfold egress_ns. by rewrite Hv1.
  - by rewrite <- Hold.
Qed.

Lemma crb_current_unique c crb crb' :
  crb_current c crb → crb_current c crb' → crb_RoleRef crb = crb_RoleRef crb' → crb = crb'.
Proof.
  intros (Hn & l & Hl & Hs) (Hn' & l' & Hl' & Hs') Hr. destruct crb, crb'; cbn in *. subst. f_equal. f_equal.
  eapply (egress_namespaces_spec range_ns range_perm range_ns l' l range_perm). intros n. by rewrite Hl', Hl.
Qed.

Lemma crb_current_subjects c crb :
  crb_current c crb → NoDup (crb_Subjects crb) ∧
  ∀ s, s ∈ crb_Subjects crb ↔ ∃ ns, egress_ns c ns ∧ s = mkSubject "ServiceAccount" egressServiceAccountName ns.
Proof.
  intros (_ & l & Hl & ->). unfold crb_subjects. split.
  - apply NoDup_fmap_2; [by intros x y [=]|].
    by apply getNamespaces_NoDup.
  - intros s. rewrite list_elem_of_fmap. setoid_rewrite (getNamespaces_elem range_ns range_perm).
    setoid_rewrite Hl. naive_solver.
Qed.

(** The body of [Reconcile] over the store. *)
Definition body r eg : M A unit :=
  reconcileServiceAccount eg;; reconcileCR;; reconcileCRB range_ns;; reconcileDeployment r eg;;
  reconcileService r eg;; reconcilePDB eg.

Definition put_pdb_if (eg : Egress) (p : PDB) (c : Cluster) : Cluster :=
  match PodDisruptionBudget (eg_Spec eg) with None => c | Some _ => put_pdb (eg_key eg) p c end.

Definition pdb_update (eg : Egress) (old : option PDB) (p : PDB) : Prop :=
  ∀ spec, PodDisruptionBudget (eg_Spec eg) = Some spec →
    create_or_update (new_pdb (eg_key eg)) id accepts_pdb (λ y x, ∃ t, x = created_pdb t y)
      (mutate_pdb SetControllerReference eg spec) old p.

Lemma body_view r eg a a' :
  cluster_wf (view a) → body r eg a = (Ok tt, a') →
  ∃ crb d s p,
    let sa := default (mkServiceAccount egressServiceAccountName (m_Namespace (eg_meta eg))) (cl_sa (view a) !! sa_key eg) in
    let cr := default egress_role (cl_cr (view a) !! egressCRName) in
    view a' = put_pdb_if eg p (put_svc (eg_key eg) s (put_dep (eg_key eg) d
      (put_crb egressCRBName crb (put_cr egressCRName cr (put_sa (sa_key eg) sa (view a)))))) ∧
    crb_current (view a) crb ∧ crb_RoleRef crb = crb_RoleRef (default bare_binding (cl_crb (view a) !! egressCRBName)) ∧
    create_or_update (new_dep (eg_key eg)) admit_dep accepts_dep (λ y x, ∃ t, x = created_dep t y)
      (mutate_deployment SetControllerReference r eg) (cl_dep (view a) !! eg_key eg) d ∧
    create_or_update (new_svc (eg_key eg)) admit_svc accepts_svc (λ y x, ∃ t ip, x = created_svc t ip y)
      (mutate_service SetControllerReference r eg) (cl_svc (view a) !! eg_key eg) s ∧
    pdb_update eg (cl_pdb (view a) !! eg_key eg) p.
Proof.
  intros Hwf. unfold body. intros H. ok_inv H. destruct a0, a1, a2, a3, a4.
  apply sa_view in Hr as V1. apply cr_view in Hr0 as V2.
  assert (cluster_wf (view s0)) as Hwf2 by (rewrite V2, V1; destruct Hwf; constructor; done).
  apply crb_view in Hr1 as (crb & V3 & Hcrb & Hrole); [|done].
  unfold reconcileDeployment in Hr2. apply wrap_ok, CreateOrUpdate_Deployment_view in Hr2 as (d & V4 & Hd).
  unfold reconcileService in Hr3. apply CreateOrUpdate_Service_view in Hr3 as (s & V5 & Hs).
  rewrite V3, V2, V1 in V4, Hd. rewrite V4 in V5, Hs. rewrite V2, V1 in Hcrb, Hrole.
  exists crb, d, s. cbn zeta. unfold reconcilePDB in H. unfold put_pdb_if, pdb_update.
  destruct (PodDisruptionBudget (eg_Spec eg)) as [spec|].
  - apply wrap_ok, CreateOrUpdate_PDB_view in H as (p & V6 & Hp). rewrite V5 in V6, Hp. exists p.
    split_and!; try done. by intros ? [= <-].
  - injection H as <-. exists (new_pdb (eg_key eg)). split_and!; done.
Qed.

Lemma crb_current_ext c c' crb :
  (∀ ns, egress_ns c ns ↔ egress_ns c' ns) → crb_current c crb → crb_current c' crb.
Proof. intros He (Hn & l & Hl & Hs). split; [done|]. exists l. split; [|done]. intros ns. by rewrite Hl. Qed.

(** A store in which there is nothing left to do for an egress. *)
Record steady r eg (c : Cluster) : Prop := mkSteady {
  sd_sa : is_Some (cl_sa c !! sa_key eg);
  sd_cr : is_Some (cl_cr c !! egressCRName);
  sd_crb : ∃ crb, cl_crb c !! egressCRBName = Some crb ∧ crb_current c crb;
  sd_dep : ∃ d, cl_dep c !! eg_key eg = Some d ∧ settled admit_dep (mutate_deployment SetControllerReference r eg) d;
  sd_svc : ∃ s, cl_svc c !! eg_key eg = Some s ∧ settled admit_svc (mutate_service SetControllerReference r eg) s;
  sd_pdb spec : PodDisruptionBudget (eg_Spec eg) = Some spec →
    ∃ p, cl_pdb c !! eg_key eg = Some p ∧ settled id (mutate_pdb SetControllerReference eg spec) p;
}.

Lemma steady_again r eg a a' :
  cluster_wf (view a) → steady r eg (view a) → body r eg a = (Ok tt, a') → view a' = view a.
Proof.
  intros Hwf Hst Hb. destruct Hst as [[sa Hsa] [cr Hcr] (crb & Hcrb & Hcur) (d & Hd & Hsd) (s & Hs & Hss) Hpdb].
  destruct (body_view _ _ _ _ Hwf Hb) as (crb' & d' & s' & p' & -> & E3 & E4 & E5 & E6 & E7).
  rewrite Hsa, Hcr. simpl default. rewrite Hcrb in E4.
  assert (crb' = crb) as -> by (eapply crb_current_unique; eauto).
  rewrite Hd in E5. apply (settled_again _ _ _ _ _ _ _ Hsd) in E5 as ->.
  rewrite Hs in E6. apply (settled_again _ _ _ _ _ _ _ Hss) in E6 as ->.
  rewrite (put_sa_id _ _ _ Hsa), (put_cr_id _ _ _ Hcr), (put_crb_id _ _ _ Hcrb), (put_dep_id _ _ _ Hd), (put_svc_id _ _ _ Hs).
  unfold put_pdb_if, pdb_update in *. destruct (PodDisruptionBudget (eg_Spec eg)) as [spec|]; [|done].
  destruct (Hpdb spec eq_refl) as (p & Hp & Hsp). specialize (E7 spec eq_refl). rewrite Hp in E7.
  apply (settled_again _ _ _ _ _ _ _ Hsp) in E7 as ->. by apply put_pdb_id.
Qed.

(** All that one successful pass achieves: the new objects and what is known
    of each. *)
Record passed r eg (c c' : Cluster) crb d s p : Prop := mkPassed {
  pa_egress : cl_egress c' = cl_egress c;
  pa_sa : cl_sa c' = <[sa_key eg := default (mkServiceAccount egressServiceAccountName (m_Namespace (eg_meta eg)))
    (cl_sa c !! sa_key eg)]> (cl_sa c);
  pa_cr : cl_cr c' = <[egressCRName := default egress_role (cl_cr c !! egressCRName)]> (cl_cr c);
  pa_crb : cl_crb c' = <[egressCRBName := crb]> (cl_crb c);
  pa_current : crb_current c' crb;
  pa_role : crb_RoleRef crb = crb_RoleRef (default bare_binding (cl_crb c !! egressCRBName));
  pa_dep : cl_dep c' = <[eg_key eg := d]> (cl_dep c);
  pa_dep_ok : create_or_update (new_dep (eg_key eg)) admit_dep accepts_dep (λ y x, ∃ t, x = created_dep t y)
    (mutate_deployment SetControllerReference r eg) (cl_dep c !! eg_key eg) d;
  pa_svc : cl_svc c' = <[eg_key eg := s]> (cl_svc c);
  pa_svc_ok : create_or_update (new_svc (eg_key eg)) admit_svc accepts_svc (λ y x, ∃ t ip, x = created_svc t ip y)
    (mutate_service SetControllerReference r eg) (cl_svc c !! eg_key eg) s;
  pa_pdb : cl_pdb c' = match PodDisruptionBudget (eg_Spec eg) with
                       | None => cl_pdb c | Some _ => <[eg_key eg := p]> (cl_pdb c) end;
  pa_pdb_ok : pdb_update eg (cl_pdb c !! eg_key eg) p;
}.

Lemma body_passed r eg a a' :
  cluster_wf (view a) → body r eg a = (Ok tt, a') → ∃ crb d s p, passed r eg (view a) (view a') crb d s p.
Proof.
  intros Hwf Hb.
  destruct (body_view _ _ _ _ Hwf Hb) as (crb & d & s & p & -> & Hcur & Hrole & Hd & Hs & Hp).
  exists crb, d, s, p. unfold put_pdb_if. constructor; try done; try by destruct (PodDisruptionBudget (eg_Spec eg)).
Qed.

Section passed.
Context r eg c c' crb d s p (Hpa : passed r eg c c' crb d s p).
Context (Hwf : cluster_wf c) (Hnd : not_deleting (eg_key eg) c).

Lemma passed_dep : dep_written r eg (cl_dep c !! eg_key eg) d.
Proof.
  eapply dep_step; [|by eapply pa_dep_ok]. intros x Hx. split; [by apply Hnd|by eapply wf_dep].
Qed.

Lemma passed_svc : svc_written r eg (cl_svc c !! eg_key eg) s.
Proof.
  eapply svc_step; [|by eapply pa_svc_ok]. intros x Hx. split; [by apply Hnd|by eapply wf_svc].
Qed.

Lemma passed_pdb spec : PodDisruptionBudget (eg_Spec eg) = Some spec → pdb_written eg spec (cl_pdb c !! eg_key eg) p.
Proof.
  intros Hspec. eapply pdb_step; [|by eapply pa_pdb_ok]. intros x Hx. split; [by apply Hnd|by eapply wf_pdb].
Qed.

(** Where the objects of the pass are. *)
Lemma passed_at :
  cl_dep c' !! eg_key eg = Some d ∧ cl_svc c' !! eg_key eg = Some s ∧
  (PodDisruptionBudget (eg_Spec eg) ≠ None → cl_pdb c' !! eg_key eg = Some p) ∧
  cl_crb c' !! egressCRBName = Some crb.
Proof.
  destruct Hpa. rewrite pa_dep0, pa_svc0, pa_pdb0, pa_crb0, !lookup_insert_eq. split_and!; try done.
  destruct (PodDisruptionBudget (eg_Spec eg)); [|done]. by rewrite lookup_insert_eq.
Qed.

Lemma passed_realised : realised r eg c'.
Proof.
  destruct passed_at as (Ad & As & Ap & Ac). constructor.
  - rewrite (pa_sa _ _ _ _ _ _ _ _ Hpa), lookup_insert_eq. eauto.
  - rewrite (pa_cr _ _ _ _ _ _ _ _ Hpa), lookup_insert_eq. eauto.
  - exists crb. split; [done|]. apply crb_current_subjects. by destruct Hpa.
  - exists d. destruct passed_dep. split_and!; [done..| |done|done]. intros st Hst. by rewrite dw_strategy0, Hst.
  - exists s. destruct passed_svc. split_and!; [done..|]. eexists. split; [done|]. intros [cfg Hcfg]. by rewrite Hcfg.
  - intros spec Hspec. exists p. destruct (passed_pdb spec Hspec). split_and!; [by apply Ap; rewrite Hspec|done|..].
    + intros [x Hx]. by rewrite pw_min0, Hx.
    + intros [x Hx]. by rewrite pw_max0, Hx.
Qed.

Lemma passed_provided : provided eg c c'.
Proof.
  destruct passed_at as (Ad & As & Ap & Ac). constructor.
  - by rewrite (pa_sa _ _ _ _ _ _ _ _ Hpa), lookup_insert_eq.
  - by rewrite (pa_cr _ _ _ _ _ _ _ _ Hpa), lookup_insert_eq.
  - exists crb. split; [done|by destruct Hpa].
  - exists d. destruct passed_dep. split_and!; [done..|]. intros Hst. by rewrite dw_strategy0, Hst.
  - exists s. destruct passed_svc. split_and!; [done..|]. intros Hcfg. rewrite Hcfg in sw_affinity0. by rewrite <- sw_affinity0.
  - intros spec Hspec. exists p. destruct (passed_pdb spec Hspec). split_and!; [by apply Ap; rewrite Hspec|..].
    + intros Hx. by rewrite pw_min0, Hx.
    + intros Hx. by rewrite pw_max0, Hx.
Qed.

Lemma passed_frame : frame_of eg c c'.
Proof.
  destruct Hpa. constructor; [intros n Hn; rewrite ?pa_sa0, ?pa_cr0, ?pa_crb0, ?pa_dep0, ?pa_svc0;
    by rewrite lookup_insert_ne by done..| |by left].
  intros n Hn. rewrite pa_pdb0. destruct (PodDisruptionBudget (eg_Spec eg)); [|done].
  rewrite lookup_insert_ne; [done|]. intros <-. by destruct Hn.
Qed.

Lemma passed_wf : cluster_wf c'.
Proof.
  pose proof passed_dep as Hd. pose proof passed_svc as Hs. pose proof passed_pdb as Hp. destruct Hpa. constructor.
  - rewrite pa_egress0. apply Hwf.
  - intros n x. rewrite pa_crb0. intros [[<- <-]|[_ ?]]%lookup_insert_Some; [apply pa_current0|by eapply wf_crb].
  - intros n x. rewrite pa_dep0. intros [[<- <-]|[_ ?]]%lookup_insert_Some; [by destruct Hd|by eapply wf_dep].
  - intros n x. rewrite pa_svc0. intros [[<- <-]|[_ ?]]%lookup_insert_Some; [by destruct Hs|by eapply wf_svc].
  - intros n x. rewrite pa_pdb0. destruct (PodDisruptionBudget (eg_Spec eg)) as [spec|]; [|apply Hwf].
    intros [[<- <-]|[_ ?]]%lookup_insert_Some; [|by eapply wf_pdb]. by destruct (Hp spec eq_refl).
Qed.

Lemma passed_steady : steady r eg c'.
Proof.
  destruct passed_at as (Ad & As & Ap & Ac). constructor.
  - rewrite (pa_sa _ _ _ _ _ _ _ _ Hpa), lookup_insert_eq. eauto.
  - rewrite (pa_cr _ _ _ _ _ _ _ _ Hpa), lookup_insert_eq. eauto.
  - exists crb. split; [done|by destruct Hpa].
  - exists d. split; [done|apply passed_dep].
  - exists s. split; [done|apply passed_svc].
  - intros spec Hspec. exists p. split; [by apply Ap; rewrite Hspec|by apply passed_pdb].
Qed.

Lemma passed_not_deleting : not_deleting (eg_key eg) c'.
Proof.
  destruct passed_at as (Ad & As & Ap & _). split_and!.
  - intros x. rewrite Ad. intros [= <-]. apply passed_dep.
  - intros x. rewrite As. intros [= <-]. apply passed_svc.
  - intros x. destruct (PodDisruptionBudget (eg_Spec eg)) as [spec|] eqn:Hspec.
    + rewrite Ap by done. intros [= <-]. by apply (passed_pdb spec).
    + rewrite (pa_pdb _ _ _ _ _ _ _ _ Hpa), Hspec. apply Hnd.
Qed.
End passed.

(** ** The status, and the whole of [Reconcile] *)

Lemma status_view eg a :
  cl_egress (view a) !! eg_key eg = Some eg →
  view (updateStatus eg a).2 = view a ∨
  ∃ st, view (updateStatus eg a).2 = put_egress (eg_key eg) (mkEgress (eg_meta eg) (eg_Spec eg) st) (view a).
Proof.
  intros Heg.
  assert ((updateStatus eg a).2 = a ∨
    ∃ st, (updateStatus eg a).2 = (api_StatusUpdate (mkEgress (eg_meta eg) (eg_Spec eg) st) a).2) as [->|[st ->]].
  { unfold updateStatus, mbind, M_bind, wrap, ask, lift.
    destruct (api_GetDeployment (eg_key eg) a) as [dep|e]; [|by left].
    destruct (LabelSelectorAsSelector (dep_Selector dep)) as [sel|e]; [|by left].
    case_decide; [by left|]. right. by eexists. }
  { by left. }
  destruct (StatusUpdate_view (mkEgress (eg_meta eg) (eg_Spec eg) st) a eg Heg) as [Hs|Hs]; [by left|right].
  by exists st.
Qed.

(** Two views that differ in the status of [eg] at most. *)
Definition same_but_status (eg : Egress) (c c' : Cluster) : Prop :=
  c' = c ∨ ∃ st, c' = put_egress (eg_key eg) (mkEgress (eg_meta eg) (eg_Spec eg) st) c.

Lemma status_ns eg c c' ns :
  cl_egress c !! eg_key eg = Some eg → same_but_status eg c c' → egress_ns c ns ↔ egress_ns c' ns.
Proof.
  intros Heg [->|[st ->]]; [done|]. unfold egress_ns. cbn. split.
  - intros (n & x & Hx & <-). destruct (decide (n = eg_key eg)) as [->|Hne].
    + eexists _, _. split; [apply lookup_insert_eq|done].
    + exists n, x. by rewrite lookup_insert_ne.
  - intros (n & x & [[<- <-]|[_ Hx]]%lookup_insert_Some & <-); eauto.
Qed.

(** The reconciler's view of the egress it was asked for. *)
Lemma reconcile_body r n eg a a' :
  cl_egress (view a) !! n = Some eg → m_DeletionTimestamp (eg_meta eg) = None →
  EgressReconcile range_ns r n a = (Ok tt, a') →
  ∃ a1, body r eg a = (Ok tt, a1) ∧ a' = (updateStatus eg a1).2.
Proof.
  intros Hn Hd. rewrite EgressReconcile_eq. pose proof (GetEgress_view n a) as Hg.
  destruct (api_GetEgress n a) as [x|e].
  - rewrite Hn in Hg. injection Hg as <-. rewrite decide_False by (by rewrite Hd; intros []).
    unfold with_deferred. fold (body r eg). destruct (body r eg a) as [res a1] eqn:Hb.
    intros H. exists a1. destruct (updateStatus eg a1). by injection H as -> ->.
  - destruct (IsNotFound e); [|done]. intros _. rewrite Hg in Hn; done.
Qed.

Lemma realised_status r eg c c' :
  cl_egress c !! eg_key eg = Some eg → same_but_status eg c c' → realised r eg c → realised r eg c'.
Proof.
  intros Heg Hs [H1 H2 H3 H4 H5 H6]. pose proof (λ ns, status_ns eg c c' ns Heg Hs) as Hns.
  destruct Hs as [->|[st ->]]; [done|]. constructor; try done.
  destruct H3 as (crb & Hc & Hnd & Hsub). exists crb. split_and!; [done..|]. intros s. rewrite Hsub.
  by setoid_rewrite Hns.
Qed.

Lemma wf_status eg c c' : cluster_wf c → same_but_status eg c c' → cluster_wf c'.
Proof.
  intros Hwf [->|[st ->]]; [done|]. destruct Hwf. constructor; try done. cbn.
  intros n x [[<- <-]|[_ ?]]%lookup_insert_Some; eauto.
Qed.

Lemma reconcile_outcome r n eg a a' :
  cluster_wf (view a) → cl_egress (view a) !! n = Some eg → m_DeletionTimestamp (eg_meta eg) = None →
  EgressReconcile range_ns r n a = (Ok tt, a') →
  ∃ a1 crb d s p, passed r eg (view a) (view a1) crb d s p ∧ same_but_status eg (view a1) (view a') ∧
    cl_egress (view a1) !! eg_key eg = Some eg.
Proof.
  intros Hwf Hn Hd Hr. pose proof (wf_egress _ Hwf n eg Hn) as Hk. subst n.
  destruct (reconcile_body _ _ _ _ _ Hn Hd Hr) as (a1 & Hb & ->).
  destruct (body_passed _ _ _ _ Hwf Hb) as (crb & d & s & p & Hpa).
  assert (cl_egress (view a1) !! eg_key eg = Some eg) as He by (by rewrite (pa_egress _ _ _ _ _ _ _ _ Hpa)).
  exists a1, crb, d, s, p. split_and!; [done| |done]. by apply status_view.
Qed.

Lemma frame_status eg c c1 c' : frame_of eg c c1 → cl_egress c1 = cl_egress c → same_but_status eg c1 c' → frame_of eg c c'.
Proof.
  intros Hf He [->|[st ->]]; [done|]. destruct Hf. constructor; try done. cbn. right. exists st. by rewrite He.
Qed.

Lemma reconcile_realised r n eg (a a' : A) :
  cluster_wf (view a) → cl_egress (view a) !! n = Some eg → m_DeletionTimestamp (eg_meta eg) = None →
  not_deleting n (view a) → EgressReconcile range_ns r n a = (Ok tt, a') → realised r eg (view a').
Proof.
  intros Hwf Hn Hd Hnd Hr.
  destruct (reconcile_outcome _ _ _ _ _ Hwf Hn Hd Hr) as (a1 & crb & d & s & p & Hpa & Hs & He).
  pose proof (wf_egress _ Hwf n eg Hn) as <-.
  eapply realised_status; [exact He|exact Hs|]. by eapply passed_realised.
Qed.

Lemma provided_status eg c c1 c' : same_but_status eg c1 c' → provided eg c c1 → provided eg c c'.
Proof. intros [->|[st ->]]; [done|]. intros []. by constructor. Qed.


(** The contract, the frame and the invariant of the store. *)
Lemma reconcile_contract r n eg (a a' : A) :
  cluster_wf (view a) → cl_egress (view a) !! n = Some eg → m_DeletionTimestamp (eg_meta eg) = None →
  not_deleting n (view a) → EgressReconcile range_ns r n a = (Ok tt, a') →
  realised r eg (view a') ∧ frame_of eg (view a) (view a') ∧ cluster_wf (view a').
Proof.
  intros Hwf Hn Hd Hnd Hr. pose proof (wf_egress _ Hwf n eg Hn) as Hk.
  destruct (reconcile_outcome _ _ _ _ _ Hwf Hn Hd Hr) as (a1 & crb & d & s & p & Hpa & Hs & He).
  split_and!; [exact (reconcile_realised _ _ _ _ _ Hwf Hn Hd Hnd Hr)| |].
  - eapply frame_status; [by eapply passed_frame| |exact Hs]. by destruct Hpa.
  - eapply wf_status; [|exact Hs]. subst n. by eapply passed_wf.
Qed.


(** ** Progress *)

(** The server would accept what the controller makes of an egress: what is
    not there yet, and the updates of what is. *)
Record acceptable r eg (c : Cluster) : Prop := mkAcceptable {
  ac_sa : cl_sa c !! sa_key eg = None →
    accepts_sa (mkServiceAccount egressServiceAccountName (m_Namespace (eg_meta eg)));
  ac_cr : cl_cr c !! egressCRName = None → accepts_cr egress_role;
  ac_crb_new : cl_crb c !! egressCRBName = None → accepts_crb None bare_binding;
  ac_crb crb : crb_current c crb → crb_RoleRef crb = crb_RoleRef (default bare_binding (cl_crb c !! egressCRBName)) →
    accepts_crb (Some (default bare_binding (cl_crb c !! egressCRBName))) crb;
  ac_dep y :
    mutate_deployment SetControllerReference r eg (default (new_dep (eg_key eg)) (cl_dep c !! eg_key eg)) = Ok y →
    cl_dep c !! eg_key eg = Some y ∨ accepts_dep (cl_dep c !! eg_key eg) (admit_dep y);
  ac_svc y :
    mutate_service SetControllerReference r eg (default (new_svc (eg_key eg)) (cl_svc c !! eg_key eg)) = Ok y →
    cl_svc c !! eg_key eg = Some y ∨ accepts_svc (cl_svc c !! eg_key eg) (admit_svc y);
  ac_pdb spec y : PodDisruptionBudget (eg_Spec eg) = Some spec →
    mutate_pdb SetControllerReference eg spec (default (new_pdb (eg_key eg)) (cl_pdb c !! eg_key eg)) = Ok y →
    cl_pdb c !! eg_key eg = Some y ∨ accepts_pdb (cl_pdb c !! eg_key eg) y;
}.

(** Once there is nothing left to do, nothing can be refused. *)
Lemma settled_accepted {X} (settle : X → X) (accepts : option X → X → Prop) f x y :
  (∀ x, accepts (Some x) x) → settled settle f x → f x = Ok y → Some x = Some y ∨ accepts (Some x) (settle y).
Proof.
  intros Hsame (z & Hz & Hs) Hy. assert (z = y) as -> by congruence.
  destruct Hs as [->|Hs]; [by left|right]. rewrite Hs. apply Hsame.
Qed.

Lemma steady_acceptable r eg c : steady r eg c → acceptable r eg c.
Proof.
  intros [[sa Hsa] [cr Hcr] (crb & Hcrb & Hcur) (d & Hd & Hsd) (s & Hs & Hss) Hpdb].
  constructor; rewrite ?Hsa, ?Hcr, ?Hcrb, ?Hd, ?Hs; try done; simpl.
  - intros crb' Hcur' Hr. rewrite (crb_current_unique _ _ _ Hcur' Hcur Hr). apply accepts_crb_same.
  - intros y. apply settled_accepted; [apply accepts_dep_same|done].
  - intros y. apply settled_accepted; [apply accepts_svc_same|done].
  - intros spec y Hspec. destruct (Hpdb spec Hspec) as (p & Hp & Hsp). rewrite Hp. simpl.
    by apply (settled_accepted id accepts_pdb); [apply accepts_pdb_same|].
Qed.

(** Reconciling another egress does not make the server refuse. *)
Lemma acceptable_other r eg eg2 c c' :
  acceptable r eg c → steady r eg2 c' → frame_of eg2 c c' → eg_key eg2 ≠ eg_key eg → acceptable r eg c'.
Proof.
  intros [H1 _ _ _ H5 H6 H7] [G1 [cr G2] (crb & G3 & G3') _ _ _] [F1 _ _ F4 F5 F6 _] Hne.
  constructor; rewrite ?G2, ?G3, ?F4, ?F5, ?F6 by (done || by left); try done.
  - destruct (decide (sa_key eg = sa_key eg2)) as [->|Hsa]; [|by rewrite F1].
    destruct G1 as [sa G1]. by rewrite G1.
  - simpl. intros crb' Hcur' Hr. rewrite (crb_current_unique _ _ _ Hcur' G3' Hr). apply accepts_crb_same.
Qed.

Section up.
Context {UP : APIUp A}.

Lemma up_meta eg m :
  m_Namespace m = m_Namespace (eg_meta eg) → m_CreationTimestamp m ≠ None ∨ m_OwnerReferences m = [] →
  is_ok (mutate_meta SetControllerReference eg m) = true.
Proof.
  intros Hns Ho. unfold mutate_meta. simpl. destruct (m_CreationTimestamp m) as [t|] eqn:Ht; [done|].
  destruct Ho as [?|Ho]; [done|]. by apply up_SetControllerReference.
Qed.

(** A program that returns: its result is a value. *)
Lemma is_ok_run {X} (m : M A X) a : is_ok (m a).1 = true → ∃ x a', m a = (Ok x, a').
Proof. destruct (m a) as [[x|e] a']; [eauto|done]. Qed.

Lemma up_bind {X Y} (m : M A X) (f : X → M A Y) a :
  is_ok (m a).1 = true → (∀ x a', m a = (Ok x, a') → is_ok (f x a').1 = true) → is_ok ((m ≫= f) a).1 = true.
Proof. intros (x & a' & Hm)%is_ok_run Hf. rewrite (run_bind_ok _ _ _ _ _ Hm). by apply Hf. Qed.

Lemma up_wrap {X} g (m : M A X) a : is_ok (m a).1 = true → is_ok (wrap g m a).1 = true.
Proof. intros (x & a' & Hm)%is_ok_run. by rewrite (run_wrap_ok _ _ _ _ _ Hm). Qed.

Lemma up_sa r eg a : acceptable r eg (view a) → is_ok (reconcileServiceAccount eg a).1 = true.
Proof.
  intros Hac. unfold reconcileServiceAccount, mbind, M_bind, try, ask. pose proof (GetSA_view (sa_key eg) a) as Hv.
  fold (sa_key eg). destruct (api_GetSA _ a) as [x|e] eqn:Hg; [done|]. rewrite (up_GetSA _ _ _ Hg).
  pose proof (Hv (up_GetSA _ _ _ Hg)) as Hno. apply up_CreateSA; [by apply (ac_sa _ _ _ Hac)|done].
Qed.

Lemma up_cr a : (cl_cr (view a) !! egressCRName = None → accepts_cr egress_role) → is_ok (reconcileCR a).1 = true.
Proof.
  intros Hac. unfold reconcileCR, mbind, M_bind, try, ask. pose proof (GetCR_view egressCRName a) as Hv.
  destruct (api_GetCR _ a) as [x|e] eqn:Hg; [done|]. rewrite (up_GetCR _ _ _ Hg).
  pose proof (Hv (up_GetCR _ _ _ Hg)) as Hno. apply up_CreateCR; [by apply Hac|done].
Qed.

(** The binding is patched to what it has to be. *)
Lemma up_patch crb a :
  cluster_wf (view a) → cl_crb (view a) !! egressCRBName = Some crb →
  (∀ crb', crb_current (view a) crb' → crb_RoleRef crb' = crb_RoleRef crb → accepts_crb (Some crb) crb') →
  is_ok ((egresses ← wrap (Errorf "unable to list Egress: ") (ask api_ListEgress);
    wrap (Errorf "failed to patch crb: ")
      (api_PatchCRB crb (mkCRB (crb_Name crb) (crb_RoleRef crb) (crb_subjects (getNamespaces range_ns egresses))))) a).1 = true.
Proof.
  intros Hwf Hin Hac. pose proof (wf_crb _ Hwf _ _ Hin) as Hn.
  apply up_bind; [apply up_wrap, up_ListEgress|]. intros l a1 Hl. apply wrap_ok in Hl. unfold ask in Hl.
  injection Hl as Hl <-. apply up_wrap, up_PatchCRB; [done|by rewrite Hn|].
  apply Hac; [|done]. split; [done|]. exists l. split; [|done]. by apply list_namespaces.
Qed.

Lemma up_crb r eg a :
  cluster_wf (view a) → acceptable r eg (view a) → is_ok (reconcileCRB range_ns a).1 = true.
Proof.
  intros Hwf Hac. destruct Hac as [_ _ Hnew Hcrb _ _ _].
  unfold reconcileCRB. unfold mbind at 1, M_bind at 1, try, ask. pose proof (GetCRB_view egressCRBName a) as Hv.
  destruct (api_GetCRB egressCRBName a) as [x|e] eqn:Hg.
  - rewrite Hv in Hcrb. simpl in Hcrb. by apply up_patch.
  - rewrite (up_GetCRB _ _ _ Hg). pose proof (Hv (up_GetCRB _ _ _ Hg)) as Hno. rewrite Hno in Hcrb. simpl in Hcrb.
    apply up_bind; [apply up_wrap, up_CreateCRB; [by apply Hnew|done]|].
    intros crb a1 [-> Hv1]%wrap_ok%CreateCRB_view. apply up_patch.
    + rewrite Hv1. destruct Hwf. constructor; try done. cbn.
      intros n x [[<- <-]|[_ ?]]%lookup_insert_Some; [done|eauto].
    + rewrite Hv1. apply lookup_insert_eq.
    + intros crb' Hcur. apply Hcrb. eapply crb_current_ext; [|exact Hcur]. by rewrite Hv1.
Qed.

(** The functions given to [CreateOrUpdate] return. *)
Lemma up_mutate_dep r eg a :
  cluster_wf (view a) → ∃ y, mutate_deployment SetControllerReference r eg
    (default (new_dep (eg_key eg)) (cl_dep (view a) !! eg_key eg)) = Ok y.
Proof.
  intros Hwf. unfold mutate_deployment, mbind, result_bind. set (o := default _ _).
  assert (is_ok (mutate_meta SetControllerReference eg (dep_meta o)) = true) as Ho.
  { subst o. destruct (cl_dep (view a) !! eg_key eg) as [d|] eqn:Hd; simpl.
    - unfold mutate_meta. simpl. destruct (wf_dep _ Hwf _ _ Hd) as [Hc _]. by destruct (m_CreationTimestamp (dep_meta d)).
    - apply up_meta; [done|by right]. }
  destruct (m_DeletionTimestamp (dep_meta o)); [by eexists|]. destruct (mutate_meta _ eg (dep_meta o)); [by eexists|done].
Qed.

Lemma up_mutate_svc r eg a :
  cluster_wf (view a) → ∃ y, mutate_service SetControllerReference r eg
    (default (new_svc (eg_key eg)) (cl_svc (view a) !! eg_key eg)) = Ok y.
Proof.
  intros Hwf. unfold mutate_service, mbind, result_bind. set (o := default _ _).
  assert (is_ok (mutate_meta SetControllerReference eg (svc_meta o)) = true) as Ho.
  { subst o. destruct (cl_svc (view a) !! eg_key eg) as [d|] eqn:Hd; simpl.
    - unfold mutate_meta. simpl. destruct (wf_svc _ Hwf _ _ Hd) as [Hc _]. by destruct (m_CreationTimestamp (svc_meta d)).
    - apply up_meta; [done|by right]. }
  destruct (m_DeletionTimestamp (svc_meta o)); [by eexists|]. destruct (mutate_meta _ eg (svc_meta o)); [by eexists|done].
Qed.

Lemma up_mutate_pdb eg spec a :
  cluster_wf (view a) → ∃ y, mutate_pdb SetControllerReference eg spec
    (default (new_pdb (eg_key eg)) (cl_pdb (view a) !! eg_key eg)) = Ok y.
Proof.
  intros Hwf. unfold mutate_pdb, mbind, result_bind. set (o := default _ _).
  assert (is_ok (mutate_meta SetControllerReference eg (pdb_meta o)) = true) as Ho.
  { subst o. destruct (cl_pdb (view a) !! eg_key eg) as [d|] eqn:Hd; simpl.
    - unfold mutate_meta. simpl. pose proof (wf_pdb _ Hwf _ _ Hd) as Hc. by destruct (m_CreationTimestamp (pdb_meta d)).
    - apply up_meta; [done|by right]. }
  destruct (m_DeletionTimestamp (pdb_meta o)); [by eexists|]. destruct (mutate_meta _ eg (pdb_meta o)); [by eexists|done].
Qed.

(** What the later steps find is as it was, for all they look at. *)
Lemma acceptable_sa r eg x c : acceptable r eg c → acceptable r eg (put_sa (sa_key eg) x c).
Proof. intros []. constructor; try done. cbn. by rewrite lookup_insert_eq. Qed.
Lemma acceptable_cr r eg x c : acceptable r eg c → acceptable r eg (put_cr egressCRName x c).
Proof. intros []. constructor; try done. cbn. by rewrite lookup_insert_eq. Qed.

Lemma up_body r eg a : cluster_wf (view a) → acceptable r eg (view a) → is_ok (body r eg a).1 = true.
Proof.
  intros Hwf Hac. unfold body. apply up_bind; [by eapply up_sa|]. intros [] a1 V1%sa_view.
  assert (cluster_wf (view a1) ∧ acceptable r eg (view a1)) as [Hwf1 Hac1].
  { rewrite V1. split; [by destruct Hwf; constructor|by apply acceptable_sa]. }
  apply up_bind; [by eapply up_cr, ac_cr|]. intros [] a2 V2%cr_view.
  assert (cluster_wf (view a2) ∧ acceptable r eg (view a2)) as [Hwf2 Hac2].
  { rewrite V2. split; [by destruct Hwf1; constructor|by apply acceptable_cr]. }
  clear Hwf Hac Hwf1 Hac1 V1 V2. apply up_bind; [by eapply up_crb|].
  intros [] a3 (crb & V3 & [Hn _] & _)%crb_view; [|done].
  assert (cluster_wf (view a3)) as Hwf3.
  { rewrite V3. destruct Hwf2. constructor; try done. cbn.
    intros n x [[<- <-]|[_ ?]]%lookup_insert_Some; [done|eauto]. }
  assert (cl_dep (view a3) = cl_dep (view a2) ∧ cl_svc (view a3) = cl_svc (view a2) ∧ cl_pdb (view a3) = cl_pdb (view a2))
    as (Ed & Es & Ep) by (by rewrite V3).
  destruct Hac2 as [_ _ _ _ Hd Hs Hp]. rewrite <- Ed in Hd. rewrite <- Es in Hs. rewrite <- Ep in Hp.
  destruct (up_mutate_dep r eg a3 Hwf3) as [yd Hyd]. destruct (up_mutate_svc r eg a3 Hwf3) as [ys Hys].
  apply up_bind; [apply up_wrap; eapply up_Deployment; [exact Hyd|by apply Hd]|].
  intros [] a4 (x & V4 & _)%wrap_ok%CreateOrUpdate_Deployment_view.
  apply up_bind; [unfold reconcileService; eapply up_Service; rewrite V4; [exact Hys|by apply Hs]|].
  unfold reconcileService. intros [] a5 (x5 & V5 & _)%CreateOrUpdate_Service_view.
  unfold reconcilePDB. destruct (PodDisruptionBudget (eg_Spec eg)) as [spec|] eqn:Hspec; [|done].
  destruct (up_mutate_pdb eg spec a3 Hwf3) as [yp Hyp].
  apply up_wrap. eapply up_PDB; rewrite V5, V4; [exact Hyp|by eapply Hp].
Qed.

(** A call for an egress that is not there, or is being deleted, succeeds, and
    one for any other if nothing it makes is refused. *)
Lemma up_reconcile r n a :
  cluster_wf (view a) →
  (∀ eg, cl_egress (view a) !! n = Some eg → m_DeletionTimestamp (eg_meta eg) = None → acceptable r eg (view a)) →
  ∃ a', EgressReconcile range_ns r n a = (Ok tt, a').
Proof.
  intros Hwf Hac. rewrite EgressReconcile_eq. pose proof (GetEgress_view n a) as Hv.
  destruct (api_GetEgress n a) as [eg|e] eqn:Hg; [|by rewrite (up_GetEgress _ _ _ Hg); eauto].
  destruct (decide _) as [|Hd]; [by eauto|]. fold (body r eg). unfold with_deferred.
  assert (m_DeletionTimestamp (eg_meta eg) = None) as Hd' by (by destruct (m_DeletionTimestamp _); [destruct Hd|]).
  destruct (is_ok_run _ _ (up_body r eg a Hwf (Hac eg Hv Hd'))) as ([] & a1 & ->).
  destruct (updateStatus eg a1). eauto.
Qed.

(** Which egress a stored object has settled for does not depend on its status. *)
Lemma settled_status r eg st d s spec p :
  let eg' := mkEgress (eg_meta eg) (eg_Spec eg) st in
  (m_CreationTimestamp (dep_meta d) ≠ None → settled admit_dep (mutate_deployment SetControllerReference r eg) d →
     settled admit_dep (mutate_deployment SetControllerReference r eg') d) ∧
  (m_CreationTimestamp (svc_meta s) ≠ None → settled admit_svc (mutate_service SetControllerReference r eg) s →
     settled admit_svc (mutate_service SetControllerReference r eg') s) ∧
  (m_CreationTimestamp (pdb_meta p) ≠ None → settled id (mutate_pdb SetControllerReference eg spec) p →
     settled id (mutate_pdb SetControllerReference eg' spec) p).
Proof.
  cbn zeta. unfold settled, mutate_deployment, mutate_service, mutate_pdb, mutate_meta. cbn.
  split_and!; intros Hc.
  - by destruct (m_CreationTimestamp (dep_meta d)).
  - by destruct (m_CreationTimestamp (svc_meta s)).
  - by destruct (m_CreationTimestamp (pdb_meta p)).
Qed.

Lemma steady_status r eg c c' :
  cluster_wf c → cl_egress c !! eg_key eg = Some eg → same_but_status eg c c' → steady r eg c →
  ∃ eg', cl_egress c' !! eg_key eg = Some eg' ∧ eg_meta eg' = eg_meta eg ∧ steady r eg' c'.
Proof.
  intros Hwf He Hs Hst. pose proof (λ ns, status_ns eg c c' ns He Hs) as Hns.
  destruct Hs as [->|[st ->]]; [by exists eg|].
  exists (mkEgress (eg_meta eg) (eg_Spec eg) st). split_and!; [apply lookup_insert_eq|done|].
  destruct Hst as [H1 H2 (crb & H3 & H3') (d & Hd & Hsd) (s & Hs & Hss) Hp]. constructor; try done.
  - exists crb. split; [done|]. eapply crb_current_ext; [exact Hns|done].
  - exists d. split; [done|]. by apply (settled_status r eg st d s (mkEgressPDBSpec None None) (new_pdb (eg_key eg)));
      [eapply wf_dep|].
  - exists s. split; [done|]. by apply (settled_status r eg st d s (mkEgressPDBSpec None None) (new_pdb (eg_key eg)));
      [eapply wf_svc|].
  - intros spec Hspec. destruct (Hp spec Hspec) as (p & Hpl & Hsp). exists p. split; [done|].
    apply (settled_status r eg st d s spec p); [by eapply wf_pdb|done].
Qed.

(** C6: against a server that answers and would accept what the controller
    makes of the egress, reconciling an egress that is not being deleted, nor
    any of its objects, converges in one pass: it returns without an error,
    the contract holds, and one more pass succeeds and changes nothing but,
    possibly, the status of the egress (which is that of the first pass if its
    update got lost). *)
Theorem egress_reconcile_converges r n eg (a : A) :
  cluster_wf (view a) → cl_egress (view a) !! n = Some eg → m_DeletionTimestamp (eg_meta eg) = None →
  not_deleting n (view a) → acceptable r eg (view a) →
  ∃ a1 a2, EgressReconcile range_ns r n a = (Ok tt, a1) ∧ realised r eg (view a1) ∧
    EgressReconcile range_ns r n a1 = (Ok tt, a2) ∧ same_but_status eg (view a1) (view a2).
Proof.
  intros Hwf Hn Hd Hnd Hac.
  destruct (up_reconcile r n a Hwf) as [a1 H1]; [intros x Hx _; by assert (x = eg) as -> by congruence|].
  pose proof (wf_egress _ Hwf n eg Hn) as Hk. subst n.
  destruct (reconcile_outcome _ _ _ _ _ Hwf Hn Hd H1) as (b & crb & d & s & p & Hpa & Hs & He).
  pose proof (passed_wf _ _ _ _ _ _ _ _ Hpa Hwf Hnd) as Hwfb.
  destruct (steady_status r eg (view b) (view a1) Hwfb He Hs) as (eg' & He' & Hm & Hst); [by eapply passed_steady|].
  pose proof (wf_status _ _ _ Hwfb Hs) as Hwf1.
  destruct (up_reconcile r (eg_key eg) a1 Hwf1) as [a2 H2].
  { intros x Hx _. assert (x = eg') as -> by congruence. by apply steady_acceptable. }
  exists a1, a2. split_and!; [done|exact (reconcile_realised _ _ _ _ _ Hwf Hn Hd Hnd H1)|done|].
  destruct (reconcile_body r (eg_key eg) eg' a1 a2 He') as (b2 & Hb2 & ->); [by rewrite Hm|done|].
  pose proof (steady_again _ _ _ _ Hwf1 Hst Hb2) as Hsame.
  assert (eg_key eg' = eg_key eg) as Hk by (unfold eg_key; by rewrite Hm).
  assert (eg_Spec eg' = eg_Spec eg) as Hspec.
  { destruct Hs as [E|[st E]]; rewrite E in He'; [congruence|]. cbn in He'. rewrite lookup_insert_eq in He'. by injection He' as <-. }
  destruct (status_view eg' b2) as [E|[st E]]; [by rewrite Hsame, Hk| |].
  - left. congruence.
  - right. exists st. by rewrite E, Hsame, Hk, Hm, Hspec.
Qed.
End up.

(** ** Several egresses *)

(** Reconciling one egress does not undo another. *)
Lemma realised_other r eg eg2 c c' :
  realised r eg c → realised r eg2 c' → frame_of eg2 c c' → eg_key eg2 ≠ eg_key eg → realised r eg c'.
Proof.
  intros [H1 _ _ H4 H5 H6] [G1 G2 G3 _ _ _] [F1 _ _ F4 F5 F6 _] Hne. constructor; [|done|done|..].
  - destruct (decide (sa_key eg = sa_key eg2)) as [->|Hsa]; [done|]. by rewrite F1.
  - by rewrite F4.
  - by rewrite F5.
  - intros spec Hspec. rewrite F6 by (by left). by apply H6.
Qed.

Lemma not_deleting_frame n eg c c' : frame_of eg c c' → n ≠ eg_key eg → not_deleting n c → not_deleting n c'.
Proof.
  intros [_ _ _ F4 F5 F6 _] Hne (H1 & H2 & H3). unfold not_deleting. rewrite F4, F5, F6 by (done || by left). done.
Qed.

Lemma egress_frame n eg c c' : frame_of eg c c' → n ≠ eg_key eg → cl_egress c' !! n = cl_egress c !! n.
Proof. intros [_ _ _ _ _ _ [->|[st ->]]] Hne; [done|]. by rewrite lookup_insert_ne. Qed.

(** C40: an egress that is deleted leaves its traces.  When an egress whose
    contract holds is removed from the store, and no other egress is in its
    namespace, reconciling it succeeds without a change, if its absence is
    what the read reports: the role binding goes on naming the service account
    of a namespace that has no egress. *)
Theorem egress_deleted_stale r eg (a b : A) :
  realised r eg (view a) → cl_egress (view a) !! eg_key eg = Some eg →
  cl_egress (view b) = delete (eg_key eg) (cl_egress (view a)) → cl_crb (view b) = cl_crb (view a) →
  (∀ n x, cl_egress (view a) !! n = Some x → nn_Namespace n = m_Namespace (eg_meta eg) → n = eg_key eg) →
  (∀ e, api_GetEgress (eg_key eg) b = Err e → IsNotFound e = true) →
  EgressReconcile range_ns r (eg_key eg) b = (Ok tt, b) ∧ ¬ egress_ns (view b) (m_Namespace (eg_meta eg)) ∧
  ∃ crb, cl_crb (view b) !! egressCRBName = Some crb ∧
    mkSubject "ServiceAccount" egressServiceAccountName (m_Namespace (eg_meta eg)) ∈ crb_Subjects crb.
Proof.
  intros Hre Heg Hb Hcrb Honly Hread. split_and!.
  - rewrite EgressReconcile_eq. pose proof (GetEgress_view (eg_key eg) b) as Hg.
    destruct (api_GetEgress (eg_key eg) b) as [x|e] eqn:E; [by rewrite Hb, lookup_delete_eq in Hg|].
    by rewrite (Hread _ eq_refl).
  - intros (n & x & Hx & Hns). rewrite Hb in Hx. apply lookup_delete_Some in Hx as [Hne Hx]. by rewrite (Honly n x Hx Hns) in Hne.
  - destruct (re_crb _ _ _ Hre) as (crb & Hc & _ & Hsub). exists crb. rewrite Hcrb. split; [done|]. apply Hsub.
    eexists. split; [|done]. exists (eg_key eg), eg. done.
Qed.
End reconciling.

(** ** A server *)

(** Some of Kubernetes' validation: containers have names of their own and
    images, and a deployment selects its own pods, forever the same; a service
    has ports in range, and a configuration of its session affinity only if it
    has one; a disruption budget has one limit at most; a role binding stays
    with its role. *)
Definition valid_dep (old : option Deployment) (d : Deployment) : bool :=
  bool_decide (old = Some d) ||
  let cs := Containers (t_Spec (dep_Template d)) in
  bool_decide (cs ≠ []) && bool_decide (NoDup (c_Name <$> cs)) &&
  forallb (λ c, bool_decide (c_Name c ≠ "" ∧ c_Image c ≠ "")) cs &&
  match dep_Selector d with
  | Some sel => bool_decide (sel ∪ t_Labels (dep_Template d) = t_Labels (dep_Template d))
  | None => false
  end &&
  match old with Some o => bool_decide (dep_Selector d = dep_Selector o) | None => true end.

Definition valid_svc (old : option Service) (s : Service) : bool :=
  bool_decide (old = Some s) ||
  forallb (λ p, bool_decide (1 ≤ sp_Port p ≤ 65535)) (svc_Ports s) &&
  (bool_decide (svc_SessionAffinity s = "ClientIP") ||
   bool_decide (svc_SessionAffinity s = "None" ∧ svc_SessionAffinityConfig s = None)).

Definition valid_pdb (old : option PDB) (p : PDB) : bool :=
  bool_decide (old = Some p) || bool_decide (pdb_MinAvailable p = None) || bool_decide (pdb_MaxUnavailable p = None).

Definition valid_crb (old : option CRB) (x : CRB) : bool :=
  bool_decide (old = Some x) ||
  bool_decide (crb_Name x ≠ "" ∧ rr_Name (crb_RoleRef x) ≠ "") &&
  match old with Some o => bool_decide (crb_RoleRef x = crb_RoleRef o) | None => true end.

(** Defaults as Kubernetes has them. *)
#[export] Instance store_admission : Admission.
Proof.
  refine {|
    default_strategy s := if decide (s = "") then "RollingUpdate" else s;
    default_podspec s := mkPodSpec (ServiceAccountName s) (Volumes s) (Containers s)
      (if decide (ps_other s = "") then "restartPolicy: Always" else ps_other s);
    default_affinity s c :=
      if decide (s = "ClientIP") then (s, Some (default "timeoutSeconds: 10800" c))
      else if decide (s = "" ∨ s = "None") then ("None", None) else (s, c);
    accepts_sa x := bool_decide (sa_Name x ≠ "") = true;
    accepts_cr x := bool_decide (cr_Name x ≠ "") = true;
    accepts_crb old x := valid_crb old x = true;
    accepts_dep old x := valid_dep old x = true;
    accepts_svc old x := valid_svc old x = true;
    accepts_pdb old x := valid_pdb old x = true;
  |}.
  - intros s. cbn. f_equal. by destruct (decide (ps_other s = "")) as [|Hne]; [|rewrite decide_False].
  - intros s. by destruct (decide (s = "")) as [->|Hne]; [|rewrite decide_False].
  - intros s c. by repeat case_decide.
  - intros s c. destruct (decide (s = "ClientIP")) as [->|H1]; [done|].
    destruct (decide (s = "" ∨ s = "None")) as [H2|H2]; [done|]. cbn [fst snd].
    by destruct (decide (s = "ClientIP")), (decide (s = "" ∨ s = "None")).
  - intros x. unfold valid_crb. by rewrite bool_decide_eq_true_2.
  - intros x. unfold valid_dep. by rewrite bool_decide_eq_true_2.
  - intros x. unfold valid_svc. by rewrite bool_decide_eq_true_2.
  - intros x. unfold valid_pdb. by rewrite bool_decide_eq_true_2.
  - intros old x. unfold valid_pdb. rewrite !orb_true_iff, !bool_decide_eq_true.
    intros [[?|Hn]|Hx]; [done|rewrite Hn; by intros []|rewrite Hx; by intros _ []].
Defined.

Definition already_exists : goerror := ErrLib "apierrors" "already exists".
Definition invalid : goerror := ErrLib "apierrors" "is invalid".

Definition store_create {X} (ok : bool) (old : option X) (put : Cluster → Cluster) : M Cluster unit := λ c,
  match old with
  | Some _ => (Err already_exists, c)
  | None => if ok then (Ok tt, put c) else (Err invalid, c)
  end.

Definition store_update {X} `{EqDecision X} (new : X) (settle created : X → X) (valid : option X → X → bool)
    (put : X → Cluster → Cluster) (f : X → result X) (old : option X) : M Cluster unit := λ c,
  match f (default new old) with
  | Err e => (Err e, c)
  | Ok y =>
      if decide (old = Some y) then (Ok tt, c)
      else if valid old (settle y) then
        (Ok tt, put (match old with None => created (settle y) | Some _ => settle y end) c)
      else (Err invalid, c)
  end.

Definition store_ref (eg : Egress) (m : ObjectMeta) : result ObjectMeta :=
  Ok (mkObjectMeta (m_Name m) (m_Namespace m) (m_Labels m) (m_DeletionTimestamp m) (m_CreationTimestamp m)
        (m_Name (eg_meta eg) :: m_OwnerReferences m)).

Definition store_find {X} (x : option X) : result X :=
  match x with Some x => Ok x | None => Err (ErrAPINotFound "not found") end.

#[export] Instance store_api : API Cluster := {|
  api_GetEgress n c := store_find (cl_egress c !! n);
  api_ListEgress c := Ok (map_to_list (cl_egress c)).*2;
  api_StatusUpdate eg c :=
    match cl_egress c !! eg_key eg with
    | Some old => (Ok tt, put_egress (eg_key eg) (mkEgress (eg_meta old) (eg_Spec old) (eg_Status eg)) c)
    | None => (Err (ErrAPINotFound "not found"), c)
    end;
  api_GetSA n c := store_find (cl_sa c !! n);
  api_CreateSA x c :=
    let n := mkNamespacedName (sa_Namespace x) (sa_Name x) in
    store_create (bool_decide (sa_Name x ≠ "")) (cl_sa c !! n) (put_sa n x) c;
  api_GetCR n c := store_find (cl_cr c !! n);
  api_CreateCR x c :=
    store_create (bool_decide (cr_Name x ≠ "")) (cl_cr c !! cr_Name x) (put_cr (cr_Name x) x) c;
  api_GetCRB n c := store_find (cl_crb c !! n);
  api_CreateCRB x :=
    (λ c, store_create (valid_crb None x) (cl_crb c !! crb_Name x) (put_crb (crb_Name x) x) c);; mret x;
  api_PatchCRB old new c :=
    match cl_crb c !! crb_Name old with
    | None => (Err (ErrAPINotFound "not found"), c)
    | Some cur => if valid_crb (Some cur) new then (Ok tt, put_crb (crb_Name old) new c) else (Err invalid, c)
    end;
  api_GetDeployment n c := store_find (cl_dep c !! n);
  CreateOrUpdate_Deployment n f c :=
    store_update (new_dep n) admit_dep (created_dep 1) valid_dep (put_dep n) f (cl_dep c !! n) c;
  CreateOrUpdate_Service n f c :=
    store_update (new_svc n) admit_svc (created_svc 1 "10.96.0.10") valid_svc (put_svc n) f (cl_svc c !! n) c;
  CreateOrUpdate_PDB n f c := store_update (new_pdb n) id (created_pdb 1) valid_pdb (put_pdb n) f (cl_pdb c !! n) c;
  SetControllerReference := store_ref;
  LabelSelectorAsSelector sel :=
    Ok (match sel with Some m => Join ((λ kv, kv.1 +:+ "=" +:+ kv.2) <$> map_to_list m) "," | None => "" end);
|}.

Lemma store_find_view {X} (x : option X) :
  match store_find x with Ok y => x = Some y | Err e => IsNotFound e = true → x = None end.
Proof. by destruct x. Qed.

(** [store_update] is a [create_or_update], and fails only if it must. *)
Lemma store_update_ok {X} `{EqDecision X} (new : X) settle created valid put f old c c' :
  (∀ o, old = Some o → put o c = c) → store_update new settle created valid put f old c = (Ok tt, c') →
  ∃ x, c' = put x c ∧
    create_or_update new settle (λ o x, valid o x = true) (λ y x, x = created y) f old x.
Proof.
  unfold store_update, create_or_update. intros Hid. destruct old as [o|]; simpl.
  - destruct (f o) as [y|] eqn:Hf; [|done]. case_decide as Hd.
    + intros [= <-]. injection Hd as ->. exists y. rewrite Hid by done. split; [done|]. exists y. auto.
    + destruct (valid (Some o) (settle y)) eqn:Hv; [|done]. intros [= <-]. exists (settle y). split; [done|].
      exists y. split; [done|]. right. split_and!; [by intros ->|done|done].
  - destruct (f new) as [y|] eqn:Hf; [|done].
    destruct (valid None (settle y)) eqn:Hv; [|done]. intros [= <-]. exists (created (settle y)). split; [done|]. by exists y.
Qed.

Lemma store_update_up {X} `{EqDecision X} (new : X) settle created valid put f old c y :
  f (default new old) = Ok y → old = Some y ∨ valid old (settle y) = true →
  is_ok (store_update new settle created valid put f old c).1 = true.
Proof.
  intros Hf Hv. unfold store_update. rewrite Hf. case_decide; [done|]. by destruct Hv as [? | ->].
Qed.

(** A write that fails changes nothing. *)
Lemma store_update_err {X} `{EqDecision X} (new : X) settle created valid put f old c e c' :
  store_update new settle created valid put f old c = (Err e, c') → c' = c.
Proof. unfold store_update. destruct (f _); [|congruence]. case_decide; [done|]. destruct (valid _ _); congruence. Qed.

Lemma store_create_cases {X} ok (old : option X) put c :
  (old = None ∧ ok = true ∧ store_create ok old put c = (Ok tt, put c)) ∨
  ∃ e, (old = None → ok = false) ∧ store_create ok old put c = (Err e, c).
Proof. unfold store_create. destruct old; [right; by eexists|]. destruct ok; [by left|right; by eexists]. Qed.

Lemma create_or_update_impl {X} (new : X) settle acc (R R' : X → X → Prop) f old x :
  (∀ y x, R y x → R' y x) → create_or_update new settle acc R f old x → create_or_update new settle acc R' f old x.
Proof. intros HR. destruct old; [done|]. intros (y & Hy & Ha & Hx). exists y. auto. Qed.

#[export] Instance store_laws : APILaws Cluster.
Proof.
  refine {| view c := c |}.
  - intros n a. apply store_find_view.
  - intros n a. apply store_find_view.
  - intros n a. apply store_find_view.
  - intros n a. apply store_find_view.
  - intros n a d. simpl. by destruct (cl_dep a !! n); [intros [= <-]|].
  - intros a l [= <-] eg. rewrite list_elem_of_fmap. split.
    + intros ([n x] & -> & Hx%elem_of_map_to_list). by exists n.
    + intros (n & Hn). exists (n, eg). by rewrite elem_of_map_to_list.
  - intros x a a'. simpl. destruct (store_create_cases (bool_decide (sa_Name x ≠ "")) (cl_sa a !! mkNamespacedName (sa_Namespace x) (sa_Name x))
      (put_sa (mkNamespacedName (sa_Namespace x) (sa_Name x)) x) a) as [(_ & _ & ->)|(e & _ & ->)]; [by intros [= <-]|done].
  - intros x a a'. simpl. destruct (store_create_cases (bool_decide (cr_Name x ≠ "")) (cl_cr a !! cr_Name x)
      (put_cr (cr_Name x) x) a) as [(_ & _ & ->)|(e & _ & ->)]; [by intros [= <-]|done].
  - intros x a y a'. simpl. unfold mbind, M_bind. destruct (store_create_cases (valid_crb None x) (cl_crb a !! crb_Name x)
      (put_crb (crb_Name x) x) a) as [(_ & _ & ->)|(e & _ & ->)]; [by intros [= <- <-]|done].
  - intros old new a a'. simpl. intros H _ Hl. revert H. rewrite Hl.
    destruct (valid_crb (Some old) new); [by intros [= <-]|done].
  - intros n f a a' H. apply store_update_ok in H as (x & -> & Hx); [|intros o; apply put_dep_id].
    exists x. split; [done|]. eapply create_or_update_impl; [|exact Hx]. intros y z ->. by repeat eexists.
  - intros n f a a' H. apply store_update_ok in H as (x & -> & Hx); [|intros o; apply put_svc_id].
    exists x. split; [done|]. eapply create_or_update_impl; [|exact Hx]. intros y z ->. by repeat eexists.
  - intros n f a a' H. apply store_update_ok in H as (x & -> & Hx); [|intros o; apply put_pdb_id].
    exists x. split; [done|]. eapply create_or_update_impl; [|exact Hx]. intros y z ->. by repeat eexists.
  - intros eg a old Hold. simpl. rewrite Hold. by right.
  - by intros eg m m' [= <-].
Defined.

#[export] Instance store_up : APIUp Cluster.
Proof.
  split; try done.
  - intros n a e. simpl. by destruct (cl_egress a !! n); [|intros [= <-]].
  - intros n a e. simpl. by destruct (cl_sa a !! n); [|intros [= <-]].
  - intros n a e. simpl. by destruct (cl_cr a !! n); [|intros [= <-]].
  - intros n a e. simpl. by destruct (cl_crb a !! n); [|intros [= <-]].
  - intros x a Hx Hn. simpl in *. unfold store_create. by rewrite Hn, Hx.
  - intros x a Hx Hn. simpl in *. unfold store_create. by rewrite Hn, Hx.
  - intros x a Hx Hn. simpl in *. unfold mbind, M_bind, store_create. by rewrite Hn, Hx.
  - intros old new a _ Hl Hx. simpl in *. by rewrite Hl, Hx.
  - intros n f a y. apply store_update_up.
  - intros n f a y. apply store_update_up.
  - intros n f a y. apply (store_update_up (new_pdb n) id).
Qed.

(** ** Witnesses *)

Definition ex_pdb_spec : EgressSpec :=
  mkEgressSpec ["0.0.0.0/0"] 2 None None "ClientIP" None (Some (mkEgressPDBSpec None (Some (IntVal 1)))).
Definition ex_store : Cluster :=
  mkCluster {[ mkNamespacedName "internet" "a" := ex_eg "a" "internet" ex_pdb_spec ]} ∅ ∅ ∅ ∅ ∅ ∅.

Lemma ex_store_wf : cluster_wf ex_store.
Proof. constructor; try done. intros n x Hx. cbn in Hx. by apply lookup_singleton_Some in Hx as [<- <-]. Qed.

(** The server accepts what the controller makes of an egress of no objects
    yet. *)
Lemma new_acceptable eg c :
  Template (eg_Spec eg) = None → SessionAffinity (eg_Spec eg) ∈ ["None"; "ClientIP"] →
  (∀ spec, PodDisruptionBudget (eg_Spec eg) = Some spec → MinAvailable spec = None ∨ MaxUnavailable spec = None) →
  cl_crb c = ∅ → cl_dep c = ∅ → cl_svc c = ∅ → cl_pdb c = ∅ → acceptable (A:=Cluster) elements ex_r eg c.
Proof.
  intros Ht Haff Hpdb Hcrb Hdep Hsvc Hpd. constructor; rewrite ?Hcrb, ?Hdep, ?Hsvc, ?Hpd, ?lookup_empty; try done; simpl.
  - intros crb [Hn _] Hr. unfold valid_crb. rewrite Hn, Hr. by rewrite orb_true_r.
  - intros y [= <-]. right. unfold valid_dep. rewrite bool_decide_eq_false_2 by done. simpl.
    unfold reconcilePodTemplate. rewrite Ht. simpl.
    rewrite bool_decide_eq_true_2; [done|]. unfold map_copy. by rewrite (right_id_L ∅ (∪)), (idemp_L (∪)).
  - intros y [= <-]. right. unfold valid_svc, admit_svc. simpl.
    rewrite !elem_of_cons, elem_of_nil in Haff. by destruct Haff as [->|[->|[]]], (SessionAffinityConfig (eg_Spec eg)).
  - intros spec y Hspec [= <-]. right. unfold valid_pdb. rewrite !orb_true_iff, !bool_decide_eq_true. simpl.
    destruct (Hpdb spec Hspec) as [-> | ->]; [by left; right|by right].
Qed.

Lemma ex_store_acceptable : acceptable (A:=Cluster) elements ex_r (ex_eg "a" "internet" ex_pdb_spec) ex_store.
Proof.
  apply new_acceptable; try done; [right; left|]. intros spec [= <-]. by left.
Qed.


Lemma egress_reconcile_converges_witness :
  ∃ a1 a2, EgressReconcile elements ex_r (mkNamespacedName "internet" "a") ex_store = (Ok tt, a1) ∧
    realised ex_r (ex_eg "a" "internet" ex_pdb_spec) (view a1) ∧
    EgressReconcile elements ex_r (mkNamespacedName "internet" "a") a1 = (Ok tt, a2) ∧
    same_but_status (ex_eg "a" "internet" ex_pdb_spec) (view a1) (view a2).
Proof.
  apply (egress_reconcile_converges elements (λ s, reflexivity _) ex_r (mkNamespacedName "internet" "a")
    (ex_eg "a" "internet" ex_pdb_spec) ex_store); [exact ex_store_wf|reflexivity|reflexivity|by split_and!|exact ex_store_acceptable].
Defined.

(** Two egresses in two namespaces. *)
Definition ex_two : Cluster :=
  mkCluster {[ mkNamespacedName "internet" "a" := ex_eg "a" "internet" ex_pdb_spec;
               mkNamespacedName "office" "b" := ex_eg "b" "office" ex_spec ]} ∅ ∅ ∅ ∅ ∅ ∅.

Lemma ex_two_egress n eg :
  cl_egress ex_two !! n = Some eg ↔
  n = mkNamespacedName "internet" "a" ∧ eg = ex_eg "a" "internet" ex_pdb_spec ∨
  n = mkNamespacedName "office" "b" ∧ eg = ex_eg "b" "office" ex_spec.
Proof.
  cbn. rewrite lookup_insert_Some, lookup_singleton_Some. split.
  - intros [[<- <-]|[_ [<- <-]]]; auto.
  - intros [[-> ->]|[-> ->]]; [by left|right]. done.
Qed.

(** An egress whose status is up to date. *)
Definition ex_current : Egress :=
  let eg := ex_eg "a" "internet" ex_pdb_spec in
  mkEgress (eg_meta eg) (eg_Spec eg) (mkEgressStatus 0
    (match LabelSelectorAsSelector (Some (appLabels "a")) with Ok s => s | Err _ => "" end)).
Definition ex_before : Cluster := mkCluster {[ mkNamespacedName "internet" "a" := ex_current ]} ∅ ∅ ∅ ∅ ∅ ∅.
Definition ex_after : Cluster := (EgressReconcile elements ex_r (mkNamespacedName "internet" "a") ex_before).2.
(** The store when the user has deleted all egresses. *)
Definition without_egresses (c : Cluster) : Cluster :=
  mkCluster ∅ (cl_sa c) (cl_cr c) (cl_crb c) (cl_dep c) (cl_svc c) (cl_pdb c).

Lemma ex_before_wf : cluster_wf ex_before.
Proof. constructor; try done. intros n x Hx. cbn in Hx. by apply lookup_singleton_Some in Hx as [<- <-]. Qed.

Lemma ex_after_egress : cl_egress ex_after = {[ mkNamespacedName "internet" "a" := ex_current ]}.
Proof. vm_cast_no_check (eq_refl (cl_egress ex_after)). Qed.

Lemma egress_deleted_stale_witness :
  EgressReconcile elements ex_r (mkNamespacedName "internet" "a") (without_egresses ex_after) =
    (Ok tt, without_egresses ex_after) ∧
  ∃ crb, cl_crb (without_egresses ex_after) !! egressCRBName = Some crb ∧
    mkSubject "ServiceAccount" "egress" "internet" ∈ crb_Subjects crb.
Proof.
  assert (∀ c, realised ex_r ex_current c → cl_egress c = {[ mkNamespacedName "internet" "a" := ex_current ]} →
    EgressReconcile elements ex_r (mkNamespacedName "internet" "a") (without_egresses c) = (Ok tt, without_egresses c) ∧
    ∃ crb, cl_crb (without_egresses c) !! egressCRBName = Some crb ∧
      mkSubject "ServiceAccount" "egress" "internet" ∈ crb_Subjects crb) as Hstale.
  { intros c Hre Heg. destruct (egress_deleted_stale elements ex_r ex_current c (without_egresses c)) as (H1 & _ & H2).
    - exact Hre.
    - change (cl_egress c !! mkNamespacedName "internet" "a" = Some ex_current). by rewrite Heg.
    - change (∅ = delete (mkNamespacedName "internet" "a") (cl_egress c)). by rewrite Heg, delete_singleton_eq.
    - reflexivity.
    - intros n x Hx _. change (cl_egress c !! n = Some x) in Hx. rewrite Heg in Hx.
      by apply lookup_singleton_Some in Hx as [<- _].
    - intros e [= <-]. reflexivity.
    - split; [exact H1|exact H2]. }
  apply Hstale; [|exact ex_after_egress]. change (realised ex_r ex_current (view ex_after)).
  apply (reconcile_realised elements (λ s, reflexivity _) ex_r (mkNamespacedName "internet" "a") ex_current ex_before);
    [exact ex_before_wf|reflexivity|reflexivity|by split_and!|vm_compute; reflexivity].
Defined.
