(* ===== verification/EgressFaults.v ===== *)
(** * The egress controller when the API server fails

    [EgressCluster] follows reconciliations that succeed.  Here any call to the
    API server may fail, before it has an effect or after (the answer is
    lost), and the reconciler may stop after any of its steps. *)
From Stdlib Require Import Ascii String.
From S2P Require Import Prelude GoStrings PodWatcher EgressAPI EgressController EgressCluster.

Local Open Scope Z_scope.

(** What a failed write has done: nothing, or what it does when it succeeds. *)
Class APIFaults (A : Type) `{!API A, !Admission, !APILaws A} := {
  CreateSA_err x a e a' : api_CreateSA x a = (Err e, a') →
    view a' = view a ∨ view a' = put_sa (mkNamespacedName (sa_Namespace x) (sa_Name x)) x (view a);
  CreateCR_err x a e a' : api_CreateCR x a = (Err e, a') →
    view a' = view a ∨ view a' = put_cr (cr_Name x) x (view a);
  CreateCRB_err x a e a' : api_CreateCRB x a = (Err e, a') →
    view a' = view a ∨ view a' = put_crb (crb_Name x) x (view a);
  PatchCRB_err old new a e a' : api_PatchCRB old new a = (Err e, a') → crb_Name new = crb_Name old →
    cl_crb (view a) !! crb_Name old = Some old →
    view a' = view a ∨ view a' = put_crb (crb_Name old) new (view a);
  CreateOrUpdate_Deployment_err n f a e a' : CreateOrUpdate_Deployment n f a = (Err e, a') →
    view a' = view a ∨ ∃ x, view a' = put_dep n x (view a) ∧
      create_or_update (new_dep n) admit_dep accepts_dep (λ y x, ∃ t, x = created_dep t y) f (cl_dep (view a) !! n) x;
  CreateOrUpdate_Service_err n f a e a' : CreateOrUpdate_Service n f a = (Err e, a') →
    view a' = view a ∨ ∃ x, view a' = put_svc n x (view a) ∧
      create_or_update (new_svc n) admit_svc accepts_svc (λ y x, ∃ t ip, x = created_svc t ip y) f (cl_svc (view a) !! n) x;
  CreateOrUpdate_PDB_err n f a e a' : CreateOrUpdate_PDB n f a = (Err e, a') →
    view a' = view a ∨ ∃ x, view a' = put_pdb n x (view a) ∧
      create_or_update (new_pdb n) id accepts_pdb (λ y x, ∃ t, x = created_pdb t y) f (cl_pdb (view a) !! n) x;
}.

Section faults.
Context {A : Type} {AP : API A} {DF : Admission} {AL : APILaws A} {AF : APIFaults A}.
Context (range_ns : gset string → list string) (range_perm : ∀ s, range_ns s ≡ₚ elements s).
Context (eg : Egress).

(** ** One step, whatever its outcome *)

(** A store the reconciler can work on. *)
Definition workable (c : Cluster) : Prop := cluster_wf c ∧ not_deleting (eg_key eg) c.

(** A disruption budget whose update is refused. *)
Definition refused_pdb (p : PDB) : Prop :=
  ∀ spec y, PodDisruptionBudget (eg_Spec eg) = Some spec → mutate_pdb SetControllerReference eg spec p = Ok y →
    y ≠ p ∧ ¬ accepts_pdb (Some p) y.

(** A step that stays with the objects of the egress, leaves them workable,
    and cannot do what is refused. *)
Definition careful : relation A := λ a a',
  workable (view a) →
  workable (view a') ∧ cl_egress (view a') = cl_egress (view a) ∧ frame_of eg (view a) (view a') ∧
  ∀ p, refused_pdb p → cl_pdb (view a) !! eg_key eg = Some p → cl_pdb (view a') !! eg_key eg = Some p.

Lemma frame_refl c : frame_of eg c c.
Proof. constructor; auto. Qed.

Lemma frame_trans c1 c2 c3 : frame_of eg c1 c2 → frame_of eg c2 c3 → frame_of eg c1 c3.
Proof.
  intros [A1 A2 A3 A4 A5 A6 Ae] [B1 B2 B3 B4 B5 B6 Be]. constructor.
  - intros n Hn. by rewrite B1, A1.
  - intros n Hn. by rewrite B2, A2.
  - intros n Hn. by rewrite B3, A3.
  - intros n Hn. by rewrite B4, A4.
  - intros n Hn. by rewrite B5, A5.
  - intros n Hn. by rewrite B6, A6.
  - destruct Be as [->|[st2 ->]]; [done|]. destruct Ae as [->|[st ->]]; right; exists st2; [done|].
    by rewrite insert_insert_eq.
Qed.

#[local] Instance careful_pre : PreOrder careful.
Proof.
  split.
  - intros a Hw. split_and!; [done|done|apply frame_refl|done].
  - intros a b c Hab Hbc Hw. destruct (Hab Hw) as (Hwb & E1 & F1 & P1). destruct (Hbc Hwb) as (Hwc & E2 & F2 & P2).
    split_and!; [done|congruence|by eapply frame_trans|eauto].
Qed.

Lemma careful_same a a' : view a' = view a → careful a a'.
Proof. intros Hv Hw. rewrite Hv. split_and!; [done|done|apply frame_refl|done]. Qed.

Lemma careful_sa x a a' : view a' = put_sa (sa_key eg) x (view a) → careful a a'.
Proof.
  intros Hv [Hwf Hnd]. unfold workable. rewrite Hv. split_and!; [destruct Hwf; by constructor|done|done| |done].
  constructor; try done; cbn; [|by left]. intros n Hn. by rewrite lookup_insert_ne.
Qed.

Lemma careful_cr x a a' : view a' = put_cr egressCRName x (view a) → careful a a'.
Proof.
  intros Hv [Hwf Hnd]. unfold workable. rewrite Hv. split_and!; [destruct Hwf; by constructor|done|done| |done].
  constructor; try done; cbn; [|by left]. intros n Hn. by rewrite lookup_insert_ne.
Qed.

Lemma careful_crb x a a' :
  crb_Name x = egressCRBName → view a' = put_crb egressCRBName x (view a) → careful a a'.
Proof.
  intros Hx Hv [Hwf Hnd]. unfold workable. rewrite Hv. split_and!; [|done|done| |done].
  - destruct Hwf. constructor; try done. cbn. intros n y [[<- <-]|[_ ?]]%lookup_insert_Some; eauto.
  - constructor; try done; cbn; [|by left]. intros n Hn. by rewrite lookup_insert_ne.
Qed.

Lemma careful_dep r x a a' :
  view a' = put_dep (eg_key eg) x (view a) →
  create_or_update (new_dep (eg_key eg)) admit_dep accepts_dep (λ y x, ∃ t, x = created_dep t y)
    (mutate_deployment SetControllerReference r eg) (cl_dep (view a) !! eg_key eg) x → careful a a'.
Proof.
  intros Hv Hx [Hwf (Hd & Hs & Hp)]. unfold workable, not_deleting. rewrite Hv.
  destruct (dep_step r eg (cl_dep (view a) !! eg_key eg) x) with (2 := Hx) as [_ Hdx Hc Had _ _ _ _ _ _ _ _].
  { intros d Hl. split; [by apply Hd|by eapply wf_dep]. }
  split_and!; [|cbn; rewrite lookup_insert_eq; by intros d [= <-]|done|done|done| |done].
  - destruct Hwf. constructor; try done. cbn. intros n y [[<- <-]|[_ ?]]%lookup_insert_Some; eauto.
  - constructor; try done; cbn; [|by left]. intros n Hn. by rewrite lookup_insert_ne.
Qed.

Lemma careful_svc r x a a' :
  view a' = put_svc (eg_key eg) x (view a) →
  create_or_update (new_svc (eg_key eg)) admit_svc accepts_svc (λ y x, ∃ t ip, x = created_svc t ip y)
    (mutate_service SetControllerReference r eg) (cl_svc (view a) !! eg_key eg) x → careful a a'.
Proof.
  intros Hv Hx [Hwf (Hd & Hs & Hp)]. unfold workable, not_deleting. rewrite Hv.
  destruct (svc_step r eg (cl_svc (view a) !! eg_key eg) x) with (2 := Hx) as [_ Hdx Hc Had _ _ _ _ _].
  { intros d Hl. split; [by apply Hs|by eapply wf_svc]. }
  split_and!; [|done|cbn; rewrite lookup_insert_eq; by intros d [= <-]|done|done| |done].
  - destruct Hwf. constructor; try done. cbn. intros n y [[<- <-]|[_ ?]]%lookup_insert_Some; eauto.
  - constructor; try done; cbn; [|by left]. intros n Hn. by rewrite lookup_insert_ne.
Qed.

Lemma careful_pdb spec x a a' :
  PodDisruptionBudget (eg_Spec eg) = Some spec → view a' = put_pdb (eg_key eg) x (view a) →
  create_or_update (new_pdb (eg_key eg)) id accepts_pdb (λ y x, ∃ t, x = created_pdb t y)
    (mutate_pdb SetControllerReference eg spec) (cl_pdb (view a) !! eg_key eg) x → careful a a'.
Proof.
  intros Hspec Hv Hx [Hwf (Hd & Hs & Hp)]. unfold workable, not_deleting. rewrite Hv.
  destruct (pdb_step eg spec (cl_pdb (view a) !! eg_key eg) x) with (2 := Hx) as [_ Hdx Hc _ _ _].
  { intros d Hl. split; [by apply Hp|by eapply wf_pdb]. }
  split_and!; [|done|done|cbn; rewrite lookup_insert_eq; by intros d [= <-]|done| |].
  - destruct Hwf. constructor; try done. cbn. intros n y [[<- <-]|[_ ?]]%lookup_insert_Some; eauto.
  - constructor; try done; cbn; [|by left]. intros n [Hn|Hn]; [by rewrite lookup_insert_ne|congruence].
  - intros p Href Hl. exfalso. rewrite Hl in Hx. destruct Hx as (y & Hy & Hcase).
    destruct (Href spec y Hspec Hy) as [Hne Hacc]. destruct Hcase as [[-> _]|(_ & Ha & _)]; [by apply Hne|by apply Hacc].
Qed.

(** ** The steps of the reconciler *)

Lemma sa_careful : preserves careful (reconcileServiceAccount eg).
Proof.
  intros a. unfold reconcileServiceAccount, mbind, M_bind, try, ask.
  destruct (api_GetSA _ a) as [x|e]; [by apply careful_same|]. destruct (IsNotFound e); [|by apply careful_same].
  destruct (api_CreateSA _ a) as [[[]|e'] a'] eqn:Hc.
  - apply CreateSA_view in Hc. exact (careful_sa _ _ _ Hc).
  - apply CreateSA_err in Hc as [Hc|Hc]; [by apply careful_same|exact (careful_sa _ _ _ Hc)].
Qed.

Lemma cr_careful : preserves careful (reconcileCR (A:=A)).
Proof.
  intros a. unfold reconcileCR, mbind, M_bind, try, ask.
  destruct (api_GetCR _ a) as [x|e]; [by apply careful_same|]. destruct (IsNotFound e); [|by apply careful_same].
  destruct (api_CreateCR _ a) as [[[]|e'] a'] eqn:Hc.
  - apply CreateCR_view in Hc. exact (careful_cr _ _ _ Hc).
  - apply CreateCR_err in Hc as [Hc|Hc]; [by apply careful_same|exact (careful_cr _ _ _ Hc)].
Qed.

(** The patch of a binding that is in the store. *)
Lemma patch_careful crb subjects a :
  crb_Name crb = egressCRBName → cl_crb (view a) !! egressCRBName = Some crb →
  careful a (api_PatchCRB crb (mkCRB (crb_Name crb) (crb_RoleRef crb) subjects) a).2.
Proof.
  intros Hn Hin. destruct (api_PatchCRB _ _ a) as [[[]|e] a'] eqn:Hc.
  - apply PatchCRB_view in Hc; [|done|by rewrite Hn]. rewrite Hn in Hc. by eapply careful_crb; [|exact Hc].
  - apply PatchCRB_err in Hc; [|done|by rewrite Hn]. rewrite Hn in Hc.
    destruct Hc as [Hc|Hc]; [by apply careful_same|by eapply careful_crb; [|exact Hc]].
Qed.

(** The first half of [reconcileCRB]: a binding that is in the store. *)
Definition crb_get : M A CRB :=
  res ← try (ask (api_GetCRB egressCRBName));
  match res with
  | Ok crb => mret crb
  | Err err =>
      if IsNotFound err then
        wrap (Errorf "failed to create CRB resource: ")
          (api_CreateCRB (mkCRB egressCRBName
             (mkRoleRef "rbac.authorization.k8s.io" "ClusterRole" egressCRName) []))
      else throw (Errorf "unable to get CRB: " err)
  end.

Definition crb_set (crb : CRB) : M A unit :=
  egresses ← wrap (Errorf "unable to list Egress: ") (ask api_ListEgress);
  wrap (Errorf "failed to patch crb: ")
    (api_PatchCRB crb (mkCRB (crb_Name crb) (crb_RoleRef crb) (crb_subjects (getNamespaces range_ns egresses)))).

Lemma crb_split a : reconcileCRB range_ns a = (crb_get ≫= crb_set) a.
Proof. unfold reconcileCRB, crb_get, mbind, M_bind, try, ask. by destruct (api_GetCRB egressCRBName a). Qed.

Lemma crb_get_careful a res a1 :
  cluster_wf (view a) → crb_get a = (res, a1) →
  careful a a1 ∧ ∀ crb, res = Ok crb → crb_Name crb = egressCRBName ∧ cl_crb (view a1) !! egressCRBName = Some crb.
Proof.
  intros Hwf. unfold crb_get, mbind, M_bind, try, ask, wrap. pose proof (GetCRB_view egressCRBName a) as Hg.
  destruct (api_GetCRB egressCRBName a) as [x|e].
  - intros [= <- <-]. split; [by apply careful_same|]. intros crb [= <-]. split; [by eapply wf_crb|done].
  - destruct (IsNotFound e); [|intros [= <- <-]; by split; [apply careful_same|]].
    destruct (api_CreateCRB _ a) as [[y|e'] a'] eqn:Hc; intros [= <- <-].
    + apply CreateCRB_view in Hc as [-> Hv]. split; [by eapply careful_crb; [|exact Hv]|].
      intros crb [= <-]. split; [done|]. rewrite Hv. cbn. by rewrite lookup_insert_eq.
    + split; [|done]. apply CreateCRB_err in Hc as [Hc|Hc]; [by apply careful_same|]. by eapply careful_crb; [|exact Hc].
Qed.

Lemma crb_careful : preserves careful (reconcileCRB range_ns).
Proof.
  intros a Hw. rewrite crb_split. unfold mbind, M_bind.
  destruct (crb_get a) as [res a1] eqn:Hg. destruct (crb_get_careful a res a1 (proj1 Hw) Hg) as [Hc Hin].
  revert Hw. change (careful a (match res with Ok x => crb_set x a1 | Err e => (Err e, a1) end).2).
  destruct res as [crb|e]; [|done]. etrans; [exact Hc|]. destruct (Hin crb eq_refl) as [Hn Hl].
  unfold crb_set, mbind, M_bind, ask, wrap. destruct (api_ListEgress a1) as [l|e]; [|by apply careful_same].
  pose proof (patch_careful crb (crb_subjects (getNamespaces range_ns l)) a1 Hn Hl) as Hp.
  by destruct (api_PatchCRB crb _ a1) as [[[]|e] a2].
Qed.

Lemma dep_careful r : preserves careful (reconcileDeployment r eg).
Proof.
  apply preserves_wrap. intros a. destruct (CreateOrUpdate_Deployment _ _ a) as [[[]|e] a'] eqn:Hc.
  - apply CreateOrUpdate_Deployment_view in Hc as (x & Hv & Hx). by eapply careful_dep.
  - apply CreateOrUpdate_Deployment_err in Hc as [Hc|(x & Hv & Hx)]; [by apply careful_same|by eapply careful_dep].
Qed.

Lemma svc_careful r : preserves careful (reconcileService r eg).
Proof.
  intros a. unfold reconcileService. destruct (CreateOrUpdate_Service _ _ a) as [[[]|e] a'] eqn:Hc.
  - apply CreateOrUpdate_Service_view in Hc as (x & Hv & Hx). by eapply careful_svc.
  - apply CreateOrUpdate_Service_err in Hc as [Hc|(x & Hv & Hx)]; [by apply careful_same|by eapply careful_svc].
Qed.

Lemma pdb_careful : preserves careful (reconcilePDB eg).
Proof.
  unfold reconcilePDB. destruct (PodDisruptionBudget (eg_Spec eg)) as [spec|] eqn:Hspec; [|apply preserves_ret, _].
  apply preserves_wrap. intros a. destruct (CreateOrUpdate_PDB _ _ a) as [[[]|e] a'] eqn:Hc.
  - apply CreateOrUpdate_PDB_view in Hc as (x & Hv & Hx). by eapply careful_pdb.
  - apply CreateOrUpdate_PDB_err in Hc as [Hc|(x & Hv & Hx)]; [by apply careful_same|by eapply careful_pdb].
Qed.

Lemma body_careful r : preserves careful (body range_ns r eg).
Proof.
  unfold body. apply preserves_bind; [apply _|exact sa_careful|intros _].
  apply preserves_bind; [apply _|exact cr_careful|intros _].
  apply preserves_bind; [apply _|exact crb_careful|intros _].
  apply preserves_bind; [apply _|exact (dep_careful r)|intros _].
  apply preserves_bind; [apply _|exact (svc_careful r)|intros _]. exact pdb_careful.
Qed.
End faults.

(** ** Any number of attempts *)

Section attempts.
Context {A : Type} {AP : API A} {DF : Admission} {AL : APILaws A} {AF : APIFaults A}.
Context (range_ns : gset string → list string) (range_perm : ∀ s, range_ns s ≡ₚ elements s).

Definition with_status (eg : Egress) (st : EgressStatus) : Egress := mkEgress (eg_meta eg) (eg_Spec eg) st.

(** The contract and the frame do not look at the status. *)
Lemma frame_with_status eg st c c' : frame_of (with_status eg st) c c' → frame_of eg c c'.
Proof. intros []. by constructor. Qed.

Lemma realised_with_status r eg st c : realised r (with_status eg st) c → realised r eg c.
Proof. intros []. by constructor. Qed.

(** One reconciliation, with whatever outcome, by whatever reconciler. *)
Definition attempt (n : NamespacedName) : relation A := λ a a',
  ∃ r res, EgressReconcile range_ns r n a = (res, a').

(** What every attempt for an egress leaves true. *)
Definition attempted (eg : Egress) (c : Cluster) : Prop :=
  workable eg c ∧ ∃ st, cl_egress c !! eg_key eg = Some (with_status eg st).

Lemma workable_status eg c c' : workable eg c → same_but_status eg c c' → workable eg c'.
Proof.
  intros [Hwf Hnd] Hs. split; [by eapply wf_status|]. by destruct Hs as [->|[st ->]].
Qed.

Lemma attempt_keeps eg a a' :
  attempted eg (view a) → attempt (eg_key eg) a a' →
  attempted eg (view a') ∧ frame_of eg (view a) (view a') ∧
  ∀ p, (∀ st, refused_pdb (with_status eg st) p) → cl_pdb (view a) !! eg_key eg = Some p →
    cl_pdb (view a') !! eg_key eg = Some p.
Proof.
  intros [Hw [st He]] (r & res & Hr). rewrite EgressReconcile_eq in Hr.
  assert (a' = a → attempted eg (view a') ∧ frame_of eg (view a) (view a') ∧
    ∀ p, (∀ st, refused_pdb (with_status eg st) p) → cl_pdb (view a) !! eg_key eg = Some p →
      cl_pdb (view a') !! eg_key eg = Some p) as Hsame.
  { intros ->. split_and!; [|apply frame_refl|done]. split; [done|]. by exists st. }
  pose proof (GetEgress_view (eg_key eg) a) as Hg.
  destruct (api_GetEgress (eg_key eg) a) as [x|e]; [|apply Hsame; by injection Hr].
  rewrite He in Hg. injection Hg as <-. case_decide; [apply Hsame; by injection Hr|].
  set (eg' := with_status eg st) in *. fold (body range_ns r eg') in Hr. unfold with_deferred in Hr.
  pose proof (body_careful range_ns eg' r a Hw) as (Hw1 & He1 & Hf1 & Hp1).
  destruct (body range_ns r eg' a) as [res1 a1]. simpl in Hw1, He1, Hf1, Hp1.
  assert (cl_egress (view a1) !! eg_key eg' = Some eg') as He2 by (by rewrite He1).
  pose proof (status_view eg' a1 He2) as Hs. destruct (updateStatus eg' a1) as [res2 a2]. injection Hr as _ <-.
  simpl in Hs. split; [split|split].
  - exact (workable_status eg' _ _ Hw1 Hs).
  - destruct Hs as [->|[st2 ->]]; [by exists st|]. exists st2. cbn. apply lookup_insert_eq.
  - apply (frame_with_status eg st). by eapply frame_status.
  - intros p Href Hp. pose proof (Hp1 p (Href st) Hp) as Hpl. by destruct Hs as [->|[st2 ->]].
Qed.

Lemma attempts_keep eg a b :
  attempted eg (view a) → rtc (attempt (eg_key eg)) a b →
  attempted eg (view b) ∧ frame_of eg (view a) (view b) ∧
  ∀ p, (∀ st, refused_pdb (with_status eg st) p) → cl_pdb (view a) !! eg_key eg = Some p →
    cl_pdb (view b) !! eg_key eg = Some p.
Proof.
  intros Ha Hr. induction Hr as [a|a b c Hab _ IH]; [split_and!; [done|apply frame_refl|done]|].
  destruct (attempt_keeps eg a b Ha Hab) as (Hb & F1 & P1). destruct (IH Hb) as (Hc & F2 & P2).
  split_and!; [done|by eapply frame_trans|eauto].
Qed.

(** C9: recovery.  However many reconciliations of an egress have failed, each
    after any of its calls and with any of its writes lost, refused or done
    without the answer arriving, by this version of the controller or another:
    the first one that succeeds establishes the whole contract, and nothing
    in the store but the objects of the egress has changed since the first.
    Neither the egress nor an object of it is being deleted, and the reads
    that succeed are of the store as it is. *)
Theorem egress_faults_recover r n eg (a b c : A) :
  cluster_wf (view a) → cl_egress (view a) !! n = Some eg → m_DeletionTimestamp (eg_meta eg) = None →
  not_deleting n (view a) → rtc (attempt n) a b → EgressReconcile range_ns r n b = (Ok tt, c) →
  realised r eg (view c) ∧ frame_of eg (view a) (view c) ∧ cluster_wf (view c).
Proof.
  intros Hwf Hn Hd Hnd Hab Hbc. pose proof (wf_egress _ Hwf n eg Hn) as Hk. subst n.
  assert (attempted eg (view a)) as Ha.
  { split; [done|]. exists (eg_Status eg). by destruct eg. }
  destruct (attempts_keep eg a b Ha Hab) as (([Hwfb Hndb] & st & Heb) & Hfab & _).
  destruct (reconcile_contract range_ns range_perm r (eg_key eg) (with_status eg st) b c Hwfb Heb Hd Hndb Hbc)
    as (Hre & Hf & Hwfc).
  split_and!; [by eapply realised_with_status| |done].
  eapply frame_trans; [done|]. by eapply frame_with_status.
Qed.

(** ** A change that is never accepted *)

(** A budget that would get both limits. *)
Lemma both_limits_refused eg spec p :
  PodDisruptionBudget (eg_Spec eg) = Some spec → m_DeletionTimestamp (pdb_meta p) = None →
  is_Some (pdb_MinAvailable p) → pdb_MaxUnavailable p = None → is_Some (MaxUnavailable spec) → refused_pdb eg p.
Proof.
  intros Hspec Hd [mn Hmn] Hmx [mx Hx] spec' y Hs' Hy. assert (spec' = spec) as -> by congruence.
  unfold mutate_pdb in Hy. rewrite Hd in Hy. unfold mbind, result_bind in Hy.
  destruct (mutate_meta _ eg (pdb_meta p)) as [m|]; [|done]. injection Hy as Hy.
  assert (pdb_MaxUnavailable y = Some mx) as Hymx by (by rewrite <- Hy; cbn; rewrite Hx).
  assert (is_Some (pdb_MinAvailable y)) as Hymn by (rewrite <- Hy; cbn; rewrite Hmn; by destruct (MinAvailable spec)).
  split; [intros ->; congruence|]. intros Ha.
  assert (Some p = Some y) as [= ->] by (apply (accepts_pdb_limits _ _ Ha); [done|by rewrite Hymx]). congruence.
Qed.

(** C38: a disruption budget cannot be changed from a minimum to a maximum.
    If an egress asks for a maximum while its budget in the store has a minimum
    and no maximum (neither being deleted), then every reconciliation of it
    fails, after any number of attempts with any faults and by any version of
    the controller: the controller does not clear the minimum, and of an
    object with both limits the server refuses the update.  The budget stays
    as it is. *)
Theorem egress_pdb_stuck n eg spec p (a b : A) :
  cluster_wf (view a) → cl_egress (view a) !! n = Some eg → m_DeletionTimestamp (eg_meta eg) = None →
  not_deleting n (view a) → PodDisruptionBudget (eg_Spec eg) = Some spec → is_Some (MaxUnavailable spec) →
  cl_pdb (view a) !! n = Some p → is_Some (pdb_MinAvailable p) → pdb_MaxUnavailable p = None →
  rtc (attempt n) a b →
  (∀ r, is_ok (EgressReconcile range_ns r n b).1 = false) ∧ cl_pdb (view b) !! n = Some p.
Proof.
  intros Hwf Hn Hd Hnd Hspec Hmx Hp Hmn Hno Hab. pose proof (wf_egress _ Hwf n eg Hn) as Hk. subst n.
  assert (attempted eg (view a)) as Ha.
  { split; [done|]. exists (eg_Status eg). by destruct eg. }
  assert (∀ st, refused_pdb (with_status eg st) p) as Href.
  { intros st. eapply both_limits_refused; try done. by apply Hnd. }
  destruct (attempts_keep eg a b Ha Hab) as (([Hwfb Hndb] & st & Heb) & _ & Hpb).
  specialize (Hpb p Href Hp). split; [|done]. intros r.
  destruct (EgressReconcile range_ns r (eg_key eg) b) as [[[]|e] c] eqn:Hbc; [exfalso|done].
  destruct (reconcile_outcome range_ns _ _ _ _ _ Hwfb Heb Hd Hbc) as (b1 & crb & d & s & x & Hpa & _ & _).
  pose proof (pa_pdb_ok _ _ _ _ _ _ _ _ _ Hpa spec Hspec) as Hx.
  change (eg_key (with_status eg st)) with (eg_key eg) in Hx. rewrite Hpb in Hx.
  destruct Hx as (y & Hy & Hcase). destruct (Href st spec y Hspec Hy) as [Hne Hacc].
  destruct Hcase as [[-> _]|(_ & Hax & _)]; [by apply Hne|by apply Hacc].
Qed.
End attempts.

(** ** A server that fails as a schedule says *)

Inductive Fault := Fine | Refused | AnswerLost.

Record FlakyStore := mkFlakyStore { fl_schedule : list Fault; fl_cluster : Cluster }.

Definition unavailable : goerror := ErrLib "http" "service unavailable".

(** A write: it takes the next entry of the schedule. *)
Definition flaky {X} (m : M Cluster X) : M FlakyStore X := λ s,
  match fl_schedule s with
  | Refused :: fs => (Err unavailable, mkFlakyStore fs (fl_cluster s))
  | AnswerLost :: fs => (Err unavailable, mkFlakyStore fs (m (fl_cluster s)).2)
  | _ => let '(x, c) := m (fl_cluster s) in (x, mkFlakyStore (tail (fl_schedule s)) c)
  end.

Lemma flaky_ok {X} (m : M Cluster X) s x s' :
  flaky m s = (Ok x, s') → m (fl_cluster s) = (Ok x, fl_cluster s').
Proof.
  unfold flaky. destruct (fl_schedule s) as [|[] fs]; [|..|done|done];
    destruct (m (fl_cluster s)) as [y c]; by intros [= -> <-].
Qed.

Lemma flaky_state {X} (m : M Cluster X) s :
  fl_cluster (flaky m s).2 = fl_cluster s ∨ fl_cluster (flaky m s).2 = (m (fl_cluster s)).2.
Proof.
  unfold flaky. destruct (fl_schedule s) as [|[] fs]; simpl; auto; destruct (m (fl_cluster s)); auto.
Qed.

(** A failed write that would have succeeded may have happened. *)
Lemma flaky_err {X} (m : M Cluster X) s e s' :
  flaky m s = (Err e, s') →
  fl_cluster s' = fl_cluster s ∨ ∃ r, m (fl_cluster s) = (r, fl_cluster s').
Proof.
  intros H. pose proof (flaky_state m s) as Hs. rewrite H in Hs. simpl in Hs. destruct Hs as [?|Hs]; [by left|].
  right. exists (m (fl_cluster s)).1. rewrite Hs. by destruct (m (fl_cluster s)).
Qed.

#[export] Instance flaky_api : API FlakyStore := {|
  api_GetEgress n s := api_GetEgress n (fl_cluster s);
  api_ListEgress s := api_ListEgress (fl_cluster s);
  api_StatusUpdate eg := flaky (api_StatusUpdate eg);
  api_GetSA n s := api_GetSA n (fl_cluster s);
  api_CreateSA x := flaky (api_CreateSA x);
  api_GetCR n s := api_GetCR n (fl_cluster s);
  api_CreateCR x := flaky (api_CreateCR x);
  api_GetCRB n s := api_GetCRB n (fl_cluster s);
  api_CreateCRB x := flaky (api_CreateCRB x);
  api_PatchCRB old new := flaky (api_PatchCRB old new);
  api_GetDeployment n s := api_GetDeployment n (fl_cluster s);
  CreateOrUpdate_Deployment n f := flaky (CreateOrUpdate_Deployment n f);
  CreateOrUpdate_Service n f := flaky (CreateOrUpdate_Service n f);
  CreateOrUpdate_PDB n f := flaky (CreateOrUpdate_PDB n f);
  SetControllerReference := store_ref;
  LabelSelectorAsSelector := LabelSelectorAsSelector (A:=Cluster);
|}.

#[export] Instance flaky_laws : APILaws FlakyStore.
Proof.
  refine {| view s := fl_cluster s |}.
  - intros n a. exact (GetEgress_view n (fl_cluster a)).
  - intros n a. exact (GetSA_view n (fl_cluster a)).
  - intros n a. exact (GetCR_view n (fl_cluster a)).
  - intros n a. exact (GetCRB_view n (fl_cluster a)).
  - intros n a d. exact (GetDeployment_view n (fl_cluster a) d).
  - intros a l. exact (ListEgress_view (fl_cluster a) l).
  - intros x a a' Hc%flaky_ok. exact (CreateSA_view x _ _ Hc).
  - intros x a a' Hc%flaky_ok. exact (CreateCR_view x _ _ Hc).
  - intros x a y a' Hc%flaky_ok. exact (CreateCRB_view x _ _ _ Hc).
  - intros old new a a' Hc%flaky_ok. exact (PatchCRB_view old new _ _ Hc).
  - intros n f a a' Hc%flaky_ok. exact (CreateOrUpdate_Deployment_view n f _ _ Hc).
  - intros n f a a' Hc%flaky_ok. exact (CreateOrUpdate_Service_view n f _ _ Hc).
  - intros n f a a' Hc%flaky_ok. exact (CreateOrUpdate_PDB_view n f _ _ Hc).
  - intros eg a old Hold. destruct (flaky_state (api_StatusUpdate eg) a) as [Hs|Hs]; [left; exact Hs|].
    pose proof (StatusUpdate_view (A:=Cluster) eg (fl_cluster a) old) as Hv.
    destruct (Hv Hold) as [Hv'|Hv']; [left|right]; (etrans; [exact Hs|exact Hv']).
  - intros eg m m'. exact (SetControllerReference_meta (A:=Cluster) eg m m').
Defined.

#[export] Instance flaky_faults : APIFaults FlakyStore.
Proof.
  split.
  - intros x a e a' [?|[[[]|e'] Hr]]%flaky_err; [by left|right; exact (CreateSA_view x _ _ Hr)|].
    left. revert Hr. simpl. match goal with |- context [store_create ?ok ?old ?put ?c] =>
      destruct (store_create_cases ok old put c) as [(_ & _ & ->)|(? & _ & ->)]; [done|by intros [= _ <-]] end.
  - intros x a e a' [?|[[[]|e'] Hr]]%flaky_err; [by left|right; exact (CreateCR_view x _ _ Hr)|].
    left. revert Hr. simpl. match goal with |- context [store_create ?ok ?old ?put ?c] =>
      destruct (store_create_cases ok old put c) as [(_ & _ & ->)|(? & _ & ->)]; [done|by intros [= _ <-]] end.
  - intros x a e a' [?|[[y|e'] Hr]]%flaky_err; [by left|right; exact (proj2 (CreateCRB_view x _ y _ Hr))|].
    left. revert Hr. simpl. unfold mbind, M_bind. match goal with |- context [store_create ?ok ?old ?put ?c] =>
      destruct (store_create_cases ok old put c) as [(_ & _ & ->)|(? & _ & ->)]; [done|by intros [= _ <-]] end.
  - intros old new a e a' [?|[r Hr]]%flaky_err Hn Hl; [by left|]. change (cl_crb (fl_cluster a) !! crb_Name old = Some old) in Hl.
    revert Hr. simpl. rewrite Hl. destruct (valid_crb (Some old) new); intros [= _ <-]; [by right|by left].
  - intros n f a e a' [?|[[[]|e'] Hr]]%flaky_err; [by left|right|left; exact (store_update_err _ _ _ _ _ _ _ _ _ _ Hr)].
    exact (CreateOrUpdate_Deployment_view n f _ _ Hr).
  - intros n f a e a' [?|[[[]|e'] Hr]]%flaky_err; [by left|right|left; exact (store_update_err _ _ _ _ _ _ _ _ _ _ Hr)].
    exact (CreateOrUpdate_Service_view n f _ _ Hr).
  - intros n f a e a' [?|[[[]|e'] Hr]]%flaky_err; [by left|right|left; exact (store_update_err _ _ _ _ _ _ _ _ _ _ Hr)].
    exact (CreateOrUpdate_PDB_view n f _ _ Hr).
Qed.

(** ** Witness *)

(** The answer to the second write is lost, later the first write after two
    that go through is refused, then all is well. *)
Definition ex_flaky : FlakyStore := mkFlakyStore [Fine; AnswerLost; Fine; Fine; Fine; Refused] ex_store.
Definition ex_key : NamespacedName := mkNamespacedName "internet" "a".
Definition ex_try : FlakyStore → FlakyStore := λ s, (EgressReconcile elements ex_r ex_key s).2.

Lemma egress_faults_recover_witness :
  is_ok (EgressReconcile elements ex_r ex_key ex_flaky).1 = false ∧
  is_ok (EgressReconcile elements ex_r ex_key (ex_try ex_flaky)).1 = false ∧
  realised ex_r (ex_eg "a" "internet" ex_pdb_spec) (view (ex_try (ex_try (ex_try ex_flaky)))).
Proof.
  split; [vm_compute; reflexivity|]. split; [vm_compute; reflexivity|].
  eapply (egress_faults_recover elements (λ s, reflexivity _) ex_r ex_key (ex_eg "a" "internet" ex_pdb_spec)
    ex_flaky (ex_try (ex_try ex_flaky)));
    [exact ex_store_wf|reflexivity|reflexivity|by split_and!| |vm_compute; reflexivity].
  assert (∀ s, attempt elements ex_key s (ex_try s)) as Hstep.
  { intros s. exists ex_r, (EgressReconcile elements ex_r ex_key s).1. unfold ex_try.
    by destruct (EgressReconcile elements ex_r ex_key s). }
  eapply rtc_l; [apply Hstep|]. apply rtc_once, Hstep.
Defined.

(** An egress that asked for a minimum and now asks for a maximum; the budget
    is as the controller made it. *)
Definition ex_min_eg : Egress :=
  ex_eg "a" "internet" (mkEgressSpec ["0.0.0.0/0"] 2 None None "ClientIP" None (Some (mkEgressPDBSpec (Some (IntVal 1)) None))).
Definition ex_min_pdb : PDB :=
  default (new_pdb ex_key) (cl_pdb (EgressReconcile elements ex_r ex_key
    (mkCluster {[ ex_key := ex_min_eg ]} ∅ ∅ ∅ ∅ ∅ ∅)).2 !! ex_key).
Definition ex_max_store : FlakyStore :=
  mkFlakyStore [] (mkCluster {[ ex_key := ex_eg "a" "internet" ex_pdb_spec ]} ∅ ∅ ∅ ∅ ∅ {[ ex_key := ex_min_pdb ]}).

Lemma ex_max_pdb n p : cl_pdb (fl_cluster ex_max_store) !! n = Some p → p = ex_min_pdb.
Proof.
  intros Hp. change (({[ ex_key := ex_min_pdb ]} : gmap NamespacedName PDB) !! n = Some p) in Hp. by apply lookup_singleton_Some in Hp as [_ <-].
Qed.

Lemma ex_max_wf : cluster_wf (fl_cluster ex_max_store).
Proof.
  constructor.
  - intros n x Hx. change (({[ ex_key := ex_eg "a" "internet" ex_pdb_spec ]} : gmap NamespacedName Egress) !! n = Some x) in Hx.
    by apply lookup_singleton_Some in Hx as [<- <-].
  - intros n x Hx. change ((∅ : gmap string CRB) !! n = Some x) in Hx. by rewrite lookup_empty in Hx.
  - intros n x Hx. change ((∅ : gmap NamespacedName Deployment) !! n = Some x) in Hx. by rewrite lookup_empty in Hx.
  - intros n x Hx. change ((∅ : gmap NamespacedName Service) !! n = Some x) in Hx. by rewrite lookup_empty in Hx.
  - intros n p Hp. rewrite (ex_max_pdb n p Hp). vm_compute. discriminate.
Qed.

Lemma egress_pdb_stuck_witness :
  pdb_MinAvailable ex_min_pdb = Some (IntVal 1) ∧
  is_ok (EgressReconcile elements ex_r ex_key (ex_try (ex_try ex_max_store))).1 = false ∧
  cl_pdb (view (ex_try (ex_try ex_max_store))) !! ex_key = Some ex_min_pdb.
Proof.
  split; [vm_compute; reflexivity|].
  assert (∀ s, attempt elements ex_key s (ex_try s)) as Hstep.
  { intros s. exists ex_r, (EgressReconcile elements ex_r ex_key s).1. unfold ex_try.
    by destruct (EgressReconcile elements ex_r ex_key s). }
  destruct (egress_pdb_stuck elements ex_key (ex_eg "a" "internet" ex_pdb_spec)
    (mkEgressPDBSpec None (Some (IntVal 1))) ex_min_pdb ex_max_store (ex_try (ex_try ex_max_store)))
    as [Hfail Hpdb]; [|reflexivity|reflexivity| |reflexivity|by eexists|vm_compute; reflexivity|
      by eexists; vm_compute|vm_compute; reflexivity| |split; [apply Hfail|exact Hpdb]].
  - exact ex_max_wf.
  - split; [intros d Hd; change ((∅ : gmap NamespacedName Deployment) !! ex_key = Some d) in Hd; by rewrite lookup_empty in Hd|].
    split; [intros d Hd; change ((∅ : gmap NamespacedName Service) !! ex_key = Some d) in Hd; by rewrite lookup_empty in Hd|].
    intros p Hp. rewrite (ex_max_pdb ex_key p Hp). vm_compute. reflexivity.
  - eapply rtc_l; [apply Hstep|]. apply rtc_once, Hstep.
Defined.
