(* ===== verification/EgressQueue.v ===== *)
(** * The egress controller's work queue

    controller-runtime calls [Reconcile] for the keys in a queue, one at a
    time, and the changes a call makes to the store put keys into the queue
    again (the controller watches egresses and what they own).  Here that loop
    is a step relation, and it is shown to come to rest. *)
From Stdlib Require Import Ascii String.
From stdpp Require Import functions.
From S2P Require Import Prelude GoStrings PodWatcher EgressAPI EgressController EgressCluster.

(** ** Ranks

    How many more of its calls may change the store, for each key. *)

Lemma sum_list_with_le {A} (f g : A → nat) l :
  (∀ x, x ∈ l → f x ≤ g x) → sum_list_with f l ≤ sum_list_with g l.
Proof.
  induction l as [|x l IH]; intros Hle; simpl; [done|].
  pose proof (Hle x (list_elem_of_here _ _)). assert (sum_list_with f l ≤ sum_list_with g l); [|lia].
  apply IH. intros y Hy. by apply Hle, list_elem_of_further.
Qed.

Lemma sum_list_with_lt {A} (f g : A → nat) l x :
  (∀ y, y ∈ l → f y ≤ g y) → x ∈ l → f x < g x → sum_list_with f l < sum_list_with g l.
Proof.
  intros Hle [l1 [l2 ->]]%list_elem_of_split Hlt. rewrite !sum_list_with_app. simpl.
  assert (sum_list_with f l1 ≤ sum_list_with g l1) by (apply sum_list_with_le; set_solver).
  assert (sum_list_with f l2 ≤ sum_list_with g l2) by (apply sum_list_with_le; set_solver). lia.
Qed.

Definition total (D : gset NamespacedName) (f : NamespacedName → nat) : nat := sum_list_with f (elements D).

Lemma total_lower D (f : NamespacedName → nat) n k :
  n ∈ D → k < f n → total D (<[n := k]> f) < total D f.
Proof.
  intros Hn Hk. eapply (sum_list_with_lt _ _ _ n); [|by apply elem_of_elements|by rewrite fn_lookup_insert].
  intros m _. destruct (decide (m = n)) as [->|Hne]; [rewrite fn_lookup_insert|rewrite fn_lookup_insert_ne by done]; lia.
Qed.

Section queue.
Context {A : Type} {AP : API A} {DF : Admission} {AL : APILaws A} {UP : APIUp A}.
Context (range_ns : gset string → list string) (range_perm : ∀ s, range_ns s ≡ₚ elements s).
Context (r : EgressReconciler).

(** ** The loop

    One call takes a key from the queue.  If it changed nothing, nothing is
    put into the queue; if it changed something, any keys may be.  The key of
    a call that failed is put back, and any others may be too. *)
Inductive work : relation (gset NamespacedName * A) :=
| work_call Q Q' n a a' :
    n ∈ Q → EgressReconcile range_ns r n a = (Ok tt, a') →
    Q ∖ {[n]} ⊆ Q' → (view a' = view a → Q' = Q ∖ {[n]}) → work (Q, a) (Q', a')
| work_fail Q Q' n a e a' :
    n ∈ Q → EgressReconcile range_ns r n a = (Err e, a') → Q ⊆ Q' → work (Q, a) (Q', a').

(** The status of an egress is that of its deployment. *)
Definition status_current (eg : Egress) (c : Cluster) : Prop :=
  ∀ d sel, cl_dep c !! eg_key eg = Some d → LabelSelectorAsSelector (dep_Selector d) = Ok sel →
    eg_Status eg = mkEgressStatus (dep_AvailableReplicas d) sel.

(** ** One call *)

Lemma status_run eg a :
  cl_egress (view a) !! eg_key eg = Some eg →
  (view (updateStatus eg a).2 = view a) ∨
  ∃ eg', view (updateStatus eg a).2 = put_egress (eg_key eg) eg' (view a) ∧
    eg_meta eg' = eg_meta eg ∧ eg_Spec eg' = eg_Spec eg ∧ eg_Status eg ≠ eg_Status eg' ∧ status_current eg' (view a).
Proof.
  intros Heg. unfold updateStatus, mbind, M_bind, wrap, ask, lift.
  destruct (api_GetDeployment (eg_key eg) a) as [dep|e] eqn:Hd; [|by left].
  destruct (LabelSelectorAsSelector (dep_Selector dep)) as [sel|e] eqn:Hs; [|by left].
  case_decide as Hst; [by left|].
  set (eg' := mkEgress (eg_meta eg) (eg_Spec eg) (mkEgressStatus (dep_AvailableReplicas dep) sel)).
  destruct (StatusUpdate_view eg' a eg Heg) as [Hv|Hv]; [by left|right].
  exists eg'. split_and!; [exact Hv|done|done| |].
  - intros Heq. apply Hst. by rewrite Heq.
  - intros d x Hx Hsel. apply GetDeployment_view in Hd. change (eg_key eg') with (eg_key eg) in Hx.
    assert (d = dep) as -> by congruence. by assert (x = sel) as -> by congruence.
Qed.

Lemma status_quiet eg a :
  cl_egress (view a) !! eg_key eg = Some eg → status_current eg (view a) → view (updateStatus eg a).2 = view a.
Proof.
  intros Heg Hc. unfold updateStatus, mbind, M_bind, wrap, ask, lift.
  destruct (api_GetDeployment (eg_key eg) a) as [dep|e] eqn:Hd; [|done].
  destruct (LabelSelectorAsSelector (dep_Selector dep)) as [sel|e] eqn:Hs; [|done].
  rewrite decide_True; [done|]. apply GetDeployment_view in Hd. by rewrite (Hc _ _ Hd Hs).
Qed.

(** What is asked of the store: it is well formed, no egress, nor an object of
    one, is being deleted, and what the controller makes of the egresses would
    be accepted. *)
Record fine (c : Cluster) : Prop := mkFine {
  fi_wf : cluster_wf c;
  fi_live n eg : cl_egress c !! n = Some eg → m_DeletionTimestamp (eg_meta eg) = None ∧ not_deleting n c;
  fi_accept n eg : cl_egress c !! n = Some eg → acceptable range_ns r eg c;
}.

Lemma realised_same eg eg' c :
  eg_meta eg' = eg_meta eg → eg_Spec eg' = eg_Spec eg → realised r eg c → realised r eg' c.
Proof.
  destruct eg as [m sp st], eg' as [m' sp' st']. cbn. intros -> -> [H1 H2 H3 H4 H5 H6]. constructor; assumption.
Qed.

Lemma frame_same eg eg' c c' :
  eg_meta eg' = eg_meta eg → eg_Spec eg' = eg_Spec eg → frame_of eg c c' → frame_of eg' c c'.
Proof.
  destruct eg as [m sp st], eg' as [m' sp' st']. cbn. intros -> -> [H1 H2 H3 H4 H5 H6 H7]. constructor; assumption.
Qed.

(** One call for an egress that is there: from then on it has settled but for
    its status, and its contract holds. *)
Lemma call_settles n eg a a' :
  fine (view a) → cl_egress (view a) !! n = Some eg → EgressReconcile range_ns r n a = (Ok tt, a') →
  fine (view a') ∧ frame_of eg (view a) (view a') ∧
  ∃ eg', cl_egress (view a') !! n = Some eg' ∧ eg_meta eg' = eg_meta eg ∧ eg_Spec eg' = eg_Spec eg ∧
    steady range_ns r eg' (view a') ∧ realised r eg' (view a').
Proof.
  intros [Hwf Hlive Hacc] He Hr. destruct (Hlive n eg He) as [Hd Hnd]. pose proof (wf_egress _ Hwf n eg He) as Hk.
  destruct (reconcile_contract range_ns range_perm _ _ _ _ _ Hwf He Hd Hnd Hr) as (Hre & Hfr & Hwf').
  destruct (reconcile_outcome range_ns _ _ _ _ _ Hwf He Hd Hr) as (a1 & crb & d & s & p & Hpa & Hs & He1).
  subst n. pose proof (passed_wf _ _ _ _ _ _ _ _ _ Hpa Hwf Hnd) as Hwf1.
  destruct (steady_status range_ns r eg (view a1) (view a') Hwf1 He1 Hs) as (eg' & He' & Hm & Hst);
    [by eapply passed_steady|].
  assert (eg_Spec eg' = eg_Spec eg) as Hspec.
  { destruct Hs as [E|[st E]]; rewrite E in He'; [congruence|]. cbn in He'. rewrite lookup_insert_eq in He'. by injection He' as <-. }
  split_and!; [|done|].
  - constructor; [done|intros n x Hx; destruct (decide (n = eg_key eg)) as [->|Hne]|].
    + rewrite He' in Hx. injection Hx as <-. rewrite Hm. split; [done|].
      pose proof (passed_not_deleting _ _ _ _ _ _ _ _ _ Hpa Hwf Hnd) as Hnd'. by destruct Hs as [->|[st ->]].
    + rewrite (egress_frame _ _ _ _ Hfr Hne) in Hx. destruct (Hlive n x Hx) as [? ?].
      split; [done|]. by eapply not_deleting_frame.
    + intros n x Hx. destruct (decide (n = eg_key eg)) as [->|Hne].
      * assert (x = eg') as -> by congruence. by apply steady_acceptable.
      * rewrite (egress_frame _ _ _ _ Hfr Hne) in Hx. pose proof (wf_egress _ Hwf n x Hx) as Hkx.
        eapply (acceptable_other range_ns range_perm r x eg'); [by eapply Hacc|done|by eapply frame_same|].
        unfold eg_key in *. rewrite Hm. congruence.
  - exists eg'. split_and!; [done..|]. by eapply realised_same.
Qed.

(** Of a call for an egress that had settled, only the status update is left. *)
Lemma steady_body n eg a a' :
  fine (view a) → cl_egress (view a) !! n = Some eg → steady range_ns r eg (view a) →
  EgressReconcile range_ns r n a = (Ok tt, a') →
  ∃ a1, view a1 = view a ∧ eg_key eg = n ∧ a' = (updateStatus eg a1).2.
Proof.
  intros [Hwf Hlive _] He Hst Hr. destruct (Hlive n eg He) as [Hd _].
  destruct (reconcile_body range_ns _ _ _ _ _ He Hd Hr) as (a1 & Hb & ->).
  exists a1. split_and!; [exact (steady_again range_ns range_perm _ _ _ _ Hwf Hst Hb)|by eapply wf_egress|done].
Qed.

(** A call for an egress that had settled changes its status at most, and then
    for good. *)
Lemma call_steady n eg a a' :
  fine (view a) → cl_egress (view a) !! n = Some eg → steady range_ns r eg (view a) →
  EgressReconcile range_ns r n a = (Ok tt, a') →
  (view a' = view a) ∨ ∃ eg', cl_egress (view a') !! n = Some eg' ∧ status_current eg' (view a').
Proof.
  intros Hf He Hst Hr. destruct (steady_body _ _ _ _ Hf He Hst Hr) as (a1 & Hsame & <- & ->). rewrite <- Hsame in He.
  destruct (status_run eg a1 He) as [Hv|(eg' & Hv & Hm & _ & _ & Hc)]; [left; congruence|right].
  exists eg'. rewrite Hv. split; [apply lookup_insert_eq|exact Hc].
Qed.

Lemma call_steady_status n eg a a' :
  fine (view a) → cl_egress (view a) !! n = Some eg → steady range_ns r eg (view a) →
  EgressReconcile range_ns r n a = (Ok tt, a') → same_but_status eg (view a) (view a').
Proof.
  intros Hf He Hst Hr. destruct (steady_body _ _ _ _ Hf He Hst Hr) as (a1 & Hsame & <- & ->). rewrite <- Hsame in He |- *.
  by apply status_view.
Qed.

Lemma call_quiet n eg a a' :
  fine (view a) → cl_egress (view a) !! n = Some eg → steady range_ns r eg (view a) → status_current eg (view a) →
  EgressReconcile range_ns r n a = (Ok tt, a') → view a' = view a.
Proof.
  intros Hf He Hst Hc Hr. destruct (steady_body _ _ _ _ Hf He Hst Hr) as (a1 & Hsame & <- & ->). rewrite <- Hsame in He, Hc.
  by rewrite status_quiet.
Qed.

Lemma call_nothing n a a' :
  cl_egress (view a) !! n = None → EgressReconcile range_ns r n a = (Ok tt, a') → a' = a.
Proof.
  intros Hn. rewrite EgressReconcile_eq. pose proof (GetEgress_view n a) as Hg.
  destruct (api_GetEgress n a) as [x|e]; [congruence|]. destruct (IsNotFound e); [|done]. by intros [= ->].
Qed.

(** Calls for one egress leave the others settled. *)
Lemma steady_other eg eg2 c c' :
  steady range_ns r eg c → steady range_ns r eg2 c' → frame_of eg2 c c' → eg_key eg2 ≠ eg_key eg →
  steady range_ns r eg c'.
Proof.
  intros [H1 _ _ H4 H5 H6] [G1 G2 G3 _ _ _] [F1 _ _ F4 F5 F6 _] Hne. constructor; [|done|done|..].
  - destruct (decide (sa_key eg = sa_key eg2)) as [->|Hsa]; [done|]. by rewrite F1.
  - by rewrite F4.
  - by rewrite F5.
  - intros spec Hspec. rewrite F6 by (by left). by apply H6.
Qed.

Lemma status_other eg eg2 c c' :
  status_current eg c → frame_of eg2 c c' → eg_key eg2 ≠ eg_key eg → status_current eg c'.
Proof. intros Hc [_ _ _ F4 _ _ _] Hne d sel. rewrite F4 by done. apply Hc. Qed.

(** ** The invariant of the loop

    [f n] bounds the calls for [n] that still change the store: none once its
    status is current, one once it has settled. *)

Definition wish (eg : Egress) : ObjectMeta * EgressSpec := (eg_meta eg, eg_Spec eg).

Record ranked (c0 : Cluster) (Q : gset NamespacedName) (f : NamespacedName → nat) (c : Cluster) : Prop := mkRanked {
  rk_fine : fine c;
  rk_wish n : wish <$> cl_egress c !! n = wish <$> cl_egress c0 !! n;
  rk_queue n eg : cl_egress c !! n = Some eg → f n ≤ 1 ∨ n ∈ Q;
  rk_done n eg : cl_egress c !! n = Some eg → f n ≤ 1 → steady range_ns r eg c ∧ realised r eg c;
  rk_quiet n eg : cl_egress c !! n = Some eg → f n = 0 → status_current eg c;
}.

Lemma ranked_same c0 Q f c n :
  ranked c0 Q f c → (∀ eg, cl_egress c !! n = Some eg → f n ≤ 1) → ranked c0 (Q ∖ {[n]}) f c.
Proof.
  intros [H1 H2 H3 H4 H5] Hn. constructor; [done..| |done|done]. intros m eg Hm.
  destruct (decide (m = n)) as [->|Hne]; [left; by eapply Hn|]. destruct (H3 m eg Hm); [by left|right; set_solver].
Qed.

Lemma ranked_call c0 Q Q' f k n eg a a' :
  ranked c0 Q f (view a) → cl_egress (view a) !! n = Some eg → EgressReconcile range_ns r n a = (Ok tt, a') →
  Q ∖ {[n]} ⊆ Q' → k ≤ 1 → (k = 0 → ∀ eg', cl_egress (view a') !! n = Some eg' → status_current eg' (view a')) →
  ranked c0 Q' (<[n := k]> f) (view a').
Proof.
  intros [Hf Hw Hq Hd Hs] He Hr HQ Hk Hk0.
  destruct (call_settles _ _ _ _ Hf He Hr) as (Hf' & Hfr & eg' & He' & Hm & Hsp & Hst & Hre).
  assert (∀ m x, m ≠ n → cl_egress (view a') !! m = Some x →
    cl_egress (view a) !! m = Some x ∧ eg_key eg ≠ eg_key x ∧ eg_key eg' ≠ eg_key x) as Hother.
  { intros m x Hne Hx. pose proof (wf_egress _ (fi_wf _ Hf) n eg He) as Hkn.
    rewrite (egress_frame _ _ _ _ Hfr) in Hx by (by rewrite Hkn).
    pose proof (wf_egress _ (fi_wf _ Hf) m x Hx) as Hkm. unfold eg_key in *. rewrite Hm. split_and!; congruence. }
  constructor; [done|..].
  - intros m. rewrite <- Hw. destruct (decide (m = n)) as [->|Hne].
    + rewrite He, He'. unfold wish. simpl. by rewrite Hm, Hsp.
    + rewrite (egress_frame _ _ _ _ Hfr); [done|]. by rewrite (wf_egress _ (fi_wf _ Hf) n eg He).
  - intros m x Hx. destruct (decide (m = n)) as [->|Hne]; [left; by rewrite fn_lookup_insert|].
    rewrite fn_lookup_insert_ne by done. destruct (Hq m x) as [?|?]; [by apply Hother|by left|right; set_solver].
  - intros m x Hx. destruct (decide (m = n)) as [->|Hne].
    + intros _. rewrite He' in Hx. injection Hx as <-. done.
    + rewrite fn_lookup_insert_ne by done. intros Hfm. destruct (Hother m x Hne Hx) as (Hx0 & Hk1 & Hk2).
      destruct (Hd m x Hx0 Hfm) as [Hs1 Hr1]. split.
      * eapply (steady_other x eg'); [done..| |done]. by eapply frame_same.
      * eapply realised_other; [exact Hr1|exact Hre| |exact Hk2]. by eapply frame_same.
  - intros m x Hx. destruct (decide (m = n)) as [->|Hne].
    + rewrite fn_lookup_insert. intros ->. by apply Hk0.
    + rewrite fn_lookup_insert_ne by done. intros Hfm. destruct (Hother m x Hne Hx) as (Hx0 & Hk1 & _).
      eapply status_other; [by eapply Hs|exact Hfr|exact Hk1].
Qed.

Lemma fine_call n a : fine (view a) → ∃ a', EgressReconcile range_ns r n a = (Ok tt, a').
Proof. intros [Hwf _ Hacc]. apply up_reconcile; [done..|]. intros eg He _. by eapply Hacc. Qed.

(** Every call succeeds, and lowers the ranks or shortens the queue. *)
Lemma work_ranked c0 f Q Q' a a' :
  ranked c0 Q f (view a) → work (Q, a) (Q', a') →
  ∃ f', ranked c0 Q' f' (view a') ∧
    (total (dom (cl_egress c0)) f' < total (dom (cl_egress c0)) f ∨ f' = f ∧ size Q' < size Q).
Proof.
  intros Hrk Hstep. inversion Hstep as [? ? n ? ? Hn Hr HQ Hsame|? ? n ? e ? Hn Hr]; subst;
    [|destruct (fine_call n a (rk_fine _ _ _ _ Hrk)) as [? ?]; congruence].
  assert (size (Q ∖ {[n]}) < size Q) as Hsize by (apply subset_size; set_solver).
  destruct (cl_egress (view a) !! n) as [eg|] eqn:He.
  - assert (n ∈ dom (cl_egress c0)) as Hdom.
    { apply elem_of_dom. pose proof (rk_wish _ _ _ _ Hrk n) as Hw. rewrite He in Hw. by destruct (cl_egress c0 !! n). }
    assert (view a' = view a → f n ≤ 1 → ∃ f', ranked c0 Q' f' (view a') ∧
      (total (dom (cl_egress c0)) f' < total (dom (cl_egress c0)) f ∨ f' = f ∧ size Q' < size Q)) as Hno.
    { intros Hv Hf. exists f. rewrite Hv, (Hsame Hv). split; [|by right]. by apply ranked_same. }
    destruct (le_lt_dec 2 (f n)) as [Hf|Hf].
    + exists (<[n := 1]> f). split; [|left; by apply total_lower]. by eapply ranked_call.
    + destruct (rk_done _ _ _ _ Hrk n eg He) as [Hst _]; [lia|]. pose proof (rk_fine _ _ _ _ Hrk) as Hfi.
      destruct (decide (f n = 0)) as [Hf0|Hf0].
      * apply Hno; [|lia]. eapply call_quiet; [done..|by eapply rk_quiet|done].
      * destruct (call_steady _ _ _ _ Hfi He Hst Hr) as [Hv|(eg' & He' & Hc)]; [apply Hno; [done|lia]|].
        exists (<[n := 0]> f). split; [|left; apply total_lower; [done|lia]].
        eapply ranked_call; [done..|lia|]. intros _ x Hx. by assert (x = eg') as -> by congruence.
  - apply call_nothing in Hr as ->; [|done]. exists f. rewrite (Hsame eq_refl). split; [|by right].
    apply ranked_same; [done|]. congruence.
Qed.

Lemma ranked_init Q a :
  fine (view a) → dom (cl_egress (view a)) ⊆ Q → ranked (view a) Q (λ _, 2) (view a).
Proof.
  intros Hf HQ. constructor; [done..| |by intros; lia|by intros; lia].
  intros n eg Hn. right. apply HQ, elem_of_dom. by eexists.
Qed.

Lemma ranked_acc c0 f Q a : ranked c0 Q f (view a) → sn work (Q, a).
Proof.
  remember (total (dom (cl_egress c0)) f) as k eqn:Hk. revert f Q a Hk.
  induction (Nat.lt_wf_0 k) as [k _ IHk]. intros f Q. remember (size Q) as q eqn:Hq. revert Q Hq.
  induction (Nat.lt_wf_0 q) as [q _ IHq]. intros Q -> a -> Hrk. constructor. intros [Q' a'] Hw.
  destruct (work_ranked _ _ _ _ _ _ Hrk Hw) as (f' & Hrk' & [Hlt|[-> Hlt]]); [by eapply IHk|by eapply IHq].
Qed.

Lemma ranked_rest c0 f Q a s :
  ranked c0 Q f (view a) → rtc work (Q, a) s → ∃ f', ranked c0 s.1 f' (view s.2).
Proof.
  intros Hrk Hs. remember (Q, a) as s0 eqn:Hs0. revert f Q a Hrk Hs0.
  induction Hs as [s|s1 [Q2 a2] s3 Hw _ IH]; intros f Q a Hrk ->; [by exists f|].
  destruct (work_ranked _ _ _ _ _ _ Hrk Hw) as (f' & Hrk' & _). by eapply IH.
Qed.

Lemma work_empties c0 f Q a : ranked c0 Q f (view a) → ∃ c, rtc work (Q, a) (∅, c).
Proof.
  intros Hrk. pose proof (ranked_acc _ _ _ _ Hrk) as Hacc. remember (Q, a) as s eqn:Hs. revert f Q a Hs Hrk.
  induction Hacc as [s _ IH]. intros f Q a -> Hrk. destruct (decide (Q = ∅)) as [->|[n Hn]%set_choose_L].
  - exists a. apply rtc_refl.
  - destruct (fine_call n a (rk_fine _ _ _ _ Hrk)) as [a' Ha'].
    assert (work (Q, a) (Q ∖ {[n]}, a')) as Hw by (by eapply work_call).
    destruct (work_ranked _ _ _ _ _ _ Hrk Hw) as (f' & Hrk' & _).
    destruct (IH _ Hw _ _ _ eq_refl Hrk') as [c Hc]. exists c. by eapply rtc_l.
Qed.

(** C2: the controller comes to rest.  Let its queue hold every egress, as after
    a start, none of them, nor an object of one, being deleted; let the server
    answer, with what is in its store, and accept what the controller makes of
    each egress as the store is now; and let nobody else write.  Then, whatever order
    the keys are taken in and whichever keys a call that changed the store
    puts back, no call fails, the queue runs empty after finitely many calls,
    and it is never stuck before; and then every egress is realised, and one
    more call for any of them changes its status at most (when an update of it
    got lost). *)
Theorem egress_queue_drains (Q : gset NamespacedName) (a : A) :
  fine (view a) → dom (cl_egress (view a)) ⊆ Q →
  sn work (Q, a) ∧
  (∀ Q' b, rtc work (Q, a) (Q', b) →
    (∀ n, is_ok (EgressReconcile range_ns r n b).1 = true) ∧ ∃ c, rtc work (Q', b) (∅, c)) ∧
  ∀ b, rtc work (Q, a) (∅, b) → ∀ n eg, cl_egress (view a) !! n = Some eg →
    realised r eg (view b) ∧ ∀ b', EgressReconcile range_ns r n b = (Ok tt, b') → same_but_status eg (view b) (view b').
Proof.
  intros Hf HQ. pose proof (ranked_init Q a Hf HQ) as Hrk. split_and!.
  - by eapply ranked_acc.
  - intros Q' b Hb. destruct (ranked_rest _ _ _ _ _ Hrk Hb) as (f' & Hrk'). split; [|by eapply work_empties].
    intros n. by destruct (fine_call n b (rk_fine _ _ _ _ Hrk')) as [b' ->].
  - intros b Hb n eg He. destruct (ranked_rest _ _ _ _ _ Hrk Hb) as (f' & Hrk'). simpl in Hrk'.
    pose proof (rk_wish _ _ _ _ Hrk' n) as Hw. rewrite He in Hw.
    destruct (cl_egress (view b) !! n) as [x|] eqn:Hx; [|done]. injection Hw as Hm Hs.
    destruct (rk_queue _ _ _ _ Hrk' n x Hx) as [Hf'|?%not_elem_of_empty]; [|done].
    destruct (rk_done _ _ _ _ Hrk' n x Hx Hf') as [Hst Hre]. split; [by eapply realised_same|].
    intros b' Hb'. pose proof (call_steady_status _ _ _ _ (rk_fine _ _ _ _ Hrk') Hx Hst Hb') as Hsame.
    unfold same_but_status, eg_key in *. by rewrite Hm, Hs in Hsame.
Qed.
End queue.

(** ** Witness *)

Lemma ex_two_fine : fine (A:=Cluster) elements ex_r ex_two.
Proof.
  constructor; [constructor; try done; intros n eg [[-> ->]|[-> ->]]%ex_two_egress; reflexivity|..].
  - intros n eg [[-> ->]|[-> ->]]%ex_two_egress; by split_and!.
  - intros n eg [[-> ->]|[-> ->]]%ex_two_egress; apply new_acceptable; try done.
    + right. left.
    + intros spec [= <-]. by left.
    + left.
Qed.

(** Two egresses in two namespaces. *)
Lemma egress_queue_drains_witness :
  let s := ({[ mkNamespacedName "internet" "a"; mkNamespacedName "office" "b" ]}, ex_two) : gset NamespacedName * Cluster in
  sn (work elements ex_r) s ∧
  ∃ b, rtc (work elements ex_r) s (∅, b) ∧
    realised ex_r (ex_eg "a" "internet" ex_pdb_spec) (view b) ∧ realised ex_r (ex_eg "b" "office" ex_spec) (view b).
Proof.
  intros s. destruct (egress_queue_drains (A:=Cluster) elements (λ s, reflexivity _) ex_r s.1 ex_two)
    as (Hacc & Hgo & Hrest); [exact ex_two_fine| |].
  { apply (bool_decide_unpack _). vm_compute. exact I. }
  split; [exact Hacc|].
  destruct (Hgo s.1 ex_two (rtc_refl _ _)) as [_ [b Hb]].
  exists b. split; [exact Hb|]. split.
  - apply (Hrest b Hb (mkNamespacedName "internet" "a")). reflexivity.
  - apply (Hrest b Hb (mkNamespacedName "office" "b")). reflexivity.
Defined.
