(* ===== verification/Installer.v ===== *)
(** * cmd/pona-installer: installing the plugin binary

    [installPona] copies the binary into a temporary file next to its target
    and renames it.  The file system is a map from paths to files (directories
    are not kept); every operation may fail, as an oracle decides. *)
From Stdlib Require Import Ascii String.
From S2P Require Import Prelude GoStrings.

Local Open Scope Z_scope.

Record File := mkFile { content : list Z; mode : Z }.

Abbreviation FS := (gmap string File).

(** The operations of [os], [io] and [os.File] that can fail. *)
Inductive FsOp := OpOpen | OpMkdirAll | OpCreateTemp | OpCopy | OpChmod | OpSync | OpRename | OpRemove.

#[export] Instance FsOp_eq_dec : EqDecision FsOp.
Proof. solve_decision. Defined.

Section install.
(** Which operations fail and how, how much of a failing copy is written, and
    the name [os.CreateTemp] picks. *)
Context (fault : FsOp → option goerror) (partial : list Z → list Z) (pick : FS → string → string).

Definition attempt {A} (op : FsOp) (act : M FS A) : M FS A := λ fs,
  match fault op with Some e => (Err e, fs) | None => act fs end.

(** Opening fails on a missing file; the content is read by the copy. *)
Definition os_Open (path : string) : M FS (list Z) := λ fs,
  match fs !! path with
  | Some f => (Ok (content f), fs)
  | None => (Err (ErrLib "os" ("open " +:+ path +:+ ": no such file or directory")), fs)
  end.

Definition os_CreateTemp (dir : string) : M FS string := λ fs,
  let name := pick fs dir in (Ok name, <[name := mkFile [] 384]> fs).

Definition write_file (name : string) (c : list Z) : M FS unit := λ fs,
  (Ok tt, alter (λ f, mkFile c (mode f)) name fs).

Definition chmod (name : string) (m : Z) : M FS unit := λ fs,
  (Ok tt, alter (λ f, mkFile (content f) m) name fs).

(** A copy that fails leaves what it has written. *)
Definition io_Copy (name : string) (c : list Z) : M FS unit := λ fs,
  match fault OpCopy with
  | Some e => (Err e, (write_file name (partial c) fs).2)
  | None => write_file name c fs
  end.

Definition os_Rename (from to : string) : M FS unit := λ fs,
  match fs !! from with
  | Some f => (Ok tt, <[to := f]> (delete from fs))
  | None => (Err (ErrLib "os" "rename: no such file or directory"), fs)
  end.

(** The deferred [os.Remove]; its error is ignored. *)
Definition os_Remove (name : string) (fs : FS) : FS :=
  match fault OpRemove with Some _ => fs | None => delete name fs end.

Definition target (cniBinDir : string) : string := filepath_Join [cniBinDir; "pona"].

Definition install_steps (c : list Z) (g cniBinDir : string) : M FS unit :=
  wrap (Errorf "failed to io.Copy: ") (io_Copy g c);;
  wrap (Errorf "failed to chmod: ") (attempt OpChmod (chmod g 493));;
  wrap (Errorf "failed to Sync: ") (attempt OpSync (mret tt));;
  wrap (Errorf "failed to rename: ") (attempt OpRename (os_Rename g (target cniBinDir))).

(** [defer func() { g.Close(); os.Remove(g.Name()) }()]. *)
Definition with_cleanup (g : string) (m : M FS unit) : M FS unit := λ fs,
  let '(res, fs') := m fs in (res, os_Remove g fs').

Definition installPona (ponaPath cniBinDir : string) : M FS unit :=
  f ← wrap (Errorf "failed to read pona ") (attempt OpOpen (os_Open ponaPath));
  wrap (Errorf "failed to MkdirAll: ") (attempt OpMkdirAll (mret tt));;
  g ← wrap (Errorf "failed to CreateTemp: ") (attempt OpCreateTemp (os_CreateTemp cniBinDir));
  with_cleanup g (install_steps f g cniBinDir).

(** ** main *)

Record Config := mkConfig { CniEtcDir : string; CniBinDir : string; PonaPath : string }.

(** [env_Parse] is what the env package makes of the environment.  The status
    the process exits with comes first. *)
Definition installer_main (env_Parse : result Config) (fs : FS) : Z * FS :=
  match env_Parse with
  | Err _ => (1, fs)
  | Ok cfg => let '(_, fs') := installPona (PonaPath cfg) (CniBinDir cfg) fs in (0, fs')
  end.

(** ** Properties *)

(** The name is new. *)
Context (pick_new : ∀ fs dir, fs !! pick fs dir = None ∧ pick fs dir ≠ target dir).

Lemma install_steps_run c g dir fs r fs' f0 :
  fs !! g = Some f0 → g ≠ target dir → install_steps c g dir fs = (r, fs') →
  (∀ p, p ≠ g → p ≠ target dir → fs' !! p = fs !! p) ∧
  match r with
  | Ok _ => fs' !! target dir = Some (mkFile c 493) ∧ fs' !! g = None
  | Err _ => fs' !! target dir = fs !! target dir
  end.
Proof.
  intros Hg Hne. unfold install_steps, mbind, M_bind, wrap, io_Copy, attempt, write_file, chmod, os_Rename.
  destruct (fault OpCopy); simpl.
  { intros [= <- <-]. split; [|by rewrite lookup_alter_ne]. intros p Hp _. by rewrite lookup_alter_ne. }
  destruct (fault OpChmod); simpl.
  { intros [= <- <-]. split; [|by rewrite lookup_alter_ne]. intros p Hp _. by rewrite lookup_alter_ne. }
  destruct (fault OpSync); simpl.
  { intros [= <- <-]. split; [|by rewrite !lookup_alter_ne]. intros p Hp _. by rewrite !lookup_alter_ne. }
  destruct (fault OpRename); simpl.
  { intros [= <- <-]. split; [|by rewrite !lookup_alter_ne]. intros p Hp _. by rewrite !lookup_alter_ne. }
  rewrite !lookup_alter_eq, Hg. simpl. intros [= <- <-]. split_and!.
  - intros p Hp Ht. by rewrite lookup_insert_ne, lookup_delete_ne, !lookup_alter_ne.
  - by rewrite lookup_insert_eq.
  - by rewrite lookup_insert_ne, lookup_delete_eq.
Qed.

(** Whatever fails and when, the plugin's path holds afterwards either the
    whole new binary or what it held before. *)
Lemma installPona_atomic (ponaPath dir : string) (fs : FS) :
  let '(r, fs') := installPona ponaPath dir fs in
  (∀ p, p ≠ target dir → fault OpRemove = None ∨ p ≠ pick fs dir → fs' !! p = fs !! p) ∧
  match r with
  | Ok _ => ∃ f, fs !! ponaPath = Some f ∧ fs' !! target dir = Some (mkFile (content f) 493)
  | Err _ => fs' !! target dir = fs !! target dir
  end.
Proof.
  unfold installPona, mbind, M_bind. unfold wrap at 1, attempt at 1. destruct (fault OpOpen); [done|].
  unfold os_Open. destruct (fs !! ponaPath) as [f|] eqn:Hf; [|done].
  unfold wrap at 1, attempt at 1. destruct (fault OpMkdirAll); [done|]. cbn [mret M_ret].
  unfold wrap at 1, attempt at 1. destruct (fault OpCreateTemp); [done|]. unfold os_CreateTemp, with_cleanup.
  destruct (pick_new fs dir) as [Hnew Hne].
  destruct (install_steps _ _ _ _) as [r fs1] eqn:Hs.
  destruct (install_steps_run _ _ dir _ r fs1 (mkFile [] 384) (lookup_insert_eq _ _ _) Hne Hs) as [Ho Hr].
  split.
  - intros p Hp Hcase. unfold os_Remove. destruct (decide (p = pick fs dir)) as [->|Hpg].
    + destruct Hcase as [->|?]; [|done]. by rewrite lookup_delete_eq, Hnew.
    + assert (fs1 !! p = fs !! p) as <- by (rewrite Ho by done; by rewrite lookup_insert_ne).
      destruct (fault OpRemove); [done|]. by rewrite lookup_delete_ne.
  - assert (∀ x, x = fs1 !! target dir → os_Remove (pick fs dir) fs1 !! target dir = x) as Hrem.
    { intros x ->. unfold os_Remove. destruct (fault OpRemove); [done|]. by rewrite lookup_delete_ne. }
    destruct r as [[]|e].
    + exists f. split; [done|]. apply Hrem. by destruct Hr as [-> _].
    + apply Hrem. by rewrite Hr, lookup_insert_ne.
Qed.

(** C26: installing is atomic.  Whatever fails and when, the plugin's path
    holds afterwards either the whole new binary, executable, if the
    installation succeeded, or exactly what it held before; no other file
    changes but the temporary one, which is gone unless removing it failed.
    The exit status does not say which: it is 1 only if the environment could
    not be read. *)
Theorem installer_atomic (cfg : Config) (e : goerror) (fs : FS) :
  let '(status, fs') := installer_main (Ok cfg) fs in
  status = 0 ∧
  (∀ p, p ≠ target (CniBinDir cfg) → fault OpRemove = None ∨ p ≠ pick fs (CniBinDir cfg) → fs' !! p = fs !! p) ∧
  (if is_ok (installPona (PonaPath cfg) (CniBinDir cfg) fs).1
   then ∃ f, fs !! PonaPath cfg = Some f ∧ fs' !! target (CniBinDir cfg) = Some (mkFile (content f) 493)
   else fs' !! target (CniBinDir cfg) = fs !! target (CniBinDir cfg)) ∧
  installer_main (Err e) fs = (1, fs).
Proof.
  unfold installer_main. pose proof (installPona_atomic (PonaPath cfg) (CniBinDir cfg) fs) as Ha.
  destruct (installPona _ _ fs) as [[[]|e'] fs']; destruct Ha as [H1 H2]; by split_and!.
Qed.
End install.

Definition ex_fs : FS := {[ "/pona" := mkFile [127; 69; 76; 70] 493; "/opt/cni/bin/pona" := mkFile [0] 493 ]}.

(** A temporary name longer than every path there is. *)
Definition ex_pick (fs : FS) (dir : string) : string :=
  target dir +:+ ".tmp" +:+ String.concat "" (map_to_list fs).*1.

Lemma append_length_le a b : (String.length a ≤ String.length (a +:+ b) ∧ String.length b ≤ String.length (a +:+ b))%nat.
Proof. rewrite length_append. lia. Qed.

Lemma concat_length_le (l : list string) s : s ∈ l → (String.length s ≤ String.length (String.concat "" l))%nat.
Proof.
  induction l as [|x l IH]; [by intros ?%elem_of_nil|]. intros Hs.
  assert (String.length x + String.length (String.concat "" l) ≤ String.length (String.concat "" (x :: l)))%nat as Hc.
  { destruct l as [|y l]; [simpl; lia|].
    change (String.concat "" (x :: y :: l)) with (x +:+ ("" +:+ String.concat "" (y :: l))).
    rewrite !length_append. lia. }
  apply elem_of_cons in Hs as [->|Hs]; [lia|]. specialize (IH Hs). lia.
Qed.

Lemma ex_pick_new fs dir : fs !! ex_pick fs dir = None ∧ ex_pick fs dir ≠ target dir.
Proof.
  split.
  - destruct (fs !! ex_pick fs dir) as [f|] eqn:Hf; [exfalso|done].
    apply elem_of_map_to_list, (list_elem_of_fmap_2 fst) in Hf. apply concat_length_le in Hf.
    unfold ex_pick at 1 in Hf. cbn [fst] in Hf. rewrite !length_append in Hf. simpl in Hf. lia.
  - intros Heq%(f_equal String.length). unfold ex_pick in Heq. rewrite !length_append in Heq. simpl in Heq. lia.
Qed.

(** The disk is full when the copy is synced. *)
Definition ex_fault (op : FsOp) : option goerror :=
  if decide (op = OpSync) then Some (ErrLib "os" "no space left on device") else None.
Definition ex_config : Config := mkConfig "/etc/cni/net.d" "/opt/cni/bin" "/pona".

Lemma installer_atomic_witness :
  let '(status, fs') := installer_main ex_fault (λ c, []) ex_pick (Ok ex_config) ex_fs in
  status = 0 ∧ (∀ p, p ≠ target "/opt/cni/bin" → fs' !! p = ex_fs !! p) ∧
  fs' !! target "/opt/cni/bin" = Some (mkFile [0] 493).
Proof.
  pose proof (installer_atomic ex_fault (λ c, []) ex_pick ex_pick_new ex_config (ErrText "") ex_fs) as Hw.
  assert (is_ok (installPona ex_fault (λ c, []) ex_pick (PonaPath ex_config) (CniBinDir ex_config) ex_fs).1 = false)
    as Hf by (vm_compute; reflexivity). rewrite Hf in Hw.
  destruct (installer_main _ _ _ (Ok ex_config) ex_fs) as [status fs']. destruct Hw as (H0 & H1 & H2 & _).
  split; [exact H0|]. split; [|exact H2]. intros p Hp. apply H1; [exact Hp|left; reflexivity].
Defined.
