(* ===== verification/System.v ===== *)
(** * cmd/nat-gateway, and the egress pod as a whole

    The set-up code of the egress pod's main function, and what the pod
    watcher, the Foo-over-UDP tunnels and the NAT gateway guarantee together:
    the client's theorems of [PodWatcher] are applied to the implementations
    of [FouTunnel] and [NatGateway] through their laws. *)
From Stdlib Require Import Ascii String.
From S2P Require Import Prelude GoStrings NetAddr NetParse NetIPUtil Netlink SimKernel Tunnel Mocks.
From S2P Require Import FouTunnel NatGateway PodWatcher EgressAPI EgressController.

Local Open Scope Z_scope.

(** ** main of cmd/nat-gateway: the environment *)

(** The loop over the addresses: the last of each family. *)
Fixpoint gateway_addresses (l : list string) (ipv4 ipv6 : option Addr) : result (option Addr * option Addr) :=
  match l with
  | [] => Ok (ipv4, ipv6)
  | addr :: l' =>
      match ParseAddr addr with
      | Err _ => Err (ErrText (EnvAddresses +:+ " contains invalid address"))
      | Ok n => if Is4 n then gateway_addresses l' (Some n) ipv6 else gateway_addresses l' ipv4 (Some n)
      end
  end.

(** [Err] is the error logged before the process exits with status 1. *)
Definition gateway_env (Getenv : string → string) : result (string * string * (option Addr * option Addr)) :=
  let myNS := Getenv EnvPodNamespace in
  if decide (myNS = "") then Err (ErrText (EnvPodNamespace +:+ " environment variable must be set"))
  else
    let myName := Getenv EnvEgressName in
    if decide (myName = "") then Err (ErrText (EnvEgressName +:+ " environment variable must be set"))
    else
      let myAddresses := Split (Getenv EnvAddresses) comma in
      if decide (List.length myAddresses = 0%nat)
      then Err (ErrText (EnvAddresses +:+ " environment variable must be set"))
      else ips ← gateway_addresses myAddresses None None; Ok (myNS, myName, ips).

(** The controllers main creates, initialised. *)
Definition gateway_start {K} `{Netlink K} (FoUPort : Z) (Getenv : string → string)
    : M K (PodWatcher * FouTunnelController * gateway) :=
  env ← lift (gateway_env Getenv);
  let '(myNS, myName, (ipv4, ipv6)) := env in
  fc ← lift (NewFoUTunnelController FoUPort ipv4 ipv6);
  FouTunnel.Init fc;;
  nc ← lift (NewGateway "eth0" ipv4 ipv6);
  NatGateway.Init nc;;
  mret (mkPodWatcher myName myNS, fc, nc).

(** int32(config.FoUPort) of cmd/egress-controller. *)
Definition int32 (x : Z) : Z := (x + 2 ^ 31) mod 2 ^ 32 - 2 ^ 31.

Definition controller_config (FoUPort : Z) (NatGatewayImage : string) : result EgressReconciler :=
  if decide (NatGatewayImage = "") then Err (ErrText "--natgateway-image is required")
  else Ok (mkEgressReconciler (int32 FoUPort) NatGatewayImage).

(** ** The two controllers serve the same families *)

Lemma gateway_addresses_families l v4 v6 r4 r6 :
  gateway_addresses l v4 v6 = Ok (r4, r6) →
  (∀ a, v4 = Some a → Is4 a = true) → (∀ a, v6 = Some a → Is6 a = true) →
  (∀ a, r4 = Some a → Is4 a = true) ∧ (∀ a, r6 = Some a → Is6 a = true).
Proof.
  revert v4 v6. induction l as [|x l IH]; intros v4 v6 Hr H4 H6; simpl in Hr; [by simplify_eq|].
  destruct (ParseAddr x) as [n|] eqn:Hn; [|done]. apply ParseAddr_wf in Hn as [_ Hn].
  destruct (Is4 n) eqn:H4n; apply IH in Hr; try done; intros a [= <-]; [done|by destruct n].
Qed.

(** What a started egress pod consists of.  The tunnel controller and the
    gateway get the same addresses, of which there is at least one and each is
    of its family, so they serve the same families: the family check of
    [AddClient] never fires for an address [AddPeer] accepts, and the
    gateway's constructor accepts whatever the tunnel's has accepted. *)
Lemma gateway_start_parts {K} `{NL : Netlink K} (FoUPort : Z) (Getenv : string → string) (k k' : K)
    (w : PodWatcher) (fc : FouTunnelController) (nc : gateway) :
  gateway_start FoUPort Getenv k = (Ok (w, fc, nc), k') →
  w = mkPodWatcher (Getenv EnvEgressName) (Getenv EnvPodNamespace) ∧ port fc = FoUPort ∧
  (local4 fc ≠ None ∨ local6 fc ≠ None) ∧ local4 fc = ipv4 nc ∧ local6 fc = ipv6 nc ∧
  (∀ a, a ≠ AddrInvalid → local_for fc a ≠ None ↔ supports nc a = true) ∧
  (∀ e, NewGateway "eth0" (local4 fc) (local6 fc) ≠ Err e).
Proof.
  unfold gateway_start. intros (env & k1 & Henv & Hrun)%bind_ok. unfold lift in Henv. injection Henv as Henv <-.
  destruct env as [[myNS myName] [v4 v6]].
  apply bind_ok in Hrun as (fc' & k1 & Hfc & Hrun). unfold lift in Hfc. injection Hfc as Hfc <-.
  apply bind_ok in Hrun as ([] & k1 & _ & Hrun).
  apply bind_ok in Hrun as (nc' & k2 & Hnc & Hrun). unfold lift in Hnc. injection Hnc as Hnc <-.
  apply bind_ok in Hrun as ([] & k2 & _ & [= <- <- <- <-]).
  assert ((∀ a, v4 = Some a → Is4 a = true) ∧ (∀ a, v6 = Some a → Is6 a = true) ∧
    myNS = Getenv EnvPodNamespace ∧ myName = Getenv EnvEgressName) as (H4 & H6 & -> & ->).
  { unfold gateway_env in Henv. repeat case_decide; try done.
    unfold mbind, result_bind in Henv. destruct (gateway_addresses _ None None) as [[r4 r6]|] eqn:Ha; [|done].
    injection Henv as <- <- <- <-. apply gateway_addresses_families in Ha as [? ?]; done. }
  assert (fc' = mkFouTunnelController FoUPort v4 v6 ∧ (v4 ≠ None ∨ v6 ≠ None)) as [-> Hsome].
  { unfold NewFoUTunnelController in Hfc. repeat case_match; simplify_eq. split; [done|].
    match goal with Hb : bool_decide _ = false |- _ => apply bool_decide_eq_false in Hb end.
    destruct v4; [by left|right]. destruct v6; [done|]. tauto. }
  assert (∀ e, NewGateway "eth0" v4 v6 ≠ Err e) as Hnoerr.
  { intros e. unfold NewGateway, mbind, result_bind. destruct v4 as [a|]; [rewrite (H4 a) by done|];
      (destruct v6 as [b|]; [rewrite (H6 b) by done|]); done. }
  assert (nc' = mkGateway "eth0" v4 v6) as ->.
  { unfold NewGateway, mbind, result_bind in Hnc. repeat case_match; by simplify_eq. }
  split_and!; try done. intros a Ha. unfold local_for. destruct a; simpl; [done|..];
    by rewrite bool_decide_eq_true.
Qed.

(** ** Library errors *)

(** No error of the netlink library is the tunnel package's own. *)
Class LibErrors (K : Type) {NL : Netlink K} := {
  LinkByName_lib n k e : LinkByName n k = Err e → errors_Is e ErrIPFamilyMismatch = false;
  LinkAdd_lib l k e k' : LinkAdd l k = (Err e, k') → errors_Is e ErrIPFamilyMismatch = false;
  LinkSetUp_lib l k e k' : LinkSetUp l k = (Err e, k') → errors_Is e ErrIPFamilyMismatch = false;
  LinkSetName_lib l n k e k' : LinkSetName l n k = (Err e, k') → errors_Is e ErrIPFamilyMismatch = false;
}.

Section egress_pod.
Context {K : Type} {NL : Netlink K} {L : NetlinkLaws K} {E : LibErrors K}.

(** A computation none of whose errors is a family mismatch. *)
Definition no_mismatch {A} (m : M K A) : Prop :=
  ∀ k e k', m k = (Err e, k') → errors_Is e ErrIPFamilyMismatch = false.

Lemma no_mismatch_bind {A B} (m : M K A) (f : A → M K B) :
  no_mismatch m → (∀ a, no_mismatch (f a)) → no_mismatch (m ≫= f).
Proof. intros Hm Hf k e k' [H|(a & k1 & _ & H)]%bind_err; [by eapply Hm|by eapply Hf]. Qed.

Lemma no_mismatch_wrap {A} text (m : M K A) : no_mismatch m → no_mismatch (wrap (Errorf text) m).
Proof. intros Hm k e k' (e0 & H & ->)%wrap_err. simpl. by eapply Hm. Qed.

Lemma no_mismatch_ret {A} (a : A) : no_mismatch (mret a).
Proof. by intros k e k' [=]. Qed.

Lemma no_mismatch_try {A} (m : M K A) : no_mismatch (try m).
Proof. intros k e k'. unfold try. by destruct (m k). Qed.

Lemma no_mismatch_lookup n : no_mismatch (ask (LinkByName n)).
Proof. intros k e k' [= H _]. by eapply LinkByName_lib. Qed.

Create HintDb errs.
#[local] Hint Resolve no_mismatch_bind no_mismatch_wrap no_mismatch_ret no_mismatch_try no_mismatch_lookup : errs.

Lemma setupDevice_errs l : no_mismatch (setupDevice l).
Proof.
  unfold setupDevice, configureDevice. intros k e k'. unfold mbind at 1, M_bind at 1, try, ask.
  destruct (LinkByName (lname l) k) as [x|e0] eqn:Hl.
  - revert k e k' Hl. intros k e k' _. apply no_mismatch_bind; [auto with errs|].
    intros y. do 2 apply no_mismatch_wrap. intros ? ? ?. apply LinkSetUp_lib.
  - revert k'. revert e. destruct (errors_As_LinkNotFound e0); cbn [negb].
    + intros e k'. apply no_mismatch_bind.
      * apply no_mismatch_bind; [apply no_mismatch_wrap; intros ? ? ?; apply LinkAdd_lib|]. intros _. apply no_mismatch_wrap, no_mismatch_lookup.
      * intros y. do 2 apply no_mismatch_wrap. intros ? ? ?. apply LinkSetUp_lib.
    + intros e k'. unfold throw. intros [= <- _]. by eapply LinkByName_lib.
Qed.

Lemma renameDevice_errs from to : no_mismatch (renameDevice from to).
Proof.
  apply no_mismatch_bind; [auto with errs|]. intros [l|e]; [|auto with errs].
  apply no_mismatch_wrap. intros ? ? ?. apply LinkSetName_lib.
Qed.

Lemma setup_for_errs a : no_mismatch (setup_for a).
Proof.
  unfold setup_for. destruct (Is4 a); (apply no_mismatch_bind;
    [apply no_mismatch_wrap, setupDevice_errs|intros _; apply no_mismatch_wrap, renameDevice_errs]).
Qed.

(** A family the controller has an address of is not refused. *)
Lemma fou_not_refused t a :
  a ≠ AddrInvalid → local_for t a ≠ None → ¬ refused (T:=fou_tunnel t) a.
Proof.
  intros Hv Hloc (k & e & k' & HA & He). destruct (fouName_valid a Hv) as [n Hn].
  pose proof (AddPeer_run t a n k Hn) as Hrun. change (AddPeer t a k = (Err e, k')) in HA. rewrite HA in Hrun.
  inversion Hrun; subst; simpl in He; [done|..].
  - by erewrite LinkByName_lib in He.
  - by erewrite LinkAdd_lib in He.
  - by erewrite (setup_for_errs a) in He.
Qed.

Lemma fouName_canonical_inj a b :
  canonical a → canonical b → Is4 a = true → fouName a = fouName b → a = b.
Proof.
  intros (Hwa & Hna & _) (Hwb & Hnb & _) H4 Heq. destruct a as [|v|v z]; [done| |done].
  destruct b as [|w|w y]; [done| |]; rewrite ?fouName_v4, ?fouName_v6 in Heq.
  - apply Ok_append_inj, hex_bytes_inj in Heq; [|apply be_bytes_Forall..].
    apply (f_equal be_val) in Heq. rewrite !be_val_bytes in Heq by done. by subst.
  - exfalso. by apply Ok_prefix_ne in Heq.
Qed.

(** The running pod.  Let the pod addresses be canonical
    with no two sharing a device name (always so for IPv4), and let pods keep
    their addresses while they live ([stable_status]).  In every state
    the watcher reaches without errors from a namespace without tunnels, an
    address of a family the egress serves has its Foo-over-UDP device exactly
    when a client pod the watcher tracks has that address. *)
Lemma egress_pod_tunnels (t : FouTunnelController) (c : gateway)
    (range : gmap string string → list (string * string)) (r : PodWatcher) (used : Addr → Prop)
    (k : K) (s : WatcherState K) :
  (∀ a, used a → canonical a) → (∀ a b, used a → used b → fouName a = fouName b → a = b) →
  (∀ a, used a → ¬ fou_has_peer k a) →
  rtc (watcher_step (T:=fou_tunnel t) (G:=nat_gateway c) used range r true)
    (NewPodWatcher (EgressName r) (EgressNamespace r) k).2 s →
  ∀ a, used a → local_for t a ≠ None →
    (∃ n l, fouName a = Ok n ∧ LinkByName n (world s) = Ok l) ↔ tracked s a.
Proof.
  intros Hcan Hinj Hfree Hreach a Hu Hloc.
  assert (watcher_inv (TL:=fou_tunnel_laws t) used s ∧ no_leak (TL:=fou_tunnel_laws t) used s) as [Hinv Hleak].
  { eapply (reach_exact (TL:=fou_tunnel_laws t) (GL:=nat_gateway_laws t c) used Hcan Hinj range r); [| |exact Hreach].
    - apply initial_inv; done.
    - intros b Hb Hp. by destruct (Hfree b Hb). }
  split; [by apply Hleak|]. intros Ht. destruct (inv_tunnel _ _ Hinv a Ht) as [?|Hr]; [done|].
  exfalso. eapply fou_not_refused; [|exact Hloc|exact Hr]. by destruct (Hcan a Hu) as (_ & ? & _).
Qed.

(** The set-up creates no tunnel, and leaves both marker devices. *)
Context {HL : HostLaws K}.

Lemma fou_Init_peers t k k' :
  FouTunnel.Init t k = (Ok tt, k') →
  FouTunnel.IsInitialized t k' = true ∧ ∀ a n, fouName a = Ok n → LinkByName n k' = LinkByName n k.
Proof.
  intros HI. unfold FouTunnel.IsInitialized.
  destruct (Init_cases t k) as [(l & Hl & Hk)|[(e & e0 & _ & Hk & _)|(e0 & l & k1 & k2 & _ & Hn & Ha & Hk)]];
    rewrite HI in Hk; [injection Hk as ->; by rewrite Hl|done|]. injection Hk as ->. destruct Hn as (Hn & _).
  split; [pose proof (LinkAdd_ok _ _ _ _ Ha) as ((l2 & Hl2 & _) & _); simpl in Hl2; by rewrite Hl2|].
  intros a n Hf. by rewrite (LinkAdd_reserved _ _ _ _ a n Ha Hf (proj1 markers_reserved)), Hn.
Qed.

Lemma gw_Init_peers c k k' :
  NatGateway.Init c k = (Ok tt, k') →
  (∃ l, LinkByName egressDummy k' = Ok l) ∧ LinkByName fouDummy k' = LinkByName fouDummy k ∧
  ∀ a n, fouName a = Ok n → LinkByName n k' = LinkByName n k.
Proof.
  rewrite gw_Init_eq. intros HI. apply bind_ok in HI as (r & k0 & Hr & HI). unfold try, ask in Hr. injection Hr as <- <-.
  destruct (LinkByName egressDummy k) as [l|e] eqn:Hd; [injection HI as <-; by split; [exists l|]|].
  destruct (negb (is_LinkNotFound e)); [done|].
  apply bind_ok in HI as ([] & k1 & (_ & _ & H1 & _)%init_half_ok & HI).
  apply bind_ok in HI as ([] & k2 & (_ & _ & H2 & _)%init_half_ok & HI).
  apply bind_ok in HI as (l & k3 & HA%wrap_ok & [= <-]).
  pose proof (LinkAdd_ok _ _ _ _ HA) as ((l2 & Hl2 & _) & _ & _ & Hk & _). split_and!; [by exists l2| |].
  - rewrite Hk by (by apply (bool_decide_unpack _)). by rewrite H2, H1.
  - intros a n Hf. rewrite (LinkAdd_reserved _ _ _ _ a n HA Hf (proj2 markers_reserved)).
    by rewrite H2, H1.
Qed.

(** What [gateway_start] leaves in the namespace. *)
Lemma gateway_start_peers FoUPort Getenv k k' w fc nc :
  gateway_start FoUPort Getenv k = (Ok (w, fc, nc), k') →
  FouTunnel.IsInitialized fc k' = true ∧ (∃ l, LinkByName egressDummy k' = Ok l) ∧
  (∀ a, fou_has_peer k' a ↔ fou_has_peer k a).
Proof.
  unfold gateway_start. intros (env & k1 & Henv & Hrun)%bind_ok. unfold lift in Henv. injection Henv as _ <-.
  destruct env as [[myNS myName] [v4 v6]].
  apply bind_ok in Hrun as (fc' & k1 & Hfc & Hrun). unfold lift in Hfc. injection Hfc as _ <-.
  apply bind_ok in Hrun as ([] & k1 & [Hi Hp1]%fou_Init_peers & Hrun).
  apply bind_ok in Hrun as (nc' & k2 & Hnc & Hrun). unfold lift in Hnc. injection Hnc as _ <-.
  apply bind_ok in Hrun as ([] & k2 & (Hm & Hd & Hp2)%gw_Init_peers & [= <- <- <- <-]).
  split_and!; [unfold FouTunnel.IsInitialized in *; by rewrite Hd|done|].
  intros a. unfold fou_has_peer. split; intros (n & l & Hn & Hl); exists n, l; (split; [done|]).
  - by rewrite <- (Hp1 a n), <- (Hp2 a n).
  - by rewrite (Hp2 a n), (Hp1 a n).
Qed.
End egress_pod.

(** ** Witnesses *)

#[export] Instance SimErrors : LibErrors Kern.
Proof.
  split; simpl.
  - intros n k e. unfold sim_LinkByName. repeat case_match; by intros [= <-].
  - intros l k e k'. unfold sim_LinkAdd. case_match; by intros [= <- _].
  - intros l k e k'. unfold sim_LinkSetUp. case_match; by intros [= <- _].
  - intros l n k e k'. unfold sim_LinkSetName. case_match; by intros [= <- _].
Qed.

Definition ex_getenv (name : string) : string :=
  if decide (name = EnvPodNamespace) then "internet"
  else if decide (name = EnvEgressName) then "egress-a"
  else if decide (name = EnvAddresses) then "10.0.0.1" else "".

Definition used_v4 (a : Addr) : Prop := canonical a ∧ Is4 a = true.

Lemma used_v4_inj a b : used_v4 a → used_v4 b → fouName a = fouName b → a = b.
Proof. intros [Ha H4] [Hb _]. by apply fouName_canonical_inj. Qed.

Lemma empty_no_peer a : ¬ fou_has_peer empty_kern a.
Proof.
  intros (n & l & Hn & [Hl _]%sim_LinkByName_ok). simpl in Hl. apply lookup_singleton_Some in Hl as [<- _].
  apply (fouName_not_reserved a "lo" Hn). apply (bool_decide_unpack _). vm_compute. exact I.
Qed.
