(* ===== verification/Restart.v ===== *)
(** * The egress container started again

    A container that ends is started again in the network namespace of its
    pod, which keeps the devices, the rules and the routes.  What main finds
    there is what the controllers of the previous run left: the marker devices
    outlive every call of the watcher, so both [Init] methods return at once;
    the maps of the pod watcher, which lived in the process, are empty. *)
From Stdlib Require Import Ascii String.
From S2P Require Import Prelude GoStrings NetAddr NetParse NetIPUtil Netlink SimKernel Tunnel Mocks.
From S2P Require Import FouTunnel NatGateway PodWatcher WatcherLive EgressController System.

Local Open Scope Z_scope.

Section restart.
Context {K : Type} {NL : Netlink K} {L : NetlinkLaws K}.

(** Both controllers have been initialised in the namespace. *)
Definition marked (k : K) : Prop :=
  (∃ l, LinkByName fouDummy k = Ok l) ∧ ∃ l, LinkByName egressDummy k = Ok l.

(** ** The markers stay *)

Definition keeps_marks (k k' : K) : Prop := marked k → marked k'.

#[local] Instance keeps_marks_pre : PreOrder keeps_marks.
Proof. split; unfold keeps_marks; auto. Qed.

Lemma keeps_marks_links k k' :
  (∀ n l, n = fouDummy ∨ n = egressDummy → LinkByName n k = Ok l → LinkByName n k' = Ok l) → keeps_marks k k'.
Proof. intros Hl [[l1 H1] [l2 H2]]. split; [exists l1|exists l2]; apply Hl; auto. Qed.

Lemma AddPeer_marks t a : preserves keeps_marks (FouTunnel.AddPeer t a).
Proof.
  intros k. destruct (fou_AddPeer_net t a k) as (_ & _ & _ & Hl). apply keeps_marks_links.
  intros n l Hn. apply Hl. destruct Hn as [-> | ->]; by apply (bool_decide_unpack _).
Qed.

Lemma DelPeer_marks t a : preserves keeps_marks (FouTunnel.DelPeer t a).
Proof.
  intros k. unfold FouTunnel.DelPeer, wrap, lift, try, ask, mbind, M_bind.
  destruct (fouName a) as [n|e] eqn:Hn; [|done].
  destruct (LinkByName n k) as [l|e] eqn:Hl; [|by destruct (errors_As_LinkNotFound e)].
  destruct (LinkDel l k) as [[[]|e] k'] eqn:HD; [|by apply LinkDel_err in HD as ->].
  pose proof (LinkByName_name _ _ _ Hl) as Hname.
  apply LinkDel_ok in HD as (_ & Ho & _); [|by rewrite Hname]. apply keeps_marks_links.
  intros m l0 Hm. rewrite Ho; [done|]. rewrite Hname. apply not_eq_sym, (fouName_ne a); [done|].
  destruct Hm as [-> | ->]; apply markers_reserved.
Qed.

Lemma AddClient_marks c a l : canonical a → preserves keeps_marks (NatGateway.AddClient c a l).
Proof. intros Ha k. apply keeps_marks_links. intros n l0 _. by rewrite AddClient_links. Qed.

(** ** The watcher keeps them *)

Section watcher.
Context (used : Addr → Prop) (used_canonical : ∀ a, used a → canonical a).
Context (range : gmap string string → list (string * string)) (r : PodWatcher).
Context (t : FouTunnelController) (c : gateway).

Abbreviation TN := (fou_tunnel t).
Abbreviation GW := (nat_gateway c).

Definition keeps_world (s s' : WatcherState K) : Prop := keeps_marks (world s) (world s').

#[local] Instance keeps_world_pre : PreOrder keeps_world.
Proof. split; unfold keeps_world, keeps_marks; auto. Qed.

Lemma with_world_marks {A} (m : M K A) : preserves keeps_marks m → preserves keeps_world (with_world m).
Proof. intros Hm s. specialize (Hm (world s)). unfold with_world. by destruct (m (world s)). Qed.

Lemma same_world_marks {A} (m : M (WatcherState K) A) : (∀ s, world (m s).2 = world s) → preserves keeps_world m.
Proof. intros Hw s. unfold keeps_world. by rewrite Hw. Qed.

Lemma handlePodRunning_marks pod :
  (∀ ips, mapR ParseAddr (PodIPs pod) = Ok ips → Forall used ips) →
  preserves keeps_world (handlePodRunning (H:=TN) (H0:=GW) pod).
Proof.
  intros Hu. unfold handlePodRunning. apply preserves_bind; [apply _|apply preserves_ask, _|]. intros existing s.
  destruct (mapR ParseAddr (PodIPs pod)) as [ips|e] eqn:Hips; [|done].
  specialize (Hu ips eq_refl). unfold mbind at 1, M_bind at 1, lift. revert s. fold (preserves keeps_world (A:=unit)).
  apply preserves_bind; [apply _| |intros _; apply preserves_bind; [apply _| |intros _]].
  - apply preserves_forM; [apply _|]. intros a Ha. unfold add_pod_ip. case_decide; [apply preserves_ret, _|].
    apply preserves_bind; [apply _|apply preserves_try, with_world_marks, AddPeer_marks|]. intros [l|e].
    + apply preserves_wrap, with_world_marks, AddClient_marks, used_canonical. by eapply Forall_forall in Hu.
    + destruct (errors_Is e _); [apply preserves_ret, _|apply preserves_throw, _].
  - apply preserves_forM; [apply _|]. intros a _. unfold drop_pod_ip. case_decide; [apply preserves_ret, _|].
    apply with_world_marks, DelPeer_marks.
  - apply preserves_bind; [apply _|by apply same_world_marks|]. intros _. apply preserves_forM; [apply _|].
    intros a _. by apply same_world_marks.
Qed.

Lemma handlePodDeletion_marks p : preserves keeps_world (handlePodDeletion (H:=TN) p).
Proof.
  unfold handlePodDeletion. apply preserves_bind; [apply _|apply preserves_ask, _|]. intros ips.
  apply preserves_bind; [apply _| |by intros _; apply same_world_marks]. apply preserves_forM; [apply _|]. intros a _. unfold release_ip.
  apply preserves_bind; [apply _|apply preserves_ask, _|]. intros ex.
  apply preserves_bind; [apply _| |by intros _; apply same_world_marks].
  destruct (negb ex); [apply with_world_marks, DelPeer_marks|apply preserves_ret, _].
Qed.

Lemma Reconcile_marks Get req :
  (∀ pod ips, Get = Ok pod → mapR ParseAddr (PodIPs pod) = Ok ips → Forall used ips) →
  preserves keeps_world (Reconcile (H:=TN) (H0:=GW) range r Get req).
Proof.
  intros Hu. unfold Reconcile. destruct Get as [pod|e].
  - destruct (negb _); [apply preserves_ret, _|]. destruct (isTerminated pod || _); apply preserves_wrap;
      [apply handlePodDeletion_marks|]. apply handlePodRunning_marks. intros ips. by apply Hu.
  - destruct (IsNotFound e); [apply preserves_wrap, handlePodDeletion_marks|apply preserves_throw, _].
Qed.

Lemma steps_marks s s' :
  rtc (any_step (T:=TN) (G:=GW) used range r) s s' → marked (world s) → marked (world s').
Proof.
  induction 1 as [|s1 s2 s3 [b Hs] _ IH]; [done|]. intros Hm. apply IH.
  assert (∀ Get req, admissible used s1 req Get → ∀ pod ips, Get = Ok pod →
    mapR ParseAddr (PodIPs pod) = Ok ips → Forall used ips) as Hu.
  { intros Get req Had pod ips ->. intros Hips. by destruct (proj2 Had ips Hips) as (_ & ? & _). }
  destruct Hs as [Get req s1 s2 Had Hrun|Get req s1 e s2 Had _ Hrun];
    pose proof (Reconcile_marks Get req (Hu Get req Had) s1) as Hk; rewrite Hrun in Hk; by apply Hk.
Qed.
End watcher.

(** ** Starting again *)

Lemma gateway_start_marked FoUPort Getenv k k' w fc nc {HL : HostLaws K} :
  gateway_start FoUPort Getenv k = (Ok (w, fc, nc), k') → marked k'.
Proof.
  intros HR. destruct (gateway_start_peers _ _ _ _ _ _ _ HR) as (Hi & Hg & _). split; [|done].
  unfold FouTunnel.IsInitialized in Hi. destruct (LinkByName fouDummy k') as [l|]; [by exists l|done].
Qed.

Lemma gateway_start_again FoUPort Getenv k k' w fc nc k2 :
  gateway_start FoUPort Getenv k = (Ok (w, fc, nc), k') → marked k2 →
  gateway_start FoUPort Getenv k2 = (Ok (w, fc, nc), k2).
Proof.
  unfold gateway_start. intros (env & k1 & Henv & HR)%bind_ok [[l1 Hl1] [l2 Hl2]]. unfold lift in Henv. injection Henv as Henv <-.
  rewrite (run_bind_ok (lift (gateway_env Getenv)) _ k2 env k2) by (unfold lift; by rewrite Henv).
  destruct env as [[myNS myName] [v4 v6]].
  apply bind_ok in HR as (fc' & k1 & Hfc & HR). unfold lift in Hfc. injection Hfc as Hfc <-.
  apply bind_ok in HR as ([] & k1 & _ & HR).
  apply bind_ok in HR as (nc' & k3 & Hnc & HR). unfold lift in Hnc. injection Hnc as Hnc <-.
  apply bind_ok in HR as ([] & k3 & _ & [= <- <- <- _]).
  rewrite (run_bind_ok (lift (NewFoUTunnelController FoUPort v4 v6)) _ k2 fc' k2) by (unfold lift; by rewrite Hfc).
  rewrite (run_bind_ok (FouTunnel.Init fc') _ k2 tt k2).
  2: { unfold FouTunnel.Init, try, ask, mbind, M_bind. by rewrite Hl1. }
  rewrite (run_bind_ok (lift (NewGateway "eth0" v4 v6)) _ k2 nc' k2) by (unfold lift; by rewrite Hnc).
  by rewrite (run_bind_ok (NatGateway.Init nc') _ k2 tt k2) by (by eapply gw_Init_done).
Qed.

(** C29: a container of an egress pod that is started again forgets its
    clients.  Let the first run have come to any state [s], failed calls
    included as long as no deletion failed, and the container end there.  The
    second run starts, with the same addresses, and changes nothing in the
    namespace: neither the rules nor the masquerading are added twice.  But
    its watcher tracks no pod, so when a client went away in the meantime, the
    Foo-over-UDP device of its address stays, whatever calls follow for other
    pods: no error, no retry and no deletion ever removes it, and the
    deletion of the pod itself, should it still be reported, removes nothing. *)
Theorem gateway_restart_forgets {E : LibErrors K} {HL : HostLaws K} (FoUPort : Z) (Getenv : string → string)
    (k k1 : K) (w : PodWatcher) (fc : FouTunnelController) (nc : gateway)
    (range : gmap string string → list (string * string)) (used : Addr → Prop) (s : WatcherState K) (a : Addr) :
  gateway_start FoUPort Getenv k = (Ok (w, fc, nc), k1) →
  (∀ x, used x → canonical x) → (∀ x y, used x → used y → fouName x = fouName y → x = y) →
  rtc (any_step (T:=fou_tunnel fc) (G:=nat_gateway nc) used range w)
    (NewPodWatcher (EgressName w) (EgressNamespace w) k1).2 s →
  used a → local_for fc a ≠ None → tracked s a →
  gateway_start FoUPort Getenv (world s) = (Ok (w, fc, nc), world s) ∧
  let s0 := (NewPodWatcher (EgressName w) (EgressNamespace w) (world s)).2 in
  (∀ p, handlePodDeletion (H:=fou_tunnel fc) p s0 = (Ok tt, s0)) ∧
  ∀ s', rtc (call_without (T:=fou_tunnel fc) (G:=nat_gateway nc) used range w a) s0 s' →
    fou_has_peer (world s') a ∧ ¬ tracked s' a.
Proof.
  intros HR Hcan Hinj Hrun Hu Hloc Ht.
  assert (marked (world s)) as Hm.
  { eapply steps_marks; [exact Hcan|exact Hrun|]. by eapply gateway_start_marked. }
  assert (fou_has_peer (world s) a) as Hp.
  { assert (watcher_inv (TL:=fou_tunnel_laws fc) used s) as Hinv.
    { eapply (reach_inv (TL:=fou_tunnel_laws fc) (GL:=nat_gateway_laws fc nc) used Hcan Hinj range w); [|exact Hrun].
      by apply initial_inv. }
    destruct (inv_tunnel _ _ Hinv a Ht) as [Hpe|Href]; [exact Hpe|exfalso].
    eapply fou_not_refused; [|exact Hloc|exact Href]. by destruct (Hcan a Hu) as (_ & ? & _). }
  split; [by eapply gateway_start_again|]. split.
  { intros p. unfold handlePodDeletion, get_ips, mbind, M_bind, ask. cbn. rewrite lookup_empty. cbn.
    unfold del_ips. cbn. by rewrite delete_empty. }
  intros s' Hsteps.
  assert (leaked (TL:=fou_tunnel_laws fc) used a s') as [H1 H2 _]; [|done].
  assert (leaked (TL:=fou_tunnel_laws fc) used a (NewPodWatcher (EgressName w) (EgressNamespace w) (world s)).2) as Hl.
  { split; cbn; [exact Hp| |intros p l; by rewrite lookup_empty]. intros (p & l & Hl & _). cbn in Hl. by rewrite lookup_empty in Hl. }
  induction Hsteps as [|x y z Hxy _ IH]; [done|]. apply IH.
  by eapply (call_leaked (TL:=fou_tunnel_laws fc) (GL:=nat_gateway_laws fc nc) used Hcan Hinj range w).
Qed.
End restart.

(** ** Witness *)

Definition ex_fou : FouTunnelController := mkFouTunnelController 6666 (Some (AddrV4 167772161)) None.
Definition ex_gw : gateway := mkGateway "eth0" (Some (AddrV4 167772161)) None.

Definition ex_started : Kern := (gateway_start 6666 ex_getenv empty_kern).2.

(** The first run has set the tunnel of a client up. *)
Definition ex_first : WatcherState Kern :=
  (Reconcile (H:=fou_tunnel ex_fou) (H0:=nat_gateway ex_gw) map_to_list ex_watcher
     (Ok (ex_pod "p" ["10.0.0.2"])) ex_p (mkWatcherState ∅ ∅ ex_started)).2.

Definition ex_peer : Addr := AddrV4 (be_val [10; 0; 0; 2]).

Lemma ex_peer_used : used_v4 ex_peer.
Proof.
  destruct ex_ips_canonical as [_ Hc]. rewrite Forall_forall in Hc. split; [|reflexivity].
  apply Hc. unfold ex_ips. rewrite !elem_of_cons. auto.
Qed.

Lemma gateway_restart_forgets_witness :
  (gateway_start 6666 ex_getenv (world ex_first)).2 = world ex_first ∧
  fou_has_peer (world (NewPodWatcher "egress-a" "internet" (world ex_first)).2) ex_peer ∧
  ¬ tracked (NewPodWatcher "egress-a" "internet" (world ex_first)).2 ex_peer.
Proof.
  destruct (gateway_restart_forgets 6666 ex_getenv empty_kern ex_started ex_watcher ex_fou ex_gw map_to_list
    used_v4 ex_first ex_peer) as (Hs & _ & Hl).
  - vm_compute. reflexivity.
  - intros x [Hx _]. exact Hx.
  - exact used_v4_inj.
  - apply rtc_once. exists true.
    eapply (step_ok _ _ _ (Ok (ex_pod "p" ["10.0.0.2"])) ex_p).
    + split; [reflexivity|]. intros ips. simpl PodIPs.
      assert (mapR ParseAddr ["10.0.0.2"] = Ok [ex_peer]) as -> by (vm_compute; reflexivity). intros [= <-].
      split; [apply NoDup_singleton|]. split; [|apply list_subseteq_nil]. constructor; [exact ex_peer_used|constructor].
    + vm_compute. reflexivity.
  - exact ex_peer_used.
  - discriminate.
  - exists ex_p, [ex_peer]. split; [vm_compute; reflexivity|left].
  - split; [rewrite Hs; reflexivity|]. exact (Hl _ (rtc_refl _ _)).
Defined.
