(* ===== verification/ReturnPath.v ===== *)
(** * Where the packets of an egress pod go

    The Foo-over-UDP tunnels and the NAT gateway in one namespace: the
    invariant of the clients' table, and, by the routing specification of
    [Routing], the way back to every client the pod watcher tracks. *)
From Stdlib Require Import Ascii String.
From S2P Require Import Prelude GoStrings NetAddr NetParse NetIPUtil Netlink SimKernel Routing Tunnel FouTunnel.
From S2P Require Import NatGateway Mocks PodWatcher WatcherServe EgressController System.

Local Open Scope Z_scope.

(** ** Addresses and their routes *)

Lemma IP_Equal_ToAddr x y : IP_Equal x y = true → ToAddr x = ToAddr y.
Proof.
  assert (∀ x y : IP, List.length x = 4%nat → List.length y = 16%nat →
    bool_decide (take 12 y = v4InV6Prefix) && bool_decide (x = drop 12 y) = true → ToAddr x = ToAddr y) as Hmix.
  { intros x' y' Hx Hy [H1%bool_decide_eq_true H2%bool_decide_eq_true]%andb_true_iff.
    unfold ToAddr, To4. rewrite decide_True by done. rewrite decide_False by (rewrite Hy; lia).
    rewrite decide_True by done. by rewrite H2. }
  unfold IP_Equal. case_decide as Hl; [by intros ->%bool_decide_eq_true|].
  case_decide as H1; [destruct H1; by apply Hmix|]. case_decide as H2; [|done]. destruct H2 as [H2 H3].
  intros [Ha%bool_decide_eq_true Hb%bool_decide_eq_true]%andb_true_iff. symmetry. apply Hmix; [done..|].
  by rewrite !bool_decide_eq_true_2.
Qed.

Lemma ToAddr_canonical a : canonical a → ToAddr (FromAddr a) = (a, true).
Proof.
  intros (Hwf & Hne & Hz & H4). rewrite ToAddr_FromAddr by done.
  destruct a as [|v|v z]; [done|done|]. cbn [withoutZone] in *. rewrite Hz. unfold Unmap. by rewrite H4.
Qed.

Lemma routes_to_inj r a b :
  canonical a → canonical b → routes_to a r = true → dst_prefix r = Some (host_prefix b) → a = b.
Proof.
  intros Ha Hb. unfold routes_to, dst_prefix. destruct (rt_Dst r) as [d|]; [|done].
  intros He%IP_Equal_ToAddr. rewrite ToAddr_canonical in He by done. unfold FromIPNet. rewrite He. simpl.
  destruct (Mask_Size _) as [ones ?]. intros [= H1 _]. destruct Ha as (_ & _ & Hz & _). congruence.
Qed.

Lemma contains_host a b : canonical a → canonical b → contains (host_prefix b) a = bool_decide (a = b).
Proof.
  intros Ha Hb. unfold contains, host_prefix, Prefix_Bits. cbn [p_ip p_bitsPlusOne].
  destruct (decide (BitLen b = BitLen a)) as [Hl|Hl].
  - rewrite (bool_decide_eq_true_2 (BitLen b = _)) by done. simpl.
    rewrite Hl. replace (BitLen a - (BitLen a + 1 - 1)) with 0 by lia. rewrite !Z.div_1_r.
    apply bool_decide_ext. split; [|by intros ->].
    destruct Ha as (_ & Hna & Hz & _), Hb as (_ & Hnb & Hz2 & _).
    destruct a, b; try done; cbn [addr_val withoutZone] in *; try (by intros ->); by intros ->; rewrite <- Hz, <- Hz2.
  - rewrite (bool_decide_eq_false_2 (BitLen b = _)) by done. simpl.
    symmetry. apply bool_decide_eq_false_2. by intros ->.
Qed.

(** ** The namespace of an egress pod *)

Section namespace.
Context {K : Type} {NL : Netlink K} {L : NetlinkLaws K}.

(** A route of the clients' table: to one client alone, through its device. *)
Definition client_entry (k : K) (f : Family) (r : Route) : Prop :=
  rt_Type r ≠ RTN_THROW ∧ ∃ b n l, canonical b ∧ f = addr_family b ∧ dst_prefix r = Some (host_prefix b) ∧
    fouName b = Ok n ∧ LinkByName n k = Ok l ∧ lindex l = rt_LinkIndex r.

Abbreviation clients_table k f := (filter (λ r, rt_Table r = egressTableID) (routes k f)).

(** The namespace of an egress pod whose rules are [R], and whose devices of
    IPv4 peers are those [t] makes. *)
Record egress_net (t : FouTunnelController) (R : Family → list Rule) (k : K) : Prop := {
  en_unique : index_unique k;
  en_rules : rules k = R;
  en_table f r : r ∈ clients_table k f → client_entry k f r;
  en_joins a n l : canonical a → Is4 a = true → fouName a = Ok n → LinkByName n k = Ok l → joins t a l;
}.

Lemma client_entry_mono k k' f r :
  (∀ a n l, fouName a = Ok n → LinkByName n k = Ok l → LinkByName n k' = Ok l) →
  client_entry k f r → client_entry k' f r.
Proof.
  intros Hk (Ht & b & n & l & Hb & Hf & Hd & Hn & Hl & Hi). split; [done|].
  exists b, n, l. split_and!; eauto.
Qed.

Lemma AddPeer_clients t a k f : clients_table (AddPeer t a k).2 f = clients_table k f.
Proof. apply (fou_AddPeer_net t a k), egress_not_kernel. Qed.

Lemma AddPeer_joins t a b n k l :
  (∀ x, local4 t = Some x → Is4 x = true) → a ≠ AddrInvalid → (fouName a = fouName b → a = b) → Is4 b = true →
  (∀ l, LinkByName n k = Ok l → joins t b l) → fouName b = Ok n →
  LinkByName n (AddPeer t a k).2 = Ok l → joins t b l.
Proof.
  intros Hfam Hna Hinj H4 Hk Hn Hl.
  destruct (LinkByName n k) as [l0|e] eqn:He.
  - assert (l0 = l) as ->; [|by apply Hk]. destruct (fou_AddPeer_net t a k) as (_ & _ & _ & Hold).
    specialize (Hold n l0). rewrite Hl in Hold. assert (Ok l = Ok l0) as [= ->]; [|done].
    apply Hold; [|done]. intros Haux%aux_reserved. by apply (fouName_not_reserved b n).
  - destruct (fou_invalid a) as [Hi|[m Hm]]; [by destruct a|].
    destruct (decide (n = m)) as [->|Hne].
    + assert (a = b) as -> by (apply Hinj; congruence). by eapply fou_AddPeer_joins.
    + rewrite (proj2 (fou_AddPeer_keeps t a m b n k Hm Hn)) in Hl by done. congruence.
Qed.

Lemma AddPeer_egress_net t R a k :
  (∀ x, local4 t = Some x → Is4 x = true) → canonical a → egress_net t R k → egress_net t R (AddPeer t a k).2.
Proof.
  intros Hfam Ha [Hu Hr Ht Hj]. destruct (fou_AddPeer_net t a k) as (Hr' & _ & Hu' & Hl). split.
  - by apply Hu'.
  - congruence.
  - intros f r. rewrite AddPeer_clients. intros Hin%Ht. eapply client_entry_mono; [|done].
    intros b n l Hn. apply Hl. intros Haux%aux_reserved. by apply (fouName_not_reserved b n).
  - intros b n l Hb H4 Hn. eapply AddPeer_joins; [done|by destruct Ha as (_ & ? & _)| |by eauto..].
    intros Heq. symmetry. by apply fouName_canonical_inj.
Qed.

(** Setting up NAT for the device [AddPeer] returned. *)
Lemma AddClient_egress_net t c R a l k k' :
  (∀ x, local4 t = Some x → Is4 x = true) → canonical a → egress_net t R k → AddPeer t a k = (Ok l, k') →
  egress_net t R (AddClient c a l k').2.
Proof.
  intros Hfam Ha Hk HA. pose proof (AddPeer_egress_net t R a k Hfam Ha Hk) as Hk'. rewrite HA in Hk'. simpl in Hk'.
  destruct Hk' as [Hu Hr Ht Hj].
  pose proof (AddClient_run c a l k' (proj1 (proj2 Ha))) as Hrun.
  destruct (AddClient c a l k') as [res k2]. simpl.
  inversion Hrun as [| | |e k1 Hs Hno Hup|k1 k3 Hs Hno Hup HR]; subst; [done..| |].
  - apply LinkSetUp_ok in Hup as (Hl & Hr2 & Ht2). split; [by eapply index_unique_same|congruence| |by intros b n l0; rewrite Hl; apply Hj].
    intros f r. rewrite Ht2 by exact egress_not_kernel. intros Hin%Ht.
    eapply client_entry_mono; [|done]. intros b n l0 _. by rewrite Hl.
  - destruct (new_client a l k' k1 k2 Ha Hup HR) as (r & Htb & Hi & Hd & [_ Hty] & Hp & Ho & Hl & Hr2).
    split; [by eapply index_unique_same|congruence| |by intros b n l0; rewrite Hl; apply Hj].
    assert (∀ f x, x ∈ clients_table k' f → client_entry k2 f x) as Hold.
    { intros f x Hin%Ht. eapply client_entry_mono; [|done]. intros b n l0 _. by rewrite Hl. }
    intros f x Hin. destruct (decide (f = addr_family a)) as [->|Hf].
    + rewrite Hp in Hin. apply elem_of_cons in Hin as [->|Hin]; [|by apply Hold].
      destruct (fou_invalid a) as [Hi0|[n Hn]]; [destruct Ha as (_ & ? & _); by destruct a|].
      destruct (fou_AddPeer_link t a n k l k' Hn HA) as (l2 & Hl2 & Hil & _).
      split; [done|]. exists a, n, l2. rewrite Hl. split_and!; try done. congruence.
    + apply Hold. rewrite <- Ho; [done|exact egress_not_kernel|congruence].
Qed.

Lemma DelPeer_egress_net t R a k : egress_net t R k → egress_net t R (DelPeer t a k).2.
Proof.
  intros Hk. destruct (fou_invalid a) as [Hi|[n Hn]]; [by destruct a|].
  destruct (fou_DelPeer_run t a n k Hn) as [(l & Hl & ->)|[(e & Hl & He & ->)|(e & Hl & He & ->)]]; [|done..].
  destruct (LinkDel l k) as [[[]|e] k'] eqn:HD; simpl; [|by apply LinkDel_err in HD as ->].
  pose proof (LinkByName_name _ _ _ Hl) as Hnm.
  apply LinkDel_ok in HD as ((m & Hgone) & Ho & Hr & Ht); [|by rewrite Hnm]. rewrite Hnm in *.
  assert (∀ x y, LinkByName x k' = Ok y → LinkByName x k = Ok y) as Hback.
  { intros x y Hx. destruct (decide (x = n)) as [->|Hne]; [congruence|]. by rewrite <- Ho. }
  destruct Hk as [Hu Hru Htb Hj]. split; [| | |by intros b nb lb Hb H4 Hnb Hlb%Hback; eapply Hj].
  - intros n1 n2 l1 l2 H1%Hback H2%Hback. by apply Hu.
  - congruence.
  - intros f r [Htab Hin]%list_elem_of_filter. rewrite Ht in Hin. apply list_elem_of_filter in Hin as [Hix Hin].
    destruct (Htb f r) as (Hty & b & nb & lb & Hb & Hf & Hd & Hnb & Hlb & Hib); [by apply list_elem_of_filter|].
    split; [done|]. exists b, nb, lb. split_and!; try done. rewrite Ho; [done|]. intros ->. congruence.
Qed.

(** Removing the device of another address keeps a client's route. *)
Lemma DelPeer_keeps_client t R a b k :
  canonical a → canonical b → egress_net t R k → fouName a ≠ fouName b →
  gw_has_client k b → gw_has_client (DelPeer t a k).2 b.
Proof.
  intros Ha Hb Hk Hne Hc. destruct (fou_invalid a) as [Hi|[n Hn]]; [by destruct a|].
  destruct (fou_DelPeer_run t a n k Hn) as [(l & Hl & ->)|[(e & Hl & He & ->)|(e & Hl & He & ->)]]; [|done..].
  destruct (LinkDel l k) as [[[]|e] k'] eqn:HD; simpl; [|by apply LinkDel_err in HD as ->].
  pose proof (LinkByName_name _ _ _ Hl) as Hnm.
  apply LinkDel_ok in HD as (_ & _ & _ & Ht); [|by rewrite Hnm].
  destruct Hc as (r & Hr & Htab & Hto). exists r. split_and!; [|done..]. rewrite Ht.
  apply list_elem_of_filter. split; [|done]. intros Hix.
  destruct (en_table _ _ _ Hk (addr_family b) r) as (_ & b' & nb & lb & Hb' & _ & Hd & Hnb & Hlb & Hib);
    [by apply list_elem_of_filter|].
  pose proof (routes_to_inj r b b' Hb Hb' Hto Hd) as <-.
  assert (nb = n) as ->; [|congruence]. eapply (en_unique _ _ _ Hk); [done..|congruence].
Qed.

(** The tunnels and the gateway keep the promises of [ServingLaws]. *)
Program Definition fou_serving (t : FouTunnelController) (c : gateway) (R : Family → list Rule)
    (families : ∀ x, local4 t = Some x → Is4 x = true) :
  ServingLaws K (T:=fou_tunnel t) (TL:=fou_tunnel_laws t) (G:=nat_gateway c) (GL:=nat_gateway_laws t c) := {|
  net_ok := egress_net t R;
|}.
Next Obligation. intros t c R Hfam a w. by apply AddPeer_egress_net. Qed.
Next Obligation. intros t c R Hfam a l w w' Ha Hw HA. exact (AddClient_egress_net t c R a l w w' Hfam Ha Hw HA). Qed.
Next Obligation. intros t c R Hfam a w _. apply DelPeer_egress_net. Qed.
Next Obligation.
  intros t c R Hfam a w b _ _. apply has_client_perm. intros f. exists []. simpl. by rewrite AddPeer_clients.
Qed.
Next Obligation. intros t c R Hfam a w b Ha Hb Hw Hne. exact (DelPeer_keeps_client t R a b w Ha Hb Hw Hne). Qed.
End namespace.

(** ** From the start of the pod to its data plane *)

Section return_path.
Context {K : Type} {NL : Netlink K} {L : NetlinkLaws K} {H : HostLaws K} {E : LibErrors K}.
Context (selector : string * Z → Packet → bool).

Abbreviation clients_table k f := (filter (λ r, rt_Table r = egressTableID) (routes k f)).

(** A namespace no gateway has been in. *)
Record bare_pod (k : K) : Prop := {
  bp_unique : index_unique k;
  bp_table f : clients_table k f = [];
  bp_rules f : filter (λ r, ru_Priority r = egressRulePrio) (rules k f) = [];
  bp_marker : ∃ e, LinkByName egressDummy k = Err e;
  bp_peers a : ¬ fou_has_peer k a;
}.

Lemma fou_Init_bare t k k' : FouTunnel.Init t k = (Ok tt, k') → bare_pod k → bare_pod k' ∧ rules k' = rules k.
Proof.
  intros HI Hb. pose proof Hb as [Hu Ht Hr [e He] Hp]. destruct (fou_Init_peers _ _ _ HI) as [_ Hl].
  assert (∀ a, ¬ fou_has_peer k' a) as Hp'.
  { intros a (n & l & Hn & Hln). apply (Hp a). exists n, l. by rewrite <- (Hl a n Hn). }
  destruct (Init_cases t k) as [(l & _ & Hk)|[(e1 & e0 & _ & Hk & _)|(e0 & l & k1 & k2 & _ & (Hn & Hru & Hrt) & Ha & Hk)]];
    rewrite HI in Hk; [by injection Hk as ->|done|]. injection Hk as ->.
  pose proof (LinkAdd_unique _ _ _ _ Ha) as Hu2. apply LinkAdd_ok in Ha as (_ & _ & _ & Hf & Hru2 & Hrt2).
  split; [|congruence]. split; [|intros f; rewrite Hrt2, Hrt; apply Ht|intros f; rewrite Hru2, Hru; apply Hr| |done].
  - apply Hu2. by eapply index_unique_same.
  - exists e. rewrite Hf; [by rewrite Hn|..]; by apply (bool_decide_unpack _).
Qed.

(** The rules of other priorities than the gateway's are the same. *)
Definition other_rules (k k' : K) : Prop := ∀ f,
  filter (λ r, ru_Priority r ≠ egressRulePrio) (rules k' f) = filter (λ r, ru_Priority r ≠ egressRulePrio) (rules k f).

(** What the gateway's set-up leaves. *)
Lemma gw_Init_bare t c k k' :
  NatGateway.Init c k = (Ok tt, k') → bare_pod k →
  egress_net t (rules k') k' ∧ (∀ a, ¬ fou_has_peer k' a) ∧ other_rules k k' ∧
  ∀ f, gw_addr c f ≠ None → ∃ r, filter (λ r, ru_Priority r = egressRulePrio) (rules k' f) = [r] ∧ egress_rule c r.
Proof.
  intros HI [Hu Ht Hr [e He] Hp]. destruct (gw_Init_peers _ _ _ HI) as (_ & _ & Hl).
  destruct (gw_Init_new c k k' e He HI) as (k2 & l & Hx & Hrt & Hsl & HA).
  pose proof (LinkAdd_unique _ _ _ _ HA) as Hu2. apply LinkAdd_ok in HA as (_ & _ & _ & _ & Hru2 & Hrt2).
  assert (∀ a, ¬ fou_has_peer k' a) as Hp'.
  { intros a (n & l0 & Hn & Hln). apply (Hp a). exists n, l0. by rewrite <- (Hl a n Hn). }
  split_and!.
  - split; [|done| |].
    + apply Hu2. by eapply index_unique_same.
    + intros f r. rewrite Hrt2, Hrt, Ht. by intros ?%elem_of_nil.
    + intros a n l0 _ _ Hn Hl0. destruct (Hp' a). by exists n, l0.
  - done.
  - intros f. rewrite Hru2. specialize (Hx f). unfold rules_extended in Hx. destruct (gw_addr c f); [|by rewrite Hx].
    destruct Hx as (r & Hrule & Hone). apply (plus_one_filter _ _ _ _ Hone). intros Hne. by apply Hne, Hrule.
  - intros f Hf. specialize (Hx f). unfold rules_extended in Hx. destruct (gw_addr c f); [|done].
    destruct Hx as (r & Hrule & Hperm%plus_one_perm). exists r. split; [|done]. rewrite Hru2.
    apply Permutation_singleton_r. rewrite Hperm, filter_cons_True by apply Hrule. by rewrite Hr.
Qed.

Lemma gateway_start_net FoUPort Getenv k k' w fc nc :
  gateway_start FoUPort Getenv k = (Ok (w, fc, nc), k') → bare_pod k →
  egress_net fc (rules k') k' ∧ (∀ a, ¬ fou_has_peer k' a) ∧ other_rules k k' ∧ iface nc = "eth0" ∧
  (∀ x, local4 fc = Some x → Is4 x = true) ∧
  ∀ f, gw_addr nc f ≠ None → ∃ r, filter (λ r, ru_Priority r = egressRulePrio) (rules k' f) = [r] ∧ egress_rule nc r.
Proof.
  unfold gateway_start. intros (env & k1 & Henv & Hrun)%bind_ok Hb. unfold lift in Henv. injection Henv as _ <-.
  destruct env as [[myNS myName] [v4 v6]].
  apply bind_ok in Hrun as (fc' & k1 & Hfc & Hrun). unfold lift in Hfc. injection Hfc as Hfc <-.
  apply bind_ok in Hrun as ([] & k1 & Hi & Hrun).
  apply bind_ok in Hrun as (nc' & k2 & Hnc & Hrun). unfold lift in Hnc. injection Hnc as Hnc <-.
  apply bind_ok in Hrun as ([] & k2 & Hg & [= <- <- <- <-]).
  destruct (fou_Init_bare _ _ _ Hi Hb) as [Hb1 Hru].
  destruct (gw_Init_bare fc' _ _ _ Hg Hb1) as (H1 & H2 & Ho & H3). split_and!; try done;
    [intros f; by rewrite (Ho f), Hru| |by apply NewFoUTunnelController_families in Hfc as (-> & ? & _)].
  unfold NewGateway, mbind, result_bind in Hnc. repeat case_match; by simplify_eq.
Qed.

(** ** The rule on the clients' table *)

Lemma clients_table_lookup t R k a :
  egress_net t R k → canonical a →
  match fib_lookup (table k (addr_family a) egressTableID) a with
  | Some r => gw_has_client k a ∧ rt_Type r ≠ RTN_THROW ∧
      ∃ n l, fouName a = Ok n ∧ LinkByName n k = Ok l ∧ rt_LinkIndex r = lindex l
  | None => ¬ gw_has_client k a
  end.
Proof.
  intros Hk Ha. unfold table.
  destruct (fib_lookup _ a) as [r|] eqn:Hf.
  - apply fib_lookup_Some in Hf as (Hin & Hc & _).
    destruct (en_table _ _ _ Hk _ _ Hin) as (Hty & b & n & l & Hb & _ & Hd & Hn & Hl & Hi).
    apply list_elem_of_filter in Hin as [Htab Hin].
    assert (a = b) as <-.
    { assert (contains (host_prefix b) a = true) as Hcb.
      { revert Hc. unfold route_covers. rewrite Hd. unfold dst_prefix in Hd. by destruct (rt_Dst r). }
      rewrite contains_host in Hcb by done. by apply bool_decide_eq_true in Hcb. }
    split_and!; [|done|by exists n, l]. exists r. split_and!; [done..|].
    assert (∃ d, rt_Dst r = Some d) as [d Hdd].
    { unfold dst_prefix in Hd. destruct (rt_Dst r) as [d|]; [by exists d|done]. }
    eapply dst_prefix_routes_to; [done|by eapply routes_bytes|done|done|]. by destruct Ha as (_ & _ & ? & _).
  - intros (r & Hr & Htab & Hto). assert (r ∈ clients_table k (addr_family a)) as Hin by (by apply list_elem_of_filter).
    destruct (en_table _ _ _ Hk _ _ Hin) as (_ & b & n & l & Hb & _ & Hd & _).
    pose proof (routes_to_inj r a b Ha Hb Hto Hd) as <-.
    apply (proj1 (fib_lookup_None _ a)) with (r := r) in Hf; [|done].
    assert (contains (host_prefix a) a = true) as Hca by (rewrite contains_host by done; by apply bool_decide_eq_true).
    unfold route_covers in Hf. rewrite Hd in Hf. unfold dst_prefix in Hd. destruct (rt_Dst r); [congruence|done].
Qed.

Lemma egress_rule_route t R c k a r :
  egress_net t R k → canonical a → egress_rule c r →
  (gw_has_client k a → ∃ n l, fouName a = Ok n ∧ LinkByName n k = Ok l ∧
     rt_LinkIndex <$> rule_route selector k (mkPacket a (iface c)) r = Some (lindex l)) ∧
  (¬ gw_has_client k a → rule_route selector k (mkPacket a (iface c)) r = None).
Proof.
  intros Hk Ha (Htab & _ & Hi & Hd & Ho). unfold rule_route. rewrite plain_rule_selects by done.
  cbn [pkt_iif pkt_dst]. rewrite Hi, bool_decide_eq_true_2 by auto. rewrite Htab.
  pose proof (clients_table_lookup t R k a Hk Ha) as Hlk.
  destruct (fib_lookup _ a) as [rt|]; [|done]. destruct Hlk as (Hc & Hty & n & l & Hn & Hl & Hix).
  rewrite decide_False by done. split; [|done]. intros _. exists n, l. simpl. by rewrite Hix.
Qed.

(** The tables of others give for a packet what they gave. *)
Definition tables_agree (k k' : K) (pkt : Packet) : Prop :=
  ∀ t, t ≠ egressTableID →
    fib_lookup (table k' (addr_family (pkt_dst pkt)) t) (pkt_dst pkt) =
    fib_lookup (table k (addr_family (pkt_dst pkt)) t) (pkt_dst pkt).

(** An address that no client has is routed as before the gateway came. *)
Lemma no_client_route t R k k' a iif r :
  bare_pod k → other_rules k k' → egress_net t R k' → canonical a → ¬ gw_has_client k' a →
  filter (λ r, ru_Priority r = egressRulePrio) (rules k' (addr_family a)) = [r] → ru_Table r = egressTableID →
  tables_agree k k' (mkPacket a iif) →
  route_of selector k' (mkPacket a iif) = route_of selector k (mkPacket a iif).
Proof.
  intros [_ Hempty Hno _ _] Hoth Hnet Ha Hc Hr Htab Hagree.
  pose proof (clients_table_lookup t R k' a Hnet Ha) as Hlk.
  assert (fib_lookup (table k' (addr_family a) egressTableID) a = None) as Hnone
    by (destruct (fib_lookup _ a) as [rt|]; [by destruct Hlk|done]).
  assert (∀ q, rule_route selector k' (mkPacket a iif) q = rule_route selector k (mkPacket a iif) q) as Hsame.
  { intros q. apply rule_route_lookup. simpl. destruct (decide (ru_Table q = egressTableID)) as [->|Hq]; [|by apply Hagree].
    rewrite Hnone. unfold table. by rewrite Hempty. }
  destruct (sides_agree selector egressRulePrio k k' (mkPacket a iif)) as [E1 E2]; [split; [apply Hoth|intros; apply Hsame]|].
  rewrite (route_of_none selector egressRulePrio k) by apply Hno. rewrite <- E1, <- E2.
  rewrite (route_of_one selector egressRulePrio r) by done.
  replace (rule_route selector k' (mkPacket a iif) r) with (@None Route); [done|].
  unfold rule_route. simpl. rewrite Htab, Hnone. by destruct (rule_selects _ r _).
Qed.

(** The routes of a running egress pod. *)
Lemma egress_pod_routes (FoUPort : Z) (Getenv : string → string) (k k' : K)
    (w : PodWatcher) (fc : FouTunnelController) (nc : gateway)
    (range : gmap string string → list (string * string)) (used : Addr → Prop) (s : WatcherState K) (a : Addr) :
  bare_pod k → gateway_start FoUPort Getenv k = (Ok (w, fc, nc), k') →
  (∀ a, used a → canonical a) → (∀ a b, used a → used b → fouName a = fouName b → a = b) →
  rtc (watcher_step (T:=fou_tunnel fc) (G:=nat_gateway nc) used range w true)
    (NewPodWatcher (EgressName w) (EgressNamespace w) k').2 s →
  used a → supports nc a = true →
  let pkt := mkPacket a "eth0" in
  let before := route_before selector egressRulePrio (world s) pkt in
  (tracked s a → ∃ n l, fouName a = Ok n ∧ LinkByName n (world s) = Ok l ∧ (Is4 a = true → joins fc a l) ∧
     rt_LinkIndex <$> route_of selector (world s) pkt =
       match before with Some r => Some (rt_LinkIndex r) | None => Some (lindex l) end) ∧
  (¬ tracked s a → route_of selector (world s) pkt =
     or_else before (route_after selector egressRulePrio (world s) pkt)) ∧
  other_rules k (world s) ∧
  (¬ tracked s a → tables_agree k (world s) pkt → route_of selector (world s) pkt = route_of selector k pkt).
Proof.
  intros Hb HG Hcan Hinj Hreach Hu Hs pkt before.
  destruct (gateway_start_net _ _ _ _ _ _ _ HG Hb) as (Hnet & Hfree & Hoth & Hif & Hfam & Hrule).
  destruct (gateway_start_parts _ _ _ _ _ _ _ HG) as (_ & _ & _ & _ & _ & Hsup & _).
  pose proof (Hcan a Hu) as Ha. pose proof (proj2 (Hsup a (proj1 (proj2 Ha))) Hs) as Hloc.
  pose proof (egress_pod_tunnels fc nc range w used k' s Hcan Hinj (λ b _, Hfree b) Hreach a Hu Hloc) as Hdev.
  assert (served (SL:=fou_serving fc nc (rules k') Hfam) s) as [Hn Hserved].
  { eapply (reach_served (TL:=fou_tunnel_laws fc) (GL:=nat_gateway_laws fc nc) (SL:=fou_serving fc nc (rules k') Hfam)
      used Hcan Hinj range w); [by apply initial_served|by apply initial_inv|].
    eapply rtc_subrel; [|exact Hreach]. intros x y Hx. by exists true. }
  simpl in Hn. assert (tracked s a ↔ gw_has_client (world s) a) as Htr.
  { split.
    - intros Ht. destruct (Hserved a Ht) as [Hc|Href]; [exact Hc|exfalso].
      eapply fou_not_refused; [|exact Hloc|exact Href]. by destruct Ha as (_ & ? & _).
    - intros Hc. pose proof (clients_table_lookup _ _ _ _ Hn Ha) as Hlk.
      destruct (fib_lookup _ a); [|done]. destruct Hlk as (_ & _ & n & l & Hfn & Hln & _). apply Hdev. by exists n, l. }
  destruct (Hrule (addr_family a)) as (r & Hr & Heg).
  { unfold addr_family. destruct a; simpl in *; [by destruct Ha as (_ & ? & _)|by apply bool_decide_eq_true in Hs..]. }
  assert (filter (λ r, ru_Priority r = egressRulePrio) (rules (world s) (addr_family (pkt_dst pkt))) = [r]) as Hr'
    by (by rewrite (en_rules _ _ _ Hn)).
  pose proof (route_of_one selector egressRulePrio r (world s) pkt Hr') as Hone. fold before in Hone.
  destruct (egress_rule_route _ _ nc (world s) a r Hn Ha Heg) as [Hin Hout]. rewrite Hif in Hin, Hout. fold pkt in Hin, Hout.
  assert (other_rules k (world s)) as Ho' by (intros f; by rewrite (en_rules _ _ _ Hn), Hoth).
  rewrite Htr. split_and!; [| |done|].
  - intros Hc. destruct (Hin Hc) as (n & l & Hfn & Hln & Hrt). exists n, l. split_and!; [done|done|by intros H4; eapply en_joins|].
    rewrite Hone. destruct before; [done|]. simpl. by destruct (rule_route selector (world s) pkt r).
  - intros Hc. by rewrite Hone, (Hout Hc).
  - intros Hc Hag. eapply no_client_route; try done. apply Heg.
Qed.

(** C5: the way back.  Let an egress pod have started in a namespace no gateway
    has been in, and its watcher have made calls none of which failed, on pods
    whose addresses are distinct, canonical, with device names of their own,
    and never lost while the pod runs.  Then a packet that enters through eth0
    for an address [a] of a family the pod serves goes, unless a rule of
    smaller priority number routes it, into [a]'s own Foo-over-UDP device when
    [a] is tracked.  The device of an IPv4 address joins the pod's IPv4 address
    to it, at the gateway's port cut to 16 bits.  When [a] is not tracked, the
    packet is left to the rules of other priorities; these are the ones there
    were before the start, in their order; and if the tables that are not the
    gateway's give for [a] what they gave, the packet takes the route it took
    before the start. *)
Theorem gateway_return_path (FoUPort : Z) (Getenv : string → string) (k k' : K)
    (w : PodWatcher) (fc : FouTunnelController) (nc : gateway)
    (range : gmap string string → list (string * string)) (used : Addr → Prop) (s : WatcherState K) (a : Addr) :
  bare_pod k → gateway_start FoUPort Getenv k = (Ok (w, fc, nc), k') →
  (∀ a, used a → canonical a) → (∀ a b, used a → used b → fouName a = fouName b → a = b) →
  rtc (watcher_step (T:=fou_tunnel fc) (G:=nat_gateway nc) used range w true)
    (NewPodWatcher (EgressName w) (EgressNamespace w) k').2 s →
  used a → supports nc a = true →
  let pkt := mkPacket a "eth0" in
  let before := route_before selector egressRulePrio (world s) pkt in
  (tracked s a → ∃ n l, fouName a = Ok n ∧ LinkByName n (world s) = Ok l ∧ (Is4 a = true → joins fc a l) ∧
     rt_LinkIndex <$> route_of selector (world s) pkt =
       match before with Some r => Some (rt_LinkIndex r) | None => Some (lindex l) end) ∧
  (¬ tracked s a → route_of selector (world s) pkt =
     or_else before (route_after selector egressRulePrio (world s) pkt)) ∧
  other_rules k (world s) ∧
  (¬ tracked s a → tables_agree k (world s) pkt → route_of selector (world s) pkt = route_of selector k pkt).
Proof. apply egress_pod_routes. Qed.
End return_path.

(** ** Witnesses *)

Lemma empty_bare : bare_pod empty_kern.
Proof.
  split; [|by intros []|by intros []|by eexists|exact empty_no_peer].
  intros n1 n2 l1 l2 [H1 _]%sim_LinkByName_ok [H2 _]%sim_LinkByName_ok _. simpl in H1, H2.
  apply lookup_singleton_Some in H1 as [<- _], H2 as [<- _]. done.
Qed.

Definition ret_fou : FouTunnelController := mkFouTunnelController 5555 (Some (AddrV4 167772161)) None.
Definition ret_gw : gateway := mkGateway "eth0" (Some (AddrV4 167772161)) None.
Definition ret_kern : Kern := (gateway_start 5555 ex_getenv empty_kern).2.

(** The watcher has seen one pod, with the addresses 10.0.0.1 and 10.0.0.2. *)
Definition ret_state : WatcherState Kern :=
  (Reconcile (H:=fou_tunnel ret_fou) (H0:=nat_gateway ret_gw) map_to_list ex_watcher
     (Ok (ex_pod "p" ["10.0.0.1"; "10.0.0.2"])) (mkNamespacedName "default" "p")
     (mkWatcherState ∅ ∅ ret_kern)).2.

Lemma ret_tracked a : tracked ret_state a ↔ a ∈ ex_ips.
Proof.
  assert (podToPodIPs ret_state = {[ mkNamespacedName "default" "p" := ex_ips ]}) as Hp by (vm_compute; reflexivity).
  unfold tracked. rewrite Hp. split.
  - intros (p & l & [_ <-]%lookup_singleton_Some & Ha). exact Ha.
  - intros Ha. exists (mkNamespacedName "default" "p"), ex_ips. exact (conj (lookup_singleton_eq _ _) Ha).
Qed.

Definition addr4 (b : list Z) : Addr := AddrV4 (be_val b).

Lemma gateway_return_path_witness :
  let via := λ b, rt_LinkIndex <$> route_of (λ _ _, true) (world ret_state) (mkPacket (addr4 b) "eth0") in
  (∃ n l, fouName (addr4 [10; 0; 0; 2]) = Ok n ∧ LinkByName n (world ret_state) = Ok l ∧
     fou_ends l = Some (FOU_ENCAP_DIRECT, 5555, [10; 0; 0; 2], [10; 0; 0; 1]) ∧ via [10; 0; 0; 2] = Some (lindex l)) ∧
  via [10; 0; 0; 9] = None.
Proof.
  destruct ex_ips_canonical as [Hnd Hc].
  assert (∀ v, 0 ≤ v < 2 ^ 32 → used_v4 (AddrV4 v)) as Hused.
  { intros v Hv. split; [split_and!; done|done]. }
  assert (∀ a, a ∈ ex_ips → used_v4 a) as Hv4.
  { intros a Ha. unfold ex_ips in Ha. rewrite !elem_of_cons, elem_of_nil in Ha.
    destruct Ha as [->|[->|[]]]; apply Hused; vm_compute; split; congruence. }
  assert (rtc (watcher_step (T:=fou_tunnel ret_fou) (G:=nat_gateway ret_gw) used_v4 map_to_list ex_watcher true)
    (mkWatcherState ∅ ∅ ret_kern) ret_state) as Hreach.
  { apply rtc_once. eapply (step_ok _ _ _ (Ok (ex_pod "p" ["10.0.0.1"; "10.0.0.2"])) (mkNamespacedName "default" "p")).
    - split; [reflexivity|]. intros ips. simpl PodIPs. rewrite ex_parse. intros [= <-].
      split; [exact Hnd|]. split; [|apply list_subseteq_nil]. rewrite Forall_forall. exact Hv4.
    - vm_compute. reflexivity. }
  assert (gateway_start 5555 ex_getenv empty_kern = (Ok (ex_watcher, ret_fou, ret_gw), ret_kern)) as HG
    by (vm_compute; reflexivity).
  split.
  - destruct (gateway_return_path (λ _ _, true) 5555 ex_getenv empty_kern ret_kern ex_watcher ret_fou ret_gw
      map_to_list used_v4 ret_state (addr4 [10; 0; 0; 2]) empty_bare HG (λ a Ha, proj1 Ha) used_v4_inj Hreach)
      as [Hin _]; [apply Hv4; right; left|reflexivity|].
    destruct Hin as (n & l & Hn & Hl & Hj & Hr); [apply ret_tracked; right; left|].
    exists n, l. split; [exact Hn|]. split; [exact Hl|].
    split; [destruct (Hj eq_refl) as (lc & [= <-] & ->); vm_compute; reflexivity|].
    etrans; [exact Hr|]. vm_compute. reflexivity.
  - destruct (gateway_return_path (λ _ _, true) 5555 ex_getenv empty_kern ret_kern ex_watcher ret_fou ret_gw
      map_to_list used_v4 ret_state (addr4 [10; 0; 0; 9]) empty_bare HG (λ a Ha, proj1 Ha) used_v4_inj Hreach)
      as (_ & Hout & _ & _); [apply Hused; vm_compute; split; congruence|reflexivity|].
    cbv beta. rewrite Hout; [vm_compute; reflexivity|].
    intros Hx%ret_tracked. unfold ex_ips in Hx. rewrite !elem_of_cons, elem_of_nil in Hx.
    destruct Hx as [Hx|[Hx|[]]]; discriminate Hx.
Defined.
