(* ===== verification/Mains.v ===== *)
(** * The main functions of the three daemons

    cmd/egress-controller, cmd/nat-gateway and cmd/ponad, from the command
    line to the start of the manager, and the [SetupWithManager] methods they
    call.  controller-runtime's manager and the listening socket are a
    parameter ([Runtime]); the set-up of tunnels and NAT in the egress pod is
    [gateway_start] of [System].  Logging is not modelled. *)
From Stdlib Require Import Ascii String.
From S2P Require Import Prelude GoStrings NetAddr NetParse NetIPUtil Netlink SimKernel Tunnel Mocks.
From S2P Require Import FouTunnel NatGateway PodWatcher EgressAPI EgressController CniPlugin Ponad GoFlag System.

Local Open Scope Z_scope.

(** ** controller-runtime *)

Record TLSConfig := mkTLSConfig { NextProtos : list string }.

Record MetricsOptions := mkMetricsOptions {
  mo_BindAddress : string; mo_SecureServing : bool; mo_TLSOpts : list (TLSConfig → TLSConfig);
  mo_FilterProvider : option string }.

Record ManagerOptions := mkManagerOptions {
  Metrics : MetricsOptions;
  WebhookTLSOpts : option (list (TLSConfig → TLSConfig)); (* of the webhook server, if one is given *)
  HealthProbeBindAddress : string;
  LeaderElection : bool; LeaderElectionID : string;
  GracefulShutdownTimeout : option Z (* seconds *) }.

(** The kinds of objects controllers watch. *)
Inductive Kind := KEgress | KPod | KServiceAccount | KClusterRole | KClusterRoleBinding | KDeployment | KService | KPDB.

(** A controller and its configuration. *)
Inductive Reconciler :=
  | REgress (r : EgressReconciler)
  | RPod (w : PodWatcher) (fc : FouTunnelController) (nc : gateway).

Record Registration := mkRegistration { reg_For : Kind; reg_Owns : list Kind; reg_Complete : Reconciler }.

Class Runtime (P : Type) := {
  RegisteredFlags : FlagSet; (* the flags libraries register in their [init] *)
  GetConfigOrDie : M P unit; (* an error ends the process with status 1 *)
  NewManager : ManagerOptions → M P unit;
  Complete : Registration → M P unit; (* of ctrl.NewControllerManagedBy *)
  AddHealthzCheck : string → M P unit;
  AddReadyzCheck : string → M P unit;
  Listen : string → string → M P unit; (* net.Listen *)
  GetAPIReader : P → Reader;
  mgr_Add : server → M P unit;
  mgr_Start : M P unit;
}.

(** The status of a process whose main exits with 1 on any error. *)
Definition exit_status {S} (m : M S unit) (s : S) : Z * S :=
  match m s with (Ok _, s') => (0, s') | (Err _, s') => (1, s') end.

(** [flag.Parse], then the rest of main. *)
Definition with_flags {S P} {RT : Runtime P} (flags : FlagSet) (args : list string) (main : FlagSet → M S unit)
    (s : S) : Z * S :=
  match flag_Parse (flags ∪ RegisteredFlags) args with
  | inl fs => exit_status (main fs) s
  | inr status => (status, s)
  end.

(** ** SetupWithManager *)

Section mains.
Context {P : Type} {RT : Runtime P}.

Definition EgressReconciler_SetupWithManager (r : EgressReconciler) : M P unit :=
  Complete (mkRegistration KEgress
    [KServiceAccount; KClusterRole; KClusterRoleBinding; KDeployment; KService; KPDB] (REgress r)).

Definition PodWatcher_SetupWithManager (w : PodWatcher) (fc : FouTunnelController) (nc : gateway) : M P unit :=
  Complete (mkRegistration KPod [] (RPod w fc nc)).

(** ** cmd/egress-controller *)

Definition controller_flags : FlagSet :=
  <["metrics-bind-address" := FString "0"]> (<["health-probe-bind-address" := FString ":8081"]>
  (<["leader-elect" := FBool false]> (<["metrics-secure" := FBool true]> (<["enable-http2" := FBool false]>
  (<["fou-port" := FInt 5555]> {["natgateway-image" := FString ""]}))))).

Definition disableHTTP2 (c : TLSConfig) : TLSConfig := mkTLSConfig ["http/1.1"].

Definition tls_opts (enableHTTP2 : bool) : list (TLSConfig → TLSConfig) :=
  if negb enableHTTP2 then [disableHTTP2] else [].

Definition metrics_options (fs : FlagSet) : MetricsOptions :=
  mkMetricsOptions (string_var fs "metrics-bind-address") (bool_var fs "metrics-secure")
    (tls_opts (bool_var fs "enable-http2"))
    (if bool_var fs "metrics-secure" then Some "WithAuthenticationAndAuthorization" else None).

(** The same in cmd/nat-gateway. *)
Definition manager_options (fs : FlagSet) : ManagerOptions :=
  mkManagerOptions (metrics_options fs) (Some (tls_opts (bool_var fs "enable-http2")))
    (string_var fs "health-probe-bind-address") (bool_var fs "leader-elect") "7e4aaa0a.pona.cybozu.com" None.

Definition controller_main_body (fs : FlagSet) : M P unit :=
  r ← lift (controller_config (int_var fs "fou-port") (string_var fs "natgateway-image"));
  GetConfigOrDie;;
  NewManager (manager_options fs);;
  EgressReconciler_SetupWithManager r;;
  AddHealthzCheck "healthz";;
  AddReadyzCheck "readyz";;
  mgr_Start.

Definition controller_main (args : list string) : P → Z * P := with_flags controller_flags args controller_main_body.

(** ** cmd/ponad *)

Definition gracefulTimeout : Z := 20.
Definition defaultSocketPath : string := "/run/ponad.sock".

Definition ponad_flags : FlagSet :=
  <["metrics-addr" := FString ":9384"]> (<["health-addr" := FString ":9385"]>
  (<["socket" := FString defaultSocketPath]> {["egress-port" := FInt 5555]})).

Definition setupManager (fs : FlagSet) : M P unit :=
  GetConfigOrDie;;
  NewManager (mkManagerOptions (mkMetricsOptions (string_var fs "metrics-addr") false [] None) None
    (string_var fs "health-addr") false "" (Some gracefulTimeout));;
  AddHealthzCheck "ping";;
  AddReadyzCheck "ping".

Definition startPonad (fs : FlagSet) : M P unit :=
  Listen "unix" (string_var fs "socket");;
  reader ← ask (λ p, Ok (GetAPIReader p));
  mgr_Add (NewServer reader (int_var fs "egress-port"));;
  mgr_Start.

Definition ponad_main (args : list string) : P → Z * P :=
  with_flags ponad_flags args (λ fs, setupManager fs;; startPonad fs).

(** ** cmd/nat-gateway *)

Definition gateway_flags : FlagSet :=
  <["metrics-bind-address" := FString "0"]> (<["health-probe-bind-address" := FString ":8081"]>
  (<["leader-elect" := FBool false]> (<["metrics-secure" := FBool true]> (<["enable-http2" := FBool false]>
  {["fou-port" := FInt 5555]})))).

Context {K : Type} {NL : Netlink K}.

(** The process has a manager and lives in the pod's network namespace. *)
Definition on_manager {X} (m : M P X) : M (P * K) X := λ s, let '(x, p) := m s.1 in (x, (p, s.2)).
Definition on_namespace {X} (m : M K X) : M (P * K) X := λ s, let '(x, k) := m s.2 in (x, (s.1, k)).

(** Everything before the manager is started. *)
Definition gateway_ready (Getenv : string → string) (fs : FlagSet)
    : M (P * K) (PodWatcher * FouTunnelController * gateway) :=
  on_manager (GetConfigOrDie;; NewManager (manager_options fs));;
  c ← on_namespace (gateway_start (int_var fs "fou-port") Getenv);
  let '(w, fc, nc) := c in
  on_manager (
    PodWatcher_SetupWithManager w fc nc;;
    AddHealthzCheck "healthz";;
    AddReadyzCheck "readyz");;
  mret (w, fc, nc).

Definition gateway_main_body (Getenv : string → string) (fs : FlagSet) : M (P * K) unit :=
  gateway_ready Getenv fs;; on_manager mgr_Start.

Definition gateway_main (Getenv : string → string) (args : list string) : P * K → Z * (P * K) :=
  with_flags gateway_flags args (gateway_main_body Getenv).
End mains.

(** ** The metrics and webhook servers *)

Definition apply_tls (opts : list (TLSConfig → TLSConfig)) (c : TLSConfig) : TLSConfig := foldl (λ c f, f c) c opts.

Lemma lookup_flag {P} `{RT : Runtime P} (flags : FlagSet) name v :
  flags !! name = Some v → (flags ∪ RegisteredFlags) !! name = Some v.
Proof. apply lookup_union_Some_l. Qed.

Lemma unset_flag {P} `{RT : Runtime P} (flags fs : FlagSet) args name v :
  flags !! name = Some v → flag_Parse (flags ∪ RegisteredFlags) args = inl fs → not_named name args →
  fs !! name = Some v.
Proof.
  intros Hv Hp Hn. rewrite (flag_Parse_unnamed name _ _ _ Hn Hp). by apply lookup_flag.
Qed.

(** C24: unless the command line names the flag that enables HTTP/2, the
    controller and the gateway offer nothing but HTTP/1.1 on the metrics and
    the webhook server, whatever the servers' TLS configuration was before;
    and unless it names the flag that makes metrics insecure, metrics are
    served over TLS, behind authentication and authorisation. *)
Theorem metrics_hardened {P} `{RT : Runtime P} (flags : FlagSet) (args : list string) (fs : FlagSet) (c : TLSConfig) :
  flags = controller_flags ∨ flags = gateway_flags →
  flag_Parse (flags ∪ RegisteredFlags) args = inl fs →
  (not_named "enable-http2" args →
     NextProtos (apply_tls (mo_TLSOpts (Metrics (manager_options fs))) c) = ["http/1.1"] ∧
     ∃ opts, WebhookTLSOpts (manager_options fs) = Some opts ∧ NextProtos (apply_tls opts c) = ["http/1.1"]) ∧
  (not_named "metrics-secure" args →
     mo_SecureServing (Metrics (manager_options fs)) = true ∧
     is_Some (mo_FilterProvider (Metrics (manager_options fs)))).
Proof.
  intros Hf Hp.
  assert (flags !! "enable-http2" = Some (FBool false) ∧ flags !! "metrics-secure" = Some (FBool true)) as [H2 Hs]
    by (by destruct Hf as [-> | ->]).
  split; intros Hn; [apply (unset_flag _ _ _ _ _ H2 Hp) in Hn|apply (unset_flag _ _ _ _ _ Hs Hp) in Hn];
    unfold manager_options, metrics_options, bool_var; cbn [Metrics mo_TLSOpts WebhookTLSOpts mo_SecureServing mo_FilterProvider];
    rewrite Hn; eauto.
Qed.

(** ** The egress pod from its command line to its tunnels *)

Section end_to_end.
Context {P : Type} {RT : Runtime P}.
Context {K : Type} {NL : Netlink K} {L : NetlinkLaws K} {HL : HostLaws K} {E : LibErrors K}.

Lemma on_manager_ok {X} (m : M P X) (s s' : P * K) x : on_manager m s = (Ok x, s') → m s.1 = (Ok x, s'.1) ∧ s'.2 = s.2.
Proof. unfold on_manager. destruct (m s.1) as [y p]. by intros [= -> <-]. Qed.

Lemma on_namespace_ok {X} (m : M K X) (s s' : P * K) x :
  on_namespace m s = (Ok x, s') → m s.2 = (Ok x, s'.2) ∧ s'.1 = s.1.
Proof. unfold on_namespace. destruct (m s.2) as [y p]. by intros [= -> <-]. Qed.

Lemma gateway_ready_start Getenv fs (s s' : P * K) w fc nc :
  gateway_ready Getenv fs s = (Ok (w, fc, nc), s') →
  gateway_start (int_var fs "fou-port") Getenv s.2 = (Ok (w, fc, nc), s'.2).
Proof.
  unfold gateway_ready. intros ([] & s1 & [_ H1]%on_manager_ok & HR)%bind_ok.
  apply bind_ok in HR as ([[w' fc'] nc'] & s2 & [H2 _]%on_namespace_ok & HR).
  apply bind_ok in HR as ([] & s3 & [_ H3]%on_manager_ok & [= <- <- <- <-]). by rewrite H3, <- H1.
Qed.

(** C3: the egress pod from end to end.  Once main has come as far as starting
    the manager, in a namespace without peer devices, both controllers are
    initialised, with the same addresses, and know the egress of the
    environment, and the tunnels use the port of the command line, a 64-bit
    number.  From then on, let the addresses of pods be canonical, distinct in
    each pod, no two sharing a device name (always so for IPv4), and let a pod
    keep its addresses while it is tracked: in every state the watcher reaches
    by calls none of which failed, an address of a family the pod serves has
    its Foo-over-UDP device exactly when the watcher tracks it for a client
    pod. *)
Theorem nat_gateway_end_to_end (Getenv : string → string) (args : list string) (fs : FlagSet) (p p' : P) (k k' : K)
    (w : PodWatcher) (fc : FouTunnelController) (nc : gateway)
    (range : gmap string string → list (string * string)) (used : Addr → Prop) (s : WatcherState K) :
  flag_Parse (gateway_flags ∪ RegisteredFlags) args = inl fs →
  gateway_ready Getenv fs (p, k) = (Ok (w, fc, nc), (p', k')) →
  (∀ a, used a → canonical a) → (∀ a b, used a → used b → fouName a = fouName b → a = b) →
  (∀ a, used a → ¬ fou_has_peer k a) →
  rtc (watcher_step (T:=fou_tunnel fc) (G:=nat_gateway nc) used range w true)
    (NewPodWatcher (EgressName w) (EgressNamespace w) k').2 s →
  w = mkPodWatcher (Getenv EnvEgressName) (Getenv EnvPodNamespace) ∧
  port fc = int_var fs "fou-port" ∧ int64_range (port fc) ∧ local4 fc = ipv4 nc ∧ local6 fc = ipv6 nc ∧
  FouTunnel.IsInitialized fc k' = true ∧ NatGateway.Init nc k' = (Ok tt, k') ∧
  ∀ a, used a → supports nc a = true →
    (∃ n l, fouName a = Ok n ∧ LinkByName n (world s) = Ok l) ↔ tracked s a.
Proof.
  intros Hp HR%gateway_ready_start Hcan Hinj Hfree Hreach. simpl in HR.
  destruct (gateway_start_parts _ _ _ _ _ _ _ HR) as (-> & Hport & _ & H4 & H6 & Hsup & _).
  destruct (gateway_start_peers _ _ _ _ _ _ _ HR) as (Hi & (l & Hl) & Hpeers).
  destruct (flag_Parse_int "fou-port" _ _ _ 5555 (lookup_flag gateway_flags "fou-port" (FInt 5555) eq_refl) ltac:(done) Hp) as [_ Hr].
  split_and!; try done; [by rewrite Hport|by eapply gw_Init_done|].
  intros a Hu Hs. eapply (egress_pod_tunnels fc nc range _ used k'); try done.
  - intros b Hb. rewrite Hpeers. by apply Hfree.
  - apply Hsup; [|done]. by destruct (Hcan a Hu) as (_ & ? & _).
Qed.
End end_to_end.

(** ** The port of the tunnels *)

(** The destination port a peer's device is created with. *)
Definition encap_port (l : Link) : Z := match l with Iptun _ o => EncapDport o | _ => 0 end.

Lemma int32_id n : - 2 ^ 31 ≤ n < 2 ^ 31 → int32 n = n.
Proof. unfold int32. intros Hn. rewrite Z.mod_small by lia. lia. Qed.

Lemma int_flag_arg name n :
  name ∈ ["fou-port"; "egress-port"] → flag_arg ("--" +:+ name +:+ "=" +:+ Itoa n) = Some (Some (name, Some (Itoa n))).
Proof. rewrite !elem_of_cons, elem_of_nil. by intros [->|[->|[]]]. Qed.

Lemma int_flag_set {P} `{RT : Runtime P} (flags : FlagSet) name m n :
  name ∈ ["fou-port"; "egress-port"] → flags !! name = Some (FInt m) → int64_range n →
  ∃ fs, flag_Parse (flags ∪ RegisteredFlags) ["--" +:+ name +:+ "=" +:+ Itoa n] = inl fs ∧ int_var fs name = n.
Proof.
  intros Hin Hm Hn. unfold flag_Parse.
  rewrite (parse_int_flag _ _ m n) by (done || by apply lookup_flag || by apply int_flag_arg).
  eexists. split; [done|]. unfold int_var. by rewrite lookup_insert_eq.
Qed.

Lemma controller_args {P} `{RT : Runtime P} img n :
  img ≠ "" → int64_range n →
  ∃ fs, flag_Parse (controller_flags ∪ RegisteredFlags)
      ["--natgateway-image"; img; "--" +:+ "fou-port" +:+ "=" +:+ Itoa n] = inl fs ∧
    controller_config (int_var fs "fou-port") (string_var fs "natgateway-image") = Ok (mkEgressReconciler (int32 n) img).
Proof.
  intros Hi Hn. unfold flag_Parse.
  rewrite (parse_string_next _ "natgateway-image" "") by (done || by apply lookup_flag).
  rewrite (parse_int_flag _ "fou-port" 5555 n); [|rewrite lookup_insert_ne by done; by apply lookup_flag|..];
    [|apply int_flag_arg; by left|done].
  eexists. split; [done|]. unfold controller_config, int_var, string_var.
  rewrite lookup_insert_eq, lookup_insert_ne, lookup_insert_eq by done. by rewrite decide_False.
Qed.

(** C23: the port given to the three daemons.  Every 64-bit number is accepted
    on each command line and read back as it was written.  The port the
    controller gives the services and the port the devices of the node daemon
    and of the egress pod send to are both that number exactly when it is a
    16-bit one; any other number is silently cut to 16 bits by the devices. *)
Theorem ports_agree {P} `{RT : Runtime P} (n : Z) (img name : string) (addr local : Addr) (reader : Reader) :
  int64_range n → img ≠ "" →
  ∃ cs gs ps r,
    flag_Parse (controller_flags ∪ RegisteredFlags)
      ["--natgateway-image"; img; "--" +:+ "fou-port" +:+ "=" +:+ Itoa n] = inl cs ∧
    flag_Parse (gateway_flags ∪ RegisteredFlags) ["--" +:+ "fou-port" +:+ "=" +:+ Itoa n] = inl gs ∧
    flag_Parse (ponad_flags ∪ RegisteredFlags) ["--" +:+ "egress-port" +:+ "=" +:+ Itoa n] = inl ps ∧
    controller_config (int_var cs "fou-port") (string_var cs "natgateway-image") = Ok r ∧ DefaultImage r = img ∧
    int_var gs "fou-port" = n ∧ egressPort (NewServer reader (int_var ps "egress-port")) = n ∧
    ∀ fc, port fc = n →
      let dport := encap_port (peer_link fc name addr local) in
      0 ≤ dport < 65536 ∧ (dport = n ∧ Port r = n ↔ 0 ≤ n < 65536).
Proof.
  intros Hn Hi. destruct (controller_args img n Hi Hn) as (cs & Hc & Hr).
  destruct (int_flag_set gateway_flags "fou-port" 5555 n) as (gs & Hg & Hgn); [by left|done..|].
  destruct (int_flag_set ponad_flags "egress-port" 5555 n) as (ps & Hp & Hpn); [right; by left|done..|].
  exists cs, gs, ps, (mkEgressReconciler (int32 n) img). split_and!; try done.
  intros fc Hfc. cbn [encap_port peer_link EncapDport Port]. rewrite Hfc. unfold uint16.
  pose proof (Z.mod_pos_bound n 65536 eq_refl) as Hm. split; [exact Hm|].
  split; [intros [Hd _]; by rewrite <- Hd|intros Hb]. split; [by apply Z.mod_small|apply int32_id; lia].
Qed.

(** C39: the port is not passed on.  For an egress without a pod template,
    whose deployment and service are not being deleted, a controller started
    with any port of 32 bits creates a deployment whose egress container has
    no arguments: the gateway it runs listens on port 5555, while the service
    forwards to the port of the controller. *)
Theorem fou_port_lost {P} `{RT : Runtime P} SetRef (n : Z) (img : string) (eg : Egress) (dep dep' : Deployment)
    (svc svc' : Service) (r : EgressReconciler) :
  controller_config n img = Ok r → - 2 ^ 31 ≤ n < 2 ^ 31 → Template (eg_Spec eg) = None →
  m_DeletionTimestamp (dep_meta dep) = None → m_DeletionTimestamp (svc_meta svc) = None →
  mutate_deployment SetRef r eg dep = Ok dep' → mutate_service SetRef r eg svc = Ok svc' →
  svc_Ports svc' = [mkServicePort n (IntVal n) "UDP"] ∧
  ∃ c, Containers (t_Spec (dep_Template dep')) = [c] ∧ c_Image c = img ∧
    ∃ fs, flag_Parse (gateway_flags ∪ RegisteredFlags) (c_Args c) = inl fs ∧ int_var fs "fou-port" = 5555.
Proof.
  intros Hc Hb Ht Hd Hs. unfold controller_config in Hc. case_decide; [done|]. injection Hc as <-.
  pose proof (int32_id n Hb) as E.
  unfold mutate_deployment, mutate_service. rewrite Hd, Hs. unfold mbind, result_bind.
  destruct (mutate_meta _ eg (dep_meta dep)) as [m1|]; [|done]. intros [= <-].
  destruct (mutate_meta _ eg (svc_meta svc)) as [m2|]; [|done]. intros [= <-].
  unfold reconcilePodTemplate. rewrite Ht. split; [by simpl; rewrite E|].
  eexists. split_and!; [reflexivity|reflexivity|]. exists (gateway_flags ∪ RegisteredFlags). split; [reflexivity|].
  unfold int_var. by rewrite (lookup_flag gateway_flags "fou-port" (FInt 5555)).
Qed.

(** ** Witnesses *)

(** A runtime in which everything succeeds, and which records the calls. *)
Inductive Call :=
  | CNewManager (o : ManagerOptions) | CComplete (r : Registration) | CHealthz (n : string) | CReadyz (n : string)
  | CListen (network address : string) | CAdd (s : server) | CStart.

Definition no_reader : Reader := mkReader (λ _, Err not_found) (λ _, Err not_found) (λ _, Err not_found).

Definition note (c : Call) : M (list Call) unit := λ l, (Ok tt, l ++ [c]).

#[export] Instance Recorder : Runtime (list Call) := {|
  RegisteredFlags := {["kubeconfig" := FString ""]};
  GetConfigOrDie := mret tt;
  NewManager o := note (CNewManager o);
  Complete r := note (CComplete r);
  AddHealthzCheck n := note (CHealthz n);
  AddReadyzCheck n := note (CReadyz n);
  Listen network address := note (CListen network address);
  GetAPIReader _ := no_reader;
  mgr_Add s := note (CAdd s);
  mgr_Start := note CStart;
|}.

Definition ex_args : list string := ["--natgateway-image=img"; "--leader-elect"].
Definition ex_fs : FlagSet :=
  <["leader-elect" := FBool true]> (<["natgateway-image" := FString "img"]>
    (controller_flags ∪ RegisteredFlags (P:=list Call))).

Lemma metrics_hardened_witness :
  ∃ opts, WebhookTLSOpts (manager_options ex_fs) = Some opts ∧
    NextProtos (apply_tls opts (mkTLSConfig ["h2"])) = ["http/1.1"].
Proof.
  apply (metrics_hardened (P:=list Call) controller_flags ex_args ex_fs (mkTLSConfig ["h2"])).
  - left. reflexivity.
  - apply (bool_decide_unpack _). vm_compute. exact I.
  - apply not_named_dec. vm_compute. reflexivity.
Defined.

Definition ex_fou : FouTunnelController := mkFouTunnelController 6666 (Some (AddrV4 167772161)) None.
Definition ex_gw : gateway := mkGateway "eth0" (Some (AddrV4 167772161)) None.
Definition ex_w : PodWatcher := mkPodWatcher "egress-a" "internet".

Definition ex_ready : (list Call * Kern) := 
  (gateway_ready ex_getenv (<["fou-port" := FInt 6666]> (gateway_flags ∪ RegisteredFlags (P:=list Call))) ([], empty_kern)).2.

Definition ex_pod_state : WatcherState Kern :=
  (Reconcile (H:=fou_tunnel ex_fou) (H0:=nat_gateway ex_gw) map_to_list ex_w
     (Ok (ex_pod "p" ["10.0.0.1"; "10.0.0.2"])) (mkNamespacedName "default" "p")
     (mkWatcherState ∅ ∅ ex_ready.2)).2.

Lemma nat_gateway_end_to_end_witness :
  (∃ n l, fouName (AddrV4 (be_val [10; 0; 0; 2])) = Ok n ∧ LinkByName n (world ex_pod_state) = Ok l) ↔
  tracked ex_pod_state (AddrV4 (be_val [10; 0; 0; 2])).
Proof.
  destruct ex_ips_canonical as [Hnd Hc].
  assert (∀ a, a ∈ ex_ips → used_v4 a) as Hv4.
  { intros a Ha. rewrite Forall_forall in Hc. split; [by apply Hc|].
    unfold ex_ips in Ha. rewrite !elem_of_cons, elem_of_nil in Ha. destruct Ha as [->|[->|[]]]; reflexivity. }
  eapply (nat_gateway_end_to_end ex_getenv ["--fou-port"; "6666"] _ [] ex_ready.1 empty_kern ex_ready.2
    ex_w ex_fou ex_gw map_to_list used_v4).
  - reflexivity.
  - vm_compute. reflexivity.
  - intros a [Ha _]. exact Ha.
  - exact used_v4_inj.
  - intros a _. apply empty_no_peer.
  - apply rtc_once.
    eapply (step_ok _ _ _ (Ok (ex_pod "p" ["10.0.0.1"; "10.0.0.2"])) (mkNamespacedName "default" "p")).
    + split; [reflexivity|]. intros ips. simpl PodIPs. rewrite ex_parse. intros [= <-].
      split; [exact Hnd|]. split; [|apply list_subseteq_nil]. rewrite Forall_forall. exact Hv4.
    + vm_compute. reflexivity.
  - apply Hv4. right. left.
  - reflexivity.
Defined.

Lemma ports_agree_witness :
  let fc := mkFouTunnelController 6666 (Some (AddrV4 1)) None in
  encap_port (peer_link fc "fou4_00000002" (AddrV4 2) (AddrV4 1)) = 6666.
Proof.
  destruct (ports_agree (P:=list Call) 6666 "img" "fou4_00000002" (AddrV4 2) (AddrV4 1) no_reader)
    as (cs & gs & ps & r & _ & _ & _ & _ & _ & _ & _ & H); [split; done|discriminate|].
  apply (H (mkFouTunnelController 6666 (Some (AddrV4 1)) None)); [reflexivity|split; done].
Defined.

Lemma fou_port_lost_witness :
  ∃ dep' svc', svc_Ports svc' = [mkServicePort 6666 (IntVal 6666) "UDP"] ∧
  ∃ c, Containers (t_Spec (dep_Template dep')) = [c] ∧ c_Image c = "img" ∧
    ∃ fs, flag_Parse (gateway_flags ∪ RegisteredFlags (P:=list Call)) (c_Args c) = inl fs ∧ int_var fs "fou-port" = 5555.
Proof.
  eexists _, _.
  apply (fou_port_lost (P:=list Call) ex_ref 6666 "img" (ex_eg "a" "zoo" ex_spec) (ex_dep None) _ (ex_svc None) _
    (mkEgressReconciler 6666 "img")); try reflexivity. split; done.
Defined.
