(* ===== verification/TwoEnds.v ===== *)
(** * Both ends of a tunnel

    A client pod and an egress pod together: what the controller put into the
    store, what ponad did in the client pod's namespace, and what the pod
    watcher did in the egress pod's, from the definitions of all four programs.
    Kubernetes' part is small: the environment of a container, and that ponad's
    reads are of the store. *)
From Stdlib Require Import Ascii String.
From S2P Require Import Prelude GoStrings NetAddr NetParse NetIPUtil Netlink SimKernel Routing Tunnel FouTunnel.
From S2P Require Import NatClient NatGateway Mocks PodWatcher CniPlugin EgressAPI Ponad CniChain ClientPath.
From S2P Require Import EgressController EgressCluster EgressQueue System ReturnPath GoFlag Mains.

Local Open Scope Z_scope.

(** ** A container of a deployment *)

(** The value of an environment variable in a pod with the given addresses. *)
Definition env_value (podIPs : list string) (src : EnvSource) : string :=
  match src with
  | Value s => s
  | FieldRef path => if decide (path = "status.podIPs") then Join podIPs comma else ""
  | OtherSource _ => ""
  end.

(** Of several entries of one name the last one counts. *)
Definition container_getenv (podIPs : list string) (c : Container) (name : string) : string :=
  foldl (λ v e, if decide (env_Name e = name) then env_value podIPs (env_Source e) else v) "" (c_Env c).

(** Defaulting keeps a container's command line and environment. *)
Definition keeps_commands (default_podspec : PodSpec → PodSpec) : Prop :=
  ∀ s, (λ c, (c_Name c, c_Args c, c_Env c)) <$> Containers (default_podspec s) =
       (λ c, (c_Name c, c_Args c, c_Env c)) <$> Containers s.

(** The pod template of the egress has no container but the egress's own. *)
Definition own_container (eg : Egress) : Prop :=
  Containers (wanted_spec eg) = [] ∨ ∃ c, Containers (wanted_spec eg) = [c] ∧ c_Name c = "egress".

Lemma egress_container `{!Admission} (r : EgressReconciler) (eg : Egress) (d : Deployment) (ct : Container) ips :
  keeps_commands default_podspec → own_container eg →
  t_Spec (dep_Template d) = default_podspec (egress_pod_spec r eg (wanted_spec eg)) →
  ct ∈ Containers (t_Spec (dep_Template d)) →
  container_getenv ips ct EnvPodNamespace = m_Namespace (eg_meta eg) ∧
  container_getenv ips ct EnvEgressName = m_Name (eg_meta eg) ∧
  container_getenv ips ct EnvAddresses = Join ips comma.
Proof.
  intros Hkeep Hown Hspec Hct. rewrite Hspec in Hct.
  destruct (egress_template_plain r eg (wanted_spec eg) Hown) as (c0 & c & Hc & _ & _ & _ & _ & _ & Henv).
  apply (list_elem_of_fmap_2 (λ c, (c_Name c, c_Args c, c_Env c))) in Hct.
  rewrite (Hkeep (egress_pod_spec r eg (wanted_spec eg))), Hc in Hct. apply list_elem_of_singleton in Hct.
  injection Hct as _ _ Hce. unfold container_getenv. rewrite Hce, Henv, !foldl_app. done.
Qed.

Section two_ends.
Context {K : Type} {NL : Netlink K} {L : NetlinkLaws K} {H : HostLaws K} {E : LibErrors K}.
Context (listed_dst : ∀ (k : K) f r, r ∈ routes k f → rt_Dst r ≠ None).
Context (range_routes : gmap Prefix Route → list (Prefix * Route)).
Context (range_perm : ∀ m, range_routes m ≡ₚ map_to_list m).
Context (selector : string * Z → Packet → bool).
Context {G : Grpc K} {GL : GrpcLaws K}.
Context (lib : CniLib).
Context (range : gmap string string → list (string * string)) (range_annotations : ∀ m, range m ≡ₚ map_to_list m).
Context (GetNS : string → result unit) (ns_enter : string → option goerror).
Context (args_text : gmap string string → string) (log_interceptor : UnaryServerInterceptor K).
Context (GetNS_plain : ∀ path e, GetNS path = Err e → plain e = true).
Context (ns_enter_plain : ∀ path e, ns_enter path = Some e → plain e = true).
Context (status_Convert_status : ∀ c m d, c ≠ 0 → status_Convert lib (ErrStatus c m d) = (c, m, d)).
Context (NewResult_Marshal : ∀ p b, Marshal lib p = Ok b → NewResult lib b = Ok p).
Context (log_transparent : ∀ i m f (k : K), log_interceptor i m f k = f i k).
Context `{!Admission} (default_keeps : keeps_commands default_podspec).
Context {P : Type} {RT : Runtime P}.

(** ** What was started *)

(** The egress [eg] is in the store [c] with what the controller made for it;
    [s] is a ponad that reads the store; [ct] is the gateway container of the
    egress's deployment [d], and [fs] what its command line sets. *)
Record installation (c : Cluster) (eg : Egress) (r : EgressReconciler) (s : server)
    (d : Deployment) (ct : Container) (fs : FlagSet) : Prop := {
  is_egress_there : cl_egress c !! eg_key eg = Some eg;
  is_realised : realised r eg c;
  is_own : own_container eg;
  is_reads_egress n x : GetEgress (apiReader s) n = Ok x → cl_egress c !! n = Some x;
  is_reads_service n x : GetService (apiReader s) n = Ok x → cl_svc c !! n = Some x;
  is_deployment : cl_dep c !! eg_key eg = Some d;
  is_container : ct ∈ Containers (t_Spec (dep_Template d));
  is_flags : flag_Parse (gateway_flags ∪ RegisteredFlags) (c_Args ct) = inl fs;
}.

(** The ADD of a pod that names the egress alone has succeeded in a fresh
    namespace [k], which it left as [k']; the pod has the addresses [addrs]. *)
Record connected (eg : Egress) (s : server) (args : CmdArgs) (pod : Pod) (addrs : list Addr) (k k' : K) : Prop := {
  co_fresh : fresh_pod k;
  co_kernel : kernel_destinations s;
  co_add : plugin_add lib range range_routes GetNS ns_enter args_text log_interceptor s args k = (Returns (Ok tt), k');
  co_inputs : ∃ conf p ns name c, ParseConfig lib (StdinData args) = Ok conf ∧ GetResult lib (PrevResult conf) = Ok p ∧
    result_addrs (IPs p) = Ok addrs ∧ LoadArgs lib (Args args) = Ok (ns, name, c) ∧
    GetPod (apiReader s) (mkNamespacedName ns name) = Ok pod;
  co_annotation : pod_Annotations pod !! (EgressAnnotationPrefix +:+ m_Namespace (eg_meta eg)) = Some (m_Name (eg_meta eg));
  co_names : listEgress range pod = Ok [eg_key eg];
}.

(** The pod as the API server shows it while it runs: its status has the
    addresses the plugin reported. *)
Record runs (pod pod' : Pod) (addrs : list Addr) : Prop := {
  ru_annotations : pod_Annotations pod' = pod_Annotations pod;
  ru_network : HostNetwork pod' = HostNetwork pod;
  ru_addrs : mapR ParseAddr (PodIPs pod') = Ok addrs;
  ru_live : isTerminated pod' = false ∧ DeletionTimestamp pod' = None;
}.

Lemma listEgress_network pod n : listEgress range pod = Ok [n] → HostNetwork pod = false.
Proof. unfold listEgress. by destruct (HostNetwork pod). Qed.

(** The egress's watcher accepts the pod. *)
Lemma watcher_accepts (eg : Egress) s args pod pod' addrs k k' :
  connected eg s args pod addrs k k' → runs pod pod' addrs →
  shouldHandle range (mkPodWatcher (m_Name (eg_meta eg)) (m_Namespace (eg_meta eg))) pod' = true.
Proof.
  intros [_ _ _ _ Ha Hl] [Hra Hrn _ _]. unfold shouldHandle, hasEgressAnnotation.
  rewrite Hrn, (listEgress_network _ _ Hl), Hra. apply existsb_exists.
  exists (annotation_key (mkPodWatcher (m_Name (eg_meta eg)) (m_Namespace (eg_meta eg))), m_Name (eg_meta eg)).
  rewrite <- list_elem_of_In, range_annotations, elem_of_map_to_list. split; [exact Ha|].
  apply annotation_matches_spec. split; [done|]. by left.
Qed.

(** The address of the egress, and where it came from. *)
Lemma egress_service c eg r s d ct fs g ds :
  installation c eg r s d ct fs → collectDestinationsForEgress s (eg_key eg) = Ok (g, ds) →
  (∃ svc, cl_svc c !! eg_key eg = Some svc ∧ ParseAddr (ClusterIP svc) = Ok g ∧
     svc_Selector svc ⊆ t_Labels (dep_Template d) ∧ svc_Ports svc = [mkServicePort (Port r) (IntVal (Port r)) "UDP"]) ∧
  ∃ ps, mapR ParsePrefix (Destinations (eg_Spec eg)) = Ok ps ∧ ds = filter (λ p, IsFamilyMatched (p_ip p) g = true) ps.
Proof.
  intros [Heg Hre _ Hge Hgs Hd _ _] Hc.
  apply ponad_destinations_spec in Hc as (eg' & svc & ps & Hg & Hsv & Ha & Hps & _ & ->).
  apply Hge in Hg. apply Hgs in Hsv. assert (eg' = eg) as -> by congruence. split; [|by exists ps].
  exists svc. split_and!; [done..| |].
  - destruct (re_svc _ _ _ Hre) as (x & Hx & Hsel & _ & _). destruct (re_dep _ _ _ Hre) as (y & Hy & _ & _ & Hl & _).
    assert (x = svc) as -> by congruence. assert (y = d) as -> by congruence. by rewrite Hsel.
  - destruct (re_svc _ _ _ Hre) as (x & Hx & _ & _ & Hp & _). assert (x = svc) as -> by congruence. by rewrite Hp.
Qed.

(** What the started egress pod knows. *)
Lemma egress_pod_started c eg r s d ct fs own ke ke' w fc nc :
  installation c eg r s d ct fs →
  gateway_start (int_var fs "fou-port") (container_getenv own ct) ke = (Ok (w, fc, nc), ke') →
  w = mkPodWatcher (m_Name (eg_meta eg)) (m_Namespace (eg_meta eg)) ∧ port fc = int_var fs "fou-port" ∧ local4 fc = ipv4 nc.
Proof.
  intros [_ Hre Hown _ _ Hd Hct _] HG.
  destruct (gateway_start_parts _ _ _ _ _ _ _ HG) as (-> & -> & _ & H4 & _).
  destruct (re_dep _ _ _ Hre) as (y & Hy & _ & _ & _ & Hspec & _). assert (y = d) as -> by congruence.
  destruct (egress_container r eg d ct own default_keeps Hown Hspec Hct) as (-> & -> & _). done.
Qed.

Lemma uint16_id q : 0 ≤ q < 65536 → uint16 q = q.
Proof. intros Hq. unfold uint16. by apply Z.mod_small. Qed.

Lemma find_Is4 l a : List.find Is4 l = Some a → a ∈ l ∧ Is4 a = true.
Proof. intros [Hin H4]%List.find_some. split; [by apply list_elem_of_In|done]. Qed.

End two_ends.

(** ** Witness

    The egress "a" of namespace "internet", reconciled in the store of
    [EgressCluster]; a pod at 10.0.0.5 that names it; its gateway in a pod at
    10.0.0.1. *)

Definition end_key : NamespacedName := mkNamespacedName "internet" "a".
Definition end_store : Cluster := (EgressReconcile elements ex_r end_key ex_store).2.
Definition end_egress : Egress := default (ex_eg "a" "internet" ex_pdb_spec) (cl_egress end_store !! end_key).
Definition end_dep : Deployment := default (new_dep end_key) (cl_dep end_store !! end_key).
Definition end_container : Container := hd Container_zero (Containers (t_Spec (dep_Template end_dep))).

Definition end_pod (ips : list string) : Pod :=
  mkPod "p" "default" {[ "egress.pona.cybozu.com/internet" := "a" ]} false "Running" ips None.
Definition end_server : server :=
  mkServer (mkReader (λ _, Ok (end_pod [])) (λ n, store_find (cl_egress end_store !! n))
    (λ n, store_find (cl_svc end_store !! n))) 5555.

Lemma end_contract :
  realised ex_r (ex_eg "a" "internet" ex_pdb_spec) end_store ∧
  frame_of (ex_eg "a" "internet" ex_pdb_spec) ex_store end_store ∧ cluster_wf end_store.
Proof.
  apply (reconcile_contract (A:=Cluster) (AL:=store_laws) elements (λ s, reflexivity _) ex_r end_key
    (ex_eg "a" "internet" ex_pdb_spec) ex_store end_store);
    [exact ex_store_wf|reflexivity|reflexivity|by split_and!|vm_compute; reflexivity].
Qed.

Lemma end_realised : realised ex_r end_egress end_store.
Proof.
  eapply (realised_same ex_r (ex_eg "a" "internet" ex_pdb_spec)); [vm_compute; reflexivity..|apply end_contract].
Qed.

Lemma end_args : c_Args end_container = [].
Proof. vm_compute. reflexivity. Qed.

Lemma end_installation : installation (P:=list Call) end_store end_egress ex_r end_server end_dep end_container
  (gateway_flags ∪ RegisteredFlags (P:=list Call)).
Proof.
  split; [vm_compute; reflexivity|exact end_realised|left; vm_compute; reflexivity| | |vm_compute; reflexivity| |
    by rewrite end_args].
  - intros n x. simpl. by destruct (cl_egress end_store !! n) as [y|]; [intros [= <-]|].
  - intros n x. simpl. by destruct (cl_svc end_store !! n) as [y|]; [intros [= <-]|].
  - apply list_elem_of_In. vm_compute. by left.
Qed.

Definition end_add : outcome (result unit) * Kern :=
  plugin_add ex_chain_lib map_to_list map_to_list (λ _, Ok tt) (λ _, None) (λ _, "") (λ i _ f, f i)
    end_server ex_cmd pod_kern.

Definition end_gateway : FouTunnelController * gateway :=
  (mkFouTunnelController 5555 (Some (AddrV4 167772161)) None, mkGateway "eth0" (Some (AddrV4 167772161)) None).
Definition end_watcher : PodWatcher := mkPodWatcher "a" "internet".
Definition end_kern : Kern := (gateway_start 5555 (container_getenv ["10.0.0.1"] end_container) empty_kern).2.

(** The watcher's first call. *)
Definition end_state : WatcherState Kern :=
  (Reconcile (H:=fou_tunnel end_gateway.1) (H0:=nat_gateway end_gateway.2) map_to_list end_watcher
     (Ok (end_pod ["10.0.0.5"])) (mkNamespacedName "default" "p") (mkWatcherState ∅ ∅ end_kern)).2.

Lemma end_destinations :
  collectDestinationsForEgress end_server end_key = Ok (AddrV4 (be_val [10; 96; 0; 10]), [v4DefaultGW]).
Proof. vm_compute. reflexivity. Qed.

Lemma end_kernel_destinations : kernel_destinations end_server.
Proof.
  intros n g ds. destruct (decide (n = end_key)) as [->|Hn].
  - rewrite end_destinations. intros [= _ <-]. rewrite Forall_cons, Forall_nil.
    split; [apply MustParsePrefix_kernel; vm_compute; reflexivity|exact I].
  - intros (eg & svc & ps & Heg & _)%ponad_destinations_spec. exfalso. apply Hn. simpl in Heg.
    destruct (cl_egress end_store !! n) as [x|] eqn:Hx; [|done].
    rewrite (egress_frame n _ _ _ (proj1 (proj2 end_contract)) Hn) in Hx.
    cbn in Hx. by apply lookup_singleton_Some in Hx as [<- _].
Qed.

Lemma end_connected :
  connected map_to_list ex_chain_lib map_to_list (λ _, Ok tt) (λ _, None) (λ _, "") (λ i _ f, f i)
    end_egress end_server ex_cmd (end_pod []) [AddrV4 (be_val [10; 0; 0; 5])] pod_kern end_add.2.
Proof.
  split; [exact pod_kern_fresh|exact end_kernel_destinations|vm_compute; reflexivity| |vm_compute; reflexivity..].
  eexists _, _, "default", "p", "abc". split_and!; [reflexivity..|vm_compute; reflexivity|reflexivity|reflexivity].
Qed.

Lemma end_started :
  gateway_start (int_var (gateway_flags ∪ RegisteredFlags (P:=list Call)) "fou-port")
    (container_getenv ["10.0.0.1"] end_container) empty_kern = (Ok (end_watcher, end_gateway.1, end_gateway.2), end_kern).
Proof. vm_compute. reflexivity. Qed.

Lemma end_keeps : keeps_commands (default_podspec (Admission:=store_admission)).
Proof. intros s. reflexivity. Qed.

